(** * 5cns: UDP endpoint table, IGMPv2 membership and the MS-CHAPv2 challenge hash

    A shallow embedding of [src/udp.cpp], [src/igmp.cpp], [src/ip6_addr.h]
    and of [challenge_hash] and [chapms2_check_success] from
    [src/chap_ms.cpp], followed by the properties of these functions that
    the design document states, and by further properties that the code
    shows: what a received datagram or IGMP message does, the life cycle of
    an endpoint, the datagram sent, and group membership from the join to
    the report and the leave.

    Conventions of the embedding.
    - Fixed-width integers are [Z] with the wrap-around written where the
      source truncates ([u8], [u16], [u32]).
    - An object reached through a pointer lives in a finite map from
      addresses to structs; [nullptr] is [None]; an intrusive list
      ([udp_pcbs], the IGMP groups of an interface) is the list of the
      addresses it links, head first.  A function that dereferences an
      address outside the map has no defined behaviour and yields [None].
    - Calls that leave the translated files (callbacks, the IP layer, the
      buffer allocator, the MAC filter hook) are recorded as events, in
      call order; what they return is an input of the model.
    - Headers of the tree that are not among the sources at hand
      ([ip_addr.h], [netif.h], [pbuf.h], [inet_chksum.h], ...) are taken as
      an interface ([Platform], [PcbMacros]): every theorem holds for each
      implementation of it. *)

From Stdlib Require Import ZArith List Bool Lia.
From Stdlib.Strings Require Import String Ascii Byte.
From stdpp Require Import base option list gmap.

Local Open Scope Z_scope.

(** ** Machine integers and status codes *)

Definition u8 (x : Z) : Z := x mod 2 ^ 8.
Definition u16 (x : Z) : Z := x mod 2 ^ 16.
Definition u32 (x : Z) : Z := x mod 2 ^ 32.

(** The status codes the translated functions return; [ip_output_if_src]
    may hand any of them up. *)
Inductive LwipStatus : Type :=
| ERR_OK | ERR_MEM | ERR_BUF | ERR_RTE | ERR_VAL | ERR_USE | ERR_ARG.

#[global] Instance LwipStatus_eq_dec : EqDecision LwipStatus.
Proof. solve_decision. Defined.

(** ** IPv4 and IPv6 addresses *)

(** [struct Ip4Addr]: the sources read its only member as [->addr]. *)
Record Ip4Addr : Type := mkIp4Addr { addr : Z }.

Definition IP4_ADDR_BCAST : Z := 0xffffffff.

(** Modelled from the spec: the comparisons of ip4_addr.h, which is not
    among the sources.  Two IPv4 addresses are equal when their 32-bit
    values are, the "any" address is 0.0.0.0, and two addresses lie in one
    subnet when they agree under the netmask. *)
Definition ip4_addr_cmp (a b : Ip4Addr) : bool := addr a =? addr b.
Definition ip4_addr_isany (a : Ip4Addr) : bool := addr a =? 0.
Definition ip4_addr_netcmp (a b mask : Ip4Addr) : bool :=
  Z.land (addr a) (addr mask) =? Z.land (addr b) (addr mask).

(** Modelled from the spec: [Ipv4AddrFromBytes], not among the sources.
    [addr] holds the address a.b.c.d as the number whose bytes, first to
    last, are a, b, c and d. *)
Definition Ipv4AddrFromBytes (a b c d : Z) : Ip4Addr :=
  mkIp4Addr (a * 2 ^ 24 + b * 2 ^ 16 + c * 2 ^ 8 + d).

(** [struct Ip6Addr] of ip6_addr.h: four 32-bit words and the zone. *)
Record Ip6Addr : Type := mkIp6Addr {
  addr_0 : Z; addr_1 : Z; addr_2 : Z; addr_3 : Z;
  zone : Z
}.

Definition IP6_NO_ZONE : Z := 0.

Inductive Ip6ScopeTypes : Type := IP6_UNKNOWN | IP6_UNICAST | IP6_MULTICAST.

Definition is_IP6_UNICAST (t : Ip6ScopeTypes) : bool :=
  match t with IP6_UNICAST => true | _ => false end.

Module Udp.

(** *** The headers that are not part of the sources *)

Inductive ChecksumFlag : Type :=
| NETIF_CHECKSUM_GEN_UDP | NETIF_CHECKSUM_CHECK_UDP.

(** What udp.cpp uses of ip_addr.h, netif.h, def.h and
    inet_chksum.h.  [IP_IS_V6] also stands for the spellings [IpIsV6] and
    [IP_IS_V6_VAL], [IP_IS_V4] for [IP_IS_V4_VAL], and [is_ip_addr_any] for
    [ip_addr_isany] and [ip_addr_isany_val]: the sources use the old and
    the renamed spelling of one predicate side by side. *)
Class Platform : Type := {
  IpAddr : Type;
  NetIfc : Type;
  (* def.h *)
  pp_htonl : Z -> Z;
  lwip_htons : Z -> Z;
  lwip_ntohs : Z -> Z;
  (* ip_addr.h *)
  create_ip4_addr_any : IpAddr;
  IP_IS_V4 : IpAddr -> bool;
  IP_IS_V6 : IpAddr -> bool;
  IP_IS_ANY_TYPE_VAL : IpAddr -> bool;
  is_ip_addr_any : IpAddr -> bool;
  compare_ip_addr : IpAddr -> IpAddr -> bool;
  ip_addr_ismulticast : IpAddr -> bool;
  ip_addr_isbroadcast : IpAddr -> NetIfc -> bool;
  convert_ip_addr_to_ip4_addr : IpAddr -> Ip4Addr;
  ip_2_ip6 : IpAddr -> Ip6Addr;
  (* a store through the pointer [ip_2_ip6 (&a)] *)
  ip_2_ip6_store : IpAddr -> Ip6Addr -> IpAddr;
  (* ip6_zone handling: the definition is absent from ip6_addr.h;
     [ip6_addr_select_zone dest src] is the value left in [dest] *)
  ip6_addr_select_zone : Ip6Addr -> Ip6Addr -> Ip6Addr;
  (* netif.h *)
  netif_get_index : NetIfc -> Z;
  get_net_ifc_ip4_addr : NetIfc -> Ip4Addr;
  netif_ip4_netmask : NetIfc -> Ip4Addr;
  netif_get_ip6_addr_match : NetIfc -> Ip6Addr -> Z;
  is_netif_checksum_enabled : NetIfc -> ChecksumFlag -> bool;
}.

(** *** ip6_addr.h *)

Section Ip6.
Context `{Platform}.

Definition ip6_addr_has_zone (ip6addr : Ip6Addr) : bool :=
  negb (zone ip6addr =? IP6_NO_ZONE).

Definition ip6_addr_islinklocal (ip6_addr : Ip6Addr) : bool :=
  Z.land (addr_0 ip6_addr) (pp_htonl 0xffc00000) =? pp_htonl 0xfe800000.

Definition ip6_addr_ismulticast_iflocal (ip6addr : Ip6Addr) : bool :=
  Z.land (addr_0 ip6addr) (pp_htonl 0xff8f0000) =? pp_htonl 0xff010000.

Definition ip6_addr_ismulticast_linklocal (ip6addr : Ip6Addr) : bool :=
  Z.land (addr_0 ip6addr) (pp_htonl 0xff8f0000) =? pp_htonl 0xff020000.

Definition ip6_addr_has_scope (ip6_addr : Ip6Addr) (type : Ip6ScopeTypes) : bool :=
  ip6_addr_islinklocal ip6_addr
  || (negb (is_IP6_UNICAST type)
      && (ip6_addr_ismulticast_iflocal ip6_addr
          || ip6_addr_ismulticast_linklocal ip6_addr)).

Definition ip6_addr_lacks_zone (ip6addr : Ip6Addr) (type : Ip6ScopeTypes) : bool :=
  negb (ip6_addr_has_zone ip6addr) && ip6_addr_has_scope ip6addr type.

Definition ip6_addr_cmp_zone (a1 a2 : Ip6Addr) : bool := zone a1 =? zone a2.

Definition ip6_addr_cmp_zoneless (a1 a2 : Ip6Addr) : bool :=
  (addr_0 a1 =? addr_0 a2) && (addr_1 a1 =? addr_1 a2)
  && (addr_2 a1 =? addr_2 a2) && (addr_3 a1 =? addr_3 a2).

Definition ip6_addr_cmp (a1 a2 : Ip6Addr) : bool :=
  ip6_addr_cmp_zoneless a1 a2 && ip6_addr_cmp_zone a1 a2.

Definition is_ip6_addr_any (a : Ip6Addr) : bool :=
  (addr_0 a =? 0) && (addr_1 a =? 0) && (addr_2 a =? 0) && (addr_3 a =? 0).

Definition ip6_addr_ismulticast (a : Ip6Addr) : bool :=
  Z.land (addr_0 a) (pp_htonl 0xff000000) =? pp_htonl 0xff000000.
End Ip6.

(** *** Endpoints and the endpoint list *)

(** Addresses of [UdpPcb] objects and of receive callbacks. *)
Abbreviation pcb_ptr := positive.
Abbreviation recv_fn := positive.

Definition UDP_HLEN : Z := 8.
Definition UDP_LOCAL_PORT_RANGE_START : Z := 0xc000.
Definition UDP_LOCAL_PORT_RANGE_END : Z := 0xffff.

Definition UDP_ENSURE_LOCAL_PORT_RANGE (port : Z) : Z :=
  u16 (Z.land port (u16 (Z.lnot UDP_LOCAL_PORT_RANGE_START))
       + UDP_LOCAL_PORT_RANGE_START).

(** Modelled from the spec: the option flags of an endpoint (section 3:
    BROADCAST, REUSEADDR, MULTICAST_LOOP, UDPLITE, CONNECTED, NOCHKSUM) and
    the interface index 0 reserved for "none".  udp.h, ip.h and netif.h,
    which name the bits, are not among the sources; each flag is one bit of
    its word, numbered as in lwIP. *)
Definition UDP_FLAGS_NOCHKSUM : Z := 0x01.
Definition UDP_FLAGS_UDPLITE : Z := 0x02.
Definition UDP_FLAGS_CONNECTED : Z := 0x04.
Definition UDP_FLAGS_MULTICAST_LOOP : Z := 0x08.
Definition SOF_REUSEADDR : Z := 0x04.
Definition SOF_BROADCAST : Z := 0x20.
Definition PBUF_FLAG_MCASTLOOP : Z := 0x04.
Definition NETIF_NO_INDEX : Z := 0.
Definition IP_PROTO_UDP : Z := 17.
Definition IP_PROTO_UDPLITE : Z := 136.

Section Pcb.
Context `{Platform}.

(** [struct UdpPcb], with the members udp.cpp reads or writes; [next] is
    the position in [udp_pcbs], [recv] carries its [recv_arg]. *)
Record UdpPcb : Type := mkUdpPcb {
  local_ip : IpAddr;
  remote_ip : IpAddr;
  netif_idx : Z;
  so_options : Z;
  tos : Z;
  ttl : Z;
  flags : Z;
  local_port : Z;
  remote_port : Z;
  mcast_ttl : Z;
  chksum_len_tx : Z;
  recv : option recv_fn
}.

Definition set_local (pcb : UdpPcb) (ip : IpAddr) (port : Z) : UdpPcb :=
  mkUdpPcb ip (remote_ip pcb) (netif_idx pcb) (so_options pcb) (tos pcb)
           (ttl pcb) (flags pcb) port (remote_port pcb) (mcast_ttl pcb)
           (chksum_len_tx pcb) (recv pcb).

Definition set_local_ip (pcb : UdpPcb) (ip : IpAddr) : UdpPcb :=
  set_local pcb ip (local_port pcb).

(** Modelled from the spec: [ip_get_option] of ip.h, absent from the
    sources: an option is set when its bit of the endpoint's option
    flags is. *)
Definition ip_get_option (pcb : UdpPcb) (opt : Z) : bool :=
  negb (Z.land (so_options pcb) opt =? 0).

(** The module's globals: [udp_port], [udp_pcbs] (the addresses linked
    through [next], head first) and the endpoints they point to. *)
Record UdpState : Type := mkUdpState {
  udp_port : Z;
  udp_pcbs : list pcb_ptr;
  pcb_mem : gmap pcb_ptr UdpPcb
}.

Definition with_udp_port (s : UdpState) (p : Z) : UdpState :=
  mkUdpState p (udp_pcbs s) (pcb_mem s).
Definition with_udp_pcbs (s : UdpState) (l : list pcb_ptr) : UdpState :=
  mkUdpState (udp_port s) l (pcb_mem s).
Definition with_pcb (s : UdpState) (p : pcb_ptr) (pcb : UdpPcb) : UdpState :=
  mkUdpState (udp_port s) (udp_pcbs s) (<[p := pcb]> (pcb_mem s)).
End Pcb.

(** [struct UdpHdr] (RFC 768), members as stored, in network byte order. *)
Record UdpHdr : Type := mkUdpHdr { src : Z; dest : Z; len : Z; chksum : Z }.

(** [struct PacketBuffer] as udp.cpp sees it: the lengths of the first
    segment and of the chain, the flags, and the payload, split into the
    eight bytes where the UDP header lies (at the payload pointer of a
    received datagram, in front of it for a datagram to send) and the user
    data behind them. *)
Record PacketBuffer : Type := mkPacketBuffer {
  p_len : Z;
  tot_len : Z;
  pbuf_flags : Z;
  udphdr : UdpHdr;
  data : list Z
}.

(** The macros of udp.h and ip_addr.h that take the endpoint itself, and
    the checksum routines of inet_chksum.h. *)
Class PcbMacros `{Platform} : Type := {
  match_ip_addr_pcb_version : UdpPcb -> IpAddr -> bool;
  match_exact_ip_addr_pcb_vers : UdpPcb -> IpAddr -> bool;
  udp_get_multicast_ttl : UdpPcb -> Z;
  ip_chksum_pseudo : PacketBuffer -> Z -> Z -> IpAddr -> IpAddr -> Z;
  ip_chksum_pseudo_partial :
    PacketBuffer -> Z -> Z -> Z -> IpAddr -> IpAddr -> Z;
  FOLD_U32T : Z -> Z;
}.

Section Bind.
Context `{PcbMacros}.

(** [udp_init], [r] being what [lwip_rand()] returns. *)
Definition udp_init (r : Z) (s : UdpState) : UdpState :=
  with_udp_port s (UDP_ENSURE_LOCAL_PORT_RANGE r).

(** [if (udp_port++ == UDP_LOCAL_PORT_RANGE_END) udp_port = START;] *)
Definition udp_port_step (port : Z) : Z :=
  if port =? UDP_LOCAL_PORT_RANGE_END then UDP_LOCAL_PORT_RANGE_START
  else u16 (port + 1).

(** The [for] loop of [udp_new_port]: does an endpoint of the list have
    [port] as its local port? *)
Fixpoint port_taken (mem : gmap pcb_ptr UdpPcb) (l : list pcb_ptr) (port : Z)
  : option bool :=
  match l with
  | [] => Some false
  | p :: l' =>
      pcb ← mem !! p;
      if local_port pcb =? port then Some true else port_taken mem l' port
  end.

(** [udp_new_port] from the label [again] on; [n] counts the candidates
    that were taken.  Each turn of the [goto] uses one unit of [fuel]. *)
Fixpoint udp_new_port_again (fuel : nat) (n : Z) (s : UdpState)
  : option (Z * UdpState) :=
  match fuel with
  | O => None
  | S fuel' =>
      let s1 := with_udp_port s (udp_port_step (udp_port s)) in
      taken ← port_taken (pcb_mem s1) (udp_pcbs s1) (udp_port s1);
      if taken : bool then
        let n1 := u16 (n + 1) in
        if n1 >? UDP_LOCAL_PORT_RANGE_END - UDP_LOCAL_PORT_RANGE_START
        then Some (0, s1)
        else udp_new_port_again fuel' n1 s1
      else Some (udp_port s1, s1)
  end.

(** As many turns as there are ports in the range are always enough
    (lemma [udp_new_port_again_spec]). *)
Definition udp_new_port_fuel : nat :=
  Z.to_nat (UDP_LOCAL_PORT_RANGE_END - UDP_LOCAL_PORT_RANGE_START + 1).

Definition udp_new_port (s : UdpState) : option (Z * UdpState) :=
  udp_new_port_again udp_new_port_fuel 0 s.

(** First loop of [udp_bind]: is [pcb] already on the list? *)
Fixpoint on_list (pcb : pcb_ptr) (l : list pcb_ptr) : bool :=
  match l with
  | [] => false
  | ipcb :: l' => if Pos.eqb pcb ipcb then true else on_list pcb l'
  end.

(** Second loop of [udp_bind]: does another endpoint hold the port on a
    clashing address, one of the two lacking REUSEADDR? *)
Fixpoint bind_clash (mem : gmap pcb_ptr UdpPcb) (pcb : pcb_ptr)
         (ipaddr : IpAddr) (port : Z) (l : list pcb_ptr) : option bool :=
  match l with
  | [] => Some false
  | ipcb :: l' =>
      if Pos.eqb pcb ipcb then bind_clash mem pcb ipaddr port l'
      else
        me ← mem !! pcb;
        other ← mem !! ipcb;
        if (negb (ip_get_option me SOF_REUSEADDR)
            || negb (ip_get_option other SOF_REUSEADDR))
           && ((local_port other =? port)
               && (compare_ip_addr (local_ip other) ipaddr
                   || is_ip_addr_any ipaddr
                   || is_ip_addr_any (local_ip other)))
        then Some true
        else bind_clash mem pcb ipaddr port l'
  end.

(** The address [udp_bind] works with: IPv4 any for [nullptr], and a
    zoned copy of an IPv6 address that lacks its zone. *)
Definition bind_addr (ipaddr : option IpAddr) : IpAddr :=
  let ipaddr := default create_ip4_addr_any ipaddr in
  if IP_IS_V6 ipaddr && ip6_addr_lacks_zone (ip_2_ip6 ipaddr) IP6_UNKNOWN
  then ip_2_ip6_store ipaddr
         (ip6_addr_select_zone (ip_2_ip6 ipaddr) (ip_2_ip6 ipaddr))
  else ipaddr.

(** The tail of [udp_bind], from [set_ip_addr] on. *)
Definition udp_bind_commit (pcb : pcb_ptr) (ipaddr : IpAddr) (port : Z)
           (rebind : bool) (s : UdpState) : option (LwipStatus * UdpState) :=
  me ← pcb_mem s !! pcb;
  let s1 := with_pcb s pcb (set_local me ipaddr port) in
  Some (ERR_OK,
        if rebind then s1 else with_udp_pcbs s1 (pcb :: udp_pcbs s1)).

Definition udp_bind (pcb : pcb_ptr) (ipaddr : option IpAddr) (port : Z)
           (s : UdpState) : option (LwipStatus * UdpState) :=
  let rebind := on_list pcb (udp_pcbs s) in
  let ipaddr := bind_addr ipaddr in
  if port =? 0 then
    '(port, s1) ← udp_new_port s;
    if port =? 0 then Some (ERR_USE, s1)
    else udp_bind_commit pcb ipaddr port rebind s1
  else
    clash ← bind_clash (pcb_mem s) pcb ipaddr port (udp_pcbs s);
    if clash : bool then Some (ERR_USE, s)
    else udp_bind_commit pcb ipaddr port rebind s.
End Bind.

Arguments udp_new_port_again : simpl never.
Arguments udp_new_port : simpl never.
Arguments udp_bind : simpl never.

(** *** Receive path *)

Section Input.
Context `{PcbMacros}.

(** The globals of [ip_data] for the datagram being received, one member
    for each accessor udp.cpp calls. *)
Record IpData : Type := mkIpData {
  current_input_netif : NetIfc;
  ip_current_netif : NetIfc;
  ip_current_dest_addr : IpAddr;
  ip_current_src_addr : IpAddr;
  ip4_current_dest_addr : Ip4Addr;
  ip6_current_dest_addr : Ip6Addr;
  ip_current_is_v6 : bool;
  ip_current_header_proto : Z
}.

(** The buffers [udp_input] hands out: its argument [p], and the clone
    [q] made for the endpoint [mpcb]. *)
Inductive Buf : Type := buf_p | buf_clone (mpcb : pcb_ptr).

(** The calls [udp_input] makes out of the module. *)
Inductive Event : Type :=
| Recv (fn : recv_fn) (pcb : pcb_ptr) (b : Buf) (from : IpAddr) (port : Z)
| FreePktBuf (b : Buf)
| IcmpPortUnreach.

Definition udp_input_local_match (ipd : IpData) (pcb : UdpPcb)
           (inp : NetIfc) (broadcast : bool) : bool :=
  if negb (netif_idx pcb =? NETIF_NO_INDEX)
     && negb (netif_idx pcb =? netif_get_index (current_input_netif ipd))
  then false
  else if is_ip_addr_any (local_ip pcb) then
    if broadcast && negb (ip_get_option pcb SOF_BROADCAST) then false
    else true
  else if match_exact_ip_addr_pcb_vers pcb (ip_current_dest_addr ipd) then
    if broadcast then
      if ip_get_option pcb SOF_BROADCAST then
        if ip4_addr_isany (convert_ip_addr_to_ip4_addr (local_ip pcb))
           || (addr (ip4_current_dest_addr ipd) =? IP4_ADDR_BCAST)
           || ip4_addr_netcmp (convert_ip_addr_to_ip4_addr (local_ip pcb))
                              (ip4_current_dest_addr ipd)
                              (netif_ip4_netmask inp)
        then true else false
      else false
    else if is_ip_addr_any (local_ip pcb)
            || compare_ip_addr (local_ip pcb) (ip_current_dest_addr ipd)
    then true else false
  else false.

(** The choice of [uncon_pcb] in the body of the demultiplexing loop, for
    an unconnected endpoint [pcb] that matches. *)
Definition uncon_update (mem : gmap pcb_ptr UdpPcb) (ipd : IpData)
           (inp : NetIfc) (broadcast : bool) (uncon_pcb : option pcb_ptr)
           (pcb : pcb_ptr) (me : UdpPcb) : option (option pcb_ptr) :=
  match uncon_pcb with
  | None => Some (Some pcb)
  | Some u =>
      if broadcast && (addr (ip4_current_dest_addr ipd) =? IP4_ADDR_BCAST)
      then
        un ← mem !! u;
        if negb (IP_IS_V4 (local_ip un))
           || negb (ip4_addr_cmp (convert_ip_addr_to_ip4_addr (local_ip un))
                                 (get_net_ifc_ip4_addr inp))
        then
          if IP_IS_V4 (local_ip me)
             && ip4_addr_cmp (convert_ip_addr_to_ip4_addr (local_ip me))
                             (get_net_ifc_ip4_addr inp)
          then Some (Some pcb) else Some (Some u)
        else Some (Some u)
      else if negb (is_ip_addr_any (local_ip me)) then Some (Some pcb)
      else Some (Some u)
  end.

(** The demultiplexing loop.  [seen] are the endpoints already passed
    ([prev] is its last one), [l] those still to visit.  The result is
    the fully matching endpoint the loop stopped at, if any, the value of
    [uncon_pcb], and [udp_pcbs] after the move to the front. *)
Fixpoint udp_input_scan (mem : gmap pcb_ptr UdpPcb) (ipd : IpData)
         (inp : NetIfc) (broadcast : bool) (sport dport : Z)
         (seen l : list pcb_ptr) (uncon_pcb : option pcb_ptr)
  : option (option pcb_ptr * option pcb_ptr * list pcb_ptr) :=
  match l with
  | [] => Some (None, uncon_pcb, seen)
  | pcb :: l' =>
      me ← mem !! pcb;
      if (local_port me =? dport)
         && udp_input_local_match ipd me inp broadcast
      then
        uncon1 ← (if Z.land (flags me) UDP_FLAGS_CONNECTED =? 0
                  then uncon_update mem ipd inp broadcast uncon_pcb pcb me
                  else Some uncon_pcb);
        if (remote_port me =? sport)
           && (is_ip_addr_any (remote_ip me)
               || compare_ip_addr (remote_ip me) (ip_current_src_addr ipd))
        then
          Some (Some pcb, uncon1,
                match seen with
                | [] => pcb :: l'
                | _ :: _ => pcb :: seen ++ l'
                end)
        else udp_input_scan mem ipd inp broadcast sport dport
                            (seen ++ [pcb]) l' uncon1
      else udp_input_scan mem ipd inp broadcast sport dport
                          (seen ++ [pcb]) l' uncon_pcb
  end.

(** The checksum test of [udp_input]; [true] stands for [goto chkerr]. *)
Definition udp_input_chkerr (ipd : IpData) (p : PacketBuffer)
           (inp : NetIfc) : bool :=
  if is_netif_checksum_enabled inp NETIF_CHECKSUM_CHECK_UDP then
    if ip_current_header_proto ipd =? IP_PROTO_UDPLITE then
      let chklen := lwip_ntohs (len (udphdr p)) in
      if (chklen <? 8) && negb (chklen =? 0) then true
      else
        let chklen := if chklen <? 8 then tot_len p else chklen in
        negb (u16 (ip_chksum_pseudo_partial p IP_PROTO_UDPLITE (tot_len p)
                     chklen (ip_current_src_addr ipd)
                     (ip_current_dest_addr ipd)) =? 0)
    else
      if negb (chksum (udphdr p) =? 0) then
        negb (u16 (ip_chksum_pseudo p IP_PROTO_UDP (tot_len p)
                     (ip_current_src_addr ipd) (ip_current_dest_addr ipd))
              =? 0)
      else false
  else false.

(** The loop over [mpcb] that passes copies to the other local matches.
    [pbuf_clone_ok mpcb] tells whether [pbuf_clone] returns a buffer for
    the copy meant for [mpcb]. *)
Fixpoint udp_input_fanout (mem : gmap pcb_ptr UdpPcb) (ipd : IpData)
         (inp : NetIfc) (broadcast : bool) (sport dport : Z)
         (pbuf_clone_ok : pcb_ptr -> bool) (pcb : pcb_ptr)
         (l : list pcb_ptr) : option (list Event) :=
  match l with
  | [] => Some []
  | mpcb :: l' =>
      m ← mem !! mpcb;
      rest ← udp_input_fanout mem ipd inp broadcast sport dport
               pbuf_clone_ok pcb l';
      Some ((if negb (Pos.eqb mpcb pcb)
                && (local_port m =? dport)
                && udp_input_local_match ipd m inp broadcast
             then
               match recv m with
               | Some fn =>
                   if pbuf_clone_ok mpcb
                   then [Recv fn mpcb (buf_clone mpcb)
                              (ip_current_src_addr ipd) sport]
                   else []
               | None => []
               end
             else []) ++ rest)
  end.

(** The branch of [udp_input] taken once the datagram is for us, its
    checksum is accepted and its header is removed: lines 367 to 417. *)
Definition udp_input_deliver (mem : gmap pcb_ptr UdpPcb) (ipd : IpData)
           (inp : NetIfc) (broadcast : bool) (sport dport : Z)
           (pbuf_clone_ok : pcb_ptr -> bool) (l : list pcb_ptr)
           (pcb : option pcb_ptr) : option (list Event) :=
  match pcb with
  | Some pcb =>
      me ← mem !! pcb;
      copies ← (if ip_get_option me SOF_REUSEADDR
                   && (broadcast
                       || ip_addr_ismulticast (ip_current_dest_addr ipd))
                then udp_input_fanout mem ipd inp broadcast sport dport
                       pbuf_clone_ok pcb l
                else Some []);
      Some (copies ++
            match recv me with
            | Some fn => [Recv fn pcb buf_p (ip_current_src_addr ipd) sport]
            | None => [FreePktBuf buf_p]
            end)
  | None =>
      Some ((if negb broadcast
                && negb (ip_addr_ismulticast (ip_current_dest_addr ipd))
             then [IcmpPortUnreach] else [])
            ++ [FreePktBuf buf_p])
  end.

(** The endpoint the datagram goes to: the fully matching one, else the
    unconnected match. *)
Definition udp_input_pcb (found uncon_pcb : option pcb_ptr)
  : option pcb_ptr :=
  match found with Some pcb => Some pcb | None => uncon_pcb end.

(** [udp_input].  [pbuf_remove_header_fails] is the answer of
    [pbuf_remove_header]. *)
Definition udp_input (pbuf_clone_ok : pcb_ptr -> bool)
           (pbuf_remove_header_fails : bool) (ipd : IpData)
           (p : PacketBuffer) (inp : NetIfc) (s : UdpState)
  : option (UdpState * list Event) :=
  if p_len p <? UDP_HLEN then Some (s, [FreePktBuf buf_p])
  else
    let broadcast :=
      ip_addr_isbroadcast (ip_current_dest_addr ipd) (ip_current_netif ipd) in
    let sport := lwip_ntohs (src (udphdr p)) in
    let dport := lwip_ntohs (dest (udphdr p)) in
    '(found, uncon_pcb, l1) ←
      udp_input_scan (pcb_mem s) ipd inp broadcast sport dport []
                     (udp_pcbs s) None;
    let s1 := with_udp_pcbs s l1 in
    let pcb := udp_input_pcb found uncon_pcb in
    let for_us :=
      match pcb with
      | Some _ => true
      | None =>
          if ip_current_is_v6 ipd
          then 0 <=? netif_get_ip6_addr_match inp (ip6_current_dest_addr ipd)
          else ip4_addr_cmp (get_net_ifc_ip4_addr inp)
                            (ip4_current_dest_addr ipd)
      end in
    if for_us then
      if udp_input_chkerr ipd p inp then Some (s1, [FreePktBuf buf_p])
      else if pbuf_remove_header_fails then Some (s1, [FreePktBuf buf_p])
      else
        evs ← udp_input_deliver (pcb_mem s1) ipd inp broadcast sport dport
                pbuf_clone_ok (udp_pcbs s1) pcb;
        Some (s1, evs)
    else Some (s1, [FreePktBuf buf_p]).
End Input.

(** *** Transmit path *)

Section Output.
Context `{PcbMacros}.

(** What the callees of [udp_sendto_if_src_chksum] answer: whether
    [pbuf_add_header] fails, whether [pbuf_alloc] returns a buffer, and
    the status of [ip_output_if_src]. *)
Record SendEnv : Type := mkSendEnv {
  pbuf_add_header_fails : bool;
  pbuf_alloc_ok : bool;
  ip_output_status : LwipStatus
}.

(** The call [ip_output_if_src (q, src_ip, dst_ip, ttl, tos, ip_proto,
    netif)]. *)
Record IpOutput : Type := mkIpOutput {
  out_q : PacketBuffer;
  out_src_ip : IpAddr;
  out_dst_ip : IpAddr;
  out_ttl : Z;
  out_tos : Z;
  out_proto : Z;
  out_netif : NetIfc
}.

Definition with_hdr (q : PacketBuffer) (h : UdpHdr) : PacketBuffer :=
  mkPacketBuffer (p_len q) (tot_len q) (pbuf_flags q) h (data q).
Definition with_chksum (q : PacketBuffer) (c : Z) : PacketBuffer :=
  with_hdr q (mkUdpHdr (src (udphdr q)) (dest (udphdr q)) (len (udphdr q)) c).
Definition with_len (q : PacketBuffer) (l : Z) : PacketBuffer :=
  with_hdr q (mkUdpHdr (src (udphdr q)) (dest (udphdr q)) l (chksum (udphdr q))).
Definition with_pbuf_flags (q : PacketBuffer) (f : Z) : PacketBuffer :=
  mkPacketBuffer (p_len q) (tot_len q) f (udphdr q) (data q).

(** The buffer [q] that carries the header: [p] itself when
    [pbuf_add_header] made room in it, else a fresh header buffer chained
    in front of [p]. *)
Definition udp_send_q (env : SendEnv) (p : PacketBuffer)
  : option PacketBuffer :=
  if pbuf_add_header_fails env then
    if pbuf_alloc_ok env then
      Some (if negb (tot_len p =? 0)
            then mkPacketBuffer UDP_HLEN (u16 (UDP_HLEN + tot_len p)) 0
                                (udphdr p) (data p)
            else mkPacketBuffer UDP_HLEN UDP_HLEN 0 (udphdr p) [])
    else None
  else
    Some (mkPacketBuffer (u16 (p_len p + UDP_HLEN))
                         (u16 (tot_len p + UDP_HLEN))
                         (pbuf_flags p) (udphdr p) (data p)).

(** The UDP-Lite branch: length member and checksum. *)
Definition udp_send_udplite (me : UdpPcb) (q : PacketBuffer)
           (dst_ip : IpAddr) (netif : NetIfc) (have_chksum : bool)
           (chksum_arg : Z) (src_ip : IpAddr) : PacketBuffer :=
  let chklen := chksum_len_tx me in
  let illegal := (chklen <? 8) || (chklen >? tot_len q) in
  let chklen_hdr := if illegal then 0 else chklen in
  let chklen := if illegal then tot_len q else chklen in
  let q := with_len q (lwip_htons chklen_hdr) in
  if is_netif_checksum_enabled netif NETIF_CHECKSUM_GEN_UDP then
    let chklen := if have_chksum then UDP_HLEN else chklen in
    let c := u16 (ip_chksum_pseudo_partial q IP_PROTO_UDPLITE (tot_len q)
                    chklen src_ip dst_ip) in
    let c := if have_chksum
             then u16 (FOLD_U32T (u32 (c + u16 (Z.lnot chksum_arg))))
             else c in
    with_chksum q (if c =? 0 then 0xffff else c)
  else q.

(** The checksum [udpchksum] of the UDP branch, before zero is replaced. *)
Definition udp_send_udpchksum (q : PacketBuffer) (dst_ip : IpAddr)
           (have_chksum : bool) (chksum_arg : Z) (src_ip : IpAddr) : Z :=
  if have_chksum then
    let udpchksum :=
      u16 (ip_chksum_pseudo_partial q IP_PROTO_UDP (tot_len q) UDP_HLEN
             src_ip dst_ip) in
    u16 (FOLD_U32T (u32 (udpchksum + u16 (Z.lnot chksum_arg))))
  else u16 (ip_chksum_pseudo q IP_PROTO_UDP (tot_len q) src_ip dst_ip).

(** The UDP branch: length member and checksum. *)
Definition udp_send_udp (me : UdpPcb) (q : PacketBuffer)
           (dst_ip : IpAddr) (netif : NetIfc) (have_chksum : bool)
           (chksum_arg : Z) (src_ip : IpAddr) : PacketBuffer :=
  let q := with_len q (lwip_htons (tot_len q)) in
  if is_netif_checksum_enabled netif NETIF_CHECKSUM_GEN_UDP then
    if IP_IS_V6 dst_ip || (Z.land (flags me) UDP_FLAGS_NOCHKSUM =? 0) then
      let udpchksum :=
        udp_send_udpchksum q dst_ip have_chksum chksum_arg src_ip in
      with_chksum q (if udpchksum =? 0 then 0xffff else udpchksum)
    else q
  else q.

(** [udp_sendto_if_src_chksum]: status, globals afterwards, and the call
    of [ip_output_if_src] if the function got that far. *)
Definition udp_sendto_if_src_chksum (env : SendEnv) (pcb : pcb_ptr)
           (p : PacketBuffer) (dst_ip : IpAddr) (dst_port : Z)
           (netif : NetIfc) (have_chksum : bool) (chksum_arg : Z)
           (src_ip : IpAddr) (s : UdpState)
  : option (LwipStatus * UdpState * option IpOutput) :=
  me ← pcb_mem s !! pcb;
  if negb (match_ip_addr_pcb_version me src_ip)
     || negb (match_ip_addr_pcb_version me dst_ip)
  then Some (ERR_VAL, s, None)
  else if negb (ip_get_option me SOF_BROADCAST)
          && IP_IS_V4 dst_ip && ip_addr_isbroadcast dst_ip netif
  then Some (ERR_VAL, s, None)
  else
    '(err, s1) ← (if local_port me =? 0
                  then udp_bind pcb (Some (local_ip me)) (local_port me) s
                  else Some (ERR_OK, s));
    if negb (bool_decide (err = ERR_OK)) then Some (err, s1, None)
    else
      me ← pcb_mem s1 !! pcb;
      if u16 (tot_len p + UDP_HLEN) <? tot_len p
      then Some (ERR_MEM, s1, None)
      else
        match udp_send_q env p with
        | None => Some (ERR_MEM, s1, None)
        | Some q =>
            let q := with_hdr q (mkUdpHdr (lwip_htons (local_port me))
                                          (lwip_htons dst_port)
                                          (len (udphdr q)) 0x0000) in
            let q :=
              if negb (Z.land (flags me) UDP_FLAGS_MULTICAST_LOOP =? 0)
                 && ip_addr_ismulticast dst_ip
              then with_pbuf_flags q (Z.lor (pbuf_flags q) PBUF_FLAG_MCASTLOOP)
              else q in
            let udplite :=
              negb (Z.land (flags me) UDP_FLAGS_UDPLITE =? 0) in
            let q :=
              if udplite
              then udp_send_udplite me q dst_ip netif have_chksum
                                    chksum_arg src_ip
              else udp_send_udp me q dst_ip netif have_chksum
                                chksum_arg src_ip in
            let ip_proto :=
              if udplite then IP_PROTO_UDPLITE else IP_PROTO_UDP in
            let ttl := if ip_addr_ismulticast dst_ip
                       then udp_get_multicast_ttl me else ttl me in
            Some (ip_output_status env, s1,
                  Some (mkIpOutput q src_ip dst_ip ttl (tos me) ip_proto
                                   netif))
        end.
End Output.

(** *** Interface address change *)

Section AddrChanged.
Context `{PcbMacros}.

Fixpoint udp_netif_ip_addr_changed_loop (old_addr new_addr : IpAddr)
         (l : list pcb_ptr) (mem : gmap pcb_ptr UdpPcb)
  : option (gmap pcb_ptr UdpPcb) :=
  match l with
  | [] => Some mem
  | upcb :: l' =>
      pcb ← mem !! upcb;
      udp_netif_ip_addr_changed_loop old_addr new_addr l'
        (if compare_ip_addr (local_ip pcb) old_addr
         then <[upcb := set_local_ip pcb new_addr]> mem
         else mem)
  end.

Definition udp_netif_ip_addr_changed (old_addr new_addr : IpAddr)
           (s : UdpState) : option UdpState :=
  if negb (is_ip_addr_any old_addr) && negb (is_ip_addr_any new_addr) then
    mem ← udp_netif_ip_addr_changed_loop old_addr new_addr (udp_pcbs s)
            (pcb_mem s);
    Some (mkUdpState (udp_port s) (udp_pcbs s) mem)
  else Some s.
End AddrChanged.

(** *** Connecting, disconnecting and removing an endpoint *)

(** What [udp_disconnect] uses of ip_addr.h beyond [Platform]. *)
Class AddrOps `{Platform} : Type := {
  IP_ANY_TYPE : IpAddr;
  (* [set_ip_addr_any (is_ipv6, &a)]: the value left in [a] *)
  set_ip_addr_any : bool -> IpAddr -> IpAddr;
}.

Section Lifecycle.
Context `{PcbMacros}.
Context `{!AddrOps}.

Definition set_remote (pcb : UdpPcb) (ip : IpAddr) (port : Z) : UdpPcb :=
  mkUdpPcb (local_ip pcb) ip (netif_idx pcb) (so_options pcb) (tos pcb)
           (ttl pcb) (flags pcb) (local_port pcb) port (mcast_ttl pcb)
           (chksum_len_tx pcb) (recv pcb).

Definition set_flags (pcb : UdpPcb) (f : Z) : UdpPcb :=
  mkUdpPcb (local_ip pcb) (remote_ip pcb) (netif_idx pcb) (so_options pcb)
           (tos pcb) (ttl pcb) f (local_port pcb) (remote_port pcb)
           (mcast_ttl pcb) (chksum_len_tx pcb) (recv pcb).

Definition set_netif_idx (pcb : UdpPcb) (idx : Z) : UdpPcb :=
  mkUdpPcb (local_ip pcb) (remote_ip pcb) idx (so_options pcb) (tos pcb)
           (ttl pcb) (flags pcb) (local_port pcb) (remote_port pcb)
           (mcast_ttl pcb) (chksum_len_tx pcb) (recv pcb).

Definition set_recv (pcb : UdpPcb) (fn : option recv_fn) : UdpPcb :=
  mkUdpPcb (local_ip pcb) (remote_ip pcb) (netif_idx pcb) (so_options pcb)
           (tos pcb) (ttl pcb) (flags pcb) (local_port pcb) (remote_port pcb)
           (mcast_ttl pcb) (chksum_len_tx pcb) fn.

(** Modelled from the spec: [udp_clear_flags] of udp.h, absent from the
    sources: the flags given are cleared in the endpoint's 8-bit flag word
    (section 3 lists CONNECTED among the option flags, section 4.3 has
    connect set it). *)
Definition udp_clear_flags (flags clr_flags : Z) : Z :=
  u8 (Z.land flags (Z.land (Z.lnot clr_flags) 0xff)).

(** [udp_bind_netif]; [nullptr] is [None]. *)
Definition udp_bind_netif (pcb : pcb_ptr) (netif : option NetIfc)
           (s : UdpState) : option UdpState :=
  me ← pcb_mem s !! pcb;
  Some (with_pcb s pcb
          (set_netif_idx me match netif with
                            | Some netif => netif_get_index netif
                            | None => NETIF_NO_INDEX
                            end)).

(** [udp_connect]. *)
Definition udp_connect (pcb : pcb_ptr) (ipaddr : IpAddr) (port : Z)
           (s : UdpState) : option (LwipStatus * UdpState) :=
  me ← pcb_mem s !! pcb;
  '(err, s1) ← (if local_port me =? 0
                then udp_bind pcb (Some (local_ip me)) (local_port me) s
                else Some (ERR_OK, s));
  if negb (bool_decide (err = ERR_OK)) then Some (err, s1)
  else
    me ← pcb_mem s1 !! pcb;
    let remote :=
      if IP_IS_V6 ipaddr && ip6_addr_lacks_zone (ip_2_ip6 ipaddr) IP6_UNKNOWN
      then ip_2_ip6_store ipaddr
             (ip6_addr_select_zone (ip_2_ip6 ipaddr)
                                   (ip_2_ip6 (local_ip me)))
      else ipaddr in
    let me := set_flags (set_remote me remote port)
                        (Z.lor (flags me) UDP_FLAGS_CONNECTED) in
    let s2 := with_pcb s1 pcb me in
    Some (ERR_OK,
          if on_list pcb (udp_pcbs s2) then s2
          else with_udp_pcbs s2 (pcb :: udp_pcbs s2)).

(** [udp_disconnect]. *)
Definition udp_disconnect (pcb : pcb_ptr) (s : UdpState) : option UdpState :=
  me ← pcb_mem s !! pcb;
  let remote :=
    if IP_IS_ANY_TYPE_VAL (local_ip me) then IP_ANY_TYPE
    else set_ip_addr_any (IP_IS_V6 (remote_ip me)) (remote_ip me) in
  Some (with_pcb s pcb
          (set_flags
             (set_netif_idx (set_remote me remote 0) NETIF_NO_INDEX)
             (udp_clear_flags (flags me) UDP_FLAGS_CONNECTED))).

(** [udp_recv]; the callback carries its [recv_arg]. *)
Definition udp_recv (pcb : pcb_ptr) (recv : option recv_fn) (s : UdpState)
  : option UdpState :=
  me ← pcb_mem s !! pcb;
  Some (with_pcb s pcb (set_recv me recv)).

(** The loop of [udp_remove]: the list with the first [next] member that
    points to [pcb] redirected to the successor of [pcb]. *)
Fixpoint udp_remove_from (pcb : pcb_ptr) (l : list pcb_ptr) : list pcb_ptr :=
  match l with
  | [] => []
  | pcb2 :: rest =>
      match rest with
      | [] => [pcb2]
      | next :: rest' =>
          if Pos.eqb next pcb then pcb2 :: rest'
          else pcb2 :: udp_remove_from pcb rest
      end
  end.

(** [udp_remove]: the endpoint is unlinked and deleted. *)
Definition udp_remove (pcb : pcb_ptr) (s : UdpState) : option UdpState :=
  _ ← pcb_mem s !! pcb;
  let l := match udp_pcbs s with
           | [] => []
           | head :: rest =>
               if Pos.eqb head pcb then rest
               else udp_remove_from pcb (head :: rest)
           end in
  Some (mkUdpState (udp_port s) l (delete pcb (pcb_mem s))).

End Lifecycle.

Arguments udp_connect : simpl never.

(** *** ip6_addr.h: the solicited-node multicast address *)

Section Ip6SolicitedNode.
Context `{Platform}.

Definition ip6_addr_clear_zone (ip6_addr : Ip6Addr) : Ip6Addr :=
  mkIp6Addr (addr_0 ip6_addr) (addr_1 ip6_addr) (addr_2 ip6_addr)
            (addr_3 ip6_addr) IP6_NO_ZONE.

Definition ip6_addr_issolicitednode (ip6addr : Ip6Addr) : bool :=
  (addr_0 ip6addr =? pp_htonl 0xff020000)
  && (addr_2 ip6addr =? pp_htonl 0x00000001)
  && (Z.land (addr_3 ip6addr) (pp_htonl 0xff000000) =? pp_htonl 0xff000000).

(** [ip6_addr_set_solicitednode (ip6addr, if_id)]: the value left in
    [ip6addr]. *)
Definition ip6_addr_set_solicitednode (ip6addr : Ip6Addr) (if_id : Z)
  : Ip6Addr :=
  ip6_addr_clear_zone
    (mkIp6Addr (pp_htonl 0xff020000) 0 (pp_htonl 0x00000001)
               (Z.lor (pp_htonl 0xff000000) if_id) (zone ip6addr)).

Definition ip6_addr_cmp_solicitednode (ip6addr sn_addr : Ip6Addr) : bool :=
  (addr_0 ip6addr =? pp_htonl 0xff020000)
  && (addr_1 ip6addr =? 0)
  && (addr_2 ip6addr =? pp_htonl 0x00000001)
  && (addr_3 ip6addr =? Z.lor (pp_htonl 0xff000000) (addr_3 sn_addr)).
End Ip6SolicitedNode.

End Udp.

(** ** IGMPv2 (igmp.cpp) *)

Module Igmp.

Abbreviation group_ptr := positive.

Inductive IgmpGroupState : Type :=
| IGMP_GROUP_NON_MEMBER | IGMP_GROUP_DELAYING_MEMBER | IGMP_GROUP_IDLE_MEMBER.

#[global] Instance IgmpGroupState_eq_dec : EqDecision IgmpGroupState.
Proof. solve_decision. Defined.

(** [struct IgmpGroup]; [next] is the position in the interface's list.
    igmp.h is not among the sources: [timer] is the 16-bit counter the
    cast in [igmp_start_timer] shows, [use] and [last_reporter_flag] are
    8-bit as in lwIP's declaration. *)
Record IgmpGroup : Type := mkIgmpGroup {
  group_address : Ip4Addr;
  last_reporter_flag : Z;
  group_state : IgmpGroupState;
  timer : Z;
  use : Z
}.

Definition with_state (g : IgmpGroup) (st : IgmpGroupState) : IgmpGroup :=
  mkIgmpGroup (group_address g) (last_reporter_flag g) st (timer g) (use g).
Definition with_use (g : IgmpGroup) (u : Z) : IgmpGroup :=
  mkIgmpGroup (group_address g) (last_reporter_flag g) (group_state g)
              (timer g) u.
Definition with_timer (g : IgmpGroup) (t : Z) : IgmpGroup :=
  mkIgmpGroup (group_address g) (last_reporter_flag g) (group_state g) t
              (use g).
Definition with_last_reporter_flag (g : IgmpGroup) (f : Z) : IgmpGroup :=
  mkIgmpGroup (group_address g) f (group_state g) (timer g) (use g).

(** [struct IgmpMsg] (RFC 2236). *)
Record IgmpMsg : Type := mkIgmpMsg {
  igmp_msgtype : Z;
  igmp_maxresp : Z;
  igmp_checksum : Z;
  igmp_group_address : Ip4Addr
}.

(** Modelled from the spec: the message types of RFC 2236, the wire format
    the design follows, and the 8-byte IGMP header; the header that
    defines them is not among the sources. *)
Definition IGMP_MEMB_QUERY : Z := 0x11.
Definition IGMP_V2_MEMB_REPORT : Z := 0x16.
Definition IGMP_LEAVE_GROUP : Z := 0x17.
Definition kIgmpMinlen : Z := 8.

(** [allsystems] and [allrouters] as [init_igmp_module] sets them. *)
Definition allsystems : Ip4Addr := Ipv4AddrFromBytes 224 0 0 1.
Definition allrouters : Ip4Addr := Ipv4AddrFromBytes 224 0 0 2.

(** The constants of igmp.h and the checksum routine, which are not among
    the sources. *)
Class IgmpEnv : Type := {
  IGMP_JOIN_DELAYING_MEMBER_TMR : Z;
  IGMP_V1_DELAYING_MEMBER_TMR : Z;
  inet_chksum : IgmpMsg -> Z -> Z;
}.

(** What igmp.cpp reads of [struct NetIfc]: whether [igmp_mac_filter] is
    set, and the IPv4 address of the interface. *)
Record NetIfc : Type := mkNetIfc {
  igmp_mac_filter : bool;
  get_net_ifc_ip4_addr : Ip4Addr
}.

(** A received buffer: the length of its first segment and the message its
    payload starts with. *)
Record PacketBuffer : Type := mkPacketBuffer {
  p_len : Z;
  payload : IgmpMsg
}.

Inductive MacFilterAction : Type :=
| NETIF_ADD_MAC_FILTER | NETIF_DEL_MAC_FILTER.

(** The buffer handed to [igmp_input], and the one [igmp_send] allocates. *)
Inductive Buf : Type := buf_in | buf_out.

(** The calls igmp.cpp makes out of the module.  [IpOutput] is
    [igmp_ip_output_if], which adds the router alert option and TTL 1. *)
Inductive Event : Type :=
| MacFilter (group : Ip4Addr) (action : MacFilterAction)
| IpOutput (src dest : Ip4Addr) (msg : IgmpMsg)
| PbufFree (b : Buf).

#[global] Instance Buf_eq_dec : EqDecision Buf.
Proof. solve_decision. Defined.

(** The groups of one interface: [netif_igmp_data], the addresses linked
    through [next], and the group structs that are allocated. *)
Record IgmpState : Type := mkIgmpState {
  netif_igmp_data : list group_ptr;
  group_mem : gmap group_ptr IgmpGroup
}.

Section Groups.
Context `{IgmpEnv}.

(** The random source: [None] when [lwip_rand] is not a macro and the
    [#else] branch of [igmp_start_timer] is compiled, else the value
    [lwip_rand()] returns when the timer of a given group is started. *)
Definition RandSource : Type := option (group_ptr -> Z).
Definition rand_for (lwip_rand : RandSource) (g : group_ptr) : option Z :=
  (fun f => f g) <$> lwip_rand.

Fixpoint igmp_lookfor_group_from (mem : gmap group_ptr IgmpGroup)
         (l : list group_ptr) (addr : Ip4Addr) : option (option group_ptr) :=
  match l with
  | [] => Some None
  | group :: l' =>
      g ← mem !! group;
      if ip4_addr_cmp (group_address g) addr then Some (Some group)
      else igmp_lookfor_group_from mem l' addr
  end.

Definition igmp_lookfor_group (s : IgmpState) (addr : Ip4Addr)
  : option (option group_ptr) :=
  igmp_lookfor_group_from (group_mem s) (netif_igmp_data s) addr.

(** [igmp_lookup_group]; [new_group] is what [new IgmpGroup] returns.
    The two [lwip_assert]s do not alter the control flow. *)
Definition igmp_lookup_group (new_group : option group_ptr)
           (addr : Ip4Addr) (s : IgmpState)
  : option (option group_ptr * IgmpState) :=
  found ← igmp_lookfor_group s addr;
  match found with
  | Some group => Some (Some group, s)
  | None =>
      match new_group with
      | None => Some (None, s)
      | Some group =>
          let g := mkIgmpGroup addr 0 IGMP_GROUP_NON_MEMBER 0 0 in
          let mem := <[group := g]> (group_mem s) in
          match netif_igmp_data s with
          | [] => Some (Some group, mkIgmpState [group] mem)
          | list_head :: rest =>
              Some (Some group, mkIgmpState (list_head :: group :: rest) mem)
          end
      end
  end.

(** [igmp_start_timer], [lwip_rand] being [None] in the [#else] build. *)
Definition igmp_start_timer (lwip_rand : option Z) (group : IgmpGroup)
           (max_time : Z) : IgmpGroup :=
  let t := match lwip_rand with
           | Some r => u16 (if max_time >? 2 then u32 r mod max_time else 1)
           | None => max_time / 2
           end in
  with_timer group (if t =? 0 then 1 else t).

Definition igmp_delaying_member (lwip_rand : option Z) (group : IgmpGroup)
           (maxresp : Z) : IgmpGroup :=
  if bool_decide (group_state group = IGMP_GROUP_IDLE_MEMBER)
     || (bool_decide (group_state group = IGMP_GROUP_DELAYING_MEMBER)
         && ((timer group =? 0) || (maxresp <? timer group)))
  then with_state (igmp_start_timer lwip_rand group maxresp)
                  IGMP_GROUP_DELAYING_MEMBER
  else group.

(** [igmp_send]; [pbuf_alloc_ok] tells whether [pbuf_alloc] returns a
    buffer. *)
Definition igmp_send (netif : NetIfc) (pbuf_alloc_ok : bool)
           (group : group_ptr) (type : Z) (mem : gmap group_ptr IgmpGroup)
  : option (gmap group_ptr IgmpGroup * list Event) :=
  if pbuf_alloc_ok then
    let src := get_net_ifc_ip4_addr netif in
    let msg (ga : Ip4Addr) :=
      let m := mkIgmpMsg type 0 0 ga in
      mkIgmpMsg type 0 (inet_chksum m kIgmpMinlen) ga in
    if type =? IGMP_V2_MEMB_REPORT then
      g ← mem !! group;
      Some (<[group := with_last_reporter_flag g 1]> mem,
            [IpOutput src (group_address g) (msg (group_address g));
             PbufFree buf_out])
    else if type =? IGMP_LEAVE_GROUP then
      g ← mem !! group;
      Some (mem, [IpOutput src allrouters (msg (group_address g));
                  PbufFree buf_out])
    else Some (mem, [PbufFree buf_out])
  else Some (mem, []).

(** [igmp_start]. *)
Definition igmp_start (netif : NetIfc) (new_group : option group_ptr)
           (s : IgmpState) : option (LwipStatus * IgmpState * list Event) :=
  '(group, s1) ← igmp_lookup_group new_group allsystems s;
  match group with
  | Some group =>
      g ← group_mem s1 !! group;
      let g := with_use (with_state g IGMP_GROUP_IDLE_MEMBER) (u8 (use g + 1)) in
      Some (ERR_OK,
            mkIgmpState (netif_igmp_data s1) (<[group := g]> (group_mem s1)),
            if igmp_mac_filter netif
            then [MacFilter allsystems NETIF_ADD_MAC_FILTER] else [])
  | None => Some (ERR_MEM, s1, [])
  end.

(** [igmp_stop]: every group is handed to the MAC filter and deleted. *)
Fixpoint igmp_stop_loop (netif : NetIfc) (l : list group_ptr)
         (mem : gmap group_ptr IgmpGroup)
  : option (gmap group_ptr IgmpGroup * list Event) :=
  match l with
  | [] => Some (mem, [])
  | group :: l' =>
      g ← mem !! group;
      '(mem1, evs) ← igmp_stop_loop netif l' (delete group mem);
      Some (mem1,
            (if igmp_mac_filter netif
             then [MacFilter (group_address g) NETIF_DEL_MAC_FILTER]
             else []) ++ evs)
  end.

Definition igmp_stop (netif : NetIfc) (s : IgmpState)
  : option (LwipStatus * IgmpState * list Event) :=
  '(mem, evs) ← igmp_stop_loop netif (netif_igmp_data s) (group_mem s);
  Some (ERR_OK, mkIgmpState [] mem, evs).

(** The loop shared by [igmp_report_groups] and the general query:
    [igmp_delaying_member] on every group of [l]. *)
Fixpoint igmp_delaying_members (lwip_rand : RandSource) (maxresp : Z)
         (l : list group_ptr) (mem : gmap group_ptr IgmpGroup)
  : option (gmap group_ptr IgmpGroup) :=
  match l with
  | [] => Some mem
  | groupref :: l' =>
      g ← mem !! groupref;
      igmp_delaying_members lwip_rand maxresp l'
        (<[groupref := igmp_delaying_member (rand_for lwip_rand groupref)
                         g maxresp]> mem)
  end.

Definition igmp_report_groups (lwip_rand : RandSource) (s : IgmpState)
  : option IgmpState :=
  mem ← igmp_delaying_members lwip_rand (u8 IGMP_JOIN_DELAYING_MEMBER_TMR)
          (tail (netif_igmp_data s)) (group_mem s);
  Some (mkIgmpState (netif_igmp_data s) mem).

(** The scan of [igmp_remove_group] from [tmp_group] on: the list with
    [group] unlinked, or [None] when no [next] member points to it. *)
Fixpoint igmp_remove_group_from (group : group_ptr) (l : list group_ptr)
  : option (list group_ptr) :=
  match l with
  | [] => None
  | tmp_group :: rest =>
      match rest with
      | [] => None
      | next :: rest' =>
          if Pos.eqb next group then Some (tmp_group :: rest')
          else (fun r => tmp_group :: r) <$> igmp_remove_group_from group rest
      end
  end.

Definition igmp_remove_group (group : group_ptr) (s : IgmpState)
  : LwipStatus * IgmpState :=
  match igmp_remove_group_from group (netif_igmp_data s) with
  | Some l => (ERR_OK, mkIgmpState l (group_mem s))
  | None => (ERR_ARG, s)
  end.

(** [igmp_input]. *)
Definition igmp_input (lwip_rand : RandSource) (p : PacketBuffer)
           (dest : Ip4Addr) (s : IgmpState)
  : option (IgmpState * list Event) :=
  if p_len p <? kIgmpMinlen then Some (s, [PbufFree buf_in])
  else
    let igmp := payload p in
    if negb (inet_chksum igmp (p_len p) =? 0)
    then Some (s, [PbufFree buf_in])
    else
      group ← igmp_lookfor_group s dest;
      match group with
      | None => Some (s, [PbufFree buf_in])
      | Some group =>
          mem ←
            (if igmp_msgtype igmp =? IGMP_MEMB_QUERY then
               if ip4_addr_cmp dest allsystems
                  && ip4_addr_isany (igmp_group_address igmp)
               then
                 let maxresp :=
                   if igmp_maxresp igmp =? 0
                   then u8 IGMP_V1_DELAYING_MEMBER_TMR
                   else igmp_maxresp igmp in
                 igmp_delaying_members lwip_rand maxresp
                   (tail (netif_igmp_data s)) (group_mem s)
               else if negb (ip4_addr_isany (igmp_group_address igmp)) then
                 group ← (if ip4_addr_cmp dest allsystems
                          then igmp_lookfor_group s (igmp_group_address igmp)
                          else Some (Some group));
                 match group with
                 | Some group =>
                     g ← group_mem s !! group;
                     Some (<[group := igmp_delaying_member
                                        (rand_for lwip_rand group) g
                                        (igmp_maxresp igmp)]> (group_mem s))
                 | None => Some (group_mem s)
                 end
               else Some (group_mem s)
             else if igmp_msgtype igmp =? IGMP_V2_MEMB_REPORT then
               g ← group_mem s !! group;
               if bool_decide (group_state g = IGMP_GROUP_DELAYING_MEMBER)
               then Some (<[group := mkIgmpGroup (group_address g) 0
                                       IGMP_GROUP_IDLE_MEMBER 0 (use g)]>
                            (group_mem s))
               else Some (group_mem s)
             else Some (group_mem s));
          Some (mkIgmpState (netif_igmp_data s) mem, [PbufFree buf_in])
      end.

(** [igmp_joingroup_netif]. *)
Definition igmp_joingroup_netif (lwip_rand : RandSource) (netif : NetIfc)
           (new_group : option group_ptr) (pbuf_alloc_ok : bool)
           (groupaddr : Ip4Addr) (s : IgmpState)
  : option (LwipStatus * IgmpState * list Event) :=
  '(group, s1) ← igmp_lookup_group new_group groupaddr s;
  match group with
  | Some group =>
      g ← group_mem s1 !! group;
      '(mem, evs) ←
        (if negb (bool_decide (group_state g = IGMP_GROUP_NON_MEMBER))
         then Some (group_mem s1, [])
         else
           let filter :=
             if (use g =? 0) && igmp_mac_filter netif
             then [MacFilter groupaddr NETIF_ADD_MAC_FILTER] else [] in
           '(mem, sent) ← igmp_send netif pbuf_alloc_ok group
                            IGMP_V2_MEMB_REPORT (group_mem s1);
           g ← mem !! group;
           let g := igmp_start_timer (rand_for lwip_rand group) g
                      (u8 IGMP_JOIN_DELAYING_MEMBER_TMR) in
           Some (<[group := with_state g IGMP_GROUP_DELAYING_MEMBER]> mem,
                 filter ++ sent));
      g ← mem !! group;
      Some (ERR_OK,
            mkIgmpState (netif_igmp_data s1)
                        (<[group := with_use g (u8 (use g + 1))]> mem),
            evs)
  | None => Some (ERR_MEM, s1, [])
  end.

(** [igmp_leavegroup_netif]. *)
Definition igmp_leavegroup_netif (netif : NetIfc) (pbuf_alloc_ok : bool)
           (groupaddr : Ip4Addr) (s : IgmpState)
  : option (LwipStatus * IgmpState * list Event) :=
  group ← igmp_lookfor_group s groupaddr;
  match group with
  | Some group =>
      g ← group_mem s !! group;
      if use g <=? 1 then
        let s1 := snd (igmp_remove_group group s) in
        '(mem, sent) ← (if negb (last_reporter_flag g =? 0)
                        then igmp_send netif pbuf_alloc_ok group
                                       IGMP_LEAVE_GROUP (group_mem s1)
                        else Some (group_mem s1, []));
        Some (ERR_OK,
              mkIgmpState (netif_igmp_data s1) (delete group mem),
              sent ++ (if igmp_mac_filter netif
                       then [MacFilter groupaddr NETIF_DEL_MAC_FILTER]
                       else []))
      else
        Some (ERR_OK,
              mkIgmpState (netif_igmp_data s)
                          (<[group := with_use g (u8 (use g - 1))]>
                             (group_mem s)),
              [])
  | None => Some (ERR_VAL, s, [])
  end.

(** [igmp_timeout]. *)
Definition igmp_timeout (netif : NetIfc) (pbuf_alloc_ok : bool)
           (group : group_ptr) (mem : gmap group_ptr IgmpGroup)
  : option (gmap group_ptr IgmpGroup * list Event) :=
  g ← mem !! group;
  if bool_decide (group_state g = IGMP_GROUP_DELAYING_MEMBER)
     && negb (ip4_addr_cmp (group_address g) allsystems)
  then igmp_send netif pbuf_alloc_ok group IGMP_V2_MEMB_REPORT
                 (<[group := with_state g IGMP_GROUP_IDLE_MEMBER]> mem)
  else Some (mem, []).

(** The body of [igmp_tmr] for one interface; [pbuf_alloc_ok group]
    answers the allocation of the report sent for [group]. *)
Fixpoint igmp_tmr_loop (netif : NetIfc) (pbuf_alloc_ok : group_ptr -> bool)
         (l : list group_ptr) (mem : gmap group_ptr IgmpGroup)
  : option (gmap group_ptr IgmpGroup * list Event) :=
  match l with
  | [] => Some (mem, [])
  | group :: l' =>
      g ← mem !! group;
      '(mem1, evs1) ←
        (if timer g >? 0 then
           let g1 := with_timer g (u16 (timer g - 1)) in
           let mem1 := <[group := g1]> mem in
           if timer g1 =? 0
           then igmp_timeout netif (pbuf_alloc_ok group) group mem1
           else Some (mem1, [])
         else Some (mem, []));
      '(mem2, evs2) ← igmp_tmr_loop netif pbuf_alloc_ok l' mem1;
      Some (mem2, evs1 ++ evs2)
  end.

Definition igmp_tmr (netif : NetIfc) (pbuf_alloc_ok : group_ptr -> bool)
           (s : IgmpState) : option (IgmpState * list Event) :=
  '(mem, evs) ← igmp_tmr_loop netif pbuf_alloc_ok (netif_igmp_data s)
                  (group_mem s);
  Some (mkIgmpState (netif_igmp_data s) mem, evs).
End Groups.

(** *** All interfaces *)

(** What [igmp_joingroup] and [igmp_leavegroup] read of an interface on
    [netif_list]: whether kNetifFlagIgmp is set in its flags, the members
    the functions above read, and its group list.  The group structs of
    all interfaces live in one heap. *)
Record IgmpNetif : Type := mkIgmpNetif {
  nif_flag_igmp : bool;
  nif_ifc : NetIfc;
  nif_groups : list group_ptr
}.

Definition with_groups (netif : IgmpNetif) (l : list group_ptr) : IgmpNetif :=
  mkIgmpNetif (nif_flag_igmp netif) (nif_ifc netif) l.

Section AllInterfaces.
Context `{IgmpEnv}.

(** The test both loops make: "should we join (leave) this interface?" *)
Definition netif_selected (ifaddr : Ip4Addr) (netif : IgmpNetif) : bool :=
  nif_flag_igmp netif
  && (ip4_addr_isany ifaddr
      || ip4_addr_cmp (get_net_ifc_ip4_addr (nif_ifc netif)) ifaddr).

(** The calls made for the interface at position [i] of [netif_list]. *)
Definition on_netif (i : nat) (evs : list Event) : list (nat * Event) :=
  (fun e => (i, e)) <$> evs.

(** The loop of [igmp_joingroup] from the interface at position [i] on;
    [new_group i] and [pbuf_alloc_ok i] answer the allocations made for
    that interface.  The loop returns at the first interface that cannot
    join. *)
Fixpoint igmp_joingroup_from (lwip_rand : RandSource)
         (new_group : nat -> option group_ptr) (pbuf_alloc_ok : nat -> bool)
         (ifaddr groupaddr : Ip4Addr) (i : nat) (l : list IgmpNetif)
         (err : LwipStatus) (mem : gmap group_ptr IgmpGroup)
  : option (LwipStatus * list IgmpNetif * gmap group_ptr IgmpGroup
            * list (nat * Event)) :=
  match l with
  | [] => Some (err, [], mem, [])
  | netif :: l' =>
      if netif_selected ifaddr netif then
        '(err1, s1, evs1) ←
          igmp_joingroup_netif lwip_rand (nif_ifc netif) (new_group i)
            (pbuf_alloc_ok i) groupaddr
            (mkIgmpState (nif_groups netif) mem);
        let netif1 := with_groups netif (netif_igmp_data s1) in
        if bool_decide (err1 <> ERR_OK)
        then Some (err1, netif1 :: l', group_mem s1, on_netif i evs1)
        else
          '(err2, l2, mem2, evs2) ←
            igmp_joingroup_from lwip_rand new_group pbuf_alloc_ok ifaddr
              groupaddr (S i) l' err1 (group_mem s1);
          Some (err2, netif1 :: l2, mem2, on_netif i evs1 ++ evs2)
      else
        '(err2, l2, mem2, evs2) ←
          igmp_joingroup_from lwip_rand new_group pbuf_alloc_ok ifaddr
            groupaddr (S i) l' err mem;
        Some (err2, netif :: l2, mem2, evs2)
  end.

Definition igmp_joingroup (lwip_rand : RandSource)
           (new_group : nat -> option group_ptr) (pbuf_alloc_ok : nat -> bool)
           (ifaddr groupaddr : Ip4Addr) (netif_list : list IgmpNetif)
           (mem : gmap group_ptr IgmpGroup) :=
  igmp_joingroup_from lwip_rand new_group pbuf_alloc_ok ifaddr groupaddr 0
                      netif_list ERR_VAL mem.

(** The loop of [igmp_leavegroup]: every interface selected is left, and
    the result of one is stored as long as no success has been seen. *)
Fixpoint igmp_leavegroup_from (pbuf_alloc_ok : nat -> bool)
         (ifaddr groupaddr : Ip4Addr) (i : nat) (l : list IgmpNetif)
         (err : LwipStatus) (mem : gmap group_ptr IgmpGroup)
  : option (LwipStatus * list IgmpNetif * gmap group_ptr IgmpGroup
            * list (nat * Event)) :=
  match l with
  | [] => Some (err, [], mem, [])
  | netif :: l' =>
      if netif_selected ifaddr netif then
        '(res, s1, evs1) ←
          igmp_leavegroup_netif (nif_ifc netif) (pbuf_alloc_ok i) groupaddr
            (mkIgmpState (nif_groups netif) mem);
        let err1 := if bool_decide (err <> ERR_OK) then res else err in
        '(err2, l2, mem2, evs2) ←
          igmp_leavegroup_from pbuf_alloc_ok ifaddr groupaddr (S i) l' err1
            (group_mem s1);
        Some (err2, with_groups netif (netif_igmp_data s1) :: l2, mem2,
              on_netif i evs1 ++ evs2)
      else
        '(err2, l2, mem2, evs2) ←
          igmp_leavegroup_from pbuf_alloc_ok ifaddr groupaddr (S i) l' err mem;
        Some (err2, netif :: l2, mem2, evs2)
  end.

Definition igmp_leavegroup (pbuf_alloc_ok : nat -> bool)
           (ifaddr groupaddr : Ip4Addr) (netif_list : list IgmpNetif)
           (mem : gmap group_ptr IgmpGroup) :=
  igmp_leavegroup_from pbuf_alloc_ok ifaddr groupaddr 0 netif_list ERR_VAL
                       mem.
End AllInterfaces.

End Igmp.

(** ** SHA-1

    [chap_ms.cpp] hashes with mbedtls, which is not among the sources.
    This is the function its [mbedtls_sha1_*_ret] routines compute, SHA-1
    as FIPS 180-4 defines it, on byte strings; it serves to run
    [challenge_hash] on the test vectors of RFC 2759. *)

Module Sha1.

Definition w32 (x : Z) : Z := x mod 2 ^ 32.

Definition rotl (n x : Z) : Z :=
  w32 (Z.lor (Z.shiftl x n) (Z.shiftr x (32 - n))).

Definition byte_to_Z (b : byte) : Z := Z.of_N (Byte.to_N b).
Definition byte_of_Z (z : Z) : byte :=
  default x00 (Byte.of_N (Z.to_N (z mod 256))).

(** Big-endian: the value of a byte string, and the [n] low bytes of a
    value. *)
Definition be_value (b : list byte) : Z :=
  fold_left (fun acc x => acc * 256 + byte_to_Z x) b 0.

Fixpoint be_bytes (n : nat) (z : Z) : list byte :=
  match n with
  | O => []
  | S n' => be_bytes n' (z / 256) ++ [byte_of_Z z]
  end.

Definition pad (msg : list byte) : list byte :=
  let l := List.length msg in
  msg ++ [x80] ++ repeat x00 ((119 - l mod 64) mod 64)%nat
      ++ be_bytes 8 (8 * Z.of_nat l).

Fixpoint chunks {A} (size count : nat) (l : list A) : list (list A) :=
  match count with
  | O => []
  | S c => take size l :: chunks size c (drop size l)
  end.

(** The message schedule, most recent word first. *)
Fixpoint schedule (n : nat) (ws : list Z) : list Z :=
  match n with
  | O => ws
  | S n' =>
      let w i := nth i ws 0 in
      schedule n'
        (rotl 1 (Z.lxor (Z.lxor (w 2%nat) (w 7%nat))
                        (Z.lxor (w 13%nat) (w 15%nat))) :: ws)
  end.

Record state : Type := mkState { ha : Z; hb : Z; hc : Z; hd : Z; he : Z }.

Definition round (t : nat) (s : state) (w : Z) : state :=
  let '(mkState a b c d e) := s in
  let '(f, k) :=
    if (t <? 20)%nat
    then (Z.lor (Z.land b c) (Z.land (Z.lxor b 0xffffffff) d), 0x5A827999)
    else if (t <? 40)%nat
    then (Z.lxor (Z.lxor b c) d, 0x6ED9EBA1)
    else if (t <? 60)%nat
    then (Z.lor (Z.lor (Z.land b c) (Z.land b d)) (Z.land c d), 0x8F1BBCDC)
    else (Z.lxor (Z.lxor b c) d, 0xCA62C1D6) in
  mkState (w32 (rotl 5 a + f + e + k + w)) a (rotl 30 b) c d.

Fixpoint rounds (t : nat) (ws : list Z) (s : state) : state :=
  match ws with
  | [] => s
  | w :: ws' => rounds (S t) ws' (round t s w)
  end.

Definition process (s : state) (block : list byte) : state :=
  let w16 := be_value <$> chunks 4 16 block in
  let s' := rounds 0 (rev (schedule 64 (rev w16))) s in
  mkState (w32 (ha s + ha s')) (w32 (hb s + hb s')) (w32 (hc s + hc s'))
          (w32 (hd s + hd s')) (w32 (he s + he s')).

Definition init : state :=
  mkState 0x67452301 0xEFCDAB89 0x98BADCFE 0x10325476 0xC3D2E1F0.

Definition sha1 (msg : list byte) : list byte :=
  let m := pad msg in
  let s := fold_left process (chunks 64 (List.length m / 64) m) init in
  be_bytes 4 (ha s) ++ be_bytes 4 (hb s) ++ be_bytes 4 (hc s)
  ++ be_bytes 4 (hd s) ++ be_bytes 4 (he s).

End Sha1.

(** ** The MS-CHAPv2 challenge hash (chap_ms.cpp) *)

Module ChapMs.

(** The digest length of SHA-1; the header that defines the constant is
    not among the sources. *)
Definition SHA1_SIGNATURE_SIZE : nat := 20.

Definition backslash : byte := "\"%byte.

Section WithSha1.
(** SHA-1 itself, which lives in mbedtls. *)
Variable sha1 : list byte -> list byte.

(** An [mbedtls_sha1_context] is the message fed to it so far.  An
    update that reads more bytes than its input holds is undefined. *)
Definition mbedtls_sha1_starts_ret : list byte := [].

Definition mbedtls_sha1_update_ret (ctx input : list byte) (ilen : nat)
  : option (list byte) :=
  if decide (ilen <= List.length input)%nat
  then Some (ctx ++ take ilen input) else None.

(** [mbedtls_sha1_finish_ret (ctx, sha1_hash)]: the digest, in the
    zero-initialised array of [SHA1_SIGNATURE_SIZE] bytes. *)
Definition mbedtls_sha1_finish_ret (ctx : list byte) : list byte :=
  resize SHA1_SIGNATURE_SIZE x00 (sha1 ctx).

(** [username.c_str()] as [strlen] and the hash see it: the bytes in
    front of the first NUL. *)
Fixpoint c_str (s : list byte) : list byte :=
  match s with
  | [] => []
  | b :: s' => if Byte.eqb b x00 then [] else b :: c_str s'
  end.

(** [challenge_hash]: the tuple its last statement builds (the statement
    has no [return] in front of it).  [user] is the whole of [username]:
    the lines that skip the domain are commented out. *)
Definition challenge_hash (peer_challenge rchallenge : list byte)
           (username : string) : option (bool * list byte) :=
  let user := c_str (list_byte_of_string username) in
  ctx ← mbedtls_sha1_update_ret mbedtls_sha1_starts_ret peer_challenge 16;
  ctx ← mbedtls_sha1_update_ret ctx rchallenge 16;
  ctx ← mbedtls_sha1_update_ret ctx user (List.length user);
  let sha1_hash := mbedtls_sha1_finish_ret ctx in
  let challenge := take (SHA1_SIGNATURE_SIZE - 1) sha1_hash in
  Some (true, challenge).

(** The part of a user name behind its last backslash; the whole name
    when it has none. *)
Fixpoint username_without_domain (s : list byte) : list byte :=
  match s with
  | [] => []
  | b :: s' =>
      if Byte.eqb b backslash && negb (existsb (Byte.eqb backslash) s')
      then s'
      else if existsb (Byte.eqb backslash) s
           then username_without_domain s'
           else s
  end.

(** The challenge hash in the words of the design document (section 4.5):
    the first 8 bytes of SHA1 (peer_challenge ∥ server_challenge ∥
    username-without-domain). *)
Definition challenge_hash_spec (peer_challenge server_challenge : list byte)
           (username : string) : list byte :=
  take 8 (sha1 (peer_challenge ++ server_challenge
                ++ username_without_domain (list_byte_of_string username))).
End WithSha1.

(** The challenges of the RFC 2759 example quoted in section 8. *)
Definition rfc2759_auth_challenge : list byte :=
  [x5b; x5d; x7c; x7d; x7b; x3f; x2f; x3e; x3c; x2c; x60; x21; x32; x26; x26; x28].
Definition rfc2759_peer_challenge : list byte :=
  [x21; x40; x23; x24; x25; x5e; x26; x2a; x28; x29; x5f; x2b; x3a; x33; x7c; x7e].

(** *** The check of the Success packet *)

#[global] Instance byte_eq_dec : EqDecision byte.
Proof.
  intros x y. destruct (Byte.eqb x y) eqn:E.
  - left. by apply Byte.byte_dec_bl.
  - right. intros ->. by rewrite Byte.byte_dec_lb in E.
Defined.

Section CheckSuccess.
(** [MS_AUTH_RESPONSE_LENGTH], which a header that is not among the
    sources defines: the length of the authenticator response. *)
Variable MS_AUTH_RESPONSE_LENGTH : Z.

(** [strncmp (s, lit, n) == 0] for the bytes [s] of a buffer and a string
    literal [lit]; the empty list stands for the NUL that ends the
    literal.  The comparison stops at the first difference and at a NUL;
    a read behind the buffer is undefined. *)
Fixpoint strncmp_is_0 (s lit : list byte) (n : nat) : option bool :=
  match n with
  | O => Some true
  | S n' =>
      c ← head s;
      match lit with
      | [] => Some (Byte.eqb c x00)
      | l :: lit' =>
          if Byte.eqb c l
          then if Byte.eqb c x00 then Some true
               else strncmp_is_0 (tail s) lit' n'
          else Some false
      end
  end.

(** [memcmp (a, b, n) == 0]; both objects have to hold [n] bytes. *)
Definition memcmp_is_0 (a b : list byte) (n : Z) : option bool :=
  if decide (0 <= n <= Z.of_nat (List.length a)
             /\ n <= Z.of_nat (List.length b))
  then Some (bool_decide (take (Z.to_nat n) a = take (Z.to_nat n) b))
  else None.

(** [chapms2_check_success (pcb, msg, len, private_)]; [msg] and
    [private_] are the bytes of the two buffers.  The function does not
    read [pcb]; the messages it logs are left out. *)
Definition chapms2_check_success (msg : list byte) (len : Z)
           (private_ : list byte) : option Z :=
  if len <? MS_AUTH_RESPONSE_LENGTH + 2 then Some 0
  else
    prefix ← strncmp_is_0 msg (list_byte_of_string "S=") 2;
    if negb prefix then Some 0
    else
      let msg := drop 2 msg in
      let len := len - 2 in
      if len <? MS_AUTH_RESPONSE_LENGTH then Some 0
      else
        same ← memcmp_is_0 msg private_ MS_AUTH_RESPONSE_LENGTH;
        if negb same then Some 0
        else
          let msg := drop (Z.to_nat MS_AUTH_RESPONSE_LENGTH) msg in
          let len := len - MS_AUTH_RESPONSE_LENGTH in
          if 3 <=? len then
            delimiter ← strncmp_is_0 msg (list_byte_of_string " M=") 3;
            if (delimiter : bool) then Some 1
            else if negb (len =? 0) then Some 0 else Some 1
          else if negb (len =? 0) then Some 0 else Some 1.
End CheckSuccess.

End ChapMs.

(** ** A concrete platform

    One implementation of the interface, used to run the functions on
    concrete endpoints: a big-endian host whose [IpAddr] is the tagged
    variant of section 9 of the design document (IPv4, IPv6, or the
    dual-stack "any type" marker). *)

Module Host.
Import Udp.

Inductive ip_addr : Type :=
| V4 (a : Ip4Addr) | V6 (a : Ip6Addr) | AnyType.

Record netif : Type := mkNetif {
  index : Z;
  if_ip4 : Ip4Addr;
  if_netmask : Ip4Addr;
  if_ip6 : list Ip6Addr;
  chksum_gen_udp : bool;
  chksum_check_udp : bool
}.

Definition ip6_zero : Ip6Addr := mkIp6Addr 0 0 0 0 IP6_NO_ZONE.

Definition ip6_eqb (a b : Ip6Addr) : bool :=
  (addr_0 a =? addr_0 b) && (addr_1 a =? addr_1 b) && (addr_2 a =? addr_2 b)
  && (addr_3 a =? addr_3 b) && (zone a =? zone b).

Definition ip6_isany (a : Ip6Addr) : bool :=
  (addr_0 a =? 0) && (addr_1 a =? 0) && (addr_2 a =? 0) && (addr_3 a =? 0).

Definition is_any (a : ip_addr) : bool :=
  match a with
  | V4 a => ip4_addr_isany a
  | V6 a => ip6_isany a
  | AnyType => true
  end.

Definition ip_eqb (a b : ip_addr) : bool :=
  match a, b with
  | V4 a, V4 b => ip4_addr_cmp a b
  | V6 a, V6 b => ip6_eqb a b
  | AnyType, AnyType => true
  | _, _ => false
  end.

Definition same_family (a b : ip_addr) : bool :=
  match a, b with
  | V4 _, V4 _ | V6 _, V6 _ | AnyType, AnyType => true
  | _, _ => false
  end.

Definition is_multicast (a : ip_addr) : bool :=
  match a with
  | V4 a => (0xe0000000 <=? addr a) && (addr a <? 0xf0000000)
  | V6 a => 0xff000000 <=? addr_0 a
  | AnyType => false
  end.

Definition is_broadcast (a : ip_addr) (n : netif) : bool :=
  match a with
  | V4 a =>
      (addr a =? IP4_ADDR_BCAST)
      || (ip4_addr_netcmp a (if_ip4 n) (if_netmask n)
          && (Z.lor (addr a) (addr (if_netmask n)) =? IP4_ADDR_BCAST))
  | _ => false
  end.

Definition index_of_ip6 (n : netif) (a : Ip6Addr) : Z :=
  match list_find (fun b => ip6_eqb a b = true) (if_ip6 n) with
  | Some (i, _) => Z.of_nat i
  | None => -1
  end.

#[global] Instance platform : Platform := {|
  IpAddr := ip_addr;
  NetIfc := netif;
  pp_htonl := fun x => x;
  lwip_htons := fun x => x;
  lwip_ntohs := fun x => x;
  create_ip4_addr_any := V4 (mkIp4Addr 0);
  IP_IS_V4 := fun a => match a with V4 _ => true | _ => false end;
  IP_IS_V6 := fun a => match a with V6 _ => true | _ => false end;
  IP_IS_ANY_TYPE_VAL := fun a => match a with AnyType => true | _ => false end;
  is_ip_addr_any := is_any;
  compare_ip_addr := ip_eqb;
  ip_addr_ismulticast := is_multicast;
  ip_addr_isbroadcast := is_broadcast;
  convert_ip_addr_to_ip4_addr :=
    fun a => match a with V4 a => a | _ => mkIp4Addr 0 end;
  ip_2_ip6 := fun a => match a with V6 a => a | _ => ip6_zero end;
  ip_2_ip6_store := fun a b => match a with V6 _ => V6 b | _ => a end;
  ip6_addr_select_zone :=
    fun dest _ => mkIp6Addr (addr_0 dest) (addr_1 dest) (addr_2 dest)
                            (addr_3 dest) 1;
  netif_get_index := index;
  get_net_ifc_ip4_addr := if_ip4;
  netif_ip4_netmask := if_netmask;
  netif_get_ip6_addr_match := index_of_ip6;
  is_netif_checksum_enabled :=
    fun n f => match f with
               | NETIF_CHECKSUM_GEN_UDP => chksum_gen_udp n
               | NETIF_CHECKSUM_CHECK_UDP => chksum_check_udp n
               end
|}.

(** A stand-in for the Internet checksum: the one's complement of the sum
    of the header members and the data bytes, folded to 16 bits. *)
Definition sum16 (q : PacketBuffer) : Z :=
  src (udphdr q) + dest (udphdr q) + len (udphdr q) + chksum (udphdr q)
  + fold_right Z.add 0 (data q).

Definition fold16 (x : Z) : Z := x / 2 ^ 16 + x mod 2 ^ 16.

Definition chksum16 (q : PacketBuffer) (proto : Z) : Z :=
  0xffff - u16 (fold16 (fold16 (sum16 q + proto))).

#[global] Instance pcb_macros : PcbMacros := {|
  match_ip_addr_pcb_version :=
    fun pcb a => match local_ip pcb with
                 | AnyType => true
                 | l => same_family l a
                 end;
  match_exact_ip_addr_pcb_vers := fun pcb a => same_family (local_ip pcb) a;
  udp_get_multicast_ttl := mcast_ttl;
  ip_chksum_pseudo := fun q proto _ _ _ => chksum16 q proto;
  ip_chksum_pseudo_partial := fun q proto _ _ _ _ => chksum16 q proto;
  FOLD_U32T := fold16
|}.

Definition v4 (a b c d : Z) : ip_addr := V4 (Ipv4AddrFromBytes a b c d).

(** An endpoint as [udp_new] leaves it, of the family of [any]. *)
Definition new_pcb (any : ip_addr) : UdpPcb :=
  mkUdpPcb any any NETIF_NO_INDEX 0 0 255 0 0 0 255 0 None.

Definition eth0 : netif :=
  mkNetif 1 (Ipv4AddrFromBytes 192 0 2 3) (Ipv4AddrFromBytes 255 255 255 0)
          [] true true.

#[global] Instance addr_ops : AddrOps := {|
  IP_ANY_TYPE := AnyType;
  set_ip_addr_any :=
    fun is_ipv6 _ => if is_ipv6 then V6 ip6_zero else V4 (mkIp4Addr 0)
|}.

End Host.

(** ** Scenarios

    Concrete endpoint tables, packets and group lists on the platform
    above, on which the theorems below are run. *)

Module Scenarios.
Import Udp Host.

(** Endpoint 1 holds the first ephemeral candidate, endpoint 2 a fixed
    port; endpoint 3 is allocated but not bound. *)
Definition bound_pair : UdpState :=
  mkUdpState UDP_LOCAL_PORT_RANGE_START [2; 1]%positive
    (<[1%positive := set_local (new_pcb (v4 0 0 0 0)) (v4 192 0 2 3) 49153]>
       (<[2%positive := set_local (new_pcb (v4 0 0 0 0)) (v4 0 0 0 0) 5000]>
          (<[3%positive := new_pcb (v4 0 0 0 0)]> ∅))).

(** [bound_pair] once endpoint 3 is bound to 192.0.2.3, port 6000. *)
Definition bound_triple : UdpState :=
  mkUdpState UDP_LOCAL_PORT_RANGE_START [3; 2; 1]%positive
    (<[3%positive := set_local (new_pcb (v4 0 0 0 0)) (v4 192 0 2 3) 6000]>
       (pcb_mem bound_pair)).




(** Four bytes of user data, with room for the header in front. *)
Definition four_bytes : PacketBuffer :=
  mkPacketBuffer 4 4 0 (mkUdpHdr 0 0 0 0) [1; 2; 3; 4].

Definition send_ok : SendEnv := mkSendEnv false true ERR_OK.



(** Two endpoints bound to 0.0.0.0, port 5000, with REUSEADDR and
    BROADCAST set.  Endpoint 1 has the receive callback 11, endpoint 2 the
    callback given by [recv2]. *)
Definition reuse_pcb (recv : option recv_fn) : UdpPcb :=
  mkUdpPcb (v4 0 0 0 0) (v4 0 0 0 0) NETIF_NO_INDEX
           (Z.lor SOF_REUSEADDR SOF_BROADCAST) 0 255 0 5000 0 255 0 recv.

Definition listeners (recv2 : option recv_fn) : UdpState :=
  mkUdpState UDP_LOCAL_PORT_RANGE_START [1; 2]%positive
    (<[1%positive := reuse_pcb (Some 11%positive)]>
       (<[2%positive := reuse_pcb recv2]> ∅)).

(** A datagram from 192.0.2.7, port 9, to the multicast group 224.0.0.251,
    port 5000, received on [eth0]; its checksum member is 0. *)
Definition mcast_ipd : IpData :=
  mkIpData eth0 eth0 (v4 224 0 0 251) (v4 192 0 2 7)
           (Ipv4AddrFromBytes 224 0 0 251) ip6_zero false IP_PROTO_UDP.

Definition mcast_dgram : PacketBuffer :=
  mkPacketBuffer 12 12 0 (mkUdpHdr 9 5000 12 0) [1; 2; 3; 4].

(** IGMP on one interface with a MAC filter hook: timer constants of 5 and
    10 ticks, and a stand-in for the Internet checksum. *)
#[global] Instance igmp_env : Igmp.IgmpEnv := {|
  Igmp.IGMP_JOIN_DELAYING_MEMBER_TMR := 5;
  Igmp.IGMP_V1_DELAYING_MEMBER_TMR := 10;
  Igmp.inet_chksum :=
    fun m _ => 0xffff - u16 (Igmp.igmp_msgtype m * 256 + Igmp.igmp_maxresp m
                             + Igmp.igmp_checksum m
                             + addr (Igmp.igmp_group_address m))
|}.

Definition igmp_if : Igmp.NetIfc :=
  Igmp.mkNetIfc true (Ipv4AddrFromBytes 192 0 2 3).

Definition group_239 : Ip4Addr := Ipv4AddrFromBytes 239 1 1 1.

(** No group yet; IGMP started (the all-systems group alone, at address
    1); and a second group, 239.1.1.1 at address 2, joined once, whose last
    report was ours and whose timer runs. *)
Definition igmp_off : Igmp.IgmpState := Igmp.mkIgmpState [] ∅.

Definition igmp_started : Igmp.IgmpState :=
  Igmp.mkIgmpState [1%positive]
    (<[1%positive := Igmp.mkIgmpGroup Igmp.allsystems 0
                       Igmp.IGMP_GROUP_IDLE_MEMBER 0 1]> ∅).

Definition igmp_joined : Igmp.IgmpState :=
  Igmp.mkIgmpState [1; 2]%positive
    (<[2%positive := Igmp.mkIgmpGroup group_239 1
                       Igmp.IGMP_GROUP_DELAYING_MEMBER 3 1]>
       (Igmp.group_mem igmp_started)).

(** A general query with a maximum response time of 20 ticks, with the
    checksum the stand-in accepts. *)
Definition general_query : Igmp.PacketBuffer :=
  Igmp.mkPacketBuffer 8
    (Igmp.mkIgmpMsg Igmp.IGMP_MEMB_QUERY 20 (0xffff - (0x11 * 256 + 20))
                    (mkIp4Addr 0)).

(** A user name with a domain in front, and the user name of the RFC 2759
    example. *)
Definition domain_user : string := "DOMAIN\User".
Definition plain_user : string := "User".

(** A datagram from 192.0.2.7, port 9, to the address of [eth0]: to port
    5000 ([unicast_dgram]) and to port 4000, where nobody listens
    ([stray_dgram]). *)
Definition unicast_ipd : IpData :=
  mkIpData eth0 eth0 (v4 192 0 2 3) (v4 192 0 2 7)
           (Ipv4AddrFromBytes 192 0 2 3) ip6_zero false IP_PROTO_UDP.

Definition unicast_dgram : PacketBuffer :=
  mkPacketBuffer 12 12 0 (mkUdpHdr 9 5000 12 0) [1; 2; 3; 4].

Definition stray_dgram : PacketBuffer :=
  mkPacketBuffer 12 12 0 (mkUdpHdr 9 4000 12 0) [1; 2; 3; 4].

(** Endpoint 1 listens on port 5000 (callback 11); endpoint 2 is bound
    to the same port and connected to 192.0.2.7, port 9 (callback 12). *)
Definition connected_pcb : UdpPcb :=
  mkUdpPcb (v4 192 0 2 3) (v4 192 0 2 7) NETIF_NO_INDEX SOF_REUSEADDR 0 255
           UDP_FLAGS_CONNECTED 5000 9 255 0 (Some 12%positive).

Definition server_and_peer : UdpState :=
  mkUdpState UDP_LOCAL_PORT_RANGE_START [1; 2]%positive
    (<[1%positive := reuse_pcb (Some 11%positive)]>
       (<[2%positive := connected_pcb]> ∅)).

(** The address of [eth0] and the address of a peer on its subnet. *)
Definition eth0_addr : ip_addr := v4 192 0 2 3.
Definition peer_addr : ip_addr := v4 192 0 2 7.

Definition bcast_addr : ip_addr := v4 255 255 255 255.


(** A version 2 report for 239.1.1.1 heard from another host, and a query
    for that group with a maximum response time of 2 ticks; both carry the
    checksum the stand-in accepts. *)
Definition report_239 : Igmp.PacketBuffer :=
  Igmp.mkPacketBuffer 8
    (Igmp.mkIgmpMsg Igmp.IGMP_V2_MEMB_REPORT 0 59646 group_239).

Definition group_query_239 : Igmp.PacketBuffer :=
  Igmp.mkPacketBuffer 8
    (Igmp.mkIgmpMsg Igmp.IGMP_MEMB_QUERY 2 60924 group_239).

(** Four bytes of an IGMP message: too few. *)
Definition runt_query : Igmp.PacketBuffer :=
  Igmp.mkPacketBuffer 4 (Igmp.payload general_query).

(** A Success packet with an authenticator response of 40 characters, and
    the response the peer expects. *)
Definition auth_response : list byte :=
  list_byte_of_string "0123456789ABCDEF0123456789ABCDEF01234567".

Definition success_packet : list byte :=
  list_byte_of_string "S=0123456789ABCDEF0123456789ABCDEF01234567 M=ok".

(** Two interfaces with IGMP: [igmp_if] with the groups of [igmp_joined],
    and a second one on which IGMP has just been started, its all-systems
    group being at address 3.  The allocator has one more group structure,
    at address 4, which it hands out for the second interface. *)
Definition igmp_if2 : Igmp.NetIfc :=
  Igmp.mkNetIfc false (Ipv4AddrFromBytes 198 51 100 1).

Definition two_netifs : list Igmp.IgmpNetif :=
  [Igmp.mkIgmpNetif true igmp_if [1; 2]%positive;
   Igmp.mkIgmpNetif true igmp_if2 [3%positive]].

Definition two_netifs_mem : gmap positive Igmp.IgmpGroup :=
  <[3%positive := Igmp.mkIgmpGroup Igmp.allsystems 0
                    Igmp.IGMP_GROUP_IDLE_MEMBER 0 1]>
    (Igmp.group_mem igmp_joined).

Definition one_more_group (i : nat) : option positive :=
  match i with
  | 1%nat => Some 4%positive
  | _ => None
  end.
End Scenarios.

(** ** Well-formed states

    The conditions under which the pointers a function follows are valid:
    they hold of the states the module builds, and the theorems below
    assume nothing else about a state. *)

Section UdpStates.
Import Udp.
Context `{PcbMacros}.

(** Every endpoint linked on [udp_pcbs] is allocated, and none is linked
    twice. *)
Definition pcbs_ok (s : UdpState) : bool :=
  bool_decide (NoDup (udp_pcbs s))
  && forallb (fun p => bool_decide (is_Some (pcb_mem s !! p))) (udp_pcbs s).

(** [udp_port] lies in the dynamic range, where its initialiser and
    [udp_init] put it and [udp_new_port] keeps it. *)
Definition udp_port_ok (s : UdpState) : bool :=
  (UDP_LOCAL_PORT_RANGE_START <=? udp_port s)
  && (udp_port s <=? UDP_LOCAL_PORT_RANGE_END).

(** The endpoint at [p] has [port] as its local port. *)
Definition holds_port (s : UdpState) (p : pcb_ptr) (port : Z) : Prop :=
  exists pcb, pcb_mem s !! p = Some pcb /\ local_port pcb = port.

(** The endpoint at [mpcb] is a local match for the datagram being
    received: its local port is the destination port and
    [udp_input_local_match] accepts it. *)
Definition local_match (mem : gmap pcb_ptr UdpPcb) (ipd : IpData)
           (inp : NetIfc) (broadcast : bool) (dport : Z) (mpcb : pcb_ptr)
  : bool :=
  match mem !! mpcb with
  | Some m => (local_port m =? dport)
              && udp_input_local_match ipd m inp broadcast
  | None => false
  end.

(** The delivery of a copy that the fan-out owes the endpoint at [mpcb],
    [pcb] being the endpoint that gets the original: one call of the
    receive callback with a clone, if [mpcb] is another endpoint, is a local
    match, has a callback, and the clone could be allocated. *)
Definition copy_for (mem : gmap pcb_ptr UdpPcb) (ipd : IpData)
           (inp : NetIfc) (broadcast : bool) (sport dport : Z)
           (pbuf_clone_ok : pcb_ptr -> bool) (pcb mpcb : pcb_ptr)
  : list Event :=
  if negb (Pos.eqb mpcb pcb) && local_match mem ipd inp broadcast dport mpcb
  then match recv <$> mem !! mpcb with
       | Some (Some fn) =>
           if pbuf_clone_ok mpcb
           then [Recv fn mpcb (buf_clone mpcb) (ip_current_src_addr ipd) sport]
           else []
       | _ => []
       end
  else [].
End UdpStates.

Section IgmpStates.
Import Igmp.

(** Every group linked on the interface is allocated, and none is linked
    twice. *)
Definition groups_ok (s : IgmpState) : bool :=
  bool_decide (NoDup (netif_igmp_data s))
  && forallb (fun g => bool_decide (is_Some (group_mem s !! g)))
             (netif_igmp_data s).

(** The invariant of section 3: the first group of the interface is the
    all-systems group 224.0.0.1, with a use count of at least 1. *)
Definition allsystems_first (s : IgmpState) : Prop :=
  exists head rest g,
    netif_igmp_data s = head :: rest
    /\ group_mem s !! head = Some g
    /\ group_address g = allsystems
    /\ 1 <= use g.

(** [mem'] has the groups of [mem], with the addresses and use counts they
    have there: what an operation that only touches timers, states and
    last-reporter flags leaves. *)
Definition keeps_membership (mem mem' : gmap group_ptr IgmpGroup) : Prop :=
  forall g,
    match mem !! g, mem' !! g with
    | Some a, Some b => group_address b = group_address a /\ use b = use a
    | None, None => True
    | _, _ => False
    end.

(** How often the events free the buffer [b]. *)
Definition is_free (b : Buf) (e : Event) : bool :=
  match e with
  | PbufFree b' => bool_decide (b' = b)
  | _ => false
  end.

Definition frees (b : Buf) (evs : list Event) : nat :=
  List.length (List.filter (is_free b) evs).
End IgmpStates.

Section UdpDelivery.
Import Udp.
Context `{PcbMacros}.

(** The event disposes of the buffer [p] that [udp_input] was given: it
    frees it, or hands it to a receive callback, which then owns it. *)
Definition takes_p (e : Event) : bool :=
  match e with
  | Recv _ _ buf_p _ _ | FreePktBuf buf_p => true
  | _ => false
  end.

(** The endpoint at [pcb] matches the datagram fully: it is a local match
    and its remote port and address are those of the sender (an any
    remote address matches every sender). *)
Definition full_match (mem : gmap pcb_ptr UdpPcb) (ipd : IpData)
           (inp : NetIfc) (broadcast : bool) (sport dport : Z)
           (pcb : pcb_ptr) : bool :=
  local_match mem ipd inp broadcast dport pcb
  && match mem !! pcb with
     | Some me =>
         (remote_port me =? sport)
         && (is_ip_addr_any (remote_ip me)
             || compare_ip_addr (remote_ip me) (ip_current_src_addr ipd))
     | None => false
     end.

(** The endpoint at [pcb] is a local match that is not connected. *)
Definition uncon_match (mem : gmap pcb_ptr UdpPcb) (ipd : IpData)
           (inp : NetIfc) (broadcast : bool) (dport : Z) (pcb : pcb_ptr)
  : bool :=
  local_match mem ipd inp broadcast dport pcb
  && match mem !! pcb with
     | Some me => Z.land (flags me) UDP_FLAGS_CONNECTED =? 0
     | None => false
     end.
End UdpDelivery.

Section UdpBindings.
Import Udp.
Context `{PcbMacros}.

(** The test in the second loop of [udp_bind]: binding [me] to [ipaddr]
    and [port] is refused because of the endpoint [other], which has the
    port on the same address, or one of the two addresses is any, and
    REUSEADDR is not set on both endpoints. *)
Definition clashes (me other : UdpPcb) (ipaddr : IpAddr) (port : Z) : bool :=
  (negb (ip_get_option me SOF_REUSEADDR)
   || negb (ip_get_option other SOF_REUSEADDR))
  && ((local_port other =? port)
      && (compare_ip_addr (local_ip other) ipaddr
          || is_ip_addr_any ipaddr
          || is_ip_addr_any (local_ip other))).

(** No endpoint of the list holds its address and port in conflict with
    another one of the list. *)
Definition no_conflict (s : UdpState) : bool :=
  forallb
    (fun p =>
       forallb
         (fun q =>
            Pos.eqb p q
            || match pcb_mem s !! p, pcb_mem s !! q with
               | Some a, Some b =>
                   negb (clashes a b (local_ip a) (local_port a))
               | _, _ => true
               end)
         (udp_pcbs s))
    (udp_pcbs s).

(** Every port of the dynamic range is the local port of an endpoint of
    the list: [udp_new_port] has nothing left to hand out. *)
Definition ports_exhausted (s : UdpState) : Prop :=
  forall q, UDP_LOCAL_PORT_RANGE_START <= q <= UDP_LOCAL_PORT_RANGE_END ->
            exists p, p ∈ udp_pcbs s /\ holds_port s p q.
End UdpBindings.

Section IgmpObservations.
Import Igmp.
Context `{IgmpEnv}.

(** The first group of the interface, if it has one. *)
Definition head_of_list (s : IgmpState) : option group_ptr :=
  head (netif_igmp_data s).

(** The timer of the group runs out at the next tick and a report is due
    then: the group is a delaying member and is not 224.0.0.1. *)
Definition report_due (g : IgmpGroup) : bool :=
  (timer g >? 0) && (u16 (timer g - 1) =? 0)
  && bool_decide (group_state g = IGMP_GROUP_DELAYING_MEMBER)
  && negb (ip4_addr_cmp (group_address g) allsystems).

(** The version 2 membership report for the group address [ga], as
    [igmp_send] fills it in. *)
Definition report_for (ga : Ip4Addr) : IgmpMsg :=
  mkIgmpMsg IGMP_V2_MEMB_REPORT 0
    (inet_chksum (mkIgmpMsg IGMP_V2_MEMB_REPORT 0 0 ga) kIgmpMinlen) ga.

(** What one tick of [igmp_tmr] makes of a group: [g'] is the group
    afterwards and [evs] are the calls made for it.  The timer is counted
    down if it runs; when a report is due the group becomes an idle member
    and the report is sent, if a buffer can be had for it, which makes the
    interface the last reporter. *)
Definition ticked (netif : NetIfc) (alloc_ok : bool) (g g' : IgmpGroup)
           (evs : list Event) : Prop :=
  group_address g' = group_address g
  /\ use g' = use g
  /\ timer g' = (if timer g >? 0 then u16 (timer g - 1) else timer g)
  /\ (report_due g = false ->
      group_state g' = group_state g
      /\ last_reporter_flag g' = last_reporter_flag g /\ evs = [])
  /\ (report_due g = true ->
      group_state g' = IGMP_GROUP_IDLE_MEMBER
      /\ last_reporter_flag g'
         = (if alloc_ok then 1 else last_reporter_flag g)
      /\ evs = (if alloc_ok
                then [IpOutput (get_net_ifc_ip4_addr netif) (group_address g)
                               (report_for (group_address g));
                      PbufFree buf_out]
                else [])).
End IgmpObservations.

Section IgmpMembership.
Import Igmp.
Context `{IgmpEnv}.

(** The group structure a first join of [groupaddr] leaves at [group]:
    used once, delaying, with the timer [igmp_start_timer] starts for the
    bound IGMP_JOIN_DELAYING_MEMBER_TMR, and marked as the last reporter
    when the report could be sent. *)
Definition joined_group (lwip_rand : RandSource) (pbuf_alloc_ok : bool)
           (group : group_ptr) (groupaddr : Ip4Addr) : IgmpGroup :=
  let sent := if pbuf_alloc_ok then 1 else 0 in
  mkIgmpGroup groupaddr sent IGMP_GROUP_DELAYING_MEMBER
    (timer (igmp_start_timer (rand_for lwip_rand group)
              (mkIgmpGroup groupaddr sent IGMP_GROUP_NON_MEMBER 0 0)
              (u8 IGMP_JOIN_DELAYING_MEMBER_TMR)))
    1.

(** The list of an interface once [group] is linked in: alone on an empty
    list, else right behind the first group. *)
Definition linked_behind_head (group : group_ptr) (l : list group_ptr)
  : list group_ptr :=
  match l with
  | [] => [group]
  | list_head :: rest => list_head :: group :: rest
  end.

(** The Leave message for [ga], as [igmp_send] builds it. *)
Definition leave_for (ga : Ip4Addr) : IgmpMsg :=
  mkIgmpMsg IGMP_LEAVE_GROUP 0
    (inet_chksum (mkIgmpMsg IGMP_LEAVE_GROUP 0 0 ga) kIgmpMinlen) ga.
End IgmpMembership.

Section IgmpInterfaces.
Import Igmp.
Context `{IgmpEnv}.

(** The groups linked on any of the interfaces. *)
Definition all_groups (l : list IgmpNetif) : list group_ptr :=
  concat (nif_groups <$> l).

(** No group is linked twice, on one interface or on two, and every
    group linked is allocated. *)
Definition netifs_ok (l : list IgmpNetif) (mem : gmap group_ptr IgmpGroup)
  : bool :=
  groups_ok (mkIgmpState (all_groups l) mem).

(** The interface has a group with the address [groupaddr]. *)
Definition has_group (mem : gmap group_ptr IgmpGroup) (groupaddr : Ip4Addr)
           (netif : IgmpNetif) : bool :=
  match igmp_lookfor_group (mkIgmpState (nif_groups netif) mem) groupaddr with
  | Some (Some _) => true
  | _ => false
  end.

(** The interface is selected by [ifaddr] and has the group. *)
Definition leaves (mem : gmap group_ptr IgmpGroup)
           (ifaddr groupaddr : Ip4Addr) (netif : IgmpNetif) : bool :=
  netif_selected ifaddr netif && has_group mem groupaddr netif.

(** What leaving [groupaddr] makes of the interface [n] and its groups:
    [n'] is the interface and [mem'] the heap afterwards, [evs] are the
    calls made for the interface.  An interface without a group of that
    address is left as it is.  Else the group found is the only one
    touched.  With a use count above 1 the count is decremented.  With a
    use count of at most 1 the group is deleted after the scan of
    [igmp_remove_group], which unlinks it unless it is the first of the
    list; a Leave message goes to 224.0.0.2 if the group has the
    last-reporter flag and a buffer is there, and then the MAC filter is
    removed, if the interface has the hook. *)
Definition leaves_group (groupaddr : Ip4Addr) (alloc_ok : bool)
           (mem mem' : gmap group_ptr IgmpGroup) (n n' : IgmpNetif)
           (evs : list Event) : Prop :=
  match igmp_lookfor_group (mkIgmpState (nif_groups n) mem) groupaddr with
  | Some (Some group) =>
      exists g,
        mem !! group = Some g
        /\ nif_flag_igmp n' = nif_flag_igmp n /\ nif_ifc n' = nif_ifc n
        /\ (forall g', g' ∈ nif_groups n -> g' <> group ->
              mem' !! g' = mem !! g')
        /\ if use g <=? 1
           then mem' !! group = None
                /\ nif_groups n'
                   = netif_igmp_data
                       (igmp_remove_group group
                          (mkIgmpState (nif_groups n) mem)).2
                /\ (head (nif_groups n) <> Some group ->
                    group ∉ nif_groups n')
                /\ evs
                   = (if negb (last_reporter_flag g =? 0) && alloc_ok
                      then [IpOutput (get_net_ifc_ip4_addr (nif_ifc n))
                                     allrouters
                                     (leave_for (group_address g));
                            PbufFree buf_out]
                      else [])
                     ++ (if igmp_mac_filter (nif_ifc n)
                         then [MacFilter groupaddr NETIF_DEL_MAC_FILTER]
                         else [])
           else mem' !! group = Some (with_use g (u8 (use g - 1)))
                /\ n' = n /\ evs = []
  | _ => n' = n /\ evs = []
  end.
End IgmpInterfaces.

Section IgmpTicks.
Import Igmp.
Context `{IgmpEnv}.

(** [n] successive calls of [igmp_tmr] for the interface, with nothing
    else happening in between: the state after the last call, and the
    calls each of them made. *)
Fixpoint igmp_tmr_calls (netif : NetIfc) (pbuf_alloc_ok : group_ptr -> bool)
         (n : nat) (s : IgmpState)
  : option (IgmpState * list (list Event)) :=
  match n with
  | O => Some (s, [])
  | S n' =>
      '(s1, evss) ← igmp_tmr_calls netif pbuf_alloc_ok n' s;
      '(s2, evs) ← igmp_tmr netif pbuf_alloc_ok s1;
      Some (s2, evss ++ [evs])
  end.
End IgmpTicks.

(** * Properties of the UDP endpoint table *)

Section UdpPorts.
Import Udp.
Context `{PcbMacros}.

Lemma pcbs_ok_lookup s p :
  pcbs_ok s = true -> p ∈ udp_pcbs s -> is_Some (pcb_mem s !! p).
Proof.
  unfold pcbs_ok. rewrite andb_true_iff, forallb_forall.
  intros [_ Hall] Hin. apply list_elem_of_In in Hin.
  specialize (Hall p Hin). by apply bool_decide_eq_true in Hall.
Qed.

Lemma pcbs_ok_NoDup s : pcbs_ok s = true -> NoDup (udp_pcbs s).
Proof.
  unfold pcbs_ok. rewrite andb_true_iff. intros [Hnd _].
  by apply bool_decide_eq_true in Hnd.
Qed.

Lemma pcbs_ok_intro s :
  NoDup (udp_pcbs s) ->
  (forall p, p ∈ udp_pcbs s -> is_Some (pcb_mem s !! p)) ->
  pcbs_ok s = true.
Proof.
  intros Hnd Hall. unfold pcbs_ok. rewrite andb_true_iff, forallb_forall.
  split; [by apply bool_decide_eq_true|].
  intros p Hin. apply bool_decide_eq_true, Hall. by apply list_elem_of_In.
Qed.

(** The scan of the list answers whether some linked endpoint has the
    port. *)
Lemma port_taken_spec mem l port :
  (forall p, p ∈ l -> is_Some (mem !! p)) ->
  exists b, port_taken mem l port = Some b
    /\ (b = true <->
        exists p pcb, p ∈ l /\ mem !! p = Some pcb /\ local_port pcb = port).
Proof.
  induction l as [|p l IH]; intros Hall; simpl.
  - exists false. split; [done|]. split; [done|].
    intros (p & pcb & Hin & _). by apply elem_of_nil in Hin.
  - destruct (Hall p) as [pcb Hp]; [by left|]. rewrite Hp. simpl.
    destruct (local_port pcb =? port) eqn:E.
    + exists true. split; [done|]. split; [|done]. intros _.
      exists p, pcb. split; [by left|]. split; [done|]. by apply Z.eqb_eq.
    + destruct IH as (b & Hb & Hiff); [intros q Hq; apply Hall; by right|].
      exists b. split; [done|]. rewrite Hiff. split.
      * intros (q & pcbq & Hin & Hq & Hport).
        exists q, pcbq. split; [by right|done].
      * intros (q & pcbq & Hin & Hq & Hport).
        apply elem_of_cons in Hin as [->|Hin].
        -- rewrite Hp in Hq. injection Hq as <-.
           apply Z.eqb_neq in E. done.
        -- by exists q, pcbq.
Qed.

Lemma udp_port_step_range port :
  UDP_LOCAL_PORT_RANGE_START <= port <= UDP_LOCAL_PORT_RANGE_END ->
  UDP_LOCAL_PORT_RANGE_START <= udp_port_step port <= UDP_LOCAL_PORT_RANGE_END.
Proof.
  unfold udp_port_step, UDP_LOCAL_PORT_RANGE_START, UDP_LOCAL_PORT_RANGE_END, u16.
  intros Hr. destruct (port =? 65535) eqn:E; [lia|].
  apply Z.eqb_neq in E. rewrite Z.mod_small; lia.
Qed.

(** [udp_init] puts [udp_port] into the range, whatever [lwip_rand]
    returns. *)
Lemma udp_init_port_ok r s : udp_port_ok (udp_init r s) = true.
Proof.
  unfold udp_port_ok, udp_init, UDP_ENSURE_LOCAL_PORT_RANGE. simpl.
  change (u16 (Z.lnot UDP_LOCAL_PORT_RANGE_START)) with 16383.
  change 16383 with (Z.ones 14). rewrite Z.land_ones by lia.
  unfold UDP_LOCAL_PORT_RANGE_START, UDP_LOCAL_PORT_RANGE_END, u16.
  pose proof (Z.mod_pos_bound r (2 ^ 14) ltac:(lia)).
  rewrite Z.mod_small by lia. lia.
Qed.

(** One turn of the search. *)
Lemma udp_new_port_again_S fuel n s :
  udp_new_port_again (S fuel) n s
  = (taken ← port_taken (pcb_mem s) (udp_pcbs s)
               (udp_port_step (udp_port s));
     if taken : bool then
       if u16 (n + 1) >? UDP_LOCAL_PORT_RANGE_END - UDP_LOCAL_PORT_RANGE_START
       then Some (0, with_udp_port s (udp_port_step (udp_port s)))
       else udp_new_port_again fuel (u16 (n + 1))
              (with_udp_port s (udp_port_step (udp_port s)))
     else Some (udp_port_step (udp_port s),
                with_udp_port s (udp_port_step (udp_port s)))).
Proof. reflexivity. Qed.

(** The search from [again] on, with [n] candidates already rejected and
    enough turns left to reject the rest of the range: it returns, it
    leaves the endpoints alone and [udp_port] in the range, and its
    result is 0 or a port of the range that no linked endpoint has; it
    is 0 when every port of the range is taken. *)
Lemma udp_new_port_again_spec fuel n s :
  pcbs_ok s = true -> udp_port_ok s = true ->
  0 <= n <= UDP_LOCAL_PORT_RANGE_END - UDP_LOCAL_PORT_RANGE_START ->
  UDP_LOCAL_PORT_RANGE_END - UDP_LOCAL_PORT_RANGE_START + 1
    <= n + Z.of_nat fuel ->
  exists port s',
    udp_new_port_again fuel n s = Some (port, s')
    /\ udp_pcbs s' = udp_pcbs s /\ pcb_mem s' = pcb_mem s
    /\ udp_port_ok s' = true
    /\ (port = 0
        \/ (UDP_LOCAL_PORT_RANGE_START <= port <= UDP_LOCAL_PORT_RANGE_END
            /\ forall p, p ∈ udp_pcbs s -> ~ holds_port s p port))
    /\ ((forall q, UDP_LOCAL_PORT_RANGE_START <= q <= UDP_LOCAL_PORT_RANGE_END ->
          exists p, p ∈ udp_pcbs s /\ holds_port s p q) -> port = 0).
Proof.
  revert n s. induction fuel as [|fuel IH]; intros n s Hok Hport Hn Hfuel.
  { unfold UDP_LOCAL_PORT_RANGE_END, UDP_LOCAL_PORT_RANGE_START in *. lia. }
  assert (Hr : UDP_LOCAL_PORT_RANGE_START <= udp_port s
               <= UDP_LOCAL_PORT_RANGE_END).
  { unfold udp_port_ok in Hport. apply andb_true_iff in Hport as [H1 H2].
    apply Z.leb_le in H1, H2. lia. }
  pose proof (udp_port_step_range _ Hr) as Hr1.
  set (s1 := with_udp_port s (udp_port_step (udp_port s))).
  assert (Hok1 : pcbs_ok s1 = true) by exact Hok.
  assert (Hport1 : udp_port_ok s1 = true).
  { unfold udp_port_ok. simpl. apply andb_true_iff.
    split; apply Z.leb_le; lia. }
  destruct (port_taken_spec (pcb_mem s1) (udp_pcbs s1) (udp_port s1))
    as (b & Hb & Hiff).
  { intros p Hp. by apply (pcbs_ok_lookup s1). }
  rewrite udp_new_port_again_S.
  change (port_taken (pcb_mem s) (udp_pcbs s) (udp_port_step (udp_port s))
          = Some b) in Hb.
  rewrite Hb. cbn [mbind option_bind]. fold s1.
  change (udp_port_step (udp_port s)) with (udp_port s1).
  destruct b.
  - assert (Hn1 : u16 (n + 1) = n + 1).
    { unfold u16, UDP_LOCAL_PORT_RANGE_END, UDP_LOCAL_PORT_RANGE_START in *.
      apply Z.mod_small. lia. }
    rewrite Hn1.
    destruct (Z.gtb_spec (n + 1)
                (UDP_LOCAL_PORT_RANGE_END - UDP_LOCAL_PORT_RANGE_START))
      as [Hgt|Hle].
    + exists 0, s1. repeat split; auto.
    + destruct (IH (n + 1) s1) as (port & s' & Hrun & Hl & Hm & Hp' & Hres & Hfull);
        [done|done|lia|lia|].
      exists port, s'. repeat split; auto.
  - exists (udp_port s1), s1. repeat split; auto.
    + right. split; [exact Hr1|].
      intros p Hp (pcb & Hpcb & Hlp).
      assert (false = true); [|done].
      apply Hiff. by exists p, pcb.
    + intros Hfull. destruct (Hfull (udp_port s1) Hr1) as (p & Hp & pcb & Hpcb & Hlp).
      assert (false = true); [|done].
      apply Hiff. by exists p, pcb.
Qed.

Lemma udp_new_port_spec s :
  pcbs_ok s = true -> udp_port_ok s = true ->
  exists port s',
    udp_new_port s = Some (port, s')
    /\ udp_pcbs s' = udp_pcbs s /\ pcb_mem s' = pcb_mem s
    /\ udp_port_ok s' = true
    /\ (port = 0
        \/ (UDP_LOCAL_PORT_RANGE_START <= port <= UDP_LOCAL_PORT_RANGE_END
            /\ forall p, p ∈ udp_pcbs s -> ~ holds_port s p port))
    /\ ((forall q, UDP_LOCAL_PORT_RANGE_START <= q <= UDP_LOCAL_PORT_RANGE_END ->
          exists p, p ∈ udp_pcbs s /\ holds_port s p q) -> port = 0).
Proof.
  intros Hok Hport. apply udp_new_port_again_spec; auto.
  - unfold UDP_LOCAL_PORT_RANGE_END, UDP_LOCAL_PORT_RANGE_START. lia.
  - unfold udp_new_port_fuel, UDP_LOCAL_PORT_RANGE_END,
      UDP_LOCAL_PORT_RANGE_START. lia.
Qed.
End UdpPorts.

(** The search gives up only when the whole range is taken. *)

Section UdpPortsFull.
Import Udp.
Context `{PcbMacros}.

(** The candidate after [i] steps: the search walks the range
    cyclically. *)
Lemma udp_port_step_iter port i :
  UDP_LOCAL_PORT_RANGE_START <= port <= UDP_LOCAL_PORT_RANGE_END ->
  Nat.iter i udp_port_step port
  = UDP_LOCAL_PORT_RANGE_START
    + (port - UDP_LOCAL_PORT_RANGE_START + Z.of_nat i) mod 16384.
Proof.
  intros Hr. unfold UDP_LOCAL_PORT_RANGE_START, UDP_LOCAL_PORT_RANGE_END in *.
  induction i as [|i IH].
  - change (Nat.iter 0 udp_port_step port) with port.
    change (Z.of_nat 0) with 0.
    rewrite Z.add_0_r. rewrite Z.mod_small by lia. lia.
  - rewrite Nat.iter_succ, IH.
    pose proof (Z.mod_pos_bound (port - 49152 + Z.of_nat i) (16384)
                  ltac:(lia)) as Hm.
    replace (port - 49152 + Z.of_nat (S i))
      with ((port - 49152 + Z.of_nat i) + 1) by lia.
    rewrite <- (Zplus_mod_idemp_l (port - 49152 + Z.of_nat i)).
    set (r := (port - 49152 + Z.of_nat i) mod 16384) in *.
    unfold udp_port_step, UDP_LOCAL_PORT_RANGE_START,
      UDP_LOCAL_PORT_RANGE_END, u16.
    destruct (Z.eqb_spec (49152 + r) 65535) as [He|Hne].
    + replace (r + 1) with (16384) by lia. rewrite Z.mod_same by lia. lia.
    + rewrite (Z.mod_small (r + 1)) by lia. rewrite Z.mod_small by lia. lia.
Qed.

(** When the search gives up, it has seen an endpoint on each of the
    candidates that were left to try. *)
Lemma udp_new_port_again_full fuel : forall n s s',
  pcbs_ok s = true ->
  UDP_LOCAL_PORT_RANGE_START <= udp_port s <= UDP_LOCAL_PORT_RANGE_END ->
  0 <= n <= UDP_LOCAL_PORT_RANGE_END - UDP_LOCAL_PORT_RANGE_START ->
  udp_new_port_again fuel n s = Some (0, s') ->
  forall i, (1 <= i)%nat ->
    Z.of_nat i
    <= UDP_LOCAL_PORT_RANGE_END - UDP_LOCAL_PORT_RANGE_START + 1 - n ->
    exists p, p ∈ udp_pcbs s
              /\ holds_port s p (Nat.iter i udp_port_step (udp_port s)).
Proof.
  induction fuel as [|fuel IH]; intros n s s' Hok Hr Hn Hrun i Hi1 Hi2;
    [done|].
  rewrite udp_new_port_again_S in Hrun.
  pose proof (udp_port_step_range _ Hr) as Hr1.
  destruct (port_taken_spec (pcb_mem s) (udp_pcbs s)
              (udp_port_step (udp_port s))) as (b & Hb & Hiff).
  { intros p Hp. by apply (pcbs_ok_lookup s). }
  rewrite Hb in Hrun. cbn [mbind option_bind] in Hrun.
  destruct b; cycle 1.
  { injection Hrun as Hz _.
    unfold UDP_LOCAL_PORT_RANGE_START in Hr1. lia. }
  assert (Hfirst : exists p, p ∈ udp_pcbs s
                      /\ holds_port s p (udp_port_step (udp_port s))).
  { destruct (proj1 Hiff eq_refl) as (p & pcb & Hin & Hp & Hlp).
    exists p. split; [done|]. by exists pcb. }
  assert (Hn1 : u16 (n + 1) = n + 1).
  { unfold u16, UDP_LOCAL_PORT_RANGE_END, UDP_LOCAL_PORT_RANGE_START in *.
    apply Z.mod_small. lia. }
  rewrite Hn1 in Hrun.
  destruct i as [|i]; [lia|].
  destruct i as [|i]; [exact Hfirst|].
  destruct (Z.gtb_spec (n + 1)
              (UDP_LOCAL_PORT_RANGE_END - UDP_LOCAL_PORT_RANGE_START))
    as [Hgt|Hle]; [lia|].
  rewrite Nat.iter_succ_r.
  apply (IH (n + 1) (with_udp_port s (udp_port_step (udp_port s))) s');
    [done|done|lia|done|lia|lia].
Qed.

(** A search that gives up has found every port of the range taken. *)
Lemma udp_new_port_full s s' :
  pcbs_ok s = true -> udp_port_ok s = true ->
  udp_new_port s = Some (0, s') ->
  forall q, UDP_LOCAL_PORT_RANGE_START <= q <= UDP_LOCAL_PORT_RANGE_END ->
    exists p, p ∈ udp_pcbs s /\ holds_port s p q.
Proof.
  intros Hok Hport. unfold udp_new_port. intros Hrun q Hq.
  assert (Hr : UDP_LOCAL_PORT_RANGE_START <= udp_port s
               <= UDP_LOCAL_PORT_RANGE_END).
  { unfold udp_port_ok in Hport. apply andb_true_iff in Hport as [H1 H2].
    apply Z.leb_le in H1, H2. lia. }
  set (d := (q - udp_port s) mod 16384).
  pose proof (Z.mod_pos_bound (q - udp_port s) (16384) ltac:(lia)) as Hd.
  fold d in Hd.
  set (i := if d =? 0 then 16384 else d).
  assert (Hi : 1 <= i <= 16384) by (unfold i; destruct (Z.eqb_spec d 0); lia).
  destruct (udp_new_port_again_full udp_new_port_fuel 0 s s' Hok Hr
              ltac:(unfold UDP_LOCAL_PORT_RANGE_START,
                      UDP_LOCAL_PORT_RANGE_END; lia) Hrun (Z.to_nat i))
    as (p & Hin & Hheld).
  { lia. }
  { unfold UDP_LOCAL_PORT_RANGE_START, UDP_LOCAL_PORT_RANGE_END. lia. }
  exists p. split; [done|].
  rewrite udp_port_step_iter in Hheld by done.
  replace (UDP_LOCAL_PORT_RANGE_START
           + (udp_port s - UDP_LOCAL_PORT_RANGE_START
              + Z.of_nat (Z.to_nat i)) mod 16384) with q in Hheld; [done|].
  rewrite Z2Nat.id by lia.
  assert (Hmod : (udp_port s - UDP_LOCAL_PORT_RANGE_START + i) mod 16384
                 = (q - UDP_LOCAL_PORT_RANGE_START) mod 16384).
  { unfold i. destruct (Z.eqb_spec d 0) as [Hz|Hnz].
    - replace (udp_port s - UDP_LOCAL_PORT_RANGE_START + 16384)
        with (udp_port s - UDP_LOCAL_PORT_RANGE_START + 1 * 16384) by lia.
      rewrite Z.mod_add by lia.
      replace (q - UDP_LOCAL_PORT_RANGE_START)
        with ((q - udp_port s)
              + (udp_port s - UDP_LOCAL_PORT_RANGE_START)) by lia.
      rewrite <- (Zplus_mod_idemp_l (q - udp_port s)). fold d.
      rewrite Hz. done.
    - unfold d. rewrite Z.add_comm, Zplus_mod_idemp_l. f_equal. lia. }
  rewrite Hmod.
  unfold UDP_LOCAL_PORT_RANGE_START, UDP_LOCAL_PORT_RANGE_END in *.
  rewrite Z.mod_small by lia. lia.
Qed.
End UdpPortsFull.


Section UdpBindEphemeral.
Import Udp.
Context `{PcbMacros}.

Lemma on_list_elem_of pcb l : on_list pcb l = true <-> pcb ∈ l.
Proof.
  induction l as [|q l IH]; simpl.
  - split; [done|]. intros Hin. by apply elem_of_nil in Hin.
  - rewrite elem_of_cons. destruct (Pos.eqb_spec pcb q) as [->|Hne].
    + tauto.
    + rewrite IH. split; [tauto|]. intros [?|?]; done.
Qed.
(** C3.  A bind with port 0 returns: the search for a port, run for as
    many turns as the range has ports, has an answer.  On success the
    endpoint's port lies in [49152, 65535], no other endpoint of the list
    has it, and the endpoint is on the list.  Otherwise the status is
    ERR_USE and neither the list nor any endpoint has changed; and this
    happens exactly when every port of the range is the local port of a
    linked endpoint: while a port of the range is free, the bind
    succeeds. *)
Theorem udp_bind_ephemeral_port (s : UdpState) (pcb : pcb_ptr)
        (ipaddr : option IpAddr) :
  pcbs_ok s = true -> udp_port_ok s = true ->
  is_Some (pcb_mem s !! pcb) ->
  exists err s',
    udp_bind pcb ipaddr 0 s = Some (err, s')
    /\ is_Some (udp_new_port_again
                  (Z.to_nat (UDP_LOCAL_PORT_RANGE_END
                             - UDP_LOCAL_PORT_RANGE_START + 1)) 0 s)
    /\ (err = ERR_OK \/ err = ERR_USE)
    /\ (err = ERR_OK ->
        pcb ∈ udp_pcbs s'
        /\ exists port,
            holds_port s' pcb port
            /\ UDP_LOCAL_PORT_RANGE_START <= port <= UDP_LOCAL_PORT_RANGE_END
            /\ forall p, p ∈ udp_pcbs s' -> p <> pcb ->
                         ~ holds_port s' p port)
    /\ (err = ERR_USE ->
        udp_pcbs s' = udp_pcbs s /\ pcb_mem s' = pcb_mem s)
    /\ (err = ERR_USE <->
        forall q, UDP_LOCAL_PORT_RANGE_START <= q <= UDP_LOCAL_PORT_RANGE_END ->
                  exists p, p ∈ udp_pcbs s /\ holds_port s p q).
Proof.
  intros Hok Hport [me Hme].
  destruct (udp_new_port_spec s Hok Hport)
    as (port & s1 & Hrun & Hl & Hm & Hp1 & Hres & Hfull).
  assert (Hbound : is_Some (udp_new_port_again
                              (Z.to_nat (UDP_LOCAL_PORT_RANGE_END
                                         - UDP_LOCAL_PORT_RANGE_START + 1)) 0 s)).
  { destruct (udp_new_port_again_spec
                (Z.to_nat (UDP_LOCAL_PORT_RANGE_END
                           - UDP_LOCAL_PORT_RANGE_START + 1)) 0 s Hok Hport)
      as (port' & s1' & Hrun' & _).
    - unfold UDP_LOCAL_PORT_RANGE_END, UDP_LOCAL_PORT_RANGE_START. lia.
    - unfold UDP_LOCAL_PORT_RANGE_END, UDP_LOCAL_PORT_RANGE_START. lia.
    - rewrite Hrun'. eauto. }
  unfold udp_bind. rewrite Z.eqb_refl, Hrun. cbn [mbind option_bind].
  assert (Hgave_up : port = 0 ->
            forall q, UDP_LOCAL_PORT_RANGE_START <= q
                      <= UDP_LOCAL_PORT_RANGE_END ->
                      exists p, p ∈ udp_pcbs s /\ holds_port s p q).
  { intros Hz. rewrite Hz in Hrun.
    exact (udp_new_port_full s s1 Hok Hport Hrun). }
  clear Hrun. revert Hbound.
  generalize (udp_new_port_again
                (Z.to_nat (UDP_LOCAL_PORT_RANGE_END
                           - UDP_LOCAL_PORT_RANGE_START + 1)) 0 s).
  intros run Hbound.
  destruct (port =? 0) eqn:E.
  - apply Z.eqb_eq in E. exists ERR_USE, s1.
    split; [done|]. split; [exact Hbound|].
    split; [by right|].
    split; [done|]. split; [done|]. split; [intros _; by apply Hgave_up|done].
  - apply Z.eqb_neq in E. destruct Hres as [?|[Hrange Hfree]]; [done|].
    unfold udp_bind_commit. rewrite Hm, Hme. cbn [mbind option_bind].
    set (me' := set_local me (bind_addr ipaddr) port).
    set (s2 := if on_list pcb (udp_pcbs s) then with_pcb s1 pcb me'
               else with_udp_pcbs (with_pcb s1 pcb me') (pcb :: udp_pcbs s1)).
    exists ERR_OK, s2. split; [reflexivity|].
    split; [exact Hbound|]. split; [by left|].
    split; [|split; [done|split; [done|intros Hall; by apply Hfull in Hall]]].
    intros _.
    assert (Hin : forall p, p ∈ udp_pcbs s2 -> p = pcb \/ p ∈ udp_pcbs s).
    { intros p. unfold s2. destruct (on_list pcb (udp_pcbs s)); simpl; rewrite Hl.
      - by right.
      - rewrite elem_of_cons. tauto. }
    assert (Hmem : pcb_mem s2 = <[pcb := me']> (pcb_mem s)).
    { unfold s2. destruct (on_list pcb (udp_pcbs s)); simpl; by rewrite Hm. }
    split.
    + unfold s2. destruct (on_list pcb (udp_pcbs s)) eqn:Eon; simpl.
      * rewrite Hl. by apply on_list_elem_of.
      * by left.
    + exists port. split; [|split; [done|]].
      * exists me'. rewrite Hmem. by rewrite lookup_insert_eq.
      * intros p Hp Hne (o & Ho & Hlp).
        destruct (Hin p Hp) as [?|Hp']; [done|].
        rewrite Hmem, lookup_insert_ne in Ho by done.
        apply (Hfree p Hp'). by exists o.
Qed.
End UdpBindEphemeral.

(** C3 on the table [bound_pair]: endpoint 3 asks for an ephemeral port
    while endpoint 1 holds the first candidate.  Port 50000 is free, so
    the bind succeeds. *)
Lemma udp_bind_ephemeral_port_witness :
  pcbs_ok Scenarios.bound_pair = true
  /\ udp_port_ok Scenarios.bound_pair = true
  /\ is_Some (Udp.pcb_mem Scenarios.bound_pair !! 3%positive)
  /\ exists s',
      Udp.udp_bind 3%positive None 0 Scenarios.bound_pair
      = Some (ERR_OK, s').
Proof.
  assert (H1 : pcbs_ok Scenarios.bound_pair = true) by (vm_compute; reflexivity).
  assert (H2 : udp_port_ok Scenarios.bound_pair = true) by reflexivity.
  assert (H3 : is_Some (Udp.pcb_mem Scenarios.bound_pair !! 3%positive))
    by (eexists; reflexivity).
  split; [exact H1|]. split; [exact H2|]. split; [exact H3|].
  destruct (udp_bind_ephemeral_port Scenarios.bound_pair 3%positive None H1 H2 H3)
    as (err & s' & Hrun & _ & Herr & _ & _ & Hfull).
  exists s'. destruct Herr as [-> | ->]; [exact Hrun|].
  destruct (proj1 Hfull eq_refl 50000) as (p & Hin & pcb & Hp & Hlp).
  { unfold Udp.UDP_LOCAL_PORT_RANGE_START, Udp.UDP_LOCAL_PORT_RANGE_END. lia. }
  apply elem_of_cons in Hin as [-> | Hin].
  - injection Hp as <-. discriminate Hlp.
  - apply list_elem_of_singleton in Hin as ->.
    injection Hp as <-. discriminate Hlp.
Defined.

(** On [bound_pair] the port chosen for endpoint 3 is 49154: 49153 is
    taken by endpoint 1. *)
Example udp_bind_ephemeral_port_run :
  (fun r => match r with
            | Some (err, s') =>
                (err, Udp.udp_port s', Udp.udp_pcbs s',
                 Udp.local_port <$> Udp.pcb_mem s' !! 3%positive)
            | None => (ERR_ARG, 0, [], None)
            end)
    (Udp.udp_bind 3%positive None 0 Scenarios.bound_pair)
  = (ERR_OK, 49154, [3; 2; 1]%positive, Some 49154).
Proof. vm_compute. reflexivity. Qed.

Section UdpBindTwice.
Import Udp.
Context `{PcbMacros}.

(** A port the search returns, other than 0, is one the scan found on no
    linked endpoint. *)
Lemma udp_new_port_again_free fuel n s port s' :
  udp_new_port_again fuel n s = Some (port, s') -> port <> 0 ->
  udp_pcbs s' = udp_pcbs s /\ pcb_mem s' = pcb_mem s
  /\ port_taken (pcb_mem s) (udp_pcbs s) port = Some false.
Proof.
  revert n s. induction fuel as [|fuel IH]; intros n s Hrun Hne; [done|].
  rewrite udp_new_port_again_S in Hrun.
  destruct (port_taken (pcb_mem s) (udp_pcbs s) (udp_port_step (udp_port s)))
    as [[|]|] eqn:E; cbn [mbind option_bind] in Hrun; [| |done].
  - destruct (u16 (n + 1) >? UDP_LOCAL_PORT_RANGE_END - UDP_LOCAL_PORT_RANGE_START).
    + injection Hrun as <- <-. done.
    + by apply IH in Hrun.
  - injection Hrun as <- <-. done.
Qed.

Lemma udp_new_port_free s port s' :
  udp_new_port s = Some (port, s') -> port <> 0 ->
  udp_pcbs s' = udp_pcbs s /\ pcb_mem s' = pcb_mem s
  /\ port_taken (pcb_mem s) (udp_pcbs s) port = Some false.
Proof. apply udp_new_port_again_free. Qed.

(** An endpoint's own entry and its own address and port play no part in
    the clash test. *)
Lemma bind_clash_insert mem pcb me me' ipaddr port l :
  mem !! pcb = Some me -> so_options me' = so_options me ->
  bind_clash (<[pcb := me']> mem) pcb ipaddr port l
  = bind_clash mem pcb ipaddr port l.
Proof.
  intros Hme Hopt. induction l as [|ipcb l IH]; [done|]. simpl.
  destruct (Pos.eqb_spec pcb ipcb) as [->|Hne]; [done|].
  rewrite lookup_insert_eq, lookup_insert_ne, Hme by done.
  cbn [mbind option_bind]. destruct (mem !! ipcb) as [other|]; [|done].
  cbn [mbind option_bind]. unfold ip_get_option. rewrite Hopt, IH. done.
Qed.

Lemma bind_clash_skip mem pcb ipaddr port l :
  bind_clash mem pcb ipaddr port (pcb :: l) = bind_clash mem pcb ipaddr port l.
Proof. simpl. by rewrite Pos.eqb_refl. Qed.

(** A port no linked endpoint has clashes with none of them. *)
Lemma bind_clash_port_free mem pcb ipaddr port l :
  is_Some (mem !! pcb) ->
  port_taken mem l port = Some false ->
  bind_clash mem pcb ipaddr port l = Some false.
Proof.
  intros [me Hme]. induction l as [|ipcb l IH]; [done|]. simpl.
  destruct (mem !! ipcb) as [other|] eqn:Eo; [|done]. cbn [mbind option_bind].
  destruct (local_port other =? port) eqn:E; [done|]. intros Hfree.
  destruct (Pos.eqb_spec pcb ipcb) as [->|Hne]; [by apply IH|].
  rewrite Hme. cbn [mbind option_bind].
  rewrite andb_false_l, andb_false_r. by apply IH.
Qed.

Lemma set_local_idem (me : UdpPcb) ip port :
  set_local (set_local me ip port) ip port = set_local me ip port.
Proof. done. Qed.

(** What a successful commit leaves. *)
Lemma udp_bind_commit_ok pcb ipaddr port rebind s s1 err :
  udp_bind_commit pcb ipaddr port rebind s = Some (err, s1) ->
  exists me,
    pcb_mem s !! pcb = Some me /\ err = ERR_OK
    /\ s1 = mkUdpState (udp_port s)
                       (if rebind then udp_pcbs s else pcb :: udp_pcbs s)
                       (<[pcb := set_local me ipaddr port]> (pcb_mem s)).
Proof.
  unfold udp_bind_commit. destruct (pcb_mem s !! pcb) as [me|]; [|done].
  cbn [mbind option_bind]. intros [= <- <-]. exists me.
  split; [done|]. split; [done|]. by destruct rebind.
Qed.

(** A commit on the state an identical commit has left changes nothing. *)
Lemma udp_bind_commit_again pcb ipaddr port me s :
  pcb_mem s !! pcb = Some (set_local me ipaddr port) ->
  udp_bind_commit pcb ipaddr port true s = Some (ERR_OK, s).
Proof.
  intros Hme. unfold udp_bind_commit. rewrite Hme. cbn [mbind option_bind].
  rewrite set_local_idem. unfold with_pcb. rewrite insert_id by done.
  by destruct s.
Qed.

(** C8.  After a bind that succeeded, the endpoint is on the list, its
    local address is the one asked for (zoned, where bind assigns a zone:
    the very address asked for when that is IPv4, or IPv6 with its zone or
    without scope) and its local port is the one asked for (the ephemeral
    one chosen, when 0 was asked for).  Binding the endpoint to this
    address and port again succeeds and leaves the endpoint list and every
    endpoint as they are, so the endpoint is not linked a second time: a
    list without repetition stays without repetition. *)
Theorem udp_bind_idempotent (s s1 : UdpState) (pcb : pcb_ptr)
        (ipaddr : option IpAddr) (port : Z) :
  udp_bind pcb ipaddr port s = Some (ERR_OK, s1) ->
  exists me,
    pcb_mem s1 !! pcb = Some me
    /\ local_ip me = bind_addr ipaddr
    /\ (forall ip, ipaddr = Some ip ->
                   IP_IS_V6 ip && ip6_addr_lacks_zone (ip_2_ip6 ip) IP6_UNKNOWN
                   = false ->
                   local_ip me = ip)
    /\ (port <> 0 -> local_port me = port)
    /\ local_port me <> 0
    /\ udp_bind pcb ipaddr (local_port me) s1 = Some (ERR_OK, s1)
    /\ pcb ∈ udp_pcbs s1
    /\ (NoDup (udp_pcbs s) -> NoDup (udp_pcbs s1)).
Proof.
  unfold udp_bind at 1.
  destruct (Z.eqb_spec port 0) as [->|Hport].
  - destruct (udp_new_port s) as [[port s0]|] eqn:Hnew; [|done].
    cbn [mbind option_bind].
    destruct (Z.eqb_spec port 0) as [->|Hport]; [done|].
    intros Hcommit.
    apply udp_new_port_free in Hnew as (Hl & Hm & Hfree); [|done].
    apply udp_bind_commit_ok in Hcommit as (me & Hme & _ & ->).
    rewrite Hl, Hm in *. clear Hl Hm.
    exists (set_local me (bind_addr ipaddr) port). simpl.
    split; [by rewrite lookup_insert_eq|]. split; [done|].
    split.
    { intros ip -> Hz. unfold bind_addr. simpl. by rewrite Hz. }
    split; [done|]. split; [done|].
    assert (Hon : on_list pcb (if on_list pcb (udp_pcbs s) then udp_pcbs s
                               else pcb :: udp_pcbs s) = true).
    { destruct (on_list pcb (udp_pcbs s)) eqn:E; [done|]. simpl.
      by rewrite Pos.eqb_refl. }
    split; [|split].
    + unfold udp_bind. simpl. rewrite Hon.
      destruct (Z.eqb_spec port 0) as [?|_]; [done|].
      assert (Hclash : bind_clash
                (<[pcb := set_local me (bind_addr ipaddr) port]> (pcb_mem s))
                pcb (bind_addr ipaddr) port
                (if on_list pcb (udp_pcbs s) then udp_pcbs s
                 else pcb :: udp_pcbs s) = Some false).
      { assert (Hbase : bind_clash
                  (<[pcb := set_local me (bind_addr ipaddr) port]> (pcb_mem s))
                  pcb (bind_addr ipaddr) port (udp_pcbs s) = Some false).
        { rewrite (bind_clash_insert _ _ me) by done.
          by apply bind_clash_port_free. }
        destruct (on_list pcb (udp_pcbs s)); [done|].
        by rewrite bind_clash_skip. }
      rewrite Hclash. cbn [mbind option_bind].
      apply (udp_bind_commit_again _ _ _ me). simpl. by rewrite lookup_insert_eq.
    + by apply on_list_elem_of.
    + intros Hnd. destruct (on_list pcb (udp_pcbs s)) eqn:E; [done|].
      apply NoDup_cons. split; [|done].
      intros Hin. apply on_list_elem_of in Hin. congruence.
  - destruct (bind_clash (pcb_mem s) pcb (bind_addr ipaddr) port (udp_pcbs s))
      as [[|]|] eqn:Hclash; cbn [mbind option_bind]; [done| |done].
    intros Hcommit.
    apply udp_bind_commit_ok in Hcommit as (me & Hme & _ & ->).
    exists (set_local me (bind_addr ipaddr) port). simpl.
    split; [by rewrite lookup_insert_eq|]. split; [done|].
    split.
    { intros ip -> Hz. unfold bind_addr. simpl. by rewrite Hz. }
    split; [done|]. split; [done|].
    assert (Hon : on_list pcb (if on_list pcb (udp_pcbs s) then udp_pcbs s
                               else pcb :: udp_pcbs s) = true).
    { destruct (on_list pcb (udp_pcbs s)) eqn:E; [done|]. simpl.
      by rewrite Pos.eqb_refl. }
    split; [|split].
    + unfold udp_bind. simpl. rewrite Hon.
      destruct (Z.eqb_spec port 0) as [?|_]; [done|].
      assert (Hclash' : bind_clash
                (<[pcb := set_local me (bind_addr ipaddr) port]> (pcb_mem s))
                pcb (bind_addr ipaddr) port
                (if on_list pcb (udp_pcbs s) then udp_pcbs s
                 else pcb :: udp_pcbs s) = Some false).
      { assert (Hbase : bind_clash
                  (<[pcb := set_local me (bind_addr ipaddr) port]> (pcb_mem s))
                  pcb (bind_addr ipaddr) port (udp_pcbs s) = Some false).
        { by rewrite (bind_clash_insert _ _ me). }
        destruct (on_list pcb (udp_pcbs s)); [done|].
        by rewrite bind_clash_skip. }
      rewrite Hclash'. cbn [mbind option_bind].
      apply (udp_bind_commit_again _ _ _ me). simpl. by rewrite lookup_insert_eq.
    + by apply on_list_elem_of.
    + intros Hnd. destruct (on_list pcb (udp_pcbs s)) eqn:E; [done|].
      apply NoDup_cons. split; [|done].
      intros Hin. apply on_list_elem_of in Hin. congruence.
Qed.
End UdpBindTwice.

(** C8 on the table [bound_pair]: endpoint 3 is bound to 192.0.2.3, port
    6000, which gives [bound_triple], and bound to them once more. *)
Lemma udp_bind_idempotent_witness :
  Udp.udp_bind 3%positive (Some (Host.v4 192 0 2 3)) 6000 Scenarios.bound_pair
  = Some (ERR_OK, Scenarios.bound_triple)
  /\ Udp.udp_bind 3%positive (Some (Host.v4 192 0 2 3)) 6000
                  Scenarios.bound_triple
     = Some (ERR_OK, Scenarios.bound_triple).
Proof.
  assert (H1 : Udp.udp_bind 3%positive (Some (Host.v4 192 0 2 3)) 6000
                            Scenarios.bound_pair
               = Some (ERR_OK, Scenarios.bound_triple))
    by reflexivity.
  split; [exact H1|].
  destruct (udp_bind_idempotent _ _ _ _ _ H1)
    as (me & Hme & _ & _ & Hport & _ & Hagain & _).
  rewrite (Hport ltac:(lia)) in Hagain. exact Hagain.
Defined.

Section UdpAddrChanged.
Import Udp.
Context `{PcbMacros}.

(** The rewrite an endpoint undergoes when the loop visits it. *)
Lemma udp_netif_ip_addr_changed_loop_spec old_addr new_addr l mem :
  NoDup l -> (forall p, p ∈ l -> is_Some (mem !! p)) ->
  exists mem',
    udp_netif_ip_addr_changed_loop old_addr new_addr l mem = Some mem'
    /\ forall p,
        mem' !! p
        = if bool_decide (p ∈ l)
          then (fun pcb => if compare_ip_addr (local_ip pcb) old_addr
                           then set_local_ip pcb new_addr else pcb)
                 <$> mem !! p
          else mem !! p.
Proof.
  revert mem. induction l as [|p0 l IH]; intros mem Hnd Hall.
  - exists mem. split; [done|]. intros p.
    rewrite bool_decide_eq_false_2; [done|]. apply not_elem_of_nil.
  - apply NoDup_cons in Hnd as [Hp0 Hnd].
    destruct (Hall p0) as [pcb0 Hpcb0]; [by left|].
    cbn [udp_netif_ip_addr_changed_loop]. rewrite Hpcb0.
    cbn [mbind option_bind].
    set (mem1 := if compare_ip_addr (local_ip pcb0) old_addr
                 then <[p0 := set_local_ip pcb0 new_addr]> mem else mem).
    assert (Hmem1 : forall p, p <> p0 -> mem1 !! p = mem !! p).
    { intros p Hne. unfold mem1.
      destruct (compare_ip_addr (local_ip pcb0) old_addr); [|done].
      by rewrite lookup_insert_ne. }
    assert (Hmem1' : mem1 !! p0
                     = Some (if compare_ip_addr (local_ip pcb0) old_addr
                             then set_local_ip pcb0 new_addr else pcb0)).
    { unfold mem1. destruct (compare_ip_addr (local_ip pcb0) old_addr); [|done].
      by rewrite lookup_insert_eq. }
    destruct (IH mem1 Hnd) as (mem' & Hrun & Hmem').
    { intros p Hp. rewrite Hmem1; [apply Hall; by right|].
      intros ->. done. }
    exists mem'. split; [done|]. intros p. rewrite Hmem'.
    destruct (decide (p = p0)) as [->|Hne].
    + rewrite (bool_decide_eq_false_2 (p0 ∈ l)) by done.
      rewrite (bool_decide_eq_true_2 (p0 ∈ p0 :: l)) by (by left).
      by rewrite Hmem1', Hpcb0.
    + rewrite Hmem1 by done.
      destruct (decide (p ∈ l)) as [Hin|Hnin].
      * rewrite !bool_decide_eq_true_2; [done|by right|done].
      * rewrite !bool_decide_eq_false_2; [done| |done].
        rewrite elem_of_cons. tauto.
Qed.

(** C10.  When neither address is "any", an address change gives the new
    address to the linked endpoints whose local address compares equal to
    the old one, and changes nothing else: not their local port, remote
    address and port, flags, options, bound interface or callback, not the
    other endpoints, not the list.  When one of the addresses is "any",
    nothing changes at all. *)
Theorem udp_netif_ip_addr_changed_frame (old_addr new_addr : IpAddr)
        (s : UdpState) :
  pcbs_ok s = true ->
  exists s',
    udp_netif_ip_addr_changed old_addr new_addr s = Some s'
    /\ udp_port s' = udp_port s /\ udp_pcbs s' = udp_pcbs s
    /\ (is_ip_addr_any old_addr || is_ip_addr_any new_addr = true -> s' = s)
    /\ (forall p, pcb_mem s !! p = None -> pcb_mem s' !! p = None)
    /\ forall p pcb, pcb_mem s !! p = Some pcb ->
        exists pcb',
          pcb_mem s' !! p = Some pcb'
          /\ local_ip pcb'
             = (if negb (is_ip_addr_any old_addr)
                   && negb (is_ip_addr_any new_addr)
                   && bool_decide (p ∈ udp_pcbs s)
                   && compare_ip_addr (local_ip pcb) old_addr
                then new_addr else local_ip pcb)
          /\ local_port pcb' = local_port pcb
          /\ remote_ip pcb' = remote_ip pcb
          /\ remote_port pcb' = remote_port pcb
          /\ flags pcb' = flags pcb
          /\ so_options pcb' = so_options pcb
          /\ netif_idx pcb' = netif_idx pcb
          /\ tos pcb' = tos pcb /\ ttl pcb' = ttl pcb
          /\ mcast_ttl pcb' = mcast_ttl pcb
          /\ chksum_len_tx pcb' = chksum_len_tx pcb
          /\ recv pcb' = recv pcb.
Proof.
  intros Hok. unfold udp_netif_ip_addr_changed.
  destruct (is_ip_addr_any old_addr) eqn:Eold; simpl.
  { exists s. repeat split; try done. intros p pcb Hp. exists pcb.
    repeat split; done. }
  destruct (is_ip_addr_any new_addr) eqn:Enew; simpl.
  { exists s. repeat split; try done. intros p pcb Hp. exists pcb.
    repeat split; done. }
  destruct (udp_netif_ip_addr_changed_loop_spec old_addr new_addr
              (udp_pcbs s) (pcb_mem s)) as (mem' & Hrun & Hmem').
  { by apply pcbs_ok_NoDup. }
  { intros p. by apply pcbs_ok_lookup. }
  rewrite Hrun. cbn [mbind option_bind]. eexists. split; [reflexivity|].
  split; [done|]. split; [done|]. split; [done|]. simpl. split.
  - intros p Hp. rewrite Hmem', Hp. by destruct (bool_decide _).
  - intros p pcb Hp. rewrite Hmem', Hp.
    destruct (bool_decide (p ∈ udp_pcbs s)); simpl.
    + destruct (compare_ip_addr (local_ip pcb) old_addr); eexists;
        (split; [reflexivity|]); repeat split; done.
    + exists pcb. repeat split; done.
Qed.
End UdpAddrChanged.

(** C10 on the table [bound_pair], when the interface address changes from
    192.0.2.3 to 192.0.2.9: endpoint 1, bound to the old address, moves;
    endpoint 2, bound to "any", stays. *)
Lemma udp_netif_ip_addr_changed_frame_witness :
  pcbs_ok Scenarios.bound_pair = true
  /\ exists s',
      Udp.udp_netif_ip_addr_changed (Host.v4 192 0 2 3) (Host.v4 192 0 2 9)
        Scenarios.bound_pair = Some s'
      /\ Udp.udp_pcbs s' = Udp.udp_pcbs Scenarios.bound_pair.
Proof.
  assert (H1 : pcbs_ok Scenarios.bound_pair = true) by (vm_compute; reflexivity).
  split; [exact H1|].
  destruct (udp_netif_ip_addr_changed_frame (H := Host.platform)
              (Host.v4 192 0 2 3) (Host.v4 192 0 2 9) Scenarios.bound_pair H1)
    as (s' & Hrun & _ & Hl & _).
  exists s'. split; [exact Hrun|exact Hl].
Defined.

Example udp_netif_ip_addr_changed_run :
  (fun r => match r with
            | Some s' => (Udp.local_ip <$> Udp.pcb_mem s' !! 1%positive,
                          Udp.local_ip <$> Udp.pcb_mem s' !! 2%positive)
            | None => (None, None)
            end)
    (Udp.udp_netif_ip_addr_changed (Host.v4 192 0 2 3) (Host.v4 192 0 2 9)
       Scenarios.bound_pair)
  = (Some (Host.v4 192 0 2 9), Some (Host.v4 0 0 0 0)).
Proof. vm_compute. reflexivity. Qed.

(** * The checksum of a datagram sent *)

Section UdpSendChecksum.
Import Udp.
Context `{PcbMacros}.




End UdpSendChecksum.



(** * Delivery of a received datagram *)

Section UdpInputFanout.
Import Udp.
Context `{PcbMacros}.

(** The demultiplexing loop reorders [udp_pcbs] at most. *)
Lemma udp_input_scan_perm mem ipd inp broadcast sport dport seen l uncon
      found uncon' l1 :
  udp_input_scan mem ipd inp broadcast sport dport seen l uncon
  = Some (found, uncon', l1) ->
  l1 ≡ₚ seen ++ l.
Proof.
  revert seen uncon. induction l as [|pcb l IH]; intros seen uncon; simpl.
  - intros [= <- <- <-]. by rewrite app_nil_r.
  - destruct (mem !! pcb) as [me|]; [|done]. cbn [mbind option_bind].
    destruct (_ && _).
    + destruct (if Z.land (flags me) UDP_FLAGS_CONNECTED =? 0 then _ else _)
        as [uncon1|]; [|done].
      cbn [mbind option_bind].
      destruct (_ && _).
      * intros [= <- <- <-]. destruct seen as [|p0 seen]; [done|].
        by rewrite <- Permutation_middle.
      * intros Hrun. apply IH in Hrun. by rewrite <- app_assoc in Hrun.
    + intros Hrun. apply IH in Hrun. by rewrite <- app_assoc in Hrun.
Qed.

(** The fan-out loop makes, in list order, the deliveries [copy_for]
    describes. *)
Lemma udp_input_fanout_spec mem ipd inp broadcast sport dport clone_ok pcb l :
  (forall p, p ∈ l -> is_Some (mem !! p)) ->
  udp_input_fanout mem ipd inp broadcast sport dport clone_ok pcb l
  = Some (flat_map (copy_for mem ipd inp broadcast sport dport clone_ok pcb) l).
Proof.
  induction l as [|mpcb l IH]; intros Hall; [done|]. simpl.
  destruct (Hall mpcb) as [m Hm]; [by left|]. rewrite Hm.
  cbn [mbind option_bind]. rewrite IH by (intros p Hp; apply Hall; by right).
  cbn [mbind option_bind]. f_equal. f_equal.
  unfold copy_for, local_match. rewrite Hm. cbn [fmap option_fmap option_map].
  rewrite andb_assoc. done.
Qed.

(** C2, as the code has it.  Take a datagram whose endpoint [pcb] (the
    fully matching one, else the unconnected match) has REUSEADDR set, the
    destination being broadcast or multicast.  If the datagram is shorter
    than a UDP header, fails the checksum test or cannot have its header
    removed, [udp_input] frees it and nobody receives anything.  Otherwise
    [udp_input] calls, in the order of the list, the receive callback of
    every other endpoint that is a local match, has a callback and for
    which [pbuf_clone] returned a buffer, each with its own clone; other
    endpoints get nothing.  After these calls the original buffer goes to
    the callback of [pcb], or is freed when [pcb] has none.  The endpoint
    list is reordered at most. *)
Theorem udp_input_reuseaddr_fanout (pbuf_clone_ok : pcb_ptr -> bool)
        (pbuf_remove_header_fails : bool)
        (ipd : IpData) (p : PacketBuffer) (inp : NetIfc) (s : UdpState)
        (found uncon_pcb : option pcb_ptr) (l1 : list pcb_ptr)
        (pcb : pcb_ptr) (me : UdpPcb) :
  let broadcast :=
    ip_addr_isbroadcast (ip_current_dest_addr ipd) (ip_current_netif ipd) in
  let sport := lwip_ntohs (src (udphdr p)) in
  let dport := lwip_ntohs (dest (udphdr p)) in
  pcbs_ok s = true ->
  udp_input_scan (pcb_mem s) ipd inp broadcast sport dport [] (udp_pcbs s) None
  = Some (found, uncon_pcb, l1) ->
  udp_input_pcb found uncon_pcb = Some pcb ->
  pcb_mem s !! pcb = Some me ->
  ip_get_option me SOF_REUSEADDR = true ->
  broadcast || ip_addr_ismulticast (ip_current_dest_addr ipd) = true ->
  l1 ≡ₚ udp_pcbs s
  /\ udp_input pbuf_clone_ok pbuf_remove_header_fails ipd p inp s
     = Some (if p_len p <? UDP_HLEN then (s, [FreePktBuf buf_p])
             else
               (with_udp_pcbs s l1,
                if udp_input_chkerr ipd p inp || pbuf_remove_header_fails
                then [FreePktBuf buf_p]
                else
                  flat_map (copy_for (pcb_mem s) ipd inp broadcast sport
                                     dport pbuf_clone_ok pcb) l1
                  ++ [match recv me with
                      | Some fn =>
                          Recv fn pcb buf_p (ip_current_src_addr ipd) sport
                      | None => FreePktBuf buf_p
                      end])).
Proof.
  intros broadcast sport dport Hok Hscan Hpcb Hme Hreuse Hcast.
  pose proof (udp_input_scan_perm _ _ _ _ _ _ _ _ _ _ _ _ Hscan) as Hperm.
  simpl in Hperm. split; [done|].
  unfold udp_input. fold broadcast sport dport.
  destruct (p_len p <? UDP_HLEN); [done|].
  rewrite Hscan. cbn [mbind option_bind]. rewrite Hpcb.
  destruct (udp_input_chkerr ipd p inp); [done|].
  destruct pbuf_remove_header_fails; [done|]. cbn [orb].
  unfold udp_input_deliver. cbn [pcb_mem with_udp_pcbs udp_pcbs].
  rewrite Hme. cbn [mbind option_bind]. rewrite Hreuse, Hcast. cbn [andb].
  rewrite udp_input_fanout_spec.
  - cbn [mbind option_bind]. by destruct (recv me).
  - intros q Hq. apply (pcbs_ok_lookup s); [done|]. by rewrite <- Hperm.
Qed.
End UdpInputFanout.

(** C2 on the endpoints [listeners]: the multicast datagram [mcast_dgram]
    is cloned for endpoint 2 and then handed to endpoint 1. *)
Lemma udp_input_reuseaddr_fanout_witness :
  Udp.udp_input (fun _ => true) false Scenarios.mcast_ipd
                Scenarios.mcast_dgram Host.eth0
                (Scenarios.listeners (Some 12%positive))
  = Some (Scenarios.listeners (Some 12%positive),
          [Udp.Recv 12%positive 2%positive (Udp.buf_clone 2%positive)
                    (Host.v4 192 0 2 7) 9;
           Udp.Recv 11%positive 1%positive Udp.buf_p (Host.v4 192 0 2 7) 9]).
Proof.
  destruct (udp_input_reuseaddr_fanout (fun _ => true) false
              Scenarios.mcast_ipd Scenarios.mcast_dgram Host.eth0
              (Scenarios.listeners (Some 12%positive))
              None (Some 1%positive) [1; 2]%positive 1%positive
              (Scenarios.reuse_pcb (Some 11%positive))
              eq_refl eq_refl eq_refl eq_refl eq_refl eq_refl)
    as [_ Hrun].
  rewrite Hrun. reflexivity.
Defined.

(** C2 fails as stated.  With the endpoints [listeners] the datagram
    [mcast_dgram] goes to endpoint 1, which has REUSEADDR set, and endpoint
    2 is a local match for it.  Yet endpoint 2 gets no copy when it has no
    receive callback, and none when [pbuf_clone] returns no buffer. *)
Lemma udp_input_match_without_copy :
  Udp.ip_get_option (Scenarios.reuse_pcb (Some 11%positive)) Udp.SOF_REUSEADDR
  = true
  /\ Udp.ip_addr_ismulticast (Udp.ip_current_dest_addr Scenarios.mcast_ipd)
     = true
  /\ local_match (Udp.pcb_mem (Scenarios.listeners None)) Scenarios.mcast_ipd
                 Host.eth0 false 5000 2%positive = true
  /\ Udp.udp_input (fun _ => true) false Scenarios.mcast_ipd
                   Scenarios.mcast_dgram Host.eth0 (Scenarios.listeners None)
     = Some (Scenarios.listeners None,
             [Udp.Recv 11%positive 1%positive Udp.buf_p (Host.v4 192 0 2 7) 9])
  /\ Udp.udp_input (fun _ => false) false Scenarios.mcast_ipd
                   Scenarios.mcast_dgram Host.eth0
                   (Scenarios.listeners (Some 12%positive))
     = Some (Scenarios.listeners (Some 12%positive),
             [Udp.Recv 11%positive 1%positive Udp.buf_p (Host.v4 192 0 2 7) 9]).
Proof. repeat split; reflexivity. Qed.

(** * IGMP: the delay timer *)

Section IgmpTimer.
Import Igmp.
Context `{IgmpEnv}.

(** The tick count [igmp_start_timer] stores. *)
Lemma igmp_start_timer_value lwip_rand group max_time :
  0 <= max_time < 2 ^ 8 ->
  timer (igmp_start_timer lwip_rand group max_time)
  = match lwip_rand with
    | Some r => if max_time >? 2 then Z.max 1 (u32 r mod max_time) else 1
    | None => Z.max 1 (max_time / 2)
    end.
Proof.
  intros Hmax. unfold igmp_start_timer. cbn [timer with_timer].
  destruct lwip_rand as [r|].
  - destruct (Z.gtb_spec max_time 2) as [Hgt|Hle].
    + pose proof (Z.mod_pos_bound (u32 r) max_time ltac:(lia)) as Hmod.
      unfold u16. rewrite Z.mod_small by lia.
      destruct (Z.eqb_spec (u32 r mod max_time) 0) as [->|Hne]; lia.
    + done.
  - assert (0 <= max_time / 2) by (apply Z.div_pos; lia).
    destruct (Z.eqb_spec (max_time / 2) 0) as [->|Hne]; lia.
Qed.

(** C5, as the code has it.  For a bound [max_time] that fits the 8-bit
    parameter, the timer [igmp_start_timer] starts holds at least 1 tick;
    at most [max_time - 1] ticks when the bound exceeds 2, and exactly 1
    tick otherwise.  With a random source it is the random number modulo
    the bound, 1 standing in for 0: each count from 1 to [max_time - 1] can
    come out, 1 from two remainders, the bound itself from none.  Without
    one it is half the bound.  A group that is delaying has its timer
    restarted by [igmp_delaying_member] when the timer is stopped or the
    new bound is below the ticks that remain, and is left as it is
    otherwise. *)
Theorem igmp_start_timer_range (lwip_rand : option Z) (group : IgmpGroup)
        (max_time : Z) :
  0 <= max_time < 2 ^ 8 ->
  let t := timer (igmp_start_timer lwip_rand group max_time) in
  1 <= t
  /\ (2 < max_time -> t <= max_time - 1)
  /\ (max_time <= 2 -> t = 1)
  /\ (forall r, lwip_rand = Some r -> 2 < max_time ->
                t = Z.max 1 (u32 r mod max_time))
  /\ (lwip_rand = None -> t = Z.max 1 (max_time / 2))
  /\ (forall v, 1 <= v <= max_time - 1 -> 2 < max_time ->
                timer (igmp_start_timer (Some v) group max_time) = v)
  /\ (2 < max_time ->
      timer (igmp_start_timer (Some 0) group max_time) = 1
      /\ timer (igmp_start_timer (Some 1) group max_time) = 1)
  /\ (group_state group = IGMP_GROUP_DELAYING_MEMBER ->
      (timer group = 0 \/ max_time < timer group ->
       igmp_delaying_member lwip_rand group max_time
       = with_state (igmp_start_timer lwip_rand group max_time)
                    IGMP_GROUP_DELAYING_MEMBER)
      /\ (timer group <> 0 -> timer group <= max_time ->
          igmp_delaying_member lwip_rand group max_time = group)).
Proof.
  intros Hmax t.
  assert (Ht : t = match lwip_rand with
                   | Some r => if max_time >? 2
                               then Z.max 1 (u32 r mod max_time) else 1
                   | None => Z.max 1 (max_time / 2)
                   end) by (by apply igmp_start_timer_value).
  assert (Hhalf : 2 < max_time -> max_time / 2 <= max_time - 1).
  { intros. apply Z.div_le_upper_bound; lia. }
  assert (Hhalf' : max_time <= 2 -> max_time / 2 <= 1).
  { intros. apply Z.div_le_upper_bound; lia. }
  assert (Hpos : 0 <= max_time / 2) by (apply Z.div_pos; lia).
  split; [|split; [|split; [|split; [|split; [|split; [|split]]]]]].
  - rewrite Ht. destruct lwip_rand; [destruct (max_time >? 2)|]; lia.
  - intros Hgt. rewrite Ht. destruct lwip_rand as [r|].
    + destruct (Z.gtb_spec max_time 2); [|lia].
      pose proof (Z.mod_pos_bound (u32 r) max_time ltac:(lia)). lia.
    + specialize (Hhalf Hgt). lia.
  - intros Hle. rewrite Ht. destruct lwip_rand as [r|].
    + destruct (Z.gtb_spec max_time 2); [lia|done].
    + specialize (Hhalf' Hle). lia.
  - intros r -> Hgt. rewrite Ht. destruct (Z.gtb_spec max_time 2); [done|lia].
  - intros ->. done.
  - intros v Hv Hgt. rewrite igmp_start_timer_value by done.
    destruct (Z.gtb_spec max_time 2); [|lia].
    unfold u32. rewrite (Z.mod_small v (2 ^ 32)) by lia.
    rewrite Z.mod_small by lia. lia.
  - intros Hgt. rewrite !igmp_start_timer_value by done.
    destruct (Z.gtb_spec max_time 2); [|lia].
    unfold u32. rewrite !(Z.mod_small 0), !(Z.mod_small 1) by lia. lia.
  - intros Hst. unfold igmp_delaying_member. rewrite Hst.
    rewrite (bool_decide_eq_false_2 (IGMP_GROUP_DELAYING_MEMBER
                                     = IGMP_GROUP_IDLE_MEMBER)) by done.
    rewrite (bool_decide_eq_true_2 (IGMP_GROUP_DELAYING_MEMBER
                                    = IGMP_GROUP_DELAYING_MEMBER)) by done.
    cbn [orb andb]. split.
    + intros [Hz|Hlt].
      * rewrite Hz. done.
      * destruct (Z.ltb_spec max_time (timer group)); [|lia].
        by rewrite orb_true_r.
    + intros Hnz Hle. destruct (Z.eqb_spec (timer group) 0); [done|].
      destruct (Z.ltb_spec max_time (timer group)); [lia|done].
Qed.
End IgmpTimer.

(** C5 for the join delay of 5 ticks and the random number 12345. *)
Lemma igmp_start_timer_range_witness :
  0 <= 5 < 2 ^ 8
  /\ Igmp.timer (Igmp.igmp_start_timer (Some 12345)
                   (Igmp.mkIgmpGroup Scenarios.group_239 0
                      Igmp.IGMP_GROUP_NON_MEMBER 0 0) 5) <= 4.
Proof.
  assert (H5 : 0 <= 5 < 2 ^ 8) by lia.
  split; [exact H5|].
  destruct (igmp_start_timer_range (Some 12345)
              (Igmp.mkIgmpGroup Scenarios.group_239 0
                 Igmp.IGMP_GROUP_NON_MEMBER 0 0) 5 H5) as (_ & Hle & _).
  apply Hle. lia.
Defined.

(** C5 fails as stated: for a bound of 10 ticks no random number, and no
    build without a random source, makes the timer hold 10 ticks, so the
    counts are not spread over the whole of [1, 10]; and the remainders 0
    and 1 both give 1 tick. *)
Lemma igmp_start_timer_never_bound :
  ~ (exists lwip_rand,
        Igmp.timer (Igmp.igmp_start_timer lwip_rand
                      (Igmp.mkIgmpGroup Scenarios.group_239 0
                         Igmp.IGMP_GROUP_NON_MEMBER 0 0) 10) = 10)
  /\ Igmp.timer (Igmp.igmp_start_timer (Some 0)
                   (Igmp.mkIgmpGroup Scenarios.group_239 0
                      Igmp.IGMP_GROUP_NON_MEMBER 0 0) 10)
     = Igmp.timer (Igmp.igmp_start_timer (Some 1)
                     (Igmp.mkIgmpGroup Scenarios.group_239 0
                        Igmp.IGMP_GROUP_NON_MEMBER 0 0) 10).
Proof.
  split; [|reflexivity].
  intros [lwip_rand Ht]. rewrite igmp_start_timer_value in Ht by lia.
  destruct lwip_rand as [r|].
  - pose proof (Z.mod_pos_bound (u32 r) 10 ltac:(lia)).
    change (10 >? 2) with true in Ht. cbn iota in Ht. lia.
  - change (10 / 2) with 5 in Ht. lia.
Qed.

(** * IGMP: group lists *)

Section IgmpGroups.
Import Igmp.
Context `{IgmpEnv}.

Lemma groups_ok_lookup s g :
  groups_ok s = true -> g ∈ netif_igmp_data s -> is_Some (group_mem s !! g).
Proof.
  unfold groups_ok. rewrite andb_true_iff, forallb_forall.
  intros [_ Hall] Hin. apply list_elem_of_In in Hin.
  specialize (Hall g Hin). by apply bool_decide_eq_true in Hall.
Qed.

Lemma groups_ok_NoDup s : groups_ok s = true -> NoDup (netif_igmp_data s).
Proof.
  unfold groups_ok. rewrite andb_true_iff. intros [Hnd _].
  by apply bool_decide_eq_true in Hnd.
Qed.

Lemma groups_ok_intro s :
  NoDup (netif_igmp_data s) ->
  (forall g, g ∈ netif_igmp_data s -> is_Some (group_mem s !! g)) ->
  groups_ok s = true.
Proof.
  intros Hnd Hall. unfold groups_ok. rewrite andb_true_iff, forallb_forall.
  split; [by apply bool_decide_eq_true|].
  intros g Hin. apply bool_decide_eq_true, Hall. by apply list_elem_of_In.
Qed.

Lemma keeps_membership_refl mem : keeps_membership mem mem.
Proof. intros g. by destruct (mem !! g). Qed.

Lemma keeps_membership_trans m1 m2 m3 :
  keeps_membership m1 m2 -> keeps_membership m2 m3 -> keeps_membership m1 m3.
Proof.
  intros H12 H23 g. specialize (H12 g). specialize (H23 g).
  destruct (m1 !! g), (m2 !! g), (m3 !! g); try done.
  destruct H12 as [Ha Hu], H23 as [Ha' Hu']. split; congruence.
Qed.

Lemma keeps_membership_insert mem g a b :
  mem !! g = Some a -> group_address b = group_address a -> use b = use a ->
  keeps_membership mem (<[g := b]> mem).
Proof.
  intros Hg Ha Hu g'. destruct (decide (g' = g)) as [->|Hne].
  - by rewrite lookup_insert_eq, Hg.
  - rewrite lookup_insert_ne by done. by destruct (mem !! g').
Qed.

Lemma keeps_membership_is_Some mem mem' g :
  keeps_membership mem mem' -> is_Some (mem !! g) -> is_Some (mem' !! g).
Proof.
  intros Hk [a Ha]. specialize (Hk g). rewrite Ha in Hk.
  destruct (mem' !! g); [eauto|done].
Qed.

(** The timer functions touch neither the address nor the use count. *)
Lemma igmp_delaying_member_keeps lwip_rand group maxresp :
  group_address (igmp_delaying_member lwip_rand group maxresp)
  = group_address group
  /\ use (igmp_delaying_member lwip_rand group maxresp) = use group.
Proof. unfold igmp_delaying_member. by destruct (_ || _). Qed.

(** The search returns, and a group it returns is linked, allocated, and
    has the address looked for. *)
Lemma igmp_lookfor_group_from_spec mem l addr :
  (forall g, g ∈ l -> is_Some (mem !! g)) ->
  exists r,
    igmp_lookfor_group_from mem l addr = Some r
    /\ (forall group, r = Some group ->
          group ∈ l
          /\ exists g, mem !! group = Some g
                       /\ ip4_addr_cmp (group_address g) addr = true)
    /\ (r = None ->
        forall group g, group ∈ l -> mem !! group = Some g ->
                        ip4_addr_cmp (group_address g) addr = false).
Proof.
  induction l as [|group l IH]; intros Hall; simpl.
  - exists None. split; [done|]. split; [done|].
    intros _ group g Hin. by apply elem_of_nil in Hin.
  - destruct (Hall group) as [g Hg]; [by left|]. rewrite Hg.
    cbn [mbind option_bind].
    destruct (ip4_addr_cmp (group_address g) addr) eqn:E.
    + exists (Some group). split; [done|]. split; [|done].
      intros ? [= <-]. split; [by left|]. by exists g.
    + destruct IH as (r & Hr & Hsome & Hnone);
        [intros g' Hg'; apply Hall; by right|].
      exists r. split; [done|]. split.
      * intros group' Hr'. destruct (Hsome group' Hr') as [Hin Hex].
        split; [by right|done].
      * intros Hr' group' g' Hin Hg'.
        apply elem_of_cons in Hin as [->|Hin].
        -- rewrite Hg in Hg'. by injection Hg' as <-.
        -- by apply (Hnone Hr' group' g').
Qed.

(** The loop over the groups behind the first returns and only touches
    timers, states and flags. *)
Lemma igmp_delaying_members_spec lwip_rand maxresp l mem :
  (forall g, g ∈ l -> is_Some (mem !! g)) ->
  exists mem',
    igmp_delaying_members lwip_rand maxresp l mem = Some mem'
    /\ keeps_membership mem mem'.
Proof.
  revert mem. induction l as [|group l IH]; intros mem Hall; simpl.
  - exists mem. split; [done|]. apply keeps_membership_refl.
  - destruct (Hall group) as [g Hg]; [by left|]. rewrite Hg.
    cbn [mbind option_bind].
    set (g' := igmp_delaying_member (rand_for lwip_rand group) g maxresp).
    assert (Hk : keeps_membership mem (<[group := g']> mem)).
    { apply (keeps_membership_insert mem group g g' Hg);
        apply igmp_delaying_member_keeps. }
    destruct (IH (<[group := g']> mem)) as (mem' & Hrun & Hk').
    { intros g0 Hg0. apply (keeps_membership_is_Some mem); [done|].
      apply Hall. by right. }
    exists mem'. split; [done|]. by apply (keeps_membership_trans _ _ _ Hk).
Qed.

(** What [igmp_input] does to the interface, whatever the packet: it
    returns, frees the packet and nothing else, leaves the list as it is,
    and touches timers, states and flags at most. *)
Lemma igmp_input_spec lwip_rand p dest s :
  groups_ok s = true ->
  exists mem',
    igmp_input lwip_rand p dest s
    = Some (mkIgmpState (netif_igmp_data s) mem', [PbufFree buf_in])
    /\ keeps_membership (group_mem s) mem'.
Proof.
  intros Hok. unfold igmp_input.
  assert (Hsame : exists mem',
             Some (s, [PbufFree buf_in])
             = Some (mkIgmpState (netif_igmp_data s) mem', [PbufFree buf_in])
             /\ keeps_membership (group_mem s) mem').
  { exists (group_mem s). split; [by destruct s|].
    apply keeps_membership_refl. }
  destruct (p_len p <? kIgmpMinlen); [done|].
  destruct (negb _); [done|].
  assert (Hall : forall g, g ∈ netif_igmp_data s -> is_Some (group_mem s !! g))
    by (intros g; by apply groups_ok_lookup).
  destruct (igmp_lookfor_group_from_spec (group_mem s) (netif_igmp_data s)
              dest Hall) as (r & Hr & Hsome & _).
  change (igmp_lookfor_group s dest)
    with (igmp_lookfor_group_from (group_mem s) (netif_igmp_data s) dest).
  rewrite Hr. cbn [mbind option_bind].
  destruct r as [group|]; [|done].
  destruct (Hsome group eq_refl) as (Hin & g & Hg & _).
  assert (Hdone : forall mem',
             keeps_membership (group_mem s) mem' ->
             exists mem'0,
               (mem'1 ← Some mem';
                Some (mkIgmpState (netif_igmp_data s) mem'1,
                      [PbufFree buf_in]))
               = Some (mkIgmpState (netif_igmp_data s) mem'0,
                       [PbufFree buf_in])
               /\ keeps_membership (group_mem s) mem'0).
  { intros mem' Hk. by exists mem'. }
  destruct (igmp_msgtype (payload p) =? IGMP_MEMB_QUERY).
  - destruct (_ && _).
    + destruct (igmp_delaying_members_spec lwip_rand
                  (if igmp_maxresp (payload p) =? 0
                   then u8 IGMP_V1_DELAYING_MEMBER_TMR
                   else igmp_maxresp (payload p))
                  (tail (netif_igmp_data s)) (group_mem s))
        as (mem' & Hrun & Hk).
      { intros g0 Hg0. apply Hall. destruct (netif_igmp_data s); [done|].
        by right. }
      rewrite Hrun. by apply Hdone.
    + destruct (negb _); [|apply Hdone, keeps_membership_refl].
      destruct (ip4_addr_cmp dest allsystems).
      * destruct (igmp_lookfor_group_from_spec (group_mem s)
                    (netif_igmp_data s)
                    (igmp_group_address (payload p)) Hall)
          as (r2 & Hr2 & Hsome2 & _).
        unfold igmp_lookfor_group. rewrite Hr2. cbn [mbind option_bind].
        destruct r2 as [group2|]; [|apply Hdone, keeps_membership_refl].
        destruct (Hsome2 group2 eq_refl) as (_ & g2 & Hg2 & _).
        rewrite Hg2. cbn [mbind option_bind]. apply Hdone.
        apply (keeps_membership_insert _ _ g2); [done| |];
          apply igmp_delaying_member_keeps.
      * cbn [mbind option_bind]. rewrite Hg. cbn [mbind option_bind].
        apply Hdone.
        apply (keeps_membership_insert _ _ g); [done| |];
          apply igmp_delaying_member_keeps.
  - destruct (igmp_msgtype (payload p) =? IGMP_V2_MEMB_REPORT);
      [|apply Hdone, keeps_membership_refl].
    rewrite Hg. cbn [mbind option_bind].
    destruct (bool_decide _); [|apply Hdone, keeps_membership_refl].
    apply Hdone. by apply (keeps_membership_insert _ _ g).
Qed.

(** C9.  Whatever the packet (too short, with a failing checksum, for a
    group the interface does not have, a general or a group-specific
    query, a report, a message of another type), [igmp_input] returns and
    the calls it makes free the packet exactly once; they are that one
    call of [pbuf_free] and nothing else. *)
Theorem igmp_input_frees_once (lwip_rand : RandSource) (p : PacketBuffer)
        (dest : Ip4Addr) (s : IgmpState) :
  groups_ok s = true ->
  exists s' evs,
    igmp_input lwip_rand p dest s = Some (s', evs)
    /\ frees buf_in evs = 1%nat
    /\ evs = [PbufFree buf_in].
Proof.
  intros Hok. destruct (igmp_input_spec lwip_rand p dest s Hok)
    as (mem' & Hrun & _).
  eexists _, _. split; [exact Hrun|]. split; reflexivity.
Qed.
End IgmpGroups.

(** C9 on the interface [igmp_joined], for the general query
    [general_query] sent to 224.0.0.1. *)
Lemma igmp_input_frees_once_witness :
  groups_ok Scenarios.igmp_joined = true
  /\ exists s' evs,
      Igmp.igmp_input (Some (fun _ => 12345)) Scenarios.general_query
                      Igmp.allsystems Scenarios.igmp_joined = Some (s', evs)
      /\ frees Igmp.buf_in evs = 1%nat.
Proof.
  assert (Hok : groups_ok Scenarios.igmp_joined = true) by reflexivity.
  split; [exact Hok|].
  destruct (igmp_input_frees_once (Some (fun _ => 12345))
              Scenarios.general_query Igmp.allsystems Scenarios.igmp_joined Hok)
    as (s' & evs & Hrun & Hfree & _).
  exists s', evs. split; [exact Hrun|exact Hfree].
Defined.

(** The query of the witness leaves the timer of group 239.1.1.1 alone:
    the group is delaying with 3 ticks left, and 20 is not below 3. *)
Example igmp_input_general_query_run :
  (fun r => match r with
            | Some (s', evs) =>
                (Igmp.timer <$> Igmp.group_mem s' !! 2%positive, evs)
            | None => (None, [])
            end)
    (Igmp.igmp_input (Some (fun _ => 12345)) Scenarios.general_query
                     Igmp.allsystems Scenarios.igmp_joined)
  = (Some 3, [Igmp.PbufFree Igmp.buf_in]).
Proof. reflexivity. Qed.

(** * IGMP: leaving a group *)

Section IgmpLeave.
Import Igmp.
Context `{IgmpEnv}.

(** The scan of [igmp_remove_group] unlinks the first entry behind the
    head that is [group], and never the head. *)
Lemma igmp_remove_group_from_spec group l :
  match igmp_remove_group_from group l with
  | Some l' =>
      exists tmp l1 l2,
        l = tmp :: l1 ++ group :: l2 /\ (group ∉ l1) /\ l' = tmp :: l1 ++ l2
  | None => forall tmp rest, l = tmp :: rest -> group ∉ rest
  end.
Proof.
  induction l as [|tmp rest IH]; [done|].
  cbn [igmp_remove_group_from]. destruct rest as [|next rest'].
  - intros ? ? [= <- <-]. apply not_elem_of_nil.
  - destruct (Pos.eqb_spec next group) as [->|Hne].
    + exists tmp, [], rest'. split; [done|]. split; [apply not_elem_of_nil|done].
    + destruct (igmp_remove_group_from group (next :: rest')) as [l'|].
      * destruct IH as (tmp' & l1 & l2 & Heq & Hnin & ->).
        injection Heq as <- ->. cbn [fmap option_fmap option_map].
        exists tmp, (next :: l1), l2. split; [done|]. split; [|done].
        rewrite not_elem_of_cons. split; [congruence|done].
      * cbn [fmap option_fmap option_map]. intros ? ? [= <- <-].
        specialize (IH next rest' eq_refl).
        rewrite not_elem_of_cons. split; [congruence|done].
Qed.

(** C4, as the code has it, for a group other than the first of the list.
    When the use count is at most 1, leaving unlinks the group and deletes
    it; the calls made are: if the last-reporter flag is set and
    [pbuf_alloc] returns a buffer, one Leave message for the group, sent
    to 224.0.0.2 (and the release of its buffer); then, if the interface
    has a MAC filter hook, the removal of the group's filter.  When the use
    count exceeds 1, leaving only decrements it. *)
Theorem igmp_leavegroup_netif_last_use (netif : NetIfc) (pbuf_alloc_ok : bool)
        (groupaddr : Ip4Addr) (s : IgmpState) (head : group_ptr)
        (rest : list group_ptr) (group : group_ptr) (g : IgmpGroup) :
  groups_ok s = true ->
  netif_igmp_data s = head :: rest ->
  igmp_lookfor_group s groupaddr = Some (Some group) ->
  group <> head ->
  group_mem s !! group = Some g ->
  0 <= use g < 2 ^ 8 ->
  (use g <= 1 ->
   exists l1 l2,
     rest = l1 ++ group :: l2
     /\ igmp_leavegroup_netif netif pbuf_alloc_ok groupaddr s
        = Some (ERR_OK,
                mkIgmpState (head :: l1 ++ l2) (delete group (group_mem s)),
                (if negb (last_reporter_flag g =? 0) && pbuf_alloc_ok
                 then [IpOutput (get_net_ifc_ip4_addr netif) allrouters
                         (mkIgmpMsg IGMP_LEAVE_GROUP 0
                            (inet_chksum
                               (mkIgmpMsg IGMP_LEAVE_GROUP 0 0 (group_address g))
                               kIgmpMinlen)
                            (group_address g));
                       PbufFree buf_out]
                 else [])
                ++ (if igmp_mac_filter netif
                    then [MacFilter groupaddr NETIF_DEL_MAC_FILTER]
                    else [])))
  /\ (1 < use g ->
      igmp_leavegroup_netif netif pbuf_alloc_ok groupaddr s
      = Some (ERR_OK,
              mkIgmpState (head :: rest)
                          (<[group := with_use g (use g - 1)]> (group_mem s)),
              [])).
Proof.
  intros Hok Hlist Hfound Hne Hg Huse.
  assert (Hin : group ∈ rest).
  { destruct (igmp_lookfor_group_from_spec (group_mem s) (netif_igmp_data s)
                groupaddr) as (r & Hr & Hsome & _).
    { intros g0. by apply groups_ok_lookup. }
    unfold igmp_lookfor_group in Hfound. rewrite Hr in Hfound.
    injection Hfound as ->. destruct (Hsome group eq_refl) as [Hin _].
    rewrite Hlist in Hin. apply elem_of_cons in Hin as [?|?]; done. }
  unfold igmp_leavegroup_netif. rewrite Hfound. cbn [mbind option_bind].
  rewrite Hg. cbn [mbind option_bind]. split.
  - intros Hle. destruct (Z.leb_spec (use g) 1) as [_|?]; [|lia].
    unfold igmp_remove_group.
    pose proof (igmp_remove_group_from_spec group (netif_igmp_data s)) as Hrm.
    destruct (igmp_remove_group_from group (netif_igmp_data s)) as [l'|].
    + destruct Hrm as (tmp & l1 & l2 & Heq & Hnin & ->).
      rewrite Hlist in Heq. injection Heq as <- ->.
      exists l1, l2. split; [done|]. cbn [snd group_mem netif_igmp_data].
      destruct (last_reporter_flag g =? 0); cbn [negb andb].
      * done.
      * unfold igmp_send. destruct pbuf_alloc_ok; [|done].
        change (IGMP_LEAVE_GROUP =? IGMP_V2_MEMB_REPORT) with false.
        change (IGMP_LEAVE_GROUP =? IGMP_LEAVE_GROUP) with true.
        cbn iota. rewrite Hg. done.
    + exfalso. by apply (Hrm head rest).
  - intros Hgt. destruct (Z.leb_spec (use g) 1) as [?|_]; [lia|].
    rewrite Hlist. unfold u8. rewrite Z.mod_small by lia. done.
Qed.
End IgmpLeave.

(** C4 on the interface [igmp_joined]: 239.1.1.1 is left, its use count
    being 1 and its last report ours, and a buffer is at hand. *)
Lemma igmp_leavegroup_netif_last_use_witness :
  Igmp.igmp_leavegroup_netif Scenarios.igmp_if true Scenarios.group_239
                             Scenarios.igmp_joined
  = Some (ERR_OK, Scenarios.igmp_started,
          [Igmp.IpOutput (Ipv4AddrFromBytes 192 0 2 3) Igmp.allrouters
             (Igmp.mkIgmpMsg Igmp.IGMP_LEAVE_GROUP 0
                (Igmp.inet_chksum
                   (Igmp.mkIgmpMsg Igmp.IGMP_LEAVE_GROUP 0 0 Scenarios.group_239)
                   Igmp.kIgmpMinlen)
                Scenarios.group_239);
           Igmp.PbufFree Igmp.buf_out;
           Igmp.MacFilter Scenarios.group_239 Igmp.NETIF_DEL_MAC_FILTER]).
Proof.
  assert (Hok : groups_ok Scenarios.igmp_joined = true) by reflexivity.
  assert (Hfound : Igmp.igmp_lookfor_group Scenarios.igmp_joined
                     Scenarios.group_239 = Some (Some 2%positive))
    by reflexivity.
  assert (Hg : Igmp.group_mem Scenarios.igmp_joined !! 2%positive
               = Some (Igmp.mkIgmpGroup Scenarios.group_239 1
                         Igmp.IGMP_GROUP_DELAYING_MEMBER 3 1)) by reflexivity.
  destruct (igmp_leavegroup_netif_last_use Scenarios.igmp_if true
              Scenarios.group_239 Scenarios.igmp_joined 1%positive
              [2%positive] 2%positive _ Hok eq_refl Hfound
              ltac:(discriminate) Hg ltac:(cbn; lia)) as [Hlast _].
  destruct Hlast as (l1 & l2 & Hrest & Hrun); [cbn; lia|].
  destruct l1 as [|x l1]; [|destruct l1; discriminate].
  injection Hrest as <-. rewrite Hrun. reflexivity.
Defined.

(** C4 fails as stated: on [igmp_joined], whose group 239.1.1.1 has the
    last-reporter flag set and a use count of 1, a leave for which
    [pbuf_alloc] returns no buffer unlinks and deletes the group without
    any Leave message. *)
Lemma igmp_leave_without_message :
  Igmp.last_reporter_flag <$> Igmp.group_mem Scenarios.igmp_joined !! 2%positive
  = Some 1
  /\ Igmp.igmp_leavegroup_netif Scenarios.igmp_if false Scenarios.group_239
                                Scenarios.igmp_joined
     = Some (ERR_OK, Scenarios.igmp_started,
             [Igmp.MacFilter Scenarios.group_239 Igmp.NETIF_DEL_MAC_FILTER]).
Proof. split; reflexivity. Qed.

(** * IGMP: the all-systems group at the head of the list *)

Section IgmpFirstGroup.
Import Igmp.
Context `{IgmpEnv}.

(** An operation that keeps the list and the membership data keeps the
    invariant. *)
Lemma allsystems_first_keeps s mem' :
  groups_ok s = true -> allsystems_first s ->
  keeps_membership (group_mem s) mem' ->
  groups_ok (mkIgmpState (netif_igmp_data s) mem') = true
  /\ allsystems_first (mkIgmpState (netif_igmp_data s) mem').
Proof.
  intros Hok (head & rest & g & Hlist & Hg & Haddr & Huse) Hk. split.
  - apply groups_ok_intro; simpl; [by apply groups_ok_NoDup|].
    intros g0 Hg0. apply (keeps_membership_is_Some (group_mem s)); [done|].
    by apply groups_ok_lookup.
  - pose proof (Hk head) as Hh. rewrite Hg in Hh. simpl.
    destruct (mem' !! head) as [g'|] eqn:Hg'; [|done].
    destruct Hh as [Ha Hu]. exists head, rest, g'.
    split; [done|]. split; [done|]. split; [congruence|lia].
Qed.

(** Input keeps the invariant. *)
Lemma igmp_input_first lwip_rand p dest s :
  groups_ok s = true -> allsystems_first s ->
  exists s' evs,
    igmp_input lwip_rand p dest s = Some (s', evs)
    /\ groups_ok s' = true /\ allsystems_first s'.
Proof.
  intros Hok Hinv.
  destruct (igmp_input_spec lwip_rand p dest s Hok) as (mem' & Hrun & Hk).
  eexists _, _. split; [exact Hrun|]. by apply allsystems_first_keeps.
Qed.

(** A report sent for an allocated group sets its last-reporter flag and
    nothing else. *)
Lemma igmp_send_report_spec netif pbuf_alloc_ok group g mem :
  mem !! group = Some g ->
  exists mem' evs,
    igmp_send netif pbuf_alloc_ok group IGMP_V2_MEMB_REPORT mem
    = Some (mem', evs)
    /\ keeps_membership mem mem'
    /\ (forall group', group' <> group -> mem' !! group' = mem !! group')
    /\ exists g', mem' !! group = Some g'
                  /\ group_address g' = group_address g /\ use g' = use g
                  /\ group_state g' = group_state g.
Proof.
  intros Hg. unfold igmp_send. destruct pbuf_alloc_ok.
  - change (IGMP_V2_MEMB_REPORT =? IGMP_V2_MEMB_REPORT) with true.
    cbn iota. rewrite Hg. cbn [mbind option_bind]. eexists _, _.
    split; [reflexivity|]. split; [|split].
    + by apply (keeps_membership_insert _ _ g).
    + intros group' Hne. by rewrite lookup_insert_ne.
    + eexists. rewrite lookup_insert_eq. done.
  - exists mem, []. split; [done|]. split; [apply keeps_membership_refl|].
    split; [done|]. by exists g.
Qed.

Lemma igmp_timeout_spec netif pbuf_alloc_ok group mem :
  is_Some (mem !! group) ->
  exists mem' evs,
    igmp_timeout netif pbuf_alloc_ok group mem = Some (mem', evs)
    /\ keeps_membership mem mem'.
Proof.
  intros [g Hg]. unfold igmp_timeout. rewrite Hg. cbn [mbind option_bind].
  destruct (_ && _).
  - set (g1 := with_state g IGMP_GROUP_IDLE_MEMBER).
    destruct (igmp_send_report_spec netif pbuf_alloc_ok group g1
                (<[group := g1]> mem)) as (mem' & evs & Hrun & Hk & _).
    { by rewrite lookup_insert_eq. }
    exists mem', evs. split; [done|].
    apply (keeps_membership_trans _ (<[group := g1]> mem)); [|done].
    by apply (keeps_membership_insert _ _ g).
  - exists mem, []. split; [done|]. apply keeps_membership_refl.
Qed.

Lemma igmp_tmr_loop_spec netif pbuf_alloc_ok l mem :
  (forall g, g ∈ l -> is_Some (mem !! g)) ->
  exists mem' evs,
    igmp_tmr_loop netif pbuf_alloc_ok l mem = Some (mem', evs)
    /\ keeps_membership mem mem'.
Proof.
  revert mem. induction l as [|group l IH]; intros mem Hall;
    cbn [igmp_tmr_loop].
  - exists mem, []. split; [done|]. apply keeps_membership_refl.
  - destruct (Hall group) as [g Hg]; [by left|]. rewrite Hg.
    cbn [mbind option_bind]. cbv zeta.
    assert (Hstep : exists mem1 evs1,
               (if timer g >? 0
                then
                  if timer (with_timer g (u16 (timer g - 1))) =? 0
                  then igmp_timeout netif (pbuf_alloc_ok group) group
                         (<[group := with_timer g (u16 (timer g - 1))]> mem)
                  else Some (<[group := with_timer g (u16 (timer g - 1))]> mem,
                             [])
                else Some (mem, []))
               = Some (mem1, evs1)
               /\ keeps_membership mem mem1).
    { assert (Hk1 : keeps_membership mem
                      (<[group := with_timer g (u16 (timer g - 1))]> mem))
        by (by apply (keeps_membership_insert _ _ g)).
      destruct (timer g >? 0).
      - destruct (_ =? 0).
        + destruct (igmp_timeout_spec netif (pbuf_alloc_ok group) group
                      (<[group := with_timer g (u16 (timer g - 1))]> mem))
            as (mem1 & evs1 & Hrun & Hk).
          { rewrite lookup_insert_eq. eauto. }
          exists mem1, evs1. split; [done|].
          by apply (keeps_membership_trans _ _ _ Hk1).
        + eexists _, _. split; [reflexivity|done].
      - exists mem, []. split; [done|]. apply keeps_membership_refl. }
    destruct Hstep as (mem1 & evs1 & -> & Hk1). cbn [mbind option_bind].
    destruct (IH mem1) as (mem2 & evs2 & Hrun2 & Hk2).
    { intros g0 Hg0. apply (keeps_membership_is_Some mem); [done|].
      apply Hall. by right. }
    rewrite Hrun2. cbn [mbind option_bind]. eexists _, _.
    split; [reflexivity|]. by apply (keeps_membership_trans _ _ _ Hk1).
Qed.

(** The timer tick keeps the invariant. *)
Lemma igmp_tmr_first netif pbuf_alloc_ok s :
  groups_ok s = true -> allsystems_first s ->
  exists s' evs,
    igmp_tmr netif pbuf_alloc_ok s = Some (s', evs)
    /\ groups_ok s' = true /\ allsystems_first s'.
Proof.
  intros Hok Hinv. unfold igmp_tmr.
  destruct (igmp_tmr_loop_spec netif pbuf_alloc_ok (netif_igmp_data s)
              (group_mem s)) as (mem' & evs & Hrun & Hk).
  { intros g. by apply groups_ok_lookup. }
  rewrite Hrun. cbn [mbind option_bind]. eexists _, _.
  split; [reflexivity|]. by apply allsystems_first_keeps.
Qed.

(** Starting IGMP on an interface without groups sets the invariant up. *)
Lemma igmp_start_first netif group s :
  netif_igmp_data s = [] -> group_mem s !! group = None ->
  exists s' evs,
    igmp_start netif (Some group) s = Some (ERR_OK, s', evs)
    /\ groups_ok s' = true /\ allsystems_first s'.
Proof.
  intros Hnil Hfresh. unfold igmp_start, igmp_lookup_group, igmp_lookfor_group.
  rewrite Hnil. cbn [igmp_lookfor_group_from mbind option_bind group_mem].
  rewrite lookup_insert_eq. cbn [mbind option_bind]. eexists _, _.
  split; [reflexivity|]. split.
  - apply groups_ok_intro; simpl.
    + apply NoDup_singleton.
    + intros g Hg. apply list_elem_of_singleton in Hg as ->.
      rewrite lookup_insert_eq. eauto.
  - eexists group, [], _. simpl. rewrite lookup_insert_eq.
    split; [done|]. split; [done|]. split; [done|]. simpl. unfold u8. done.
Qed.
Lemma ip4_addr_cmp_refl a : ip4_addr_cmp a a = true.
Proof. unfold ip4_addr_cmp. apply Z.eqb_refl. Qed.

Lemma ip4_addr_cmp_sym a b : ip4_addr_cmp a b = ip4_addr_cmp b a.
Proof. unfold ip4_addr_cmp. apply Z.eqb_sym. Qed.

Lemma ip4_addr_cmp_trans a b c :
  ip4_addr_cmp a b = true -> ip4_addr_cmp b c = true ->
  ip4_addr_cmp a c = true.
Proof. unfold ip4_addr_cmp. rewrite !Z.eqb_eq. congruence. Qed.

(** The lookup of 224.0.0.1 finds the head of the list. *)
Lemma igmp_lookfor_allsystems s head rest g :
  netif_igmp_data s = head :: rest -> group_mem s !! head = Some g ->
  group_address g = allsystems ->
  igmp_lookfor_group s allsystems = Some (Some head).
Proof.
  intros Hlist Hg Haddr. unfold igmp_lookfor_group. rewrite Hlist.
  cbn [igmp_lookfor_group_from]. rewrite Hg. cbn [mbind option_bind].
  by rewrite Haddr, ip4_addr_cmp_refl.
Qed.

(** A lookup of another address finds a group behind the head, if any. *)
Lemma igmp_lookfor_other s head rest g groupaddr :
  groups_ok s = true ->
  netif_igmp_data s = head :: rest -> group_mem s !! head = Some g ->
  group_address g = allsystems ->
  ip4_addr_cmp allsystems groupaddr = false ->
  exists r,
    igmp_lookfor_group s groupaddr = Some r
    /\ forall group, r = Some group ->
         group ∈ rest /\ group <> head /\ is_Some (group_mem s !! group).
Proof.
  intros Hok Hlist Hg Haddr Hother.
  destruct (igmp_lookfor_group_from_spec (group_mem s) (netif_igmp_data s)
              groupaddr) as (r & Hr & Hsome & _).
  { intros g0. by apply groups_ok_lookup. }
  exists r. split; [done|]. intros group ->.
  destruct (Hsome group eq_refl) as (Hin & g0 & Hg0 & Hcmp).
  assert (Hne : group <> head).
  { intros ->. rewrite Hg in Hg0. injection Hg0 as <-.
    rewrite Haddr in Hcmp. congruence. }
  rewrite Hlist in Hin. apply elem_of_cons in Hin as [?|Hin]; [done|].
  split; [done|]. split; [done|]. eauto.
Qed.

(** A state whose list is well formed and starts with the all-systems
    group. *)
Lemma allsystems_first_intro l mem head rest g :
  l = head :: rest -> NoDup l ->
  (forall group, group ∈ l -> is_Some (mem !! group)) ->
  mem !! head = Some g -> group_address g = allsystems -> 1 <= use g ->
  groups_ok (mkIgmpState l mem) = true
  /\ allsystems_first (mkIgmpState l mem).
Proof.
  intros Hl Hnd Hall Hg Haddr Huse. split.
  - by apply groups_ok_intro.
  - by exists head, rest, g.
Qed.

(** Starting IGMP again on a running interface counts one more use of the
    all-systems group; the count is 8 bits wide. *)
Lemma igmp_start_again_first netif new_group s head rest g :
  groups_ok s = true ->
  netif_igmp_data s = head :: rest -> group_mem s !! head = Some g ->
  group_address g = allsystems -> 1 <= use g < 255 ->
  exists s' evs,
    igmp_start netif new_group s = Some (ERR_OK, s', evs)
    /\ groups_ok s' = true /\ allsystems_first s'.
Proof.
  intros Hok Hlist Hg Haddr Huse. unfold igmp_start, igmp_lookup_group.
  rewrite (igmp_lookfor_allsystems s head rest g) by done.
  cbn [mbind option_bind]. rewrite Hg. cbn [mbind option_bind].
  eexists _, _. split; [reflexivity|].
  eapply (allsystems_first_intro _ _ head rest); [done| | | | |].
  - by apply groups_ok_NoDup.
  - intros group Hin. destruct (decide (group = head)) as [->|Hne].
    + rewrite lookup_insert_eq. eauto.
    + rewrite lookup_insert_ne by done. by apply groups_ok_lookup.
  - by rewrite lookup_insert_eq.
  - done.
  - cbn [use with_use]. unfold u8. rewrite Z.mod_small; lia.
Qed.

(** What joining does to a group that [igmp_lookup_group] returned. *)
Lemma igmp_joingroup_netif_found lwip_rand netif new_group pbuf_alloc_ok
      groupaddr s group s1 g :
  igmp_lookup_group new_group groupaddr s = Some (Some group, s1) ->
  group_mem s1 !! group = Some g ->
  exists mem' evs,
    igmp_joingroup_netif lwip_rand netif new_group pbuf_alloc_ok groupaddr s
    = Some (ERR_OK, mkIgmpState (netif_igmp_data s1) mem', evs)
    /\ (forall group', group' <> group ->
          mem' !! group' = group_mem s1 !! group')
    /\ is_Some (mem' !! group).
Proof.
  intros Hlook Hg. unfold igmp_joingroup_netif. rewrite Hlook.
  cbn [mbind option_bind]. rewrite Hg. cbn [mbind option_bind].
  destruct (bool_decide (group_state g = IGMP_GROUP_NON_MEMBER));
    cbn [negb].
  - destruct (igmp_send_report_spec netif pbuf_alloc_ok group g (group_mem s1)
                Hg) as (mem2 & sent & Hrun & _ & Hframe & g2 & Hg2 & _).
    rewrite Hrun. cbn [mbind option_bind]. rewrite Hg2.
    cbn [mbind option_bind]. rewrite lookup_insert_eq.
    cbn [mbind option_bind]. eexists _, _. split; [reflexivity|]. split.
    + intros group' Hne. rewrite !lookup_insert_ne by done. by apply Hframe.
    + rewrite lookup_insert_eq. eauto.
  - cbn [mbind option_bind]. rewrite Hg. cbn [mbind option_bind].
    eexists _, _. split; [reflexivity|]. split.
    + intros group' Hne. by rewrite lookup_insert_ne.
    + rewrite lookup_insert_eq. eauto.
Qed.

(** Joining a group other than 224.0.0.1 keeps the invariant; the group
    structure the allocator hands out is a fresh one. *)
Lemma igmp_joingroup_netif_first lwip_rand netif new_group pbuf_alloc_ok
      groupaddr s :
  groups_ok s = true -> allsystems_first s ->
  ip4_addr_cmp allsystems groupaddr = false ->
  (forall group, new_group = Some group -> group_mem s !! group = None) ->
  exists st s' evs,
    igmp_joingroup_netif lwip_rand netif new_group pbuf_alloc_ok groupaddr s
    = Some (st, s', evs)
    /\ groups_ok s' = true /\ allsystems_first s'.
Proof.
  intros Hok Hinv Hother Hfresh.
  pose proof Hinv as (head & rest & g & Hlist & Hg & Haddr & Huse).
  destruct (igmp_lookfor_other s head rest g groupaddr Hok Hlist Hg Haddr
              Hother) as (r & Hr & Hfound).
  destruct r as [group|].
  - destruct (Hfound group eq_refl) as (Hin & Hne & g0 & Hg0).
    destruct (igmp_joingroup_netif_found lwip_rand netif new_group
                pbuf_alloc_ok groupaddr s group s g0)
      as (mem' & evs & Hrun & Hframe & Hsome); [|done|].
    { unfold igmp_lookup_group. by rewrite Hr. }
    exists ERR_OK. eexists _, _. split; [exact Hrun|].
    eapply (allsystems_first_intro _ _ head rest g); [done| | | |done|done].
    + by apply groups_ok_NoDup.
    + intros group' Hin'. destruct (decide (group' = group)) as [->|Hne'].
      * done.
      * rewrite Hframe by done. by apply groups_ok_lookup.
    + rewrite Hframe by done. done.
  - destruct new_group as [group|].
    + pose proof (Hfresh group eq_refl) as Hnone.
      assert (Hnin : group ∉ netif_igmp_data s).
      { intros Hin. apply (groups_ok_lookup s group Hok) in Hin.
        rewrite Hnone in Hin. by destruct Hin. }
      set (g0 := mkIgmpGroup groupaddr 0 IGMP_GROUP_NON_MEMBER 0 0).
      destruct (igmp_joingroup_netif_found lwip_rand netif (Some group)
                  pbuf_alloc_ok groupaddr s group
                  (mkIgmpState (head :: group :: rest)
                               (<[group := g0]> (group_mem s))) g0)
        as (mem' & evs & Hrun & Hframe & Hsome).
      { unfold igmp_lookup_group. rewrite Hr. cbn [mbind option_bind].
        by rewrite Hlist. }
      { cbn [group_mem]. by rewrite lookup_insert_eq. }
      cbn [group_mem netif_igmp_data] in Hrun, Hframe.
      assert (Hne : head <> group).
      { intros ->. apply Hnin. rewrite Hlist. by left. }
      exists ERR_OK. eexists _, _. split; [exact Hrun|].
      eapply (allsystems_first_intro _ _ head (group :: rest) g);
        [done| | | |done|done].
      * pose proof (groups_ok_NoDup s Hok) as Hnd. rewrite Hlist in Hnd, Hnin.
        apply NoDup_cons in Hnd as [Hh Hnd].
        rewrite not_elem_of_cons in Hnin. destruct Hnin as [_ Hnr].
        apply NoDup_cons. split.
        -- rewrite not_elem_of_cons. done.
        -- apply NoDup_cons. done.
      * intros group' Hin'. destruct (decide (group' = group)) as [->|Hne'].
        -- done.
        -- rewrite Hframe, lookup_insert_ne by done.
           apply groups_ok_lookup; [done|]. rewrite Hlist.
           apply elem_of_cons in Hin' as [->|Hin']; [by left|].
           apply elem_of_cons in Hin' as [->|Hin']; [done|by right].
      * rewrite Hframe, lookup_insert_ne by done. done.
    + exists ERR_MEM, s, []. split; [|done].
      unfold igmp_joingroup_netif, igmp_lookup_group. by rewrite Hr.
Qed.

(** Leaving a group other than 224.0.0.1 keeps the invariant. *)
Lemma igmp_leavegroup_netif_first netif pbuf_alloc_ok groupaddr s :
  groups_ok s = true -> allsystems_first s ->
  ip4_addr_cmp allsystems groupaddr = false ->
  exists st s' evs,
    igmp_leavegroup_netif netif pbuf_alloc_ok groupaddr s
    = Some (st, s', evs)
    /\ groups_ok s' = true /\ allsystems_first s'.
Proof.
  intros Hok Hinv Hother.
  pose proof Hinv as (head & rest & g & Hlist & Hg & Haddr & Huse).
  destruct (igmp_lookfor_other s head rest g groupaddr Hok Hlist Hg Haddr
              Hother) as (r & Hr & Hfound).
  unfold igmp_leavegroup_netif. rewrite Hr. cbn [mbind option_bind].
  destruct r as [group|]; [|by exists ERR_VAL, s, []].
  destruct (Hfound group eq_refl) as (Hin & Hne & g0 & Hg0).
  rewrite Hg0. cbn [mbind option_bind].
  pose proof (groups_ok_NoDup s Hok) as Hnd.
  destruct (use g0 <=? 1).
  - unfold igmp_remove_group.
    pose proof (igmp_remove_group_from_spec group (netif_igmp_data s)) as Hrm.
    destruct (igmp_remove_group_from group (netif_igmp_data s)) as [l'|];
      [|exfalso; by apply (Hrm head rest)].
    destruct Hrm as (tmp & l1 & l2 & Heq & Hnin & ->).
    rewrite Hlist in Heq. injection Heq as <- ->.
    cbn [snd group_mem netif_igmp_data].
    assert (Hsend : exists sent,
               (if negb (last_reporter_flag g0 =? 0)
                then igmp_send netif pbuf_alloc_ok group IGMP_LEAVE_GROUP
                               (group_mem s)
                else Some (group_mem s, []))
               = Some (group_mem s, sent)).
    { destruct (negb _); [|by eexists]. unfold igmp_send.
      destruct pbuf_alloc_ok; [|by eexists].
      change (IGMP_LEAVE_GROUP =? IGMP_V2_MEMB_REPORT) with false.
      change (IGMP_LEAVE_GROUP =? IGMP_LEAVE_GROUP) with true.
      cbn iota. rewrite Hg0. by eexists. }
    destruct Hsend as [sent ->]. cbn [mbind option_bind].
    exists ERR_OK. eexists _, _. split; [reflexivity|].
    rewrite Hlist in Hnd. apply NoDup_cons in Hnd as [Hh Hnd].
    apply NoDup_app in Hnd as (Hnd1 & Hdisj & Hnd2).
    apply NoDup_cons in Hnd2 as [Hg2 Hnd2].
    assert (Hgone : forall group', group' ∈ head :: l1 ++ l2 ->
                                   group' <> group).
    { intros group' Hin' ->. apply elem_of_cons in Hin' as [?|Hin']; [done|].
      apply elem_of_app in Hin' as [?|?]; done. }
    eapply (allsystems_first_intro _ _ head (l1 ++ l2) g);
      [done| | | |done|done].
    + apply NoDup_cons. split.
      * rewrite not_elem_of_app in Hh |- *. rewrite not_elem_of_cons in Hh.
        tauto.
      * apply NoDup_app. split; [done|]. split; [|done].
        intros x Hx1 Hx2. apply (Hdisj x Hx1). by right.
    + intros group' Hin'. rewrite lookup_delete_ne by (symmetry; auto).
      apply groups_ok_lookup; [done|]. rewrite Hlist.
      apply elem_of_cons in Hin' as [->|Hin']; [by left|]. right.
      apply elem_of_app in Hin' as [?|?]; apply elem_of_app; [by left|].
      right. by right.
    + by rewrite lookup_delete_ne.
  - exists ERR_OK. eexists _, _. split; [reflexivity|].
    eapply (allsystems_first_intro _ _ head rest g); [done|done| | |done|done].
    + intros group' Hin'. destruct (decide (group' = group)) as [->|Hne'].
      * rewrite lookup_insert_eq. eauto.
      * rewrite lookup_insert_ne by done. by apply groups_ok_lookup.
    + by rewrite lookup_insert_ne.
Qed.
End IgmpFirstGroup.

Section IgmpLeaveAllsystems.
Import Igmp.
Context `{IgmpEnv}.

(** C7 (code_bug).  The invariant of the group list, that its first entry
    is the all-systems group 224.0.0.1 with a use count of at least 1, is
    not kept by [igmp_leavegroup_netif]: on a running interface whose
    all-systems group has a use count of 1 (what [igmp_start] leaves), a
    leave of 224.0.0.1 returns ERR_OK, the removal scan leaves the first
    entry linked, and the group structure is deleted all the same.  The
    list then starts with a pointer to a deleted structure: the invariant
    does not hold any more, and the list is not even well formed. *)
Theorem igmp_leave_allsystems_dangling (netif : NetIfc) (pbuf_alloc_ok : bool)
        (s : IgmpState) (head : group_ptr) (rest : list group_ptr)
        (g : IgmpGroup) :
  groups_ok s = true ->
  netif_igmp_data s = head :: rest ->
  group_mem s !! head = Some g ->
  group_address g = allsystems ->
  use g = 1 ->
  allsystems_first s
  /\ exists evs,
       igmp_leavegroup_netif netif pbuf_alloc_ok allsystems s
       = Some (ERR_OK,
               mkIgmpState (head :: rest) (delete head (group_mem s)), evs)
       /\ delete head (group_mem s) !! head = None
       /\ ~ allsystems_first
            (mkIgmpState (head :: rest) (delete head (group_mem s)))
       /\ groups_ok (mkIgmpState (head :: rest) (delete head (group_mem s)))
          = false.
Proof.
  intros Hok Hlist Hg Haddr Huse. split.
  { exists head, rest, g. repeat split; [done..|lia]. }
  assert (Hgone : delete head (group_mem s) !! head = None)
    by apply lookup_delete_eq.
  assert (Hrun : exists evs,
             igmp_leavegroup_netif netif pbuf_alloc_ok allsystems s
             = Some (ERR_OK,
                     mkIgmpState (head :: rest) (delete head (group_mem s)),
                     evs)).
  { unfold igmp_leavegroup_netif.
    rewrite (igmp_lookfor_allsystems s head rest g) by done.
    cbn [mbind option_bind]. rewrite Hg. cbn [mbind option_bind].
    rewrite Huse. change (1 <=? 1) with true. cbn iota.
    unfold igmp_remove_group.
    pose proof (igmp_remove_group_from_spec head (netif_igmp_data s)) as Hrm.
    destruct (igmp_remove_group_from head (netif_igmp_data s)) as [l'|].
    { exfalso. destruct Hrm as (tmp & l1 & l2 & Heq & _ & _).
      pose proof (groups_ok_NoDup s Hok) as Hnd. rewrite Heq in Hnd.
      rewrite Hlist in Heq. injection Heq as <- ->.
      apply NoDup_cons in Hnd as [Hnin _]. apply Hnin.
      apply elem_of_app. right. by left. }
    cbn [snd]. rewrite Hlist.
    destruct (negb (last_reporter_flag g =? 0)).
    - unfold igmp_send. destruct pbuf_alloc_ok.
      + change (IGMP_LEAVE_GROUP =? IGMP_V2_MEMB_REPORT) with false.
        change (IGMP_LEAVE_GROUP =? IGMP_LEAVE_GROUP) with true.
        cbn iota. rewrite Hg. cbn [mbind option_bind]. by eexists.
      + cbn [mbind option_bind]. by eexists.
    - cbn [mbind option_bind]. by eexists. }
  destruct Hrun as [evs Hrun]. exists evs. split; [done|]. split; [done|].
  split.
  - intros (head' & rest' & g' & Hlist' & Hg' & _).
    cbn [netif_igmp_data group_mem] in Hlist', Hg'.
    injection Hlist' as <- <-. congruence.
  - apply not_true_is_false. intros Hok'.
    destruct (groups_ok_lookup _ head Hok') as [g' Hg'].
    + cbn [netif_igmp_data]. by left.
    + cbn [group_mem] in Hg'. congruence.
Qed.
End IgmpLeaveAllsystems.

(** C7 on the interface [igmp_started]: after the leave of 224.0.0.1 the
    list still holds the address 1, at which no group is left. *)
Lemma igmp_leave_allsystems_dangling_witness :
  exists evs,
    Igmp.igmp_leavegroup_netif Scenarios.igmp_if true Igmp.allsystems
                               Scenarios.igmp_started
    = Some (ERR_OK,
            Igmp.mkIgmpState [1%positive]
              (delete 1%positive (Igmp.group_mem Scenarios.igmp_started)),
            evs)
    /\ ~ allsystems_first
         (Igmp.mkIgmpState [1%positive]
            (delete 1%positive (Igmp.group_mem Scenarios.igmp_started))).
Proof.
  assert (Hok : groups_ok Scenarios.igmp_started = true) by reflexivity.
  assert (Hg : Igmp.group_mem Scenarios.igmp_started !! 1%positive
               = Some (Igmp.mkIgmpGroup Igmp.allsystems 0
                         Igmp.IGMP_GROUP_IDLE_MEMBER 0 1)) by reflexivity.
  destruct (igmp_leave_allsystems_dangling Scenarios.igmp_if true
              Scenarios.igmp_started 1%positive [] _ Hok eq_refl Hg eq_refl
              eq_refl) as (_ & evs & Hrun & _ & Hbroken & _).
  exists evs. split; [exact Hrun|exact Hbroken].
Defined.

(** The run that breaks the invariant, from the start of IGMP on: the
    start puts the all-systems group at the head with a use count of 1,
    and the leave of 224.0.0.1 hands the group to the MAC filter for
    removal and deletes it. *)
Example igmp_start_then_leave_allsystems_run :
  Igmp.igmp_start Scenarios.igmp_if (Some 1%positive) Scenarios.igmp_off
  = Some (ERR_OK, Scenarios.igmp_started,
          [Igmp.MacFilter Igmp.allsystems Igmp.NETIF_ADD_MAC_FILTER])
  /\ Igmp.igmp_leavegroup_netif Scenarios.igmp_if true Igmp.allsystems
                                Scenarios.igmp_started
     = Some (ERR_OK, Igmp.mkIgmpState [1%positive] ∅,
             [Igmp.MacFilter Igmp.allsystems Igmp.NETIF_DEL_MAC_FILTER])
  /\ Igmp.igmp_lookfor_group (Igmp.mkIgmpState [1%positive] ∅) Igmp.allsystems
     = None.
Proof. repeat split; reflexivity. Qed.

(** * MS-CHAPv2: the challenge hash *)

Section ChallengeHash.
Import ChapMs.
Variable sha1 : list byte -> list byte.

(** The tuple [challenge_hash] builds from two 16-byte challenges. *)
Lemma challenge_hash_value peer_challenge rchallenge username :
  List.length peer_challenge = 16%nat -> List.length rchallenge = 16%nat ->
  challenge_hash sha1 peer_challenge rchallenge username
  = Some (true,
          take 19 (resize 20 x00
                     (sha1 (peer_challenge ++ rchallenge
                            ++ c_str (list_byte_of_string username))))).
Proof.
  intros Hp Hr. unfold challenge_hash, mbedtls_sha1_update_ret,
    mbedtls_sha1_starts_ret, mbedtls_sha1_finish_ret.
  rewrite Hp, Hr. rewrite decide_True by lia. cbn [mbind option_bind].
  rewrite decide_True by lia. cbn [mbind option_bind].
  rewrite decide_True by lia. cbn [mbind option_bind].
  rewrite <- Hp at 1. rewrite <- Hr at 1. rewrite !firstn_all.
  rewrite <- app_assoc. reflexivity.
Qed.

(** C6 (code_bug).  For two 16-byte challenges and any user name,
    [challenge_hash] builds the first 19 bytes of the SHA-1 digest of
    peer_challenge ∥ server_challenge ∥ the whole user name, domain
    included: 19 bytes, not the 8 bytes of the digest of the challenges and
    the user name without its domain, from which the result differs
    whatever the user name is. *)
Theorem challenge_hash_19_bytes_of_whole_name
        (peer_challenge rchallenge : list byte) (username : string) :
  List.length peer_challenge = 16%nat ->
  List.length rchallenge = 16%nat ->
  exists challenge,
    challenge_hash sha1 peer_challenge rchallenge username
    = Some (true, challenge)
    /\ challenge
       = take 19 (resize 20 x00
                    (sha1 (peer_challenge ++ rchallenge
                           ++ c_str (list_byte_of_string username))))
    /\ List.length challenge = 19%nat
    /\ challenge <> challenge_hash_spec sha1 peer_challenge rchallenge username.
Proof.
  intros Hp Hr. eexists. split; [by apply challenge_hash_value|].
  split; [done|].
  assert (Hlen : List.length
                   (take 19 (resize 20 x00
                               (sha1 (peer_challenge ++ rchallenge
                                      ++ c_str (list_byte_of_string username)))))
                 = 19%nat).
  { rewrite length_take, length_resize. lia. }
  split; [done|]. intros Heq. rewrite Heq in Hlen.
  unfold challenge_hash_spec in Hlen. rewrite length_take in Hlen. lia.
Qed.
End ChallengeHash.

(** C6 on the challenges of RFC 2759 and the user name DOMAIN\User. *)
Lemma challenge_hash_19_bytes_of_whole_name_witness :
  exists challenge,
    ChapMs.challenge_hash Sha1.sha1 ChapMs.rfc2759_peer_challenge
                          ChapMs.rfc2759_auth_challenge Scenarios.domain_user
    = Some (true, challenge)
    /\ List.length challenge = 19%nat
    /\ challenge
       <> ChapMs.challenge_hash_spec Sha1.sha1 ChapMs.rfc2759_peer_challenge
            ChapMs.rfc2759_auth_challenge Scenarios.domain_user.
Proof.
  destruct (challenge_hash_19_bytes_of_whole_name Sha1.sha1
              ChapMs.rfc2759_peer_challenge ChapMs.rfc2759_auth_challenge
              Scenarios.domain_user eq_refl eq_refl)
    as (challenge & Hrun & _ & Hlen & Hne).
  exists challenge. split; [exact Hrun|]. split; [exact Hlen|exact Hne].
Defined.

(** The values on the test vector of RFC 2759: for the user name User the
    design's hash is the ChallengeHash of the RFC, D0 2E 43 86 BC E9 12 26,
    and it is the same for DOMAIN\User; the function yields 19 bytes, which
    for DOMAIN\User do not even start with those 8. *)
Example challenge_hash_rfc2759_run :
  ChapMs.challenge_hash_spec Sha1.sha1 ChapMs.rfc2759_peer_challenge
    ChapMs.rfc2759_auth_challenge Scenarios.plain_user
  = [xd0; x2e; x43; x86; xbc; xe9; x12; x26]
  /\ ChapMs.challenge_hash_spec Sha1.sha1 ChapMs.rfc2759_peer_challenge
       ChapMs.rfc2759_auth_challenge Scenarios.domain_user
     = [xd0; x2e; x43; x86; xbc; xe9; x12; x26]
  /\ ChapMs.challenge_hash Sha1.sha1 ChapMs.rfc2759_peer_challenge
       ChapMs.rfc2759_auth_challenge Scenarios.plain_user
     = Some (true,
             [xd0; x2e; x43; x86; xbc; xe9; x12; x26; x88; xb8; xe6; xab;
              xea; x88; xfd; x45; x6b; x21; xa7])
  /\ ChapMs.challenge_hash Sha1.sha1 ChapMs.rfc2759_peer_challenge
       ChapMs.rfc2759_auth_challenge Scenarios.domain_user
     = Some (true,
             [x58; x74; x9d; x8e; x50; xc0; x80; xc2; x41; xec; x19; x6f;
              x4b; x67; x01; x4c; xc8; x24; x83]).
Proof. repeat split; vm_compute; reflexivity. Qed.

(** * Demultiplexing of a received datagram *)

Section UdpInputPaths.
Import Udp.
Context `{PcbMacros}.

(** The choice of the unconnected endpoint never forgets the candidate. *)
Lemma uncon_update_spec mem ipd inp broadcast uncon pcb me :
  (forall u, uncon = Some u -> is_Some (mem !! u)) ->
  exists u1,
    uncon_update mem ipd inp broadcast uncon pcb me = Some (Some u1)
    /\ (u1 = pcb \/ uncon = Some u1).
Proof.
  intros Hval. unfold uncon_update. destruct uncon as [u|]; [|by eauto].
  destruct (_ && _).
  - destruct (Hval u eq_refl) as [un ->]. cbn [mbind option_bind].
    destruct (_ || _); [|by eauto]. destruct (_ && _); by eauto.
  - destruct (negb _); by eauto.
Qed.

(** What the demultiplexing loop computes: the first endpoint that
    matches fully, moved to the front of the list, and an unconnected local
    match if there is one among the endpoints visited. *)
Lemma udp_input_scan_spec mem ipd inp broadcast sport dport l :
  forall seen uncon,
    (forall p, p ∈ l -> is_Some (mem !! p)) ->
    (forall u, uncon = Some u -> is_Some (mem !! u)) ->
    exists found uncon' l1,
      udp_input_scan mem ipd inp broadcast sport dport seen l uncon
      = Some (found, uncon', l1)
      /\ (forall u, uncon' = Some u ->
            is_Some (mem !! u)
            /\ (uncon = Some u
                \/ (u ∈ l
                    /\ uncon_match mem ipd inp broadcast dport u = true)))
      /\ (uncon' = None -> uncon = None)
      /\ match found with
         | Some pcb =>
             exists la lb,
               l = la ++ pcb :: lb
               /\ (forall q, q ∈ la ->
                     full_match mem ipd inp broadcast sport dport q = false)
               /\ full_match mem ipd inp broadcast sport dport pcb = true
               /\ l1 = pcb :: seen ++ la ++ lb
               /\ (uncon' = None ->
                   forall q, q ∈ la ++ [pcb] ->
                     uncon_match mem ipd inp broadcast dport q = false)
         | None =>
             (forall q, q ∈ l ->
                full_match mem ipd inp broadcast sport dport q = false)
             /\ l1 = seen ++ l
             /\ (uncon' = None ->
                 forall q, q ∈ l ->
                   uncon_match mem ipd inp broadcast dport q = false)
         end.
Proof.
  induction l as [|pcb l IH]; intros seen uncon Hall Hval.
  - exists None, uncon, seen. cbn [udp_input_scan].
    split; [done|]. split; [by eauto|]. split; [done|].
    split; [intros q Hq; by apply elem_of_nil in Hq|].
    split; [by rewrite app_nil_r|]. intros _ q Hq. by apply elem_of_nil in Hq.
  - cbn [udp_input_scan]. destruct (Hall pcb) as [me Hme]; [by left|].
    rewrite Hme. cbn [mbind option_bind].
    assert (Hall' : forall p, p ∈ l -> is_Some (mem !! p))
      by (intros p Hp; apply Hall; by right).
    assert (Hlm : local_match mem ipd inp broadcast dport pcb
                  = (local_port me =? dport)
                    && udp_input_local_match ipd me inp broadcast)
      by (unfold local_match; by rewrite Hme).
    assert (Hfm : full_match mem ipd inp broadcast sport dport pcb
                  = ((local_port me =? dport)
                     && udp_input_local_match ipd me inp broadcast)
                    && ((remote_port me =? sport)
                        && (is_ip_addr_any (remote_ip me)
                            || compare_ip_addr (remote_ip me)
                                 (ip_current_src_addr ipd))))
      by (unfold full_match; by rewrite Hlm, Hme).
    assert (Hum : uncon_match mem ipd inp broadcast dport pcb
                  = ((local_port me =? dport)
                     && udp_input_local_match ipd me inp broadcast)
                    && (Z.land (flags me) UDP_FLAGS_CONNECTED =? 0))
      by (unfold uncon_match; by rewrite Hlm, Hme).
    destruct ((local_port me =? dport)
              && udp_input_local_match ipd me inp broadcast) eqn:Hlocal.
    + (* a local match *)
      assert (Hu1 : exists uncon1,
                 (if Z.land (flags me) UDP_FLAGS_CONNECTED =? 0
                  then uncon_update mem ipd inp broadcast uncon pcb me
                  else Some uncon) = Some uncon1
                 /\ (forall u, uncon1 = Some u ->
                       is_Some (mem !! u)
                       /\ (uncon = Some u
                           \/ (u = pcb
                               /\ uncon_match mem ipd inp broadcast dport pcb
                                  = true)))
                 /\ (uncon1 = None ->
                     uncon = None
                     /\ uncon_match mem ipd inp broadcast dport pcb = false)).
      { rewrite Hum. cbn [andb].
        destruct (Z.land (flags me) UDP_FLAGS_CONNECTED =? 0).
        - destruct (uncon_update_spec mem ipd inp broadcast uncon pcb me Hval)
            as (u1 & -> & Hu1).
          exists (Some u1). split; [done|]. split; [|done].
          intros u [= <-]. destruct Hu1 as [->|Hold].
          + split; [by eauto|]. by right.
          + split; [by apply Hval|]. by left.
        - exists uncon. split; [done|]. split; [|done].
          intros u ->. split; [by apply Hval|]. by left. }
      destruct Hu1 as (uncon1 & -> & Hsome1 & Hnone1).
      cbn [mbind option_bind].
      destruct ((remote_port me =? sport)
                && (is_ip_addr_any (remote_ip me)
                    || compare_ip_addr (remote_ip me)
                         (ip_current_src_addr ipd))) eqn:Hremote.
      * (* the first full match *)
        exists (Some pcb), uncon1,
          (match seen with [] => pcb :: l | _ :: _ => pcb :: seen ++ l end).
        split; [done|]. split.
        { intros u Hu. destruct (Hsome1 u Hu) as [Hv [Hold|[-> Hm]]].
          - split; [done|]. by left.
          - split; [done|]. right. split; [by left|done]. }
        split; [intros Hn; by apply Hnone1|].
        exists [], l. split; [done|].
        split; [intros q Hq; by apply elem_of_nil in Hq|].
        split; [by rewrite Hfm|]. split; [by destruct seen|].
        intros Hn q Hq. apply list_elem_of_singleton in Hq as ->.
        by apply Hnone1.
      * (* a local match of another sender *)
        destruct (IH (seen ++ [pcb]) uncon1 Hall') as
          (found & uncon' & l1 & Hrun & Hsome & Hnone & Hfound).
        { intros u Hu. by apply Hsome1. }
        exists found, uncon', l1. split; [done|]. split.
        { intros u Hu. destruct (Hsome u Hu) as [Hv [Hold|[Hin Hm]]].
          - split; [done|].
            destruct (Hsome1 u Hold) as [_ [?|[-> Hm]]]; [by left|].
            right. split; [by left|done].
          - split; [done|]. right. split; [by right|done]. }
        split; [intros Hn; by apply Hnone1, Hnone|].
        destruct found as [pcb'|].
        -- destruct Hfound as (la & lb & -> & Hla & Hfull & -> & Hun).
           exists (pcb :: la), lb. split; [done|]. split.
           { intros q Hq. apply elem_of_cons in Hq as [->|Hq]; [|by apply Hla].
             by rewrite Hfm. }
           split; [done|].
           split; [by rewrite <- !app_assoc|].
           intros Hn q Hq. cbn [app] in Hq.
           apply elem_of_cons in Hq as [->|Hq]; [|by apply Hun].
           by apply Hnone1, Hnone.
        -- destruct Hfound as (Hl & -> & Hun). split.
           { intros q Hq. apply elem_of_cons in Hq as [->|Hq]; [|by apply Hl].
             by rewrite Hfm. }
           split; [by rewrite <- app_assoc|].
           intros Hn q Hq.
           apply elem_of_cons in Hq as [->|Hq]; [|by apply Hun].
           by apply Hnone1, Hnone.
    + (* no local match *)
      destruct (IH (seen ++ [pcb]) uncon Hall' Hval) as
        (found & uncon' & l1 & Hrun & Hsome & Hnone & Hfound).
      exists found, uncon', l1. split; [done|]. split.
      { intros u Hu. destruct (Hsome u Hu) as [Hv [Hold|[Hin Hm]]].
        - split; [done|]. by left.
        - split; [done|]. right. split; [by right|done]. }
      split; [done|].
      destruct found as [pcb'|].
      * destruct Hfound as (la & lb & -> & Hla & Hfull & -> & Hun).
        exists (pcb :: la), lb. split; [done|]. split.
        { intros q Hq. apply elem_of_cons in Hq as [->|Hq]; [|by apply Hla].
          by rewrite Hfm. }
        split; [done|].
        split; [by rewrite <- !app_assoc|].
        intros Hn q Hq. cbn [app] in Hq.
        apply elem_of_cons in Hq as [->|Hq]; [|by apply Hun].
        by rewrite Hum.
      * destruct Hfound as (Hl & -> & Hun). split.
        { intros q Hq. apply elem_of_cons in Hq as [->|Hq]; [|by apply Hl].
          by rewrite Hfm. }
        split; [by rewrite <- app_assoc|].
        intros Hn q Hq.
        apply elem_of_cons in Hq as [->|Hq]; [|by apply Hun].
        by rewrite Hum.
Qed.
End UdpInputPaths.

Section UdpInputRun.
Import Udp.
Context `{PcbMacros}.

(** The copies of the fan-out are clones, made for local matches other
    than the endpoint that gets the original. *)
Lemma copy_for_elem mem ipd inp broadcast sport dport clone_ok pcb l e :
  e ∈ flat_map (copy_for mem ipd inp broadcast sport dport clone_ok pcb) l ->
  exists mpcb m fn,
    e = Recv fn mpcb (buf_clone mpcb) (ip_current_src_addr ipd) sport
    /\ mpcb ∈ l /\ mpcb <> pcb /\ mem !! mpcb = Some m /\ recv m = Some fn
    /\ local_match mem ipd inp broadcast dport mpcb = true
    /\ clone_ok mpcb = true.
Proof.
  intros He. apply list_elem_of_In, in_flat_map in He as (mpcb & Hin & He).
  apply list_elem_of_In in Hin, He. unfold copy_for in He.
  destruct (Pos.eqb_spec mpcb pcb) as [->|Hne]; cbn [negb andb] in He;
    [by apply elem_of_nil in He|].
  destruct (local_match mem ipd inp broadcast dport mpcb) eqn:Hlm;
    [|by apply elem_of_nil in He].
  destruct (mem !! mpcb) as [m|] eqn:Hm; cbn [fmap option_fmap option_map] in He;
    [|by apply elem_of_nil in He].
  destruct (recv m) as [fn|] eqn:Hfn; [|by apply elem_of_nil in He].
  destruct (clone_ok mpcb) eqn:Hclone; [|by apply elem_of_nil in He].
  apply list_elem_of_singleton in He as ->. by exists mpcb, m, fn.
Qed.

Lemma full_match_local mem ipd inp broadcast sport dport pcb :
  full_match mem ipd inp broadcast sport dport pcb = true ->
  local_match mem ipd inp broadcast dport pcb = true.
Proof. unfold full_match. by intros [? _]%andb_true_iff. Qed.

Lemma uncon_match_local mem ipd inp broadcast dport pcb :
  uncon_match mem ipd inp broadcast dport pcb = true ->
  local_match mem ipd inp broadcast dport pcb = true.
Proof. unfold uncon_match. by intros [? _]%andb_true_iff. Qed.

(** [udp_input] on a datagram that holds a UDP header, in closed form:
    the list after the demultiplexing loop, and the calls made. *)
Lemma udp_input_run clone_ok rm ipd p inp s :
  let broadcast :=
    ip_addr_isbroadcast (ip_current_dest_addr ipd) (ip_current_netif ipd) in
  let sport := lwip_ntohs (src (udphdr p)) in
  let dport := lwip_ntohs (dest (udphdr p)) in
  pcbs_ok s = true ->
  UDP_HLEN <= p_len p ->
  exists found uncon_pcb l1,
    udp_input_scan (pcb_mem s) ipd inp broadcast sport dport []
                   (udp_pcbs s) None
    = Some (found, uncon_pcb, l1)
    /\ l1 ≡ₚ udp_pcbs s
    /\ (forall pcb, udp_input_pcb found uncon_pcb = Some pcb ->
          pcb ∈ udp_pcbs s /\ is_Some (pcb_mem s !! pcb)
          /\ (full_match (pcb_mem s) ipd inp broadcast sport dport pcb = true
              \/ uncon_match (pcb_mem s) ipd inp broadcast dport pcb = true))
    /\ (udp_input_pcb found uncon_pcb = None ->
        forall q, q ∈ udp_pcbs s ->
          full_match (pcb_mem s) ipd inp broadcast sport dport q = false
          /\ uncon_match (pcb_mem s) ipd inp broadcast dport q = false)
    /\ udp_input clone_ok rm ipd p inp s
       = Some (with_udp_pcbs s l1,
               let pcb := udp_input_pcb found uncon_pcb in
               let for_us :=
                 match pcb with
                 | Some _ => true
                 | None =>
                     if ip_current_is_v6 ipd
                     then 0 <=? netif_get_ip6_addr_match inp
                                  (ip6_current_dest_addr ipd)
                     else ip4_addr_cmp (get_net_ifc_ip4_addr inp)
                                       (ip4_current_dest_addr ipd)
                 end in
               if for_us && negb (udp_input_chkerr ipd p inp) && negb rm
               then
                 match pcb with
                 | Some pcb =>
                     (if match pcb_mem s !! pcb with
                         | Some me => ip_get_option me SOF_REUSEADDR
                         | None => false
                         end
                         && (broadcast
                             || ip_addr_ismulticast (ip_current_dest_addr ipd))
                      then flat_map (copy_for (pcb_mem s) ipd inp broadcast
                                       sport dport clone_ok pcb) l1
                      else [])
                     ++ [match recv <$> pcb_mem s !! pcb with
                         | Some (Some fn) =>
                             Recv fn pcb buf_p (ip_current_src_addr ipd) sport
                         | _ => FreePktBuf buf_p
                         end]
                 | None =>
                     (if negb broadcast
                         && negb (ip_addr_ismulticast
                                    (ip_current_dest_addr ipd))
                      then [IcmpPortUnreach] else [])
                     ++ [FreePktBuf buf_p]
                 end
               else [FreePktBuf buf_p]).
Proof.
  intros broadcast sport dport Hok Hlen.
  destruct (udp_input_scan_spec (pcb_mem s) ipd inp broadcast sport dport
              (udp_pcbs s) [] None) as
    (found & uncon' & l1 & Hscan & Hsome & _ & Hfound).
  { intros q. by apply pcbs_ok_lookup. }
  { done. }
  exists found, uncon', l1. split; [done|].
  pose proof (udp_input_scan_perm _ _ _ _ _ _ _ _ _ _ _ _ Hscan) as Hperm.
  cbn [app] in Hperm. split; [done|].
  assert (Hpcb : forall pcb, udp_input_pcb found uncon' = Some pcb ->
            pcb ∈ udp_pcbs s /\ is_Some (pcb_mem s !! pcb)
            /\ (full_match (pcb_mem s) ipd inp broadcast sport dport pcb
                = true
                \/ uncon_match (pcb_mem s) ipd inp broadcast dport pcb
                   = true)).
  { intros pcb Hp. unfold udp_input_pcb in Hp. destruct found as [pcb'|].
    - injection Hp as ->.
      destruct Hfound as (la & lb & Hl & _ & Hfull & _).
      assert (Hin : pcb ∈ udp_pcbs s).
      { rewrite Hl. apply elem_of_app. right. by left. }
      split; [done|]. split; [by apply pcbs_ok_lookup|]. by left.
    - destruct (Hsome pcb Hp) as [Hv [?|[Hin Hm]]]; [done|].
      split; [done|]. split; [done|]. by right. }
  split; [done|]. split.
  { intros Hnone q Hq. unfold udp_input_pcb in Hnone.
    destruct found as [pcb'|]; [done|]. subst uncon'.
    destruct Hfound as (Hl & _ & Hun). split; [by apply Hl|by apply Hun]. }
  unfold udp_input. fold broadcast sport dport.
  destruct (Z.ltb_spec (p_len p) UDP_HLEN) as [?|_]; [lia|].
  rewrite Hscan. cbn [mbind option_bind]. cbv zeta.
  destruct (udp_input_pcb found uncon') as [pcb|] eqn:Hp.
  - destruct (Hpcb pcb eq_refl) as (Hin & [me Hme] & _).
    cbn [andb]. destruct (udp_input_chkerr ipd p inp); [done|].
    destruct rm; [done|]. cbn [negb andb].
    unfold udp_input_deliver. cbn [pcb_mem with_udp_pcbs udp_pcbs].
    rewrite Hme. cbn [mbind option_bind fmap option_fmap option_map].
    destruct (ip_get_option me SOF_REUSEADDR
              && (broadcast || ip_addr_ismulticast (ip_current_dest_addr ipd))).
    + rewrite udp_input_fanout_spec.
      * cbn [mbind option_bind]. by destruct (recv me).
      * intros q Hq. apply (pcbs_ok_lookup s); [done|]. by rewrite <- Hperm.
    + cbn [mbind option_bind app]. by destruct (recv me).
  - destruct (if ip_current_is_v6 ipd then _ else _); [|done].
    cbn [andb]. destruct (udp_input_chkerr ipd p inp); [done|].
    destruct rm; [done|]. done.
Qed.
End UdpInputRun.

Section UdpInputProperties.
Import Udp.
Context `{PcbMacros}.

(** A local match respects the binding of the endpoint to an interface
    and its BROADCAST option. *)
Lemma udp_input_local_match_true ipd me inp broadcast :
  udp_input_local_match ipd me inp broadcast = true ->
  (netif_idx me = NETIF_NO_INDEX
   \/ netif_idx me = netif_get_index (current_input_netif ipd))
  /\ (broadcast = true -> ip_get_option me SOF_BROADCAST = true).
Proof.
  unfold udp_input_local_match.
  destruct (Z.eqb_spec (netif_idx me) NETIF_NO_INDEX) as [Hno|_];
    destruct (Z.eqb_spec (netif_idx me)
                (netif_get_index (current_input_netif ipd))) as [Hidx|_];
    cbn [negb andb]; try done.
  all: destruct broadcast, (ip_get_option me SOF_BROADCAST);
    cbn [negb andb];
    destruct (is_ip_addr_any (local_ip me));
    destruct (match_exact_ip_addr_pcb_vers me (ip_current_dest_addr ipd));
    try done; intros _; split; auto.
Qed.

(** On every path [udp_input] disposes of its buffer exactly once, as the
    last call it makes: the buffer is freed, or handed to one receive
    callback, which owns it from then on.  The endpoints themselves and
    [udp_port] are not touched, and the endpoint list is reordered at
    most. *)
Theorem udp_input_consumes_once (pbuf_clone_ok : pcb_ptr -> bool)
        (pbuf_remove_header_fails : bool) (ipd : IpData) (p : PacketBuffer)
        (inp : NetIfc) (s : UdpState) :
  pcbs_ok s = true ->
  exists s' evs e,
    udp_input pbuf_clone_ok pbuf_remove_header_fails ipd p inp s
    = Some (s', evs ++ [e])
    /\ takes_p e = true
    /\ (forall e', e' ∈ evs -> takes_p e' = false)
    /\ udp_pcbs s' ≡ₚ udp_pcbs s
    /\ pcb_mem s' = pcb_mem s
    /\ udp_port s' = udp_port s.
Proof.
  intros Hok. destruct (Z.ltb_spec (p_len p) UDP_HLEN) as [Hshort|Hlen].
  - exists s, [], (FreePktBuf buf_p). unfold udp_input.
    destruct (Z.ltb_spec (p_len p) UDP_HLEN) as [_|?]; [|lia].
    split; [done|]. split; [done|].
    split; [intros e' He'; by apply elem_of_nil in He'|done].
  - destruct (udp_input_run pbuf_clone_ok pbuf_remove_header_fails ipd p inp s
                Hok Hlen) as (found & uncon & l1 & _ & Hperm & _ & _ & Hrun).
    cbv zeta in Hrun. rewrite Hrun. clear Hrun.
    exists (with_udp_pcbs s l1).
    assert (Hfree : exists evs e,
               [FreePktBuf buf_p] = evs ++ [e] /\ takes_p e = true
               /\ forall e', e' ∈ evs -> takes_p e' = false).
    { exists [], (FreePktBuf buf_p). split; [done|]. split; [done|].
      intros e' He'. by apply elem_of_nil in He'. }
    match goal with
    | |- context [Some (_, if ?c then ?a else _)] =>
        assert (Hev : exists evs e,
                   (if c then a else [FreePktBuf buf_p]) = evs ++ [e]
                   /\ takes_p e = true
                   /\ forall e', e' ∈ evs -> takes_p e' = false)
    end.
    { destruct (_ && _ && _); [|done].
      destruct (udp_input_pcb found uncon) as [pcb|].
      - eexists _, _. split; [reflexivity|]. split.
        + by destruct (recv <$> pcb_mem s !! pcb) as [[fn|]|].
        + intros e' He'. destruct (_ && _) in He';
            [|by apply elem_of_nil in He'].
          apply copy_for_elem in He' as (mpcb & m & fn & -> & _). done.
      - eexists _, _. split; [reflexivity|]. split; [done|].
        intros e' He'. destruct (_ && _) in He';
          [|by apply elem_of_nil in He'].
        by apply list_elem_of_singleton in He' as ->. }
    destruct Hev as (evs & e & -> & He & Hevs). exists evs, e.
    split; [done|]. split; [done|]. split; [done|]. done.
Qed.

(** [udp_input] calls the receive callback of an endpoint only with the
    sender's address and port, and only if the endpoint is on the list,
    the callback is its own, its local port is the destination port and it
    passes the local match; so never for an endpoint bound to another
    interface than the one the datagram came in on, and never with a
    broadcast for an endpoint without the BROADCAST option.  The datagram
    then held a UDP header, passed the checksum test and had its header
    removed.  The buffer passed is the original or a clone made for that
    endpoint. *)
Theorem udp_input_callback_matches (pbuf_clone_ok : pcb_ptr -> bool)
        (pbuf_remove_header_fails : bool) (ipd : IpData) (p : PacketBuffer)
        (inp : NetIfc) (s s' : UdpState) (evs : list Event)
        (fn : recv_fn) (pcb : pcb_ptr) (b : Buf) (from : IpAddr) (port : Z) :
  pcbs_ok s = true ->
  udp_input pbuf_clone_ok pbuf_remove_header_fails ipd p inp s
  = Some (s', evs) ->
  Recv fn pcb b from port ∈ evs ->
  from = ip_current_src_addr ipd
  /\ port = lwip_ntohs (src (udphdr p))
  /\ (b = buf_p \/ b = buf_clone pcb)
  /\ pcb ∈ udp_pcbs s
  /\ (exists me,
        pcb_mem s !! pcb = Some me /\ recv me = Some fn
        /\ local_port me = lwip_ntohs (dest (udphdr p))
        /\ udp_input_local_match ipd me inp
             (ip_addr_isbroadcast (ip_current_dest_addr ipd)
                                  (ip_current_netif ipd)) = true
        /\ (netif_idx me = NETIF_NO_INDEX
            \/ netif_idx me = netif_get_index (current_input_netif ipd))
        /\ (ip_addr_isbroadcast (ip_current_dest_addr ipd)
                                (ip_current_netif ipd) = true ->
            ip_get_option me SOF_BROADCAST = true))
  /\ UDP_HLEN <= p_len p
  /\ udp_input_chkerr ipd p inp = false
  /\ pbuf_remove_header_fails = false.
Proof.
  intros Hok Hrun Hin.
  destruct (Z.ltb_spec (p_len p) UDP_HLEN) as [Hshort|Hlen].
  { unfold udp_input in Hrun.
    destruct (Z.ltb_spec (p_len p) UDP_HLEN) as [_|?]; [|lia].
    injection Hrun as <- <-. apply list_elem_of_singleton in Hin. done. }
  destruct (udp_input_run pbuf_clone_ok pbuf_remove_header_fails ipd p inp s
              Hok Hlen) as (found & uncon & l1 & _ & Hperm & Hpcb & _ & Heq).
  cbv zeta in Heq. rewrite Heq in Hrun. clear Heq. injection Hrun as <- <-.
  assert (Hlocal : forall q m,
             pcb_mem s !! q = Some m ->
             local_match (pcb_mem s) ipd inp
               (ip_addr_isbroadcast (ip_current_dest_addr ipd)
                                    (ip_current_netif ipd))
               (lwip_ntohs (dest (udphdr p))) q = true ->
             local_port m = lwip_ntohs (dest (udphdr p))
             /\ udp_input_local_match ipd m inp
                  (ip_addr_isbroadcast (ip_current_dest_addr ipd)
                                       (ip_current_netif ipd)) = true
             /\ (netif_idx m = NETIF_NO_INDEX
                 \/ netif_idx m = netif_get_index (current_input_netif ipd))
             /\ (ip_addr_isbroadcast (ip_current_dest_addr ipd)
                                     (ip_current_netif ipd) = true ->
                 ip_get_option m SOF_BROADCAST = true)).
  { intros q m Hm Hlm. unfold local_match in Hlm. rewrite Hm in Hlm.
    apply andb_true_iff in Hlm as [Hp Hl]. apply Z.eqb_eq in Hp.
    destruct (udp_input_local_match_true _ _ _ _ Hl). done. }
  destruct (_ && _ && _) eqn:Hcond in Hin;
    [|apply list_elem_of_singleton in Hin; done].
  apply andb_true_iff in Hcond as [Hcond Hrm].
  apply andb_true_iff in Hcond as [_ Hchk].
  apply negb_true_iff in Hrm, Hchk.
  destruct (udp_input_pcb found uncon) as [pcb0|] eqn:Hp.
  - destruct (Hpcb pcb0 eq_refl) as (Hin0 & [me Hme] & Hmatch).
    assert (Hlm : local_match (pcb_mem s) ipd inp
                    (ip_addr_isbroadcast (ip_current_dest_addr ipd)
                                         (ip_current_netif ipd))
                    (lwip_ntohs (dest (udphdr p))) pcb0 = true).
    { destruct Hmatch as [Hm|Hm];
        [by apply full_match_local in Hm|by apply uncon_match_local in Hm]. }
    apply elem_of_app in Hin as [Hin|Hin].
    + destruct (_ && _) in Hin; [|by apply elem_of_nil in Hin].
      apply copy_for_elem in Hin
        as (mpcb & m & fn' & [= -> -> -> -> ->] & Hinl & _ & Hm & Hfn & Hlm' & _).
      split; [done|]. split; [done|]. split; [by right|].
      split; [by rewrite <- Hperm|].
      split; [|done]. exists m.
      destruct (Hlocal mpcb m Hm Hlm') as (? & ? & ? & ?). done.
    + apply list_elem_of_singleton in Hin. rewrite Hme in Hin.
      cbn [fmap option_fmap option_map] in Hin.
      destruct (recv me) as [fn'|] eqn:Hfn; [|done].
      injection Hin as -> -> -> -> ->.
      split; [done|]. split; [done|]. split; [by left|]. split; [done|].
      split; [|done]. exists me.
      destruct (Hlocal pcb0 me Hme Hlm) as (? & ? & ? & ?). done.
  - apply elem_of_app in Hin as [Hin|Hin].
    + destruct (_ && _) in Hin; [|by apply elem_of_nil in Hin].
      by apply list_elem_of_singleton in Hin.
    + by apply list_elem_of_singleton in Hin.
Qed.

(** An ICMP port-unreachable message is sent exactly for a datagram that
    holds a UDP header, for which no endpoint of the list matches fully
    and no unconnected endpoint is a local match, that is addressed to the
    receiving interface, neither broadcast nor multicast, passes the
    checksum test and has its header removed. *)
Theorem udp_input_port_unreachable (pbuf_clone_ok : pcb_ptr -> bool)
        (pbuf_remove_header_fails : bool) (ipd : IpData) (p : PacketBuffer)
        (inp : NetIfc) (s s' : UdpState) (evs : list Event) :
  let broadcast :=
    ip_addr_isbroadcast (ip_current_dest_addr ipd) (ip_current_netif ipd) in
  let sport := lwip_ntohs (src (udphdr p)) in
  let dport := lwip_ntohs (dest (udphdr p)) in
  pcbs_ok s = true ->
  udp_input pbuf_clone_ok pbuf_remove_header_fails ipd p inp s
  = Some (s', evs) ->
  IcmpPortUnreach ∈ evs
  <-> (UDP_HLEN <= p_len p
       /\ (forall q, q ∈ udp_pcbs s ->
             full_match (pcb_mem s) ipd inp broadcast sport dport q = false
             /\ uncon_match (pcb_mem s) ipd inp broadcast dport q = false)
       /\ (if ip_current_is_v6 ipd
           then 0 <=? netif_get_ip6_addr_match inp (ip6_current_dest_addr ipd)
           else ip4_addr_cmp (get_net_ifc_ip4_addr inp)
                             (ip4_current_dest_addr ipd)) = true
       /\ udp_input_chkerr ipd p inp = false
       /\ pbuf_remove_header_fails = false
       /\ broadcast = false
       /\ ip_addr_ismulticast (ip_current_dest_addr ipd) = false).
Proof.
  intros broadcast sport dport Hok Hrun.
  destruct (Z.ltb_spec (p_len p) UDP_HLEN) as [Hshort|Hlen].
  { unfold udp_input in Hrun.
    destruct (Z.ltb_spec (p_len p) UDP_HLEN) as [_|?]; [|lia].
    injection Hrun as <- <-. split.
    - intros Hin. by apply list_elem_of_singleton in Hin.
    - intros [? _]. lia. }
  destruct (udp_input_run pbuf_clone_ok pbuf_remove_header_fails ipd p inp s
              Hok Hlen) as (found & uncon & l1 & _ & Hperm & Hpcb & Hnone & Heq).
  cbv zeta in Heq. fold broadcast sport dport in Heq, Hpcb, Hnone.
  rewrite Heq in Hrun. clear Heq. injection Hrun as <- <-.
  destruct (udp_input_pcb found uncon) as [pcb0|] eqn:Hp.
  - (* an endpoint takes the datagram: no message *)
    destruct (Hpcb pcb0 eq_refl) as (Hin0 & [me Hme] & Hlm). split.
    + intros Hin. exfalso.
      destruct (_ && _ && _) in Hin;
        [|by apply list_elem_of_singleton in Hin].
      apply elem_of_app in Hin as [Hin|Hin].
      * destruct (_ && _) in Hin; [|by apply elem_of_nil in Hin].
        by apply copy_for_elem in Hin as (? & ? & ? & ? & _).
      * apply list_elem_of_singleton in Hin.
        by destruct (recv <$> pcb_mem s !! pcb0) as [[?|]|].
    + intros (_ & Hno & _). exfalso.
      destruct (Hno pcb0 Hin0) as [Hfull Hun].
      destruct Hlm as [Hm|Hm]; congruence.
  - specialize (Hnone eq_refl). cbn [andb]. split.
    + intros Hin.
      destruct (if ip_current_is_v6 ipd then _ else _) eqn:Hus;
        [|by apply list_elem_of_singleton in Hin].
      cbn [andb] in Hin.
      destruct (udp_input_chkerr ipd p inp);
        [by apply list_elem_of_singleton in Hin|].
      destruct pbuf_remove_header_fails;
        [by apply list_elem_of_singleton in Hin|].
      cbn [negb andb] in Hin.
      destruct broadcast; cbn [negb andb app] in Hin;
        [by apply list_elem_of_singleton in Hin|].
      destruct (ip_addr_ismulticast (ip_current_dest_addr ipd));
        cbn [negb app] in Hin; [by apply list_elem_of_singleton in Hin|].
      done.
    + intros (_ & _ & -> & -> & -> & -> & ->). cbn. by left.
Qed.
End UdpInputProperties.

Section UdpInputFront.
Import Udp.
Context `{PcbMacros}.

(** The first endpoint of the list that matches a datagram fully is moved
    to the front of the list, the order of the others being kept, and it is
    the endpoint that gets the datagram once the checksum is accepted and
    the header removed; when no endpoint matches fully the list stays as it
    is. *)
Theorem udp_input_full_match_first (pbuf_clone_ok : pcb_ptr -> bool)
        (pbuf_remove_header_fails : bool) (ipd : IpData) (p : PacketBuffer)
        (inp : NetIfc) (s s' : UdpState) (evs : list Event) :
  let broadcast :=
    ip_addr_isbroadcast (ip_current_dest_addr ipd) (ip_current_netif ipd) in
  let sport := lwip_ntohs (src (udphdr p)) in
  let dport := lwip_ntohs (dest (udphdr p)) in
  pcbs_ok s = true ->
  UDP_HLEN <= p_len p ->
  udp_input pbuf_clone_ok pbuf_remove_header_fails ipd p inp s
  = Some (s', evs) ->
  (exists la pcb lb me,
      udp_pcbs s = la ++ pcb :: lb
      /\ (forall q, q ∈ la ->
            full_match (pcb_mem s) ipd inp broadcast sport dport q = false)
      /\ full_match (pcb_mem s) ipd inp broadcast sport dport pcb = true
      /\ udp_pcbs s' = pcb :: la ++ lb
      /\ pcb_mem s !! pcb = Some me
      /\ (udp_input_chkerr ipd p inp = false ->
          pbuf_remove_header_fails = false ->
          last evs
          = Some match recv me with
                 | Some fn =>
                     Recv fn pcb buf_p (ip_current_src_addr ipd) sport
                 | None => FreePktBuf buf_p
                 end))
  \/ ((forall q, q ∈ udp_pcbs s ->
         full_match (pcb_mem s) ipd inp broadcast sport dport q = false)
      /\ udp_pcbs s' = udp_pcbs s).
Proof.
  intros broadcast sport dport Hok Hlen Hrun.
  destruct (udp_input_run pbuf_clone_ok pbuf_remove_header_fails ipd p inp s
              Hok Hlen) as (found & uncon & l1 & Hscan & _ & Hpcb & _ & Heq).
  cbv zeta in Heq. fold broadcast sport dport in Hscan, Heq, Hpcb.
  rewrite Heq in Hrun. clear Heq. injection Hrun as <- <-.
  destruct (udp_input_scan_spec (pcb_mem s) ipd inp broadcast sport dport
              (udp_pcbs s) [] None) as
    (found' & uncon' & l1' & Hscan' & _ & _ & Hfound).
  { intros q. by apply pcbs_ok_lookup. }
  { done. }
  rewrite Hscan in Hscan'. injection Hscan' as <- <- <-.
  destruct found as [pcb|].
  - left. destruct Hfound as (la & lb & Hl & Hla & Hfull & -> & _).
    destruct (Hpcb pcb eq_refl) as (_ & [me Hme] & _).
    exists la, pcb, lb, me. split; [done|]. split; [done|]. split; [done|].
    split; [done|]. split; [done|]. intros -> ->.
    cbn [udp_input_pcb andb negb]. rewrite Hme.
    cbn [fmap option_fmap option_map]. rewrite last_snoc.
    by destruct (recv me).
  - right. destruct Hfound as (Hl & -> & _). done.
Qed.
End UdpInputFront.

(** The multicast datagram [mcast_dgram] on the endpoints [listeners]. *)
Lemma udp_input_consumes_once_witness :
  exists s' evs e,
    Udp.udp_input (fun _ => true) false Scenarios.mcast_ipd
                  Scenarios.mcast_dgram Host.eth0
                  (Scenarios.listeners (Some 12%positive))
    = Some (s', evs ++ [e])
    /\ takes_p e = true
    /\ (forall e', e' ∈ evs -> takes_p e' = false)
    /\ Udp.udp_pcbs s' ≡ₚ [1; 2]%positive
    /\ Udp.pcb_mem s'
       = Udp.pcb_mem (Scenarios.listeners (Some 12%positive))
    /\ Udp.udp_port s' = Udp.UDP_LOCAL_PORT_RANGE_START.
Proof.
  apply (udp_input_consumes_once (fun _ => true) false Scenarios.mcast_ipd
           Scenarios.mcast_dgram Host.eth0
           (Scenarios.listeners (Some 12%positive))).
  reflexivity.
Defined.

(** The callback 12 of endpoint 2, called with a clone of [mcast_dgram]. *)
Lemma udp_input_callback_matches_witness :
  2%positive ∈ [1; 2]%positive
  /\ exists me,
       Udp.pcb_mem (Scenarios.listeners (Some 12%positive)) !! 2%positive
       = Some me
       /\ Udp.recv me = Some 12%positive
       /\ Udp.local_port me = 5000.
Proof.
  assert (Hrun : Udp.udp_input (fun _ => true) false Scenarios.mcast_ipd
                   Scenarios.mcast_dgram Host.eth0
                   (Scenarios.listeners (Some 12%positive))
                 = Some (Scenarios.listeners (Some 12%positive),
                         [Udp.Recv 12%positive 2%positive
                                   (Udp.buf_clone 2%positive)
                                   (Host.v4 192 0 2 7) 9;
                          Udp.Recv 11%positive 1%positive Udp.buf_p
                                   (Host.v4 192 0 2 7) 9]))
    by reflexivity.
  destruct (udp_input_callback_matches (fun _ => true) false
              Scenarios.mcast_ipd Scenarios.mcast_dgram Host.eth0
              (Scenarios.listeners (Some 12%positive)) _ _
              12%positive 2%positive (Udp.buf_clone 2%positive)
              (Host.v4 192 0 2 7) 9 eq_refl Hrun)
    as (_ & _ & _ & Hin & (me & Hme & Hfn & Hport & _) & _).
  { by left. }
  split; [exact Hin|]. exists me. split; [exact Hme|].
  split; [exact Hfn|exact Hport].
Defined.

(** The datagram [stray_dgram], sent to a port of [eth0] on which nobody
    listens, is answered with a port-unreachable message. *)
Lemma udp_input_port_unreachable_witness :
  exists s' evs,
    Udp.udp_input (fun _ => true) false Scenarios.unicast_ipd
                  Scenarios.stray_dgram Host.eth0 Scenarios.bound_pair
    = Some (s', evs)
    /\ Udp.IcmpPortUnreach ∈ evs.
Proof.
  assert (Hrun : Udp.udp_input (fun _ => true) false Scenarios.unicast_ipd
                   Scenarios.stray_dgram Host.eth0 Scenarios.bound_pair
                 = Some (Scenarios.bound_pair,
                         [Udp.IcmpPortUnreach; Udp.FreePktBuf Udp.buf_p]))
    by reflexivity.
  eexists _, _. split; [exact Hrun|].
  apply (udp_input_port_unreachable (fun _ => true) false
           Scenarios.unicast_ipd Scenarios.stray_dgram Host.eth0
           Scenarios.bound_pair _ _ eq_refl Hrun).
  split; [unfold Udp.UDP_HLEN; simpl; lia|].
  split.
  { intros q Hq. apply elem_of_cons in Hq as [->|Hq]; [by split|].
    apply list_elem_of_singleton in Hq as ->. by split. }
  repeat split; reflexivity.
Defined.

(** [unicast_dgram] on the endpoints [server_and_peer]: the connected
    endpoint 2 matches fully, gets the datagram and moves to the front. *)
Lemma udp_input_full_match_first_witness :
  Udp.udp_input (fun _ => true) false Scenarios.unicast_ipd
                Scenarios.unicast_dgram Host.eth0 Scenarios.server_and_peer
  = Some (Udp.with_udp_pcbs Scenarios.server_and_peer [2; 1]%positive,
          [Udp.Recv 12%positive 2%positive Udp.buf_p (Host.v4 192 0 2 7) 9])
  /\ full_match (Udp.pcb_mem Scenarios.server_and_peer) Scenarios.unicast_ipd
                Host.eth0 false 9 5000 2%positive = true.
Proof.
  assert (Hrun : Udp.udp_input (fun _ => true) false Scenarios.unicast_ipd
                   Scenarios.unicast_dgram Host.eth0 Scenarios.server_and_peer
                 = Some (Udp.with_udp_pcbs Scenarios.server_and_peer
                           [2; 1]%positive,
                         [Udp.Recv 12%positive 2%positive Udp.buf_p
                                   (Host.v4 192 0 2 7) 9]))
    by reflexivity.
  split; [exact Hrun|].
  destruct (udp_input_full_match_first (fun _ => true) false
              Scenarios.unicast_ipd Scenarios.unicast_dgram Host.eth0
              Scenarios.server_and_peer _ _ eq_refl
              ltac:(unfold Udp.UDP_HLEN; simpl; lia) Hrun)
    as [(la & pcb & lb & me & Hl & _ & Hfull & Hl' & _)|[_ Hsame]].
  - cbn [Udp.udp_pcbs Udp.with_udp_pcbs] in Hl'.
    injection Hl' as <- _. exact Hfull.
  - discriminate Hsame.
Defined.

Section UdpInputConnected.
Import Udp.
Context `{PcbMacros}.

(** A connected endpoint gets the datagram itself only from its peer:
    when [udp_input] hands the buffer it was given to the receive callback
    of an endpoint that has the CONNECTED flag, the source port of the
    datagram is the remote port of the endpoint, and its remote address is
    the source address or is any.  (A clone made for an endpoint that
    shares the port is passed on without this test.) *)
Theorem udp_input_connected_peer (pbuf_clone_ok : pcb_ptr -> bool)
        (pbuf_remove_header_fails : bool) (ipd : IpData) (p : PacketBuffer)
        (inp : NetIfc) (s s' : UdpState) (evs : list Event)
        (fn : recv_fn) (pcb : pcb_ptr) (from : IpAddr) (port : Z)
        (me : UdpPcb) :
  pcbs_ok s = true ->
  udp_input pbuf_clone_ok pbuf_remove_header_fails ipd p inp s
  = Some (s', evs) ->
  Recv fn pcb buf_p from port ∈ evs ->
  pcb_mem s !! pcb = Some me ->
  Z.land (flags me) UDP_FLAGS_CONNECTED <> 0 ->
  remote_port me = lwip_ntohs (src (udphdr p))
  /\ (is_ip_addr_any (remote_ip me)
      || compare_ip_addr (remote_ip me) (ip_current_src_addr ipd)) = true.
Proof.
  intros Hok Hrun Hin Hme Hcon.
  destruct (Z.ltb_spec (p_len p) UDP_HLEN) as [Hshort|Hlen].
  { unfold udp_input in Hrun.
    destruct (Z.ltb_spec (p_len p) UDP_HLEN) as [_|?]; [|lia].
    injection Hrun as <- <-. apply list_elem_of_singleton in Hin. done. }
  destruct (udp_input_run pbuf_clone_ok pbuf_remove_header_fails ipd p inp s
              Hok Hlen) as (found & uncon & l1 & _ & _ & Hpcb & _ & Heq).
  cbv zeta in Heq. rewrite Heq in Hrun. clear Heq. injection Hrun as <- <-.
  destruct (_ && _ && _) in Hin;
    [|apply list_elem_of_singleton in Hin; done].
  destruct (udp_input_pcb found uncon) as [pcb0|] eqn:Hp.
  - destruct (Hpcb pcb0 eq_refl) as (_ & [me0 Hme0] & Hmatch).
    apply elem_of_app in Hin as [Hin|Hin].
    + destruct (_ && _) in Hin; [|by apply elem_of_nil in Hin].
      apply copy_for_elem in Hin as (mpcb & m & fn' & Heq & _). done.
    + apply list_elem_of_singleton in Hin. rewrite Hme0 in Hin.
      cbn [fmap option_fmap option_map] in Hin.
      destruct (recv me0) as [fn'|]; [|done].
      injection Hin as -> -> -> ->.
      rewrite Hme in Hme0. injection Hme0 as <-.
      destruct Hmatch as [Hm|Hm].
      * unfold full_match in Hm. rewrite Hme in Hm.
        apply andb_true_iff in Hm as [_ Hm].
        apply andb_true_iff in Hm as [Hport Haddr].
        apply Z.eqb_eq in Hport. done.
      * unfold uncon_match in Hm. rewrite Hme in Hm.
        apply andb_true_iff in Hm as [_ Hm]. apply Z.eqb_eq in Hm. done.
  - apply elem_of_app in Hin as [Hin|Hin].
    + destruct (_ && _) in Hin; [|by apply elem_of_nil in Hin].
      by apply list_elem_of_singleton in Hin.
    + by apply list_elem_of_singleton in Hin.
Qed.
End UdpInputConnected.

(** The datagram [unicast_dgram] from 192.0.2.7, port 9, goes to endpoint
    2 of [server_and_peer], which is connected to that peer. *)
Lemma udp_input_connected_peer_witness :
  Udp.remote_port Scenarios.connected_pcb = 9
  /\ (Udp.is_ip_addr_any (Udp.remote_ip Scenarios.connected_pcb)
      || Udp.compare_ip_addr (Udp.remote_ip Scenarios.connected_pcb)
                             Scenarios.peer_addr) = true.
Proof.
  assert (Hrun : Udp.udp_input (fun _ => true) false Scenarios.unicast_ipd
                   Scenarios.unicast_dgram Host.eth0
                   Scenarios.server_and_peer
                 = Some (Udp.with_udp_pcbs Scenarios.server_and_peer
                           [2; 1]%positive,
                         [Udp.Recv 12%positive 2%positive Udp.buf_p
                                   (Host.v4 192 0 2 7) 9]))
    by reflexivity.
  apply (udp_input_connected_peer (fun _ => true) false
           Scenarios.unicast_ipd Scenarios.unicast_dgram Host.eth0
           Scenarios.server_and_peer _ _ 12%positive 2%positive
           (Host.v4 192 0 2 7) 9 Scenarios.connected_pcb eq_refl Hrun).
  - by left.
  - reflexivity.
  - discriminate.
Defined.

(** * The life cycle of an endpoint *)

Section UdpLifecycle.
Import Udp.
Context `{PcbMacros}.
Context `{!AddrOps}.

Lemma filter_other_id (pcb : pcb_ptr) l :
  pcb ∉ l -> List.filter (fun q => negb (Pos.eqb q pcb)) l = l.
Proof.
  induction l as [|q l IH]; [done|]. intros Hnin.
  apply not_elem_of_cons in Hnin as [Hne Hnin]. cbn [List.filter].
  destruct (Pos.eqb_spec q pcb) as [->|_]; [done|]. cbn [negb].
  by rewrite IH.
Qed.

Lemma filter_other_elem (pcb q : pcb_ptr) l :
  q ∈ List.filter (fun q => negb (Pos.eqb q pcb)) l <-> q ∈ l /\ q <> pcb.
Proof.
  rewrite !list_elem_of_In, filter_In, negb_true_iff, Pos.eqb_neq. done.
Qed.

(** The unlinking loop of [udp_remove] on a list without repetition whose
    head is another endpoint. *)
Lemma udp_remove_from_spec pcb l :
  forall head, head <> pcb -> NoDup (head :: l) ->
    udp_remove_from pcb (head :: l)
    = head :: List.filter (fun q => negb (Pos.eqb q pcb)) l.
Proof.
  induction l as [|next rest IH]; intros head Hne Hnd; [done|].
  cbn [udp_remove_from List.filter].
  apply NoDup_cons in Hnd as [_ Hnd].
  destruct (Pos.eqb_spec next pcb) as [->|Hne'].
  - cbn [negb]. apply NoDup_cons in Hnd as [Hnin _].
    by rewrite filter_other_id.
  - cbn [negb]. f_equal. by apply IH.
Qed.

(** [udp_remove] unlinks an allocated endpoint and deletes it: the other
    endpoints stay linked in their order and allocated, the endpoint
    itself is on the list no more, and the list stays well formed.  An
    endpoint that was not linked is deleted all the same. *)
Theorem udp_remove_unlinks (pcb : pcb_ptr) (s : UdpState) :
  pcbs_ok s = true ->
  is_Some (pcb_mem s !! pcb) ->
  exists s',
    udp_remove pcb s = Some s'
    /\ udp_pcbs s' = List.filter (fun q => negb (Pos.eqb q pcb)) (udp_pcbs s)
    /\ (pcb ∉ udp_pcbs s')
    /\ ((pcb ∉ udp_pcbs s) -> udp_pcbs s' = udp_pcbs s)
    /\ pcb_mem s' = delete pcb (pcb_mem s)
    /\ udp_port s' = udp_port s
    /\ pcbs_ok s' = true.
Proof.
  intros Hok [me Hme]. pose proof (pcbs_ok_NoDup s Hok) as Hnd.
  assert (Hl : match udp_pcbs s with
               | [] => []
               | head :: rest =>
                   if Pos.eqb head pcb then rest
                   else udp_remove_from pcb (head :: rest)
               end
               = List.filter (fun q => negb (Pos.eqb q pcb)) (udp_pcbs s)).
  { destruct (udp_pcbs s) as [|head rest]; [done|]. cbn [List.filter].
    destruct (Pos.eqb_spec head pcb) as [->|Hne]; cbn [negb].
    - apply NoDup_cons in Hnd as [Hnin _]. by rewrite filter_other_id.
    - by apply udp_remove_from_spec. }
  unfold udp_remove. rewrite Hme. cbn [mbind option_bind]. rewrite Hl.
  eexists. split; [reflexivity|]. cbn [udp_pcbs pcb_mem udp_port].
  split; [done|]. split.
  { intros Hin. apply filter_other_elem in Hin as [_ ?]. done. }
  split; [apply filter_other_id|]. split; [done|]. split; [done|].
  apply pcbs_ok_intro; cbn [udp_pcbs pcb_mem].
  - apply NoDup_ListNoDup, List.NoDup_filter, NoDup_ListNoDup. done.
  - intros q Hq. apply filter_other_elem in Hq as [Hq Hne].
    rewrite lookup_delete_ne by done. by apply pcbs_ok_lookup.
Qed.

(** The search for a port leaves the endpoints alone. *)
Lemma udp_new_port_again_frame fuel n s port s' :
  udp_new_port_again fuel n s = Some (port, s') ->
  udp_pcbs s' = udp_pcbs s /\ pcb_mem s' = pcb_mem s.
Proof.
  revert n s. induction fuel as [|fuel IH]; intros n s Hrun; [done|].
  rewrite udp_new_port_again_S in Hrun.
  destruct (port_taken (pcb_mem s) (udp_pcbs s) (udp_port_step (udp_port s)))
    as [[|]|]; cbn [mbind option_bind] in Hrun; [| |done].
  - destruct (u16 (n + 1) >? UDP_LOCAL_PORT_RANGE_END - UDP_LOCAL_PORT_RANGE_START).
    + by injection Hrun as _ <-.
    + by apply IH in Hrun.
  - by injection Hrun as _ <-.
Qed.

Lemma udp_new_port_frame s port s' :
  udp_new_port s = Some (port, s') ->
  udp_pcbs s' = udp_pcbs s /\ pcb_mem s' = pcb_mem s.
Proof. apply udp_new_port_again_frame. Qed.

(** What a bind leaves, whatever it was asked for: either ERR_USE and the
    endpoints as they were, or ERR_OK, the endpoint with its new local
    address and a port other than 0, and linked if it was not. *)
Lemma udp_bind_result pcb ipaddr port s err s1 :
  udp_bind pcb ipaddr port s = Some (err, s1) ->
  (err = ERR_USE /\ udp_pcbs s1 = udp_pcbs s /\ pcb_mem s1 = pcb_mem s)
  \/ (err = ERR_OK
      /\ exists me port',
           pcb_mem s !! pcb = Some me
           /\ port' <> 0 /\ (port <> 0 -> port' = port)
           /\ (port = 0 ->
               port_taken (pcb_mem s) (udp_pcbs s) port' = Some false)
           /\ udp_pcbs s1 = (if on_list pcb (udp_pcbs s) then udp_pcbs s
                             else pcb :: udp_pcbs s)
           /\ pcb_mem s1
              = <[pcb := set_local me (bind_addr ipaddr) port']> (pcb_mem s)).
Proof.
  unfold udp_bind. destruct (Z.eqb_spec port 0) as [->|Hport].
  - destruct (udp_new_port s) as [[port s0]|] eqn:Hnew; [|done].
    cbn [mbind option_bind].
    destruct (Z.eqb_spec port 0) as [->|Hport].
    + intros [= <- <-]. left. split; [done|].
      by apply (udp_new_port_frame s 0).
    + intros Hcommit.
      apply udp_new_port_free in Hnew as (Hl & Hm & Hfree); [|done].
      apply udp_bind_commit_ok in Hcommit as (me & Hme & -> & ->).
      rewrite Hl, Hm in *. right. split; [done|]. exists me, port.
      cbn [udp_pcbs pcb_mem]. done.
  - destruct (bind_clash _ _ _ _ _) as [[|]|]; cbn [mbind option_bind];
      [| |done].
    + intros [= <- <-]. by left.
    + intros Hcommit.
      apply udp_bind_commit_ok in Hcommit as (me & Hme & -> & ->).
      right. split; [done|]. exists me, port. cbn [udp_pcbs pcb_mem]. done.
Qed.

(** Binding an endpoint that is not linked yet and removing it again
    leaves the endpoint list as it was, with every other endpoint
    untouched; the endpoint itself is gone. *)
Theorem udp_bind_then_remove (pcb : pcb_ptr) (ipaddr : option IpAddr)
        (port : Z) (s s1 : UdpState) :
  pcbs_ok s = true ->
  pcb ∉ udp_pcbs s ->
  udp_bind pcb ipaddr port s = Some (ERR_OK, s1) ->
  exists s2,
    udp_remove pcb s1 = Some s2
    /\ udp_pcbs s2 = udp_pcbs s
    /\ pcb_mem s2 = delete pcb (pcb_mem s)
    /\ pcbs_ok s2 = true.
Proof.
  intros Hok Hnin Hbind.
  apply udp_bind_result in Hbind as [[? _]|(_ & me & port' & Hme & _ & _ & _
                                             & Hl & Hm)]; [done|].
  assert (Hoff : on_list pcb (udp_pcbs s) = false).
  { apply not_true_is_false. by rewrite on_list_elem_of. }
  rewrite Hoff in Hl.
  unfold udp_remove. rewrite Hm, Hl, lookup_insert_eq.
  cbn [mbind option_bind]. rewrite Pos.eqb_refl. eexists.
  split; [reflexivity|]. cbn [udp_pcbs pcb_mem].
  split; [done|]. split; [by rewrite delete_insert_eq|].
  apply pcbs_ok_intro; cbn [udp_pcbs pcb_mem].
  - by apply pcbs_ok_NoDup.
  - intros q Hq. rewrite delete_insert_eq.
    rewrite lookup_delete_ne by (intros ->; done).
    by apply pcbs_ok_lookup.
Qed.
End UdpLifecycle.

(** * Binding without conflicts *)

Section UdpBindConflicts.
Import Udp.
Context `{PcbMacros}.

Lemma no_conflict_spec s :
  no_conflict s = true
  <-> forall p q a b,
        p ∈ udp_pcbs s -> q ∈ udp_pcbs s -> p <> q ->
        pcb_mem s !! p = Some a -> pcb_mem s !! q = Some b ->
        clashes a b (local_ip a) (local_port a) = false.
Proof.
  unfold no_conflict. rewrite forallb_forall. split.
  - intros Hall p q a b Hp Hq Hne Ha Hb.
    apply list_elem_of_In in Hp, Hq. specialize (Hall p Hp).
    rewrite forallb_forall in Hall. specialize (Hall q Hq).
    rewrite Ha, Hb in Hall. destruct (Pos.eqb_spec p q) as [?|_]; [done|].
    by apply negb_true_iff in Hall.
  - intros Hall p Hp. apply forallb_forall. intros q Hq.
    apply list_elem_of_In in Hp, Hq.
    destruct (Pos.eqb_spec p q) as [?|Hne]; [done|]. cbn [orb].
    destruct (pcb_mem s !! p) as [a|] eqn:Ha; [|done].
    destruct (pcb_mem s !! q) as [b|] eqn:Hb; [|done].
    apply negb_true_iff. by apply (Hall p q).
Qed.

(** The second loop of [udp_bind] finds a clash exactly when another
    endpoint of the list clashes. *)
Lemma bind_clash_spec mem pcb me ipaddr port l :
  mem !! pcb = Some me ->
  (forall q, q ∈ l -> is_Some (mem !! q)) ->
  exists b,
    bind_clash mem pcb ipaddr port l = Some b
    /\ (b = true
        <-> exists q other,
              q ∈ l /\ q <> pcb /\ mem !! q = Some other
              /\ clashes me other ipaddr port = true).
Proof.
  intros Hme. induction l as [|ipcb l IH]; intros Hall.
  - exists false. split; [done|]. split; [done|].
    intros (q & ? & Hq & _). by apply elem_of_nil in Hq.
  - destruct IH as (b & Hb & Hiff); [intros q Hq; apply Hall; by right|].
    cbn [bind_clash]. destruct (Pos.eqb_spec pcb ipcb) as [<-|Hne].
    + exists b. split; [done|]. rewrite Hiff. split.
      * intros (q & other & Hq & ?). exists q, other. split; [by right|done].
      * intros (q & other & Hq & Hqne & ?).
        apply elem_of_cons in Hq as [->|Hq]; [done|]. by exists q, other.
    + rewrite Hme. destruct (Hall ipcb) as [other Ho]; [by left|].
      rewrite Ho. cbn [mbind option_bind].
      fold (clashes me other ipaddr port).
      destruct (clashes me other ipaddr port) eqn:Hc.
      * exists true. split; [done|]. split; [|done]. intros _.
        exists ipcb, other. split; [by left|]. done.
      * exists b. split; [done|]. rewrite Hiff. split.
        -- intros (q & o & Hq & ?). exists q, o. split; [by right|done].
        -- intros (q & o & Hq & Hqne & Hqo & Hcl).
           apply elem_of_cons in Hq as [->|Hq]; [congruence|].
           by exists q, o.
Qed.

(** A bind to a given port fails with ERR_USE exactly when another
    endpoint of the list has the port on the same address, or with one of
    the two addresses any, and REUSEADDR is not set on both; the state is
    then as before.  Otherwise the bind succeeds. *)
Theorem udp_bind_in_use (pcb : pcb_ptr) (me : UdpPcb)
        (ipaddr : option IpAddr) (port : Z) (s : UdpState) :
  pcbs_ok s = true ->
  pcb_mem s !! pcb = Some me ->
  port <> 0 ->
  exists err s1,
    udp_bind pcb ipaddr port s = Some (err, s1)
    /\ (err = ERR_USE \/ err = ERR_OK)
    /\ (err = ERR_USE
        <-> exists q other,
              q ∈ udp_pcbs s /\ q <> pcb /\ pcb_mem s !! q = Some other
              /\ clashes me other (bind_addr ipaddr) port = true)
    /\ (err = ERR_USE -> s1 = s).
Proof.
  intros Hok Hme Hport.
  destruct (bind_clash_spec (pcb_mem s) pcb me (bind_addr ipaddr) port
              (udp_pcbs s) Hme) as (b & Hb & Hiff).
  { intros q. by apply pcbs_ok_lookup. }
  unfold udp_bind. destruct (Z.eqb_spec port 0) as [?|_]; [done|].
  rewrite Hb. cbn [mbind option_bind]. destruct b.
  - exists ERR_USE, s. split; [done|]. split; [by left|].
    split; [|done]. split; [intros _; by apply Hiff|done].
  - unfold udp_bind_commit. rewrite Hme. cbn [mbind option_bind].
    eexists ERR_OK, _. split; [reflexivity|]. split; [by right|].
    split; [|done]. split; [done|]. intros Hex. apply Hiff in Hex. done.
Qed.

(** The clash test does not depend on which of the two endpoints asks,
    where the comparison of addresses is symmetric. *)
Lemma clashes_sym (a b : UdpPcb) :
  (forall x y, compare_ip_addr x y = compare_ip_addr y x) ->
  clashes a b (local_ip a) (local_port a)
  = clashes b a (local_ip b) (local_port b).
Proof.
  intros Hsym. unfold clashes.
  rewrite (orb_comm (negb (ip_get_option a SOF_REUSEADDR))).
  rewrite (Z.eqb_sym (local_port b)), (Hsym (local_ip b)).
  f_equal. f_equal. rewrite <- !orb_assoc. f_equal. apply orb_comm.
Qed.

(** [udp_bind] keeps the endpoint list well formed and free of conflicts,
    whether it binds to a given port or chooses one, and whether it
    succeeds or not. *)
Theorem udp_bind_keeps_no_conflict (pcb : pcb_ptr) (ipaddr : option IpAddr)
        (port : Z) (s s1 : UdpState) (err : LwipStatus) :
  (forall x y, compare_ip_addr x y = compare_ip_addr y x) ->
  pcbs_ok s = true ->
  no_conflict s = true ->
  udp_bind pcb ipaddr port s = Some (err, s1) ->
  pcbs_ok s1 = true /\ no_conflict s1 = true.
Proof.
  intros Hsym Hok Hfree Hbind. pose proof Hbind as Hres.
  apply udp_bind_result in Hres
    as [(_ & Hl & Hm)|(Herr & me & port' & Hme & Hp0 & Hsame & Hnew & Hl & Hm)].
  { split.
    - apply pcbs_ok_intro; rewrite ?Hl, ?Hm; [by apply pcbs_ok_NoDup|].
      intros q. by apply pcbs_ok_lookup.
    - rewrite no_conflict_spec in Hfree |- *. rewrite Hl, Hm. done. }
  assert (Hin1 : forall q, q ∈ udp_pcbs s1 -> q = pcb \/ q ∈ udp_pcbs s).
  { intros q Hq. rewrite Hl in Hq.
    destruct (on_list pcb (udp_pcbs s)); [by right|].
    apply elem_of_cons in Hq as [?|?]; [by left|by right]. }
  split.
  - apply pcbs_ok_intro.
    + rewrite Hl. destruct (on_list pcb (udp_pcbs s)) eqn:Hon;
        [by apply pcbs_ok_NoDup|].
      apply NoDup_cons. split; [|by apply pcbs_ok_NoDup].
      intros Hin. apply on_list_elem_of in Hin. congruence.
    + intros q Hq. rewrite Hm. destruct (decide (q = pcb)) as [->|Hne].
      * rewrite lookup_insert_eq. by eauto.
      * rewrite lookup_insert_ne by done.
        destruct (Hin1 q Hq) as [?|?]; [done|]. by apply pcbs_ok_lookup.
  - (* the new binding clashes with no other endpoint *)
    assert (Hnoclash : forall q other,
               q ∈ udp_pcbs s -> q <> pcb -> pcb_mem s !! q = Some other ->
               clashes me other (bind_addr ipaddr) port' = false).
    { intros q other Hq Hne Ho.
      destruct (Z.eqb_spec port 0) as [->|Hport].
      - specialize (Hnew eq_refl).
        destruct (port_taken_spec (pcb_mem s) (udp_pcbs s) port')
          as (b & Hb & Hiff); [intros r; by apply pcbs_ok_lookup|].
        rewrite Hnew in Hb. injection Hb as <-.
        unfold clashes. destruct (Z.eqb_spec (local_port other) port')
          as [Heq|_]; [|by rewrite andb_false_r].
        exfalso. assert (false = true); [|done].
        apply Hiff. by exists q, other.
      - rewrite (Hsame Hport).
        destruct (bind_clash_spec (pcb_mem s) pcb me (bind_addr ipaddr) port
                    (udp_pcbs s) Hme) as (b & Hb & Hiff).
        { intros r. by apply pcbs_ok_lookup. }
        unfold udp_bind in Hbind.
        destruct (Z.eqb_spec port 0) as [?|_]; [done|].
        rewrite Hb in Hbind. cbn [mbind option_bind] in Hbind.
        destruct b.
        + injection Hbind as <- <-. done.
        + apply not_true_is_false. intros Hc.
          assert (false = true); [|done]. apply Hiff. by exists q, other. }
    apply no_conflict_spec. rewrite no_conflict_spec in Hfree.
    intros p q a b Hp Hq Hne Ha Hb. rewrite Hm in Ha, Hb.
    destruct (decide (p = pcb)) as [->|Hpne];
      destruct (decide (q = pcb)) as [->|Hqne]; [done| | |].
    + rewrite lookup_insert_eq in Ha. rewrite lookup_insert_ne in Hb by done.
      injection Ha as <-. cbn [set_local local_ip local_port].
      destruct (Hin1 q Hq) as [?|Hq']; [done|].
      specialize (Hnoclash q b Hq' Hqne Hb). unfold clashes in *.
      cbn [ip_get_option so_options set_local] in *. done.
    + rewrite lookup_insert_eq in Hb. rewrite lookup_insert_ne in Ha by done.
      injection Hb as <-. rewrite (clashes_sym _ _ Hsym).
      cbn [set_local local_ip local_port].
      destruct (Hin1 p Hp) as [?|Hp']; [done|].
      specialize (Hnoclash p a Hp' Hpne Ha). unfold clashes in *.
      cbn [ip_get_option so_options set_local] in *. done.
    + rewrite lookup_insert_ne in Ha, Hb by done.
      destruct (Hin1 p Hp) as [?|Hp']; [done|].
      destruct (Hin1 q Hq) as [?|Hq']; [done|].
      by apply (Hfree p q).
Qed.
End UdpBindConflicts.

(** * Connecting and disconnecting *)

Section UdpConnect.
Import Udp.
Context `{PcbMacros}.
Context `{!AddrOps}.

(** A bind to port 0 of an allocated endpoint returns. *)
Lemma udp_bind_port_0_total pcb ipaddr s :
  pcbs_ok s = true -> udp_port_ok s = true -> is_Some (pcb_mem s !! pcb) ->
  exists err s1, udp_bind pcb ipaddr 0 s = Some (err, s1).
Proof.
  intros Hok Hport [me Hme].
  destruct (udp_new_port_spec s Hok Hport)
    as (port & s0 & Hrun & _ & Hm & _).
  unfold udp_bind. rewrite Z.eqb_refl, Hrun. cbn [mbind option_bind].
  destruct (port =? 0); [by eauto|].
  unfold udp_bind_commit. rewrite Hm, Hme. cbn [mbind option_bind].
  by eauto.
Qed.

(** A bind to port 0 fails exactly when the range is exhausted. *)
Lemma udp_bind_port_0_status pcb ipaddr s err s1 :
  pcbs_ok s = true -> udp_port_ok s = true ->
  udp_bind pcb ipaddr 0 s = Some (err, s1) ->
  (err = ERR_USE <-> ports_exhausted s).
Proof.
  intros Hok Hport. unfold udp_bind. rewrite Z.eqb_refl.
  destruct (udp_new_port_spec s Hok Hport)
    as (port & s0 & Hrun & _ & _ & _ & _ & Hfull).
  rewrite Hrun. cbn [mbind option_bind].
  destruct (Z.eqb_spec port 0) as [Hz|Hnz].
  - intros [= <- <-]. split; [intros _|done].
    rewrite Hz in Hrun. exact (udp_new_port_full s s0 Hok Hport Hrun).
  - unfold udp_bind_commit. destruct (pcb_mem s0 !! pcb); [|done].
    cbn [mbind option_bind]. intros [= <- <-].
    split; [done|]. intros Hall. by apply Hfull in Hall.
Qed.

(** [udp_connect] on an allocated endpoint.  It fails exactly when the
    endpoint has no local port and every port of the dynamic range is the
    local port of an endpoint of the list; the status is then ERR_USE and
    the endpoints are as they were.  Otherwise it returns ERR_OK: the
    endpoint has the remote port asked for, the remote address asked for
    (as it is, unless it is an IPv6 address that lacks its zone), the
    CONNECTED flag and a local port other than 0, its local address and
    port being kept if it had a port; it is on the list, which is well
    formed and has no other new member, and the other endpoints are
    untouched. *)
Theorem udp_connect_result (pcb : pcb_ptr) (ipaddr : IpAddr) (port : Z)
        (s : UdpState) (me : UdpPcb) :
  pcbs_ok s = true ->
  udp_port_ok s = true ->
  pcb_mem s !! pcb = Some me ->
  exists err s',
    udp_connect pcb ipaddr port s = Some (err, s')
    /\ (err = ERR_USE <-> local_port me = 0 /\ ports_exhausted s)
    /\ ((err = ERR_USE /\ local_port me = 0
         /\ udp_pcbs s' = udp_pcbs s /\ pcb_mem s' = pcb_mem s)
        \/ (err = ERR_OK
            /\ pcbs_ok s' = true
            /\ pcb ∈ udp_pcbs s'
            /\ (forall q, q ∈ udp_pcbs s' -> q = pcb \/ q ∈ udp_pcbs s)
            /\ (forall q, q ∈ udp_pcbs s -> q ∈ udp_pcbs s')
            /\ (forall q, q <> pcb -> pcb_mem s' !! q = pcb_mem s !! q)
            /\ exists me',
                 pcb_mem s' !! pcb = Some me'
                 /\ remote_port me' = port
                 /\ Z.testbit (flags me') 2 = true
                 /\ local_port me' <> 0
                 /\ (local_port me <> 0 ->
                     local_port me' = local_port me
                     /\ local_ip me' = local_ip me)
                 /\ (IP_IS_V6 ipaddr
                     && ip6_addr_lacks_zone (ip_2_ip6 ipaddr) IP6_UNKNOWN
                     = false ->
                     remote_ip me' = ipaddr)
                 /\ so_options me' = so_options me
                 /\ recv me' = recv me)).
Proof.
  intros Hok Hport Hme.
  (* the state after the bind, if one is made *)
  assert (Hbound : exists err s1,
             (if local_port me =? 0
              then udp_bind pcb (Some (local_ip me)) (local_port me) s
              else Some (ERR_OK, s)) = Some (err, s1)
             /\ (err = ERR_USE <-> local_port me = 0 /\ ports_exhausted s)
             /\ ((err = ERR_USE /\ local_port me = 0
                  /\ udp_pcbs s1 = udp_pcbs s /\ pcb_mem s1 = pcb_mem s)
                 \/ (err = ERR_OK
                     /\ exists me1,
                          pcb_mem s1 = <[pcb := me1]> (pcb_mem s)
                          /\ local_port me1 <> 0
                          /\ (local_port me <> 0 -> me1 = me)
                          /\ flags me1 = flags me
                          /\ so_options me1 = so_options me
                          /\ recv me1 = recv me
                          /\ udp_pcbs s1
                             = (if on_list pcb (udp_pcbs s)
                                   || negb (local_port me =? 0)
                                then udp_pcbs s else pcb :: udp_pcbs s)))).
  { destruct (Z.eqb_spec (local_port me) 0) as [Hz|Hnz].
    - rewrite Hz.
      destruct (udp_bind_port_0_total pcb (Some (local_ip me)) s Hok Hport)
        as (err & s1 & Hrun); [by eauto|].
      exists err, s1. split; [done|].
      split.
      { rewrite (udp_bind_port_0_status _ _ _ _ _ Hok Hport Hrun).
        split; [done|]. by intros [_ ?]. }
      apply udp_bind_result in Hrun
        as [(-> & Hl & Hm)|(-> & me0 & port' & Hme0 & Hp0 & _ & _ & Hl & Hm)].
      + by left.
      + right. split; [done|]. rewrite Hme in Hme0. injection Hme0 as <-.
        eexists. split; [exact Hm|]. cbn [set_local local_port flags
                                          so_options recv].
        split; [done|]. split; [done|]. split; [done|]. split; [done|].
        split; [done|]. by rewrite orb_false_r.
    - exists ERR_OK, s. split; [done|].
      split; [split; [done|by intros [? _]]|].
      right. split; [done|].
      exists me. split; [by rewrite insert_id|]. split; [done|].
      split; [done|]. split; [done|]. split; [done|]. split; [done|].
      by rewrite orb_true_r. }
  destruct Hbound as (err & s1 & Hrun & Hiff & Hcases).
  unfold udp_connect. rewrite Hme. cbn [mbind option_bind]. rewrite Hrun.
  cbn [mbind option_bind].
  destruct Hcases as [(-> & Hz & Hl & Hm)
                     |(-> & me1 & Hm & Hp1 & Hsame & Hfl & Hopt & Hrecv & Hl)].
  { exists ERR_USE, s1. split; [done|]. split; [done|]. by left. }
  destruct s1 as [port1 l1 m1]. cbn [udp_pcbs pcb_mem] in Hl, Hm. subst m1.
  rewrite bool_decide_eq_true_2 by done. cbn [negb pcb_mem].
  rewrite lookup_insert_eq. cbn [mbind option_bind]. cbv zeta.
  eexists ERR_OK, _. split; [reflexivity|]. split; [exact Hiff|].
  right. split; [done|].
  unfold with_pcb, with_udp_pcbs. cbn [udp_pcbs pcb_mem udp_port].
  rewrite insert_insert_eq.
  assert (HL1 : NoDup l1
                /\ (forall q, q ∈ l1 -> q = pcb \/ q ∈ udp_pcbs s)
                /\ (forall q, q ∈ udp_pcbs s -> q ∈ l1)).
  { subst l1. destruct (on_list pcb (udp_pcbs s) || _) eqn:E.
    - split; [by apply pcbs_ok_NoDup|]. split; [by right|done].
    - apply orb_false_iff in E as [Hoff _]. split.
      { apply NoDup_cons. split; [|by apply pcbs_ok_NoDup].
        rewrite <- on_list_elem_of. congruence. }
      split.
      + intros q Hq. apply elem_of_cons in Hq as [?|?]; by eauto.
      + intros q Hq. by right. }
  destruct HL1 as (Hnd1 & Hfrom & Hto). clear Hl.
  match goal with
  | |- context [<[pcb := ?m]> (pcb_mem s)] => set (me' := m)
  end.
  assert (Hshape : forall lf,
             NoDup lf -> pcb ∈ lf ->
             (forall q, q ∈ lf -> q = pcb \/ q ∈ udp_pcbs s) ->
             (forall q, q ∈ udp_pcbs s -> q ∈ lf) ->
             pcbs_ok (mkUdpState port1 lf (<[pcb := me']> (pcb_mem s))) = true
             /\ pcb ∈ lf
             /\ (forall q, q ∈ lf -> q = pcb \/ q ∈ udp_pcbs s)
             /\ (forall q, q ∈ udp_pcbs s -> q ∈ lf)
             /\ (forall q, q <> pcb ->
                   <[pcb := me']> (pcb_mem s) !! q = pcb_mem s !! q)
             /\ exists me'0,
                  <[pcb := me']> (pcb_mem s) !! pcb = Some me'0
                  /\ remote_port me'0 = port
                  /\ Z.testbit (flags me'0) 2 = true
                  /\ local_port me'0 <> 0
                  /\ (local_port me <> 0 ->
                      local_port me'0 = local_port me
                      /\ local_ip me'0 = local_ip me)
                  /\ (IP_IS_V6 ipaddr
                      && ip6_addr_lacks_zone (ip_2_ip6 ipaddr) IP6_UNKNOWN
                      = false ->
                      remote_ip me'0 = ipaddr)
                  /\ so_options me'0 = so_options me
                  /\ recv me'0 = recv me).
  { intros lf Hnd Hin Hf Ht. split.
    { apply pcbs_ok_intro; cbn [udp_pcbs pcb_mem]; [done|].
      intros q Hq. destruct (decide (q = pcb)) as [->|Hne].
      - rewrite lookup_insert_eq. by eauto.
      - rewrite lookup_insert_ne by done.
        destruct (Hf q Hq) as [?|?]; [done|]. by apply pcbs_ok_lookup. }
    split; [done|]. split; [done|]. split; [done|].
    split; [intros q Hne; by rewrite lookup_insert_ne|].
    exists me'. split; [by rewrite lookup_insert_eq|]. subst me'.
    cbn [set_flags set_remote remote_port flags local_port local_ip
         remote_ip so_options recv].
    split; [done|]. split.
    { rewrite Z.lor_spec. by rewrite orb_true_r. }
    split; [done|]. split; [intros Hnz; by rewrite (Hsame Hnz)|].
    split; [intros Hz; by rewrite Hz|]. done. }
  destruct (on_list pcb l1) eqn:Hon1; cbn [udp_pcbs pcb_mem].
  - apply Hshape; [done| |done|done]. by apply on_list_elem_of.
  - apply Hshape.
    + apply NoDup_cons. split; [|done]. rewrite <- on_list_elem_of. congruence.
    + by left.
    + intros q Hq. apply elem_of_cons in Hq as [?|?]; [by left|by apply Hfrom].
    + intros q Hq. right. by apply Hto.
Qed.

(** [udp_disconnect] on an allocated endpoint resets the remote port and
    the interface binding, and clears the CONNECTED flag, leaving the other
    flags; the local address and port, the options and the callback of the
    endpoint, the endpoint list and the other endpoints stay as they
    are. *)
Theorem udp_disconnect_result (pcb : pcb_ptr) (s : UdpState) (me : UdpPcb) :
  pcb_mem s !! pcb = Some me ->
  exists me',
    udp_disconnect pcb s
    = Some (mkUdpState (udp_port s) (udp_pcbs s)
                       (<[pcb := me']> (pcb_mem s)))
    /\ remote_port me' = 0
    /\ netif_idx me' = NETIF_NO_INDEX
    /\ flags me' = Z.land (flags me) 0xfb
    /\ Z.land (flags me') UDP_FLAGS_CONNECTED = 0
    /\ local_ip me' = local_ip me
    /\ local_port me' = local_port me
    /\ so_options me' = so_options me
    /\ recv me' = recv me.
Proof.
  intros Hme. unfold udp_disconnect. rewrite Hme. cbn [mbind option_bind].
  eexists. split; [reflexivity|].
  cbn [set_flags set_netif_idx set_remote remote_port netif_idx flags
       local_ip local_port so_options recv].
  assert (Hclr : udp_clear_flags (flags me) UDP_FLAGS_CONNECTED
                 = Z.land (flags me) 0xfb).
  { unfold udp_clear_flags, u8.
    change (Z.land (Z.lnot UDP_FLAGS_CONNECTED) 255) with 251.
    change (2 ^ 8) with (2 ^ 8). rewrite <- Z.land_ones by lia.
    rewrite <- Z.land_assoc. done. }
  rewrite Hclr. split; [done|]. split; [done|]. split; [done|].
  split; [|done]. rewrite <- Z.land_assoc. apply Z.land_0_r.
Qed.
End UdpConnect.

(** Endpoint 2 of [bound_pair] is removed: endpoint 1 stays alone. *)
Lemma udp_remove_unlinks_witness :
  exists s',
    Udp.udp_remove 2%positive Scenarios.bound_pair = Some s'
    /\ Udp.udp_pcbs s' = [1%positive]
    /\ Udp.pcb_mem s' !! 2%positive = None
    /\ pcbs_ok s' = true.
Proof.
  destruct (udp_remove_unlinks (H := Host.platform) 2%positive Scenarios.bound_pair eq_refl
              ltac:(eexists; reflexivity))
    as (s' & Hrun & Hl & _ & _ & Hm & _ & Hok).
  exists s'. split; [exact Hrun|]. split; [exact Hl|].
  split; [|exact Hok]. rewrite Hm. apply lookup_delete_eq.
Defined.

(** Endpoint 3 is bound to 192.0.2.3, port 6000, and removed again. *)
Lemma udp_bind_then_remove_witness :
  exists s2,
    Udp.udp_remove 3%positive Scenarios.bound_triple = Some s2
    /\ Udp.udp_pcbs s2 = [2; 1]%positive
    /\ Udp.pcb_mem s2 = delete 3%positive (Udp.pcb_mem Scenarios.bound_pair)
    /\ pcbs_ok s2 = true.
Proof.
  apply (udp_bind_then_remove (H := Host.platform) 3%positive (Some (Host.v4 192 0 2 3)) 6000
           Scenarios.bound_pair Scenarios.bound_triple eq_refl).
  - intros Hin. apply elem_of_cons in Hin as [?|Hin]; [done|].
    apply list_elem_of_singleton in Hin. done.
  - reflexivity.
Defined.

(** Endpoint 3 asks for port 5000, which endpoint 2 holds on the any
    address without REUSEADDR. *)
Lemma udp_bind_in_use_witness :
  exists err s1,
    Udp.udp_bind 3%positive None 5000 Scenarios.bound_pair = Some (err, s1)
    /\ (err = ERR_USE \/ err = ERR_OK)
    /\ (err = ERR_USE
        <-> exists q other,
              q ∈ [2; 1]%positive /\ q <> 3%positive
              /\ Udp.pcb_mem Scenarios.bound_pair !! q = Some other
              /\ clashes (Host.new_pcb (Host.v4 0 0 0 0)) other
                         (Udp.bind_addr None) 5000 = true)
    /\ (err = ERR_USE -> s1 = Scenarios.bound_pair).
Proof.
  apply (udp_bind_in_use (H := Host.platform) 3%positive (Host.new_pcb (Host.v4 0 0 0 0)) None 5000
           Scenarios.bound_pair eq_refl eq_refl).
  lia.
Defined.

(** The bind of endpoint 3 to 192.0.2.3, port 6000, on the platform of
    the scenarios, whose address comparison is symmetric. *)
Lemma udp_bind_keeps_no_conflict_witness :
  pcbs_ok Scenarios.bound_triple = true
  /\ no_conflict Scenarios.bound_triple = true.
Proof.
  apply (udp_bind_keeps_no_conflict (H := Host.platform) 3%positive (Some (Host.v4 192 0 2 3)) 6000
           Scenarios.bound_pair Scenarios.bound_triple ERR_OK).
  - intros x y. destruct x as [a|a|], y as [b|b|]; try reflexivity.
    + apply Z.eqb_sym.
    + cbn. unfold Host.ip6_eqb.
      rewrite (Z.eqb_sym (addr_0 a)), (Z.eqb_sym (addr_1 a)),
        (Z.eqb_sym (addr_2 a)), (Z.eqb_sym (addr_3 a)), (Z.eqb_sym (zone a)).
      reflexivity.
  - reflexivity.
  - reflexivity.
  - reflexivity.
Defined.

(** Endpoint 3 of [bound_pair], which has no local port, is connected to
    192.0.2.7, port 9: port 50000 is free, so the connect succeeds. *)
Lemma udp_connect_result_witness :
  exists s',
    Udp.udp_connect 3%positive (Host.v4 192 0 2 7) 9 Scenarios.bound_pair
    = Some (ERR_OK, s')
    /\ pcbs_ok s' = true /\ 3%positive ∈ Udp.udp_pcbs s'.
Proof.
  destruct (udp_connect_result (H := Host.platform) 3%positive (Host.v4 192 0 2 7) 9
              Scenarios.bound_pair (Host.new_pcb (Host.v4 0 0 0 0))
              eq_refl eq_refl eq_refl)
    as (err & s' & Hrun & Hiff & [(Herr & _)|(Herr & Hok & Hin & _)]).
  - destruct (proj1 Hiff Herr) as [_ Hfull].
    destruct (Hfull 50000) as (p & Hp & pcb & Hpcb & Hlp).
    { unfold Udp.UDP_LOCAL_PORT_RANGE_START, Udp.UDP_LOCAL_PORT_RANGE_END.
      lia. }
    apply elem_of_cons in Hp as [-> | Hp].
    + injection Hpcb as <-. discriminate Hlp.
    + apply list_elem_of_singleton in Hp as ->.
      injection Hpcb as <-. discriminate Hlp.
  - exists s'. rewrite <- Herr. split; [exact Hrun|].
    split; [exact Hok|exact Hin].
Defined.

(** Endpoint 2 of [server_and_peer] is disconnected. *)
Lemma udp_disconnect_result_witness :
  exists me',
    Udp.udp_disconnect 2%positive Scenarios.server_and_peer
    = Some (Udp.mkUdpState (Udp.udp_port Scenarios.server_and_peer)
              [1; 2]%positive
              (<[2%positive := me']> (Udp.pcb_mem Scenarios.server_and_peer)))
    /\ Udp.remote_port me' = 0
    /\ Udp.flags me' = 0
    /\ Udp.local_port me' = 5000.
Proof.
  destruct (udp_disconnect_result (H := Host.platform) 2%positive Scenarios.server_and_peer
              Scenarios.connected_pcb eq_refl)
    as (me' & Hrun & Hport & _ & Hfl & _ & _ & Hlp & _).
  exists me'. split; [exact Hrun|]. split; [exact Hport|].
  split; [exact Hfl|exact Hlp].
Defined.

(** The two runs on the platform of the scenarios: the connect binds
    endpoint 3 to the first free port, 49154, and links it. *)
Example udp_connect_then_disconnect_run :
  Udp.udp_connect 3%positive (Host.v4 192 0 2 7) 9 Scenarios.bound_pair
  = Some (ERR_OK,
          Udp.mkUdpState 49154 [3; 2; 1]%positive
            (<[3%positive :=
                 Udp.mkUdpPcb (Host.v4 0 0 0 0) (Host.v4 192 0 2 7)
                   Udp.NETIF_NO_INDEX 0 0 255 Udp.UDP_FLAGS_CONNECTED 49154 9
                   255 0 None]>
               (Udp.pcb_mem Scenarios.bound_pair)))
  /\ (s ← snd <$> Udp.udp_connect 3%positive (Host.v4 192 0 2 7) 9
                    Scenarios.bound_pair;
      Udp.udp_disconnect 3%positive s)
     = Some (Udp.mkUdpState 49154 [3; 2; 1]%positive
               (<[3%positive :=
                    Udp.mkUdpPcb (Host.v4 0 0 0 0) (Host.v4 0 0 0 0)
                      Udp.NETIF_NO_INDEX 0 0 255 0 49154 0 255 0 None]>
                  (Udp.pcb_mem Scenarios.bound_pair))).
Proof. split; reflexivity. Qed.

(** * The datagram handed to the IP layer *)

Section UdpSendDatagram.
Import Udp.
Context `{PcbMacros}.

(** The two branches fill in the length and the checksum members, and
    nothing else of the buffer. *)
Lemma udp_send_udp_frame me q dst_ip netif have_chksum chksum_arg src_ip :
  let q' := udp_send_udp me q dst_ip netif have_chksum chksum_arg src_ip in
  src (udphdr q') = src (udphdr q) /\ dest (udphdr q') = dest (udphdr q)
  /\ len (udphdr q') = lwip_htons (tot_len q)
  /\ tot_len q' = tot_len q /\ p_len q' = p_len q
  /\ pbuf_flags q' = pbuf_flags q /\ data q' = data q.
Proof.
  unfold udp_send_udp. destruct (is_netif_checksum_enabled _ _); [|done].
  destruct (_ || _); done.
Qed.

Lemma udp_send_udplite_frame me q dst_ip netif have_chksum chksum_arg src_ip :
  let q' := udp_send_udplite me q dst_ip netif have_chksum chksum_arg src_ip in
  src (udphdr q') = src (udphdr q) /\ dest (udphdr q') = dest (udphdr q)
  /\ len (udphdr q')
     = lwip_htons (if (chksum_len_tx me <? 8) || (chksum_len_tx me >? tot_len q)
                   then 0 else chksum_len_tx me)
  /\ tot_len q' = tot_len q /\ p_len q' = p_len q
  /\ pbuf_flags q' = pbuf_flags q /\ data q' = data q.
Proof.
  unfold udp_send_udplite. destruct (is_netif_checksum_enabled _ _); done.
Qed.

(** The steps [udp_sendto_if_src_chksum] has taken when it hands a
    datagram to the IP layer. *)
Lemma udp_sendto_sent env pcb p dst_ip dst_port netif have_chksum chksum_arg
      src_ip s err s' out :
  udp_sendto_if_src_chksum env pcb p dst_ip dst_port netif have_chksum
                           chksum_arg src_ip s = Some (err, s', Some out) ->
  exists me0 me q0,
    pcb_mem s !! pcb = Some me0
    /\ match_ip_addr_pcb_version me0 src_ip = true
    /\ match_ip_addr_pcb_version me0 dst_ip = true
    /\ negb (ip_get_option me0 SOF_BROADCAST)
       && IP_IS_V4 dst_ip && ip_addr_isbroadcast dst_ip netif = false
    /\ (if local_port me0 =? 0
        then udp_bind pcb (Some (local_ip me0)) (local_port me0) s
        else Some (ERR_OK, s)) = Some (ERR_OK, s')
    /\ pcb_mem s' !! pcb = Some me
    /\ (u16 (tot_len p + UDP_HLEN) <? tot_len p) = false
    /\ udp_send_q env p = Some q0
    /\ err = ip_output_status env
    /\ out
       = let q :=
           with_hdr q0 (mkUdpHdr (lwip_htons (local_port me))
                                 (lwip_htons dst_port)
                                 (len (udphdr q0)) 0x0000) in
         let q :=
           if negb (Z.land (flags me) UDP_FLAGS_MULTICAST_LOOP =? 0)
              && ip_addr_ismulticast dst_ip
           then with_pbuf_flags q (Z.lor (pbuf_flags q) PBUF_FLAG_MCASTLOOP)
           else q in
         let udplite := negb (Z.land (flags me) UDP_FLAGS_UDPLITE =? 0) in
         mkIpOutput
           (if udplite
            then udp_send_udplite me q dst_ip netif have_chksum chksum_arg
                                  src_ip
            else udp_send_udp me q dst_ip netif have_chksum chksum_arg src_ip)
           src_ip dst_ip
           (if ip_addr_ismulticast dst_ip
            then udp_get_multicast_ttl me else ttl me)
           (tos me)
           (if udplite then IP_PROTO_UDPLITE else IP_PROTO_UDP)
           netif.
Proof.
  unfold udp_sendto_if_src_chksum.
  destruct (pcb_mem s !! pcb) as [me0|]; [|done]. cbn [mbind option_bind].
  destruct (match_ip_addr_pcb_version me0 src_ip) eqn:Hsv; [|done].
  destruct (match_ip_addr_pcb_version me0 dst_ip) eqn:Hdv; [|done].
  cbn [negb orb].
  destruct (_ && _ && _) eqn:Hbc; [done|].
  destruct (if local_port me0 =? 0 then _ else _) as [[err1 s1]|] eqn:Hbind;
    [|done].
  cbn [mbind option_bind].
  destruct (bool_decide_reflect (err1 = ERR_OK)) as [->|?]; cbn [negb];
    [|discriminate].
  destruct (pcb_mem s1 !! pcb) as [me|] eqn:Hme; [|done].
  cbn [mbind option_bind].
  destruct (_ <? _) eqn:Hov; [discriminate|].
  destruct (udp_send_q env p) as [q0|] eqn:Hq; [|discriminate].
  intros [= <- <- <-]. exists me0, me, q0. done.
Qed.

(** Every datagram that reaches the IP layer carries the local port of
    the sending endpoint, which is not 0, as source port, the port asked
    for as destination port, and a length of 8 plus that of the payload;
    its length member is that length for UDP and the checksum coverage for
    UDP-Lite (0 for a coverage that is not legal).  The protocol number
    follows the UDP-Lite flag, the TTL is the multicast TTL for a multicast
    destination and the TTL of the endpoint otherwise, and addresses,
    interface and type of service are passed on as given.  The status
    returned is the one of the IP layer. *)
Theorem udp_sendto_datagram (env : SendEnv) (pcb : pcb_ptr)
        (p : PacketBuffer) (dst_ip : IpAddr) (dst_port : Z) (netif : NetIfc)
        (have_chksum : bool) (chksum_arg : Z) (src_ip : IpAddr)
        (s s' : UdpState) (err : LwipStatus) (out : IpOutput) :
  0 <= tot_len p < 2 ^ 16 ->
  udp_sendto_if_src_chksum env pcb p dst_ip dst_port netif have_chksum
                           chksum_arg src_ip s = Some (err, s', Some out) ->
  exists me,
    pcb_mem s' !! pcb = Some me
    /\ local_port me <> 0
    /\ err = ip_output_status env
    /\ src (udphdr (out_q out)) = lwip_htons (local_port me)
    /\ dest (udphdr (out_q out)) = lwip_htons dst_port
    /\ tot_len (out_q out) = tot_len p + UDP_HLEN
    /\ len (udphdr (out_q out))
       = lwip_htons
           (if Z.land (flags me) UDP_FLAGS_UDPLITE =? 0
            then tot_len p + UDP_HLEN
            else if (chksum_len_tx me <? 8)
                    || (chksum_len_tx me >? tot_len p + UDP_HLEN)
                 then 0 else chksum_len_tx me)
    /\ out_proto out
       = (if Z.land (flags me) UDP_FLAGS_UDPLITE =? 0
          then IP_PROTO_UDP else IP_PROTO_UDPLITE)
    /\ out_ttl out
       = (if ip_addr_ismulticast dst_ip
          then udp_get_multicast_ttl me else ttl me)
    /\ out_tos out = tos me
    /\ out_src_ip out = src_ip /\ out_dst_ip out = dst_ip
    /\ out_netif out = netif.
Proof.
  intros Hlen Hrun.
  apply udp_sendto_sent in Hrun
    as (me0 & me & q0 & Hme0 & _ & _ & _ & Hbind & Hme & Hov & Hq & -> & ->).
  exists me. split; [done|].
  assert (Hport : local_port me <> 0).
  { destruct (Z.eqb_spec (local_port me0) 0) as [Hz|Hnz].
    - apply udp_bind_result in Hbind
        as [[? _]|(_ & me1 & port' & Hme1 & Hp & _ & _ & _ & Hm)]; [done|].
      rewrite Hm, lookup_insert_eq in Hme. by injection Hme as <-.
    - injection Hbind as <-. rewrite Hme0 in Hme. by injection Hme as <-. }
  split; [done|]. split; [done|]. cbv zeta.
  assert (Hsum : u16 (tot_len p + UDP_HLEN) = tot_len p + UDP_HLEN).
  { apply Z.ltb_ge in Hov. unfold u16, UDP_HLEN in *.
    destruct (Z_lt_ge_dec (tot_len p + 8) (2 ^ 16)) as [?|Hbig].
    - rewrite Z.mod_small; lia.
    - exfalso. 
      assert ((tot_len p + 8) mod 2 ^ 16 = tot_len p + 8 - 2 ^ 16).
      { symmetry. apply (Z.mod_unique _ _ 1); lia. }
      lia. }
  assert (Hq0 : tot_len q0 = tot_len p + UDP_HLEN).
  { unfold udp_send_q in Hq. destruct (pbuf_add_header_fails env).
    - destruct (pbuf_alloc_ok env); [|done]. injection Hq as <-.
      destruct (Z.eqb_spec (tot_len p) 0) as [Hz|Hnz]; cbn [negb tot_len].
      + rewrite Hz. done.
      + rewrite Z.add_comm. done.
    - injection Hq as <-. cbn [tot_len]. done. }
  match goal with
  | |- context [udp_send_udp me ?q _ _ _ _ _] => set (q1 := q)
  end.
  assert (Hq1 : src (udphdr q1) = lwip_htons (local_port me)
                /\ dest (udphdr q1) = lwip_htons dst_port
                /\ tot_len q1 = tot_len p + UDP_HLEN).
  { subst q1. by destruct (_ && _). }
  destruct Hq1 as (Hsrc & Hdst & Htot). cbn [out_q out_proto out_ttl out_tos
    out_src_ip out_dst_ip out_netif].
  destruct (Z.land (flags me) UDP_FLAGS_UDPLITE =? 0); cbn [negb].
  - destruct (udp_send_udp_frame me q1 dst_ip netif have_chksum chksum_arg
                src_ip) as (-> & -> & -> & -> & _).
    rewrite Htot. done.
  - destruct (udp_send_udplite_frame me q1 dst_ip netif have_chksum chksum_arg
                src_ip) as (-> & -> & -> & -> & _).
    rewrite Htot. done.
Qed.

(** What is never sent: a datagram to an IPv4 broadcast address from an
    endpoint without the BROADCAST option, a datagram whose addresses are
    not of the endpoint's IP version, and a datagram that is too long for
    the 16-bit length with its header.  When the header fits in front of
    the payload, what is sent is the buffer given, longer by the header,
    and no separate header buffer; when it does not fit, the datagram is
    sent only if a header buffer could be allocated, and starts with that
    buffer of 8 bytes. *)
Theorem udp_sendto_never (env : SendEnv) (pcb : pcb_ptr)
        (p : PacketBuffer) (dst_ip : IpAddr) (dst_port : Z) (netif : NetIfc)
        (have_chksum : bool) (chksum_arg : Z) (src_ip : IpAddr)
        (s s' : UdpState) (err : LwipStatus) (out : IpOutput) (me : UdpPcb) :
  0 <= tot_len p < 2 ^ 16 ->
  pcb_mem s !! pcb = Some me ->
  udp_sendto_if_src_chksum env pcb p dst_ip dst_port netif have_chksum
                           chksum_arg src_ip s = Some (err, s', Some out) ->
  match_ip_addr_pcb_version me src_ip = true
  /\ match_ip_addr_pcb_version me dst_ip = true
  /\ (IP_IS_V4 dst_ip = true -> ip_addr_isbroadcast dst_ip netif = true ->
      ip_get_option me SOF_BROADCAST = true)
  /\ tot_len p + UDP_HLEN < 2 ^ 16
  /\ (pbuf_add_header_fails env = false ->
      p_len (out_q out) = u16 (p_len p + UDP_HLEN)
      /\ data (out_q out) = data p)
  /\ (pbuf_add_header_fails env = true ->
      pbuf_alloc_ok env = true /\ p_len (out_q out) = UDP_HLEN).
Proof.
  intros Hlen Hme Hrun.
  apply udp_sendto_sent in Hrun
    as (me0 & me1 & q0 & Hme0 & Hsv & Hdv & Hbc & _ & _ & Hov & Hq & _
        & Hout).
  assert (Hshape : p_len (out_q out) = p_len q0
                   /\ data (out_q out) = data q0).
  { rewrite Hout. cbv zeta. cbn [out_q].
    match goal with
    | |- context [udp_send_udp me1 ?q _ _ _ _ _] => set (q1 := q)
    end.
    assert (Hq1 : p_len q1 = p_len q0 /\ data q1 = data q0).
    { subst q1.
      by destruct (negb (Z.land (flags me1) UDP_FLAGS_MULTICAST_LOOP =? 0)
                   && ip_addr_ismulticast dst_ip). }
    destruct Hq1 as [<- <-].
    destruct (negb (Z.land (flags me1) UDP_FLAGS_UDPLITE =? 0)).
    - destruct (udp_send_udplite_frame me1 q1 dst_ip netif have_chksum
                  chksum_arg src_ip) as (_ & _ & _ & _ & -> & _ & ->).
      done.
    - destruct (udp_send_udp_frame me1 q1 dst_ip netif have_chksum
                  chksum_arg src_ip) as (_ & _ & _ & _ & -> & _ & ->).
      done. }
  destruct Hshape as [Hplen Hdata].
  rewrite Hme in Hme0. injection Hme0 as <-.
  split; [done|]. split; [done|]. split.
  { intros Hv4 Hb. rewrite Hv4, Hb, !andb_true_r in Hbc.
    by apply negb_false_iff in Hbc. }
  split.
  { apply Z.ltb_ge in Hov. unfold u16, UDP_HLEN in *.
    destruct (Z_lt_ge_dec (tot_len p + 8) (2 ^ 16)) as [?|Hbig]; [done|].
    exfalso.
    assert ((tot_len p + 8) mod 2 ^ 16 = tot_len p + 8 - 2 ^ 16).
    { symmetry. apply (Z.mod_unique _ _ 1); lia. }
    lia. }
  unfold udp_send_q in Hq. split.
  - intros Hfit. rewrite Hfit in Hq. injection Hq as <-.
    by rewrite Hplen, Hdata.
  - intros Hfail. rewrite Hfail in Hq.
    destruct (pbuf_alloc_ok env); [|done]. injection Hq as <-.
    split; [done|]. rewrite Hplen.
    destruct (tot_len p =? 0); reflexivity.
Qed.

(** When nothing is handed to the IP layer the status is an error,
    ERR_VAL, ERR_USE or ERR_MEM.  A send changes the state only by binding
    a sender that has no local port: with a local port, the state is as
    before, and without one, on ERR_VAL and ERR_USE, the endpoint list and
    the endpoints are as before. *)
Theorem udp_sendto_status (env : SendEnv) (pcb : pcb_ptr)
        (p : PacketBuffer) (dst_ip : IpAddr) (dst_port : Z) (netif : NetIfc)
        (have_chksum : bool) (chksum_arg : Z) (src_ip : IpAddr)
        (s s' : UdpState) (err : LwipStatus) (out : option IpOutput)
        (me : UdpPcb) :
  pcb_mem s !! pcb = Some me ->
  udp_sendto_if_src_chksum env pcb p dst_ip dst_port netif have_chksum
                           chksum_arg src_ip s = Some (err, s', out) ->
  (out = None -> err = ERR_VAL \/ err = ERR_USE \/ err = ERR_MEM)
  /\ (local_port me <> 0 -> s' = s)
  /\ (out = None -> err = ERR_VAL \/ err = ERR_USE ->
      udp_pcbs s' = udp_pcbs s /\ pcb_mem s' = pcb_mem s)
  /\ (forall q, q <> pcb -> pcb_mem s' !! q = pcb_mem s !! q).
Proof.
  intros Hme. unfold udp_sendto_if_src_chksum. rewrite Hme.
  cbn [mbind option_bind].
  destruct (_ || _).
  { intros [= <- <- <-]. split; [by left|]. done. }
  destruct (_ && _ && _).
  { intros [= <- <- <-]. split; [by left|]. done. }
  destruct (if local_port me =? 0 then _ else _) as [[err1 s1]|] eqn:Hbind;
    [|done].
  cbn [mbind option_bind].
  assert (Hs1 : (local_port me <> 0 -> s1 = s /\ err1 = ERR_OK)
                /\ (err1 = ERR_USE \/ err1 = ERR_OK)
                /\ (err1 = ERR_USE ->
                    udp_pcbs s1 = udp_pcbs s /\ pcb_mem s1 = pcb_mem s)
                /\ (forall q, q <> pcb -> pcb_mem s1 !! q = pcb_mem s !! q)).
  { destruct (Z.eqb_spec (local_port me) 0) as [Hz|Hnz].
    - split; [done|].
      apply udp_bind_result in Hbind
        as [(-> & Hl & Hm)|(-> & me1 & port' & _ & _ & _ & _ & _ & Hm)].
      + split; [by left|]. split; [done|]. intros q _. by rewrite Hm.
      + split; [by right|]. split; [done|]. intros q Hne.
        by rewrite Hm, lookup_insert_ne.
    - injection Hbind as <- <-. split; [done|]. split; [by right|]. done. }
  destruct Hs1 as (Hsame & Herr1 & Huse & Hframe).
  destruct (bool_decide_reflect (err1 = ERR_OK)) as [->|Hne]; cbn [negb].
  - destruct (pcb_mem s1 !! pcb) as [me1|]; [|done]. cbn [mbind option_bind].
    destruct (_ <? _).
    { intros [= <- <- <-]. split; [by right; right|].
      split; [intros Hnz; by apply Hsame|]. split; [|done].
      intros _ [?|?]; done. }
    destruct (udp_send_q env p) as [q0|].
    + intros [= <- <- <-]. split; [done|].
      split; [intros Hnz; by apply Hsame|]. done.
    + intros [= <- <- <-]. split; [by right; right|].
      split; [intros Hnz; by apply Hsame|]. split; [|done].
      intros _ [?|?]; done.
  - intros [= <- <- <-]. destruct Herr1 as [->|?]; [|done].
    split; [by right; left|]. split; [intros Hnz; by apply Hsame|].
    split; [|done]. intros _ _. by apply Huse.
Qed.
End UdpSendDatagram.

(** Endpoint 3 of [bound_pair], which has no local port, sends four bytes
    to 192.0.2.7, port 9, through [eth0]: it is bound on the way, and the
    datagram of 12 bytes leaves from its port. *)
Lemma udp_sendto_datagram_witness :
  exists s' out me,
    Udp.udp_sendto_if_src_chksum Scenarios.send_ok 3%positive
      Scenarios.four_bytes Scenarios.peer_addr 9 Host.eth0 false 0
      Scenarios.eth0_addr Scenarios.bound_pair
    = Some (ERR_OK, s', Some out)
    /\ Udp.pcb_mem s' !! 3%positive = Some me
    /\ Udp.local_port me <> 0
    /\ Udp.src (Udp.udphdr (Udp.out_q out)) = Udp.local_port me
    /\ Udp.dest (Udp.udphdr (Udp.out_q out)) = 9
    /\ Udp.tot_len (Udp.out_q out) = 12.
Proof.
  assert (Hrun : exists s' out,
             Udp.udp_sendto_if_src_chksum Scenarios.send_ok 3%positive
               Scenarios.four_bytes Scenarios.peer_addr 9 Host.eth0 false 0
               Scenarios.eth0_addr Scenarios.bound_pair
             = Some (ERR_OK, s', Some out))
    by (eexists _, _; reflexivity).
  destruct Hrun as (s' & out & Hrun).
  destruct (udp_sendto_datagram (H := Host.platform) Scenarios.send_ok 3%positive
              Scenarios.four_bytes Scenarios.peer_addr 9 Host.eth0 false 0
              Scenarios.eth0_addr Scenarios.bound_pair s' ERR_OK out
              ltac:(simpl; lia) Hrun)
    as (me & Hme & Hnz & _ & Hsrc & Hdst & Htot & _).
  exists s', out, me. split; [exact Hrun|]. split; [exact Hme|].
  split; [exact Hnz|]. split; [exact Hsrc|]. split; [exact Hdst|exact Htot].
Defined.

(** The same send in full: the port chosen is 49154, the first one after
    [udp_port] that no endpoint of the list has. *)
Example udp_sendto_unbound_run :
  Udp.udp_sendto_if_src_chksum Scenarios.send_ok 3%positive
    Scenarios.four_bytes Scenarios.peer_addr 9 Host.eth0 false 0
    Scenarios.eth0_addr Scenarios.bound_pair
  = Some (ERR_OK,
          Udp.mkUdpState 49154 [3; 2; 1]%positive
            (<[3%positive := Udp.set_local (Host.new_pcb (Host.v4 0 0 0 0))
                               (Host.v4 0 0 0 0) 49154]>
               (Udp.pcb_mem Scenarios.bound_pair)),
          Some (Udp.mkIpOutput
                  (Udp.mkPacketBuffer 12 12 0
                     (Udp.mkUdpHdr 49154 9 12 16333) [1; 2; 3; 4])
                  Scenarios.eth0_addr Scenarios.peer_addr 255 0
                  Udp.IP_PROTO_UDP Host.eth0)).
Proof. reflexivity. Qed.

(** Endpoint 1 of [bound_pair], which has not the BROADCAST option, may
    send to 192.0.2.7, so 192.0.2.7 is no broadcast address of [eth0]. *)
Lemma udp_sendto_never_witness :
  (Udp.ip_addr_isbroadcast Scenarios.peer_addr Host.eth0 = true ->
   Udp.ip_get_option
     (Udp.set_local (Host.new_pcb (Host.v4 0 0 0 0)) (Host.v4 192 0 2 3) 49153)
     Udp.SOF_BROADCAST = true)
  /\ Udp.tot_len Scenarios.four_bytes + Udp.UDP_HLEN < 2 ^ 16.
Proof.
  assert (Hrun : exists s' out,
             Udp.udp_sendto_if_src_chksum Scenarios.send_ok 1%positive
               Scenarios.four_bytes Scenarios.peer_addr 9 Host.eth0 false 0
               Scenarios.eth0_addr Scenarios.bound_pair
             = Some (ERR_OK, s', Some out))
    by (eexists _, _; reflexivity).
  destruct Hrun as (s' & out & Hrun).
  destruct (udp_sendto_never (H := Host.platform) Scenarios.send_ok 1%positive
              Scenarios.four_bytes Scenarios.peer_addr 9 Host.eth0 false 0
              Scenarios.eth0_addr Scenarios.bound_pair s' ERR_OK out
              (Udp.set_local (Host.new_pcb (Host.v4 0 0 0 0))
                             (Host.v4 192 0 2 3) 49153)
              ltac:(simpl; lia) eq_refl Hrun)
    as (_ & _ & Hbc & Hlen & _ & _).
  split; [exact (Hbc eq_refl)|exact Hlen].
Defined.

(** Endpoint 1 of [bound_pair] tries to send to 255.255.255.255: the send
    is refused with ERR_VAL and nothing changes. *)
Lemma udp_sendto_status_witness :
  Udp.udp_sendto_if_src_chksum Scenarios.send_ok 1%positive
    Scenarios.four_bytes Scenarios.bcast_addr 9 Host.eth0 false 0
    Scenarios.eth0_addr Scenarios.bound_pair
  = Some (ERR_VAL, Scenarios.bound_pair, None)
  /\ (ERR_VAL = ERR_VAL \/ ERR_VAL = ERR_USE \/ ERR_VAL = ERR_MEM).
Proof.
  assert (Hrun : Udp.udp_sendto_if_src_chksum Scenarios.send_ok 1%positive
                   Scenarios.four_bytes Scenarios.bcast_addr 9 Host.eth0
                   false 0 Scenarios.eth0_addr Scenarios.bound_pair
                 = Some (ERR_VAL, Scenarios.bound_pair, None))
    by reflexivity.
  split; [exact Hrun|].
  destruct (udp_sendto_status (H := Host.platform) Scenarios.send_ok
              1%positive Scenarios.four_bytes Scenarios.bcast_addr 9 Host.eth0
              false 0 Scenarios.eth0_addr Scenarios.bound_pair
              Scenarios.bound_pair ERR_VAL None
              (Udp.set_local (Host.new_pcb (Host.v4 0 0 0 0))
                             (Host.v4 192 0 2 3) 49153)
              eq_refl Hrun) as (Herr & _).
  exact (Herr eq_refl).
Defined.

(** * IGMP: stopping, reporting and queries *)

Section IgmpStopReport.
Import Igmp.
Context `{IgmpEnv}.

Lemma omap_ext_elem {A B} (f g : A -> option B) (l : list A) :
  (forall x, x ∈ l -> f x = g x) -> omap f l = omap g l.
Proof.
  induction l as [|x l IH]; intros Hext; [done|]. cbn [omap list_omap].
  rewrite (Hext x) by (by left). rewrite IH; [done|].
  intros y Hy. apply Hext. by right.
Qed.

(** The loop of [igmp_stop] deletes the groups of the list, each after
    its MAC filter has been removed. *)
Lemma igmp_stop_loop_spec netif l :
  forall mem,
    NoDup l -> (forall g, g ∈ l -> is_Some (mem !! g)) ->
    exists mem',
      igmp_stop_loop netif l mem
      = Some (mem',
              if igmp_mac_filter netif
              then omap (fun group =>
                           (fun g => MacFilter (group_address g)
                                       NETIF_DEL_MAC_FILTER)
                           <$> mem !! group) l
              else [])
      /\ (forall g, g ∈ l -> mem' !! g = None)
      /\ (forall g, g ∉ l -> mem' !! g = mem !! g).
Proof.
  induction l as [|group l IH]; intros mem Hnd Hall.
  - exists mem. cbn [igmp_stop_loop omap list_omap].
    split; [by destruct (igmp_mac_filter netif)|].
    split; [intros g Hg; by apply elem_of_nil in Hg|done].
  - apply NoDup_cons in Hnd as [Hnin Hnd].
    destruct (Hall group) as [g Hg]; [by left|].
    destruct (IH (delete group mem) Hnd) as (mem' & Hrun & Hgone & Hkeep).
    { intros g0 Hg0. rewrite lookup_delete_ne by (intros ->; done).
      apply Hall. by right. }
    exists mem'. cbn [igmp_stop_loop]. rewrite Hg. cbn [mbind option_bind].
    rewrite Hrun. cbn [mbind option_bind]. split.
    + f_equal. f_equal. destruct (igmp_mac_filter netif); [|done].
      cbn [omap list_omap]. rewrite Hg.
      cbn [fmap option_fmap option_map app]. f_equal.
      apply omap_ext_elem.
      intros g0 Hg0. rewrite lookup_delete_ne by (intros ->; done). done.
    + split.
      * intros g0 Hg0. apply elem_of_cons in Hg0 as [->|Hg0]; [|by apply Hgone].
        rewrite Hkeep by done. apply lookup_delete_eq.
      * intros g0 Hg0. apply not_elem_of_cons in Hg0 as [Hne Hg0].
        rewrite Hkeep by done. by rewrite lookup_delete_ne.
Qed.

(** [igmp_stop] on a well-formed interface returns ERR_OK, leaves the
    interface without groups and deletes every group it had; when the
    interface has a MAC filter hook, the filter of each group is removed, in
    list order, before the group is deleted.  Groups that were not linked
    on the interface are not touched.  IGMP can then be started again, which
    sets up the list with the all-systems group first. *)
Theorem igmp_stop_result (netif : NetIfc) (s : IgmpState) :
  groups_ok s = true ->
  exists s' evs,
    igmp_stop netif s = Some (ERR_OK, s', evs)
    /\ netif_igmp_data s' = []
    /\ (forall g, g ∈ netif_igmp_data s -> group_mem s' !! g = None)
    /\ (forall g, g ∉ netif_igmp_data s ->
          group_mem s' !! g = group_mem s !! g)
    /\ evs = (if igmp_mac_filter netif
              then omap (fun group =>
                           (fun g => MacFilter (group_address g)
                                       NETIF_DEL_MAC_FILTER)
                           <$> group_mem s !! group) (netif_igmp_data s)
              else [])
    /\ (forall group,
          group_mem s' !! group = None ->
          exists s'' evs',
            igmp_start netif (Some group) s' = Some (ERR_OK, s'', evs')
            /\ groups_ok s'' = true /\ allsystems_first s'').
Proof.
  intros Hok.
  destruct (igmp_stop_loop_spec netif (netif_igmp_data s) (group_mem s))
    as (mem' & Hrun & Hgone & Hkeep).
  { by apply groups_ok_NoDup. }
  { intros g. by apply groups_ok_lookup. }
  unfold igmp_stop. rewrite Hrun. cbn [mbind option_bind].
  eexists _, _. split; [reflexivity|]. cbn [netif_igmp_data group_mem].
  split; [done|]. split; [done|]. split; [done|]. split; [done|].
  intros group Hfresh. by apply igmp_start_first.
Qed.

(** The loop over the groups applies [igmp_delaying_member] to each group
    of the list and to no other. *)
Lemma igmp_delaying_members_effect lwip_rand maxresp l :
  forall mem,
    NoDup l -> (forall g, g ∈ l -> is_Some (mem !! g)) ->
    exists mem',
      igmp_delaying_members lwip_rand maxresp l mem = Some mem'
      /\ (forall group g,
            group ∈ l -> mem !! group = Some g ->
            mem' !! group
            = Some (igmp_delaying_member (rand_for lwip_rand group) g
                                         maxresp))
      /\ (forall group, group ∉ l -> mem' !! group = mem !! group).
Proof.
  induction l as [|groupref l IH]; intros mem Hnd Hall.
  - exists mem. split; [done|].
    split; [intros group g Hg; by apply elem_of_nil in Hg|done].
  - apply NoDup_cons in Hnd as [Hnin Hnd].
    destruct (Hall groupref) as [g0 Hg0]; [by left|].
    cbn [igmp_delaying_members]. rewrite Hg0. cbn [mbind option_bind].
    set (g1 := igmp_delaying_member (rand_for lwip_rand groupref) g0 maxresp).
    destruct (IH (<[groupref := g1]> mem) Hnd) as (mem' & Hrun & Hin & Hout).
    { intros g Hg. rewrite lookup_insert_ne by (intros ->; done).
      apply Hall. by right. }
    exists mem'. split; [done|]. split.
    + intros group g Hg Hlook. apply elem_of_cons in Hg as [->|Hg].
      * rewrite Hout by done. rewrite lookup_insert_eq.
        rewrite Hg0 in Hlook. by injection Hlook as <-.
      * apply Hin; [done|]. by rewrite lookup_insert_ne by (intros ->; done).
    + intros group Hg. apply not_elem_of_cons in Hg as [Hne Hg].
      rewrite Hout by done. by rewrite lookup_insert_ne.
Qed.

(** [igmp_report_groups] restarts the report of every group behind the
    first: each of them gets what [igmp_delaying_member] makes of it for
    the bound IGMP_JOIN_DELAYING_MEMBER_TMR, so an idle member becomes a
    delaying member with a running timer; the first group, the list and
    the addresses and use counts are left alone, and nothing is sent. *)
Theorem igmp_report_groups_effect (lwip_rand : RandSource) (s : IgmpState) :
  groups_ok s = true ->
  exists mem',
    igmp_report_groups lwip_rand s
    = Some (mkIgmpState (netif_igmp_data s) mem')
    /\ (forall group g,
          group ∈ tail (netif_igmp_data s) ->
          group_mem s !! group = Some g ->
          exists g',
            mem' !! group = Some g'
            /\ g' = igmp_delaying_member (rand_for lwip_rand group) g
                      (u8 IGMP_JOIN_DELAYING_MEMBER_TMR)
            /\ group_address g' = group_address g /\ use g' = use g
            /\ (group_state g = IGMP_GROUP_IDLE_MEMBER ->
                group_state g' = IGMP_GROUP_DELAYING_MEMBER
                /\ 1 <= timer g'))
    /\ (forall group,
          group ∉ tail (netif_igmp_data s) ->
          mem' !! group = group_mem s !! group)
    /\ (forall head, head_of_list s = Some head ->
          mem' !! head = group_mem s !! head).
Proof.
  intros Hok. pose proof (groups_ok_NoDup s Hok) as Hnd.
  destruct (igmp_delaying_members_effect lwip_rand
              (u8 IGMP_JOIN_DELAYING_MEMBER_TMR) (tail (netif_igmp_data s))
              (group_mem s)) as (mem' & Hrun & Hin & Hout).
  { destruct (netif_igmp_data s); [done|]. by apply NoDup_cons in Hnd as [_ ?]. }
  { intros g Hg. apply groups_ok_lookup; [done|].
    destruct (netif_igmp_data s); [done|]. by right. }
  exists mem'. unfold igmp_report_groups. rewrite Hrun.
  split; [done|]. split; [|split; [done|]].
  - intros group g Hg Hlook. eexists. split; [by apply Hin|].
    split; [done|].
    destruct (igmp_delaying_member_keeps (rand_for lwip_rand group) g
                (u8 IGMP_JOIN_DELAYING_MEMBER_TMR)) as [Ha Hu].
    split; [done|]. split; [done|]. intros Hidle.
    unfold igmp_delaying_member. rewrite Hidle.
    rewrite bool_decide_eq_true_2 by done. cbn [orb group_state with_state].
    split; [done|].
    change (timer (with_state ?x _)) with (timer x).
    rewrite igmp_start_timer_value
      by (unfold u8; apply Z.mod_pos_bound; lia).
    destruct (rand_for lwip_rand group); [destruct (_ >? 2)|]; lia.
  - intros head Hhead. apply Hout. unfold head_of_list in Hhead.
    destruct (netif_igmp_data s) as [|h rest]; [done|].
    injection Hhead as <-. cbn [tail]. by apply NoDup_cons in Hnd as [? _].
Qed.
End IgmpStopReport.

(** * IGMP: what a received message does *)

Section IgmpInputEffects.
Import Igmp.
Context `{IgmpEnv}.

(** [igmp_input] leaves the interface as it is, and frees the packet,
    when the packet is shorter than an IGMP message, when its checksum
    fails, when the interface has no group with the destination address,
    when the message is neither a query nor a version 2 report, and when
    it is a report for a group that is not delaying. *)
Theorem igmp_input_ignored (lwip_rand : RandSource) (p : PacketBuffer)
        (dest : Ip4Addr) (s : IgmpState) :
  groups_ok s = true ->
  p_len p < kIgmpMinlen
  \/ inet_chksum (payload p) (p_len p) <> 0
  \/ igmp_lookfor_group s dest = Some None
  \/ (igmp_msgtype (payload p) <> IGMP_MEMB_QUERY
      /\ igmp_msgtype (payload p) <> IGMP_V2_MEMB_REPORT)
  \/ (igmp_msgtype (payload p) = IGMP_V2_MEMB_REPORT
      /\ exists group g,
           igmp_lookfor_group s dest = Some (Some group)
           /\ group_mem s !! group = Some g
           /\ group_state g <> IGMP_GROUP_DELAYING_MEMBER) ->
  igmp_input lwip_rand p dest s = Some (s, [PbufFree buf_in]).
Proof.
  intros Hok Hcases. unfold igmp_input.
  destruct (Z.ltb_spec (p_len p) kIgmpMinlen) as [?|Hlen]; [done|].
  destruct Hcases as [?|Hcases]; [lia|].
  destruct (Z.eqb_spec (inet_chksum (payload p) (p_len p)) 0) as [Hsum|?];
    [|done].
  destruct Hcases as [?|Hcases]; [done|]. cbn [negb].
  destruct (igmp_lookfor_group_from_spec (group_mem s) (netif_igmp_data s)
              dest) as (r & Hr & Hsome & _).
  { intros g. by apply groups_ok_lookup. }
  change (igmp_lookfor_group s dest)
    with (igmp_lookfor_group_from (group_mem s) (netif_igmp_data s) dest)
    in *.
  rewrite Hr in *. cbn [mbind option_bind].
  destruct r as [group|]; [|done].
  destruct Hcases as [?|Hcases]; [done|].
  destruct (Hsome group eq_refl) as (_ & g & Hg & _).
  destruct Hcases as [[Hq Hrep]|(Hrep & group' & g' & [= <-] & Hg' & Hst)].
  - destruct (Z.eqb_spec (igmp_msgtype (payload p)) IGMP_MEMB_QUERY); [done|].
    destruct (Z.eqb_spec (igmp_msgtype (payload p)) IGMP_V2_MEMB_REPORT);
      [done|].
    cbn [mbind option_bind]. by destruct s.
  - rewrite Hrep.
    change (IGMP_V2_MEMB_REPORT =? IGMP_MEMB_QUERY) with false.
    change (IGMP_V2_MEMB_REPORT =? IGMP_V2_MEMB_REPORT) with true.
    cbn iota. rewrite Hg'. cbn [mbind option_bind].
    rewrite bool_decide_eq_false_2 by done. cbn [mbind option_bind].
    by destruct s.
Qed.

(** A version 2 report that arrives for a group of which the interface is
    a delaying member cancels the report that was pending: the timer of
    the group is stopped, the group is an idle member and not the last
    reporter any more; its address and use count, the list and the other
    groups stay as they are. *)
Theorem igmp_input_report_heard (lwip_rand : RandSource) (p : PacketBuffer)
        (dest : Ip4Addr) (s : IgmpState) (group : group_ptr) (g : IgmpGroup) :
  kIgmpMinlen <= p_len p ->
  inet_chksum (payload p) (p_len p) = 0 ->
  igmp_msgtype (payload p) = IGMP_V2_MEMB_REPORT ->
  igmp_lookfor_group s dest = Some (Some group) ->
  group_mem s !! group = Some g ->
  group_state g = IGMP_GROUP_DELAYING_MEMBER ->
  exists g',
    igmp_input lwip_rand p dest s
    = Some (mkIgmpState (netif_igmp_data s) (<[group := g']> (group_mem s)),
            [PbufFree buf_in])
    /\ timer g' = 0
    /\ group_state g' = IGMP_GROUP_IDLE_MEMBER
    /\ last_reporter_flag g' = 0
    /\ group_address g' = group_address g
    /\ use g' = use g.
Proof.
  intros Hlen Hsum Hrep Hfound Hg Hst. unfold igmp_input.
  destruct (Z.ltb_spec (p_len p) kIgmpMinlen) as [?|_]; [lia|].
  rewrite Hsum. change (negb (0 =? 0)) with false. cbn iota.
  rewrite Hfound. cbn [mbind option_bind]. rewrite Hrep.
  change (IGMP_V2_MEMB_REPORT =? IGMP_MEMB_QUERY) with false.
  change (IGMP_V2_MEMB_REPORT =? IGMP_V2_MEMB_REPORT) with true.
  cbn iota. rewrite Hg. cbn [mbind option_bind].
  rewrite bool_decide_eq_true_2 by done. cbn [mbind option_bind].
  eexists. split; [reflexivity|]. done.
Qed.

(** A general query (a query sent to 224.0.0.1 with no group address)
    makes every group behind the first one answer within the maximum
    response time of the query, for which the version 1 default stands in
    when it is 0: each of these groups gets what [igmp_delaying_member]
    makes of it for that bound.  The first group, 224.0.0.1 itself, is not
    touched, nor is any group that is not on the list; nothing is sent. *)
Theorem igmp_input_general_query (lwip_rand : RandSource) (p : PacketBuffer)
        (s : IgmpState) :
  groups_ok s = true ->
  allsystems_first s ->
  kIgmpMinlen <= p_len p ->
  inet_chksum (payload p) (p_len p) = 0 ->
  igmp_msgtype (payload p) = IGMP_MEMB_QUERY ->
  ip4_addr_isany (igmp_group_address (payload p)) = true ->
  let maxresp := if igmp_maxresp (payload p) =? 0
                 then u8 IGMP_V1_DELAYING_MEMBER_TMR
                 else igmp_maxresp (payload p) in
  exists mem',
    igmp_input lwip_rand p allsystems s
    = Some (mkIgmpState (netif_igmp_data s) mem', [PbufFree buf_in])
    /\ (forall group g,
          group ∈ tail (netif_igmp_data s) ->
          group_mem s !! group = Some g ->
          mem' !! group
          = Some (igmp_delaying_member (rand_for lwip_rand group) g maxresp))
    /\ (forall group,
          group ∉ tail (netif_igmp_data s) ->
          mem' !! group = group_mem s !! group).
Proof.
  intros Hok Hinv Hlen Hsum Hq Hany maxresp.
  pose proof Hinv as (head & rest & g0 & Hlist & Hg0 & Haddr & _).
  pose proof (groups_ok_NoDup s Hok) as Hnd.
  destruct (igmp_delaying_members_effect lwip_rand maxresp
              (tail (netif_igmp_data s)) (group_mem s))
    as (mem' & Hrun & Hin & Hout).
  { rewrite Hlist in *. by apply NoDup_cons in Hnd as [_ ?]. }
  { intros g Hg. apply groups_ok_lookup; [done|]. rewrite Hlist in *.
    by right. }
  exists mem'. split; [|done]. unfold igmp_input.
  destruct (Z.ltb_spec (p_len p) kIgmpMinlen) as [?|_]; [lia|].
  rewrite Hsum. change (negb (0 =? 0)) with false. cbn iota.
  rewrite (igmp_lookfor_allsystems s head rest g0) by done.
  cbn [mbind option_bind]. rewrite Hq, Z.eqb_refl, Hany, ip4_addr_cmp_refl.
  cbn [andb]. fold maxresp. rewrite Hrun. done.
Qed.

(** A query for one group, sent to 224.0.0.1 or to the group itself,
    makes that group answer within the maximum response time of the query,
    if the interface has the group; a query for a group the interface has
    not changes nothing.  No other group is touched. *)
Theorem igmp_input_group_query (lwip_rand : RandSource) (p : PacketBuffer)
        (dest : Ip4Addr) (s : IgmpState) (found : group_ptr)
        (target : option group_ptr) :
  groups_ok s = true ->
  kIgmpMinlen <= p_len p ->
  inet_chksum (payload p) (p_len p) = 0 ->
  igmp_msgtype (payload p) = IGMP_MEMB_QUERY ->
  ip4_addr_isany (igmp_group_address (payload p)) = false ->
  igmp_lookfor_group s dest = Some (Some found) ->
  igmp_lookfor_group s (if ip4_addr_cmp dest allsystems
                        then igmp_group_address (payload p) else dest)
  = Some target ->
  igmp_input lwip_rand p dest s
  = Some (mkIgmpState (netif_igmp_data s)
            match target with
            | Some group =>
                match group_mem s !! group with
                | Some g =>
                    <[group := igmp_delaying_member
                                 (rand_for lwip_rand group) g
                                 (igmp_maxresp (payload p))]> (group_mem s)
                | None => group_mem s
                end
            | None => group_mem s
            end,
          [PbufFree buf_in])
  /\ (forall group, target = Some group ->
        group ∈ netif_igmp_data s
        /\ exists g, group_mem s !! group = Some g
                     /\ ip4_addr_cmp (group_address g)
                          (if ip4_addr_cmp dest allsystems
                           then igmp_group_address (payload p) else dest)
                        = true).
Proof.
  intros Hok Hlen Hsum Hq Hany Hfound Htarget.
  assert (Htgt : forall group, target = Some group ->
            group ∈ netif_igmp_data s
            /\ exists g, group_mem s !! group = Some g
                         /\ ip4_addr_cmp (group_address g)
                              (if ip4_addr_cmp dest allsystems
                               then igmp_group_address (payload p) else dest)
                            = true).
  { intros group ->.
    destruct (igmp_lookfor_group_from_spec (group_mem s) (netif_igmp_data s)
                (if ip4_addr_cmp dest allsystems
                 then igmp_group_address (payload p) else dest))
      as (r & Hr & Hsome & _).
    { intros g. by apply groups_ok_lookup. }
    unfold igmp_lookfor_group in Htarget. rewrite Hr in Htarget.
    injection Htarget as ->. by apply Hsome. }
  split; [|done]. unfold igmp_input.
  destruct (Z.ltb_spec (p_len p) kIgmpMinlen) as [?|_]; [lia|].
  rewrite Hsum. change (negb (0 =? 0)) with false. cbn iota.
  rewrite Hfound. cbn [mbind option_bind]. rewrite Hq, Z.eqb_refl, Hany.
  rewrite andb_false_r. cbn [negb].
  destruct (ip4_addr_cmp dest allsystems).
  - rewrite Htarget. cbn [mbind option_bind].
    destruct target as [group|]; [|done].
    destruct (Htgt group eq_refl) as (_ & g & Hg & _). rewrite Hg. done.
  - cbn [mbind option_bind]. rewrite Hfound in Htarget.
    injection Htarget as <-.
    destruct (Htgt found eq_refl) as (_ & g & Hg & _). rewrite Hg. done.
Qed.
End IgmpInputEffects.

(** * IGMP: the timer tick *)

Section IgmpTick.
Import Igmp.
Context `{IgmpEnv}.

(** The body of the loop of [igmp_tmr] for one group. *)
Lemma igmp_tmr_step netif alloc_ok group g mem :
  mem !! group = Some g ->
  exists g' evs,
    (if timer g >? 0
     then
       if timer (with_timer g (u16 (timer g - 1))) =? 0
       then igmp_timeout netif alloc_ok group
              (<[group := with_timer g (u16 (timer g - 1))]> mem)
       else Some (<[group := with_timer g (u16 (timer g - 1))]> mem, [])
     else Some (mem, []))
    = Some (<[group := g']> mem, evs)
    /\ ticked netif alloc_ok g g' evs.
Proof.
  intros Hg. unfold ticked, report_due.
  destruct (timer g >? 0) eqn:Hrun; cbn [andb].
  - cbn [timer with_timer].
    destruct (u16 (timer g - 1) =? 0) eqn:Hzero; cbn [andb].
    + unfold igmp_timeout. rewrite lookup_insert_eq. cbn [mbind option_bind].
      cbn [group_state group_address with_timer].
      destruct (bool_decide (group_state g = IGMP_GROUP_DELAYING_MEMBER));
        cbn [andb].
      * destruct (ip4_addr_cmp (group_address g) allsystems); cbn [negb].
        -- eexists _, _. split; [reflexivity|]. done.
        -- unfold igmp_send. destruct alloc_ok.
           ++ change (IGMP_V2_MEMB_REPORT =? IGMP_V2_MEMB_REPORT) with true.
              cbn iota. rewrite lookup_insert_eq. cbn [mbind option_bind].
              rewrite !insert_insert_eq. eexists _, _.
              split; [reflexivity|]. done.
           ++ rewrite insert_insert_eq. eexists _, _.
              split; [reflexivity|]. done.
      * eexists _, _. split; [reflexivity|]. done.
    + eexists _, _. split; [reflexivity|]. done.
  - exists g, []. rewrite insert_id by done. done.
Qed.

(** The loop of [igmp_tmr]: each group of the list is ticked once, the
    calls are those made for the groups, and no other group is touched. *)
Lemma igmp_tmr_loop_effect netif pbuf_alloc_ok l :
  forall mem,
    NoDup l -> (forall g, g ∈ l -> is_Some (mem !! g)) ->
    exists mem' evs,
      igmp_tmr_loop netif pbuf_alloc_ok l mem = Some (mem', evs)
      /\ (forall group g,
            group ∈ l -> mem !! group = Some g ->
            exists g' evs1,
              mem' !! group = Some g'
              /\ ticked netif (pbuf_alloc_ok group) g g' evs1
              /\ (forall e, e ∈ evs1 -> e ∈ evs))
      /\ (forall group, group ∉ l -> mem' !! group = mem !! group)
      /\ (forall e, e ∈ evs ->
            exists group g g' evs1,
              group ∈ l /\ mem !! group = Some g
              /\ ticked netif (pbuf_alloc_ok group) g g' evs1
              /\ e ∈ evs1).
Proof.
  induction l as [|group l IH]; intros mem Hnd Hall.
  - exists mem, []. split; [done|].
    split; [intros group g Hg; by apply elem_of_nil in Hg|].
    split; [done|]. intros e He. by apply elem_of_nil in He.
  - apply NoDup_cons in Hnd as [Hnin Hnd].
    destruct (Hall group) as [g Hg]; [by left|].
    cbn [igmp_tmr_loop]. rewrite Hg. cbn [mbind option_bind]. cbv zeta.
    destruct (igmp_tmr_step netif (pbuf_alloc_ok group) group g mem Hg)
      as (g' & evs1 & Hstep & Htick).
    rewrite Hstep. cbn [mbind option_bind].
    destruct (IH (<[group := g']> mem) Hnd)
      as (mem' & evs2 & Hrest & Hin & Hout & Hevs).
    { intros g0 Hg0. rewrite lookup_insert_ne by (intros ->; done).
      apply Hall. by right. }
    rewrite Hrest. cbn [mbind option_bind]. exists mem', (evs1 ++ evs2).
    split; [done|]. split; [|split].
    + intros group0 g0 Hg0 Hlook. apply elem_of_cons in Hg0 as [-> | Hg0].
      * rewrite Hg in Hlook. injection Hlook as <-. exists g', evs1.
        rewrite Hout by done. rewrite lookup_insert_eq.
        split; [done|]. split; [done|]. intros e He.
        apply elem_of_app. by left.
      * destruct (Hin group0 g0 Hg0) as (g0' & evs0 & ? & ? & Hsub).
        { by rewrite lookup_insert_ne by (intros ->; done). }
        exists g0', evs0. split; [done|]. split; [done|]. intros e He.
        apply elem_of_app. right. by apply Hsub.
    + intros group0 Hg0. apply not_elem_of_cons in Hg0 as [Hne Hg0].
      rewrite Hout by done. by rewrite lookup_insert_ne.
    + intros e He. apply elem_of_app in He as [He|He].
      * exists group, g, g', evs1. split; [by left|]. done.
      * destruct (Hevs e He) as (group0 & g0 & g0' & evs0 & Hg0 & Hlook & ?).
        exists group0, g0, g0', evs0. split; [by right|].
        split; [|done].
        by rewrite lookup_insert_ne in Hlook by (intros ->; done).
Qed.

(** One call of [igmp_tmr] on a well-formed interface.  Every group of
    the list has its timer counted down by one, if it runs, and keeps its
    address and use count; a group whose timer runs out while it is a
    delaying member, and that is not 224.0.0.1, becomes an idle member and
    its report is sent to the group address, provided a buffer can be
    allocated.  Every other group, the state and the last-reporter flag of
    a group without a report due, and the list are left alone.  The only
    messages sent are these reports: none is ever sent to 224.0.0.1. *)
Theorem igmp_tmr_effect (netif : NetIfc) (pbuf_alloc_ok : group_ptr -> bool)
        (s : IgmpState) :
  groups_ok s = true ->
  exists mem' evs,
    igmp_tmr netif pbuf_alloc_ok s
    = Some (mkIgmpState (netif_igmp_data s) mem', evs)
    /\ (forall group g,
          group ∈ netif_igmp_data s -> group_mem s !! group = Some g ->
          exists g' evs1,
            mem' !! group = Some g'
            /\ ticked netif (pbuf_alloc_ok group) g g' evs1
            /\ (forall e, e ∈ evs1 -> e ∈ evs))
    /\ (forall group,
          group ∉ netif_igmp_data s -> mem' !! group = group_mem s !! group)
    /\ (forall src dest msg,
          IpOutput src dest msg ∈ evs ->
          ip4_addr_cmp dest allsystems = false
          /\ msg = report_for dest
          /\ src = get_net_ifc_ip4_addr netif
          /\ exists group g,
               group ∈ netif_igmp_data s /\ group_mem s !! group = Some g
               /\ group_address g = dest /\ report_due g = true
               /\ pbuf_alloc_ok group = true)
    /\ (forall e, e ∈ evs ->
          e = PbufFree buf_out \/ exists src dest msg, e = IpOutput src dest msg).
Proof.
  intros Hok.
  destruct (igmp_tmr_loop_effect netif pbuf_alloc_ok (netif_igmp_data s)
              (group_mem s)) as (mem' & evs & Hrun & Hin & Hout & Hevs).
  { by apply groups_ok_NoDup. }
  { intros g. by apply groups_ok_lookup. }
  exists mem', evs. unfold igmp_tmr. rewrite Hrun. cbn [mbind option_bind].
  split; [done|]. split; [done|]. split; [done|].
  assert (Hev : forall e, e ∈ evs ->
            exists group g,
              group ∈ netif_igmp_data s /\ group_mem s !! group = Some g
              /\ report_due g = true /\ pbuf_alloc_ok group = true
              /\ (e = IpOutput (get_net_ifc_ip4_addr netif) (group_address g)
                               (report_for (group_address g))
                  \/ e = PbufFree buf_out)).
  { intros e He.
    destruct (Hevs e He) as (group & g & g' & evs1 & Hg & Hlook & Htick & He1).
    destruct Htick as (_ & _ & _ & Hquiet & Hdue).
    destruct (report_due g) eqn:Hrd.
    - destruct (Hdue eq_refl) as (_ & _ & ->).
      destruct (pbuf_alloc_ok group) eqn:Hok1; [|by apply elem_of_nil in He1].
      exists group, g. split; [done|]. split; [done|]. split; [done|].
      split; [done|].
      apply elem_of_cons in He1 as [-> | He1]; [by left|].
      apply list_elem_of_singleton in He1 as ->. by right.
    - destruct (Hquiet eq_refl) as (_ & _ & ->). by apply elem_of_nil in He1. }
  split.
  - intros src dest msg He.
    destruct (Hev _ He) as (group & g & Hg & Hlook & Hrd & Halloc & [Heq|?]);
      [|done].
    injection Heq as -> -> ->.
    split.
    { unfold report_due in Hrd. apply andb_true_iff in Hrd as [_ Hrd].
      by apply negb_true_iff in Hrd. }
    split; [done|]. split; [done|]. by exists group, g.
  - intros e He. destruct (Hev _ He) as (_ & g & _ & _ & _ & _ & [-> | ->]).
    + right. by eauto.
    + by left.
Qed.
End IgmpTick.

(** * IGMP: joining a group, and leaving it again *)

Section IgmpJoin.
Import Igmp.
Context `{IgmpEnv}.

(** The run of a first join for which a group structure is allocated. *)
Lemma igmp_joingroup_netif_new_run lwip_rand netif pbuf_alloc_ok groupaddr s
      group :
  igmp_lookfor_group s groupaddr = Some None ->
  igmp_joingroup_netif lwip_rand netif (Some group) pbuf_alloc_ok groupaddr s
  = Some (ERR_OK,
          mkIgmpState (linked_behind_head group (netif_igmp_data s))
            (<[group := joined_group lwip_rand pbuf_alloc_ok group groupaddr]>
               (group_mem s)),
          (if igmp_mac_filter netif
           then [MacFilter groupaddr NETIF_ADD_MAC_FILTER] else [])
          ++ (if pbuf_alloc_ok
              then [IpOutput (get_net_ifc_ip4_addr netif) groupaddr
                             (report_for groupaddr);
                    PbufFree buf_out]
              else [])).
Proof.
  intros Hnone. unfold igmp_joingroup_netif, igmp_lookup_group.
  rewrite Hnone. cbn [mbind option_bind].
  assert (Hjoin :
    forall l,
      (let '(group0, s1) :=
         (Some group,
          mkIgmpState l
            (<[group := mkIgmpGroup groupaddr 0 IGMP_GROUP_NON_MEMBER 0 0]>
               (group_mem s))) in
       match group0 with
       | Some group1 =>
           g ← group_mem s1 !! group1;
           '(mem, evs) ←
             (if negb (bool_decide (group_state g = IGMP_GROUP_NON_MEMBER))
              then Some (group_mem s1, [])
              else
                '(mem, sent) ← igmp_send netif pbuf_alloc_ok group1
                                 IGMP_V2_MEMB_REPORT (group_mem s1);
                g0 ← mem !! group1;
                Some (<[group1 := with_state
                                    (igmp_start_timer
                                       (rand_for lwip_rand group1) g0
                                       (u8 IGMP_JOIN_DELAYING_MEMBER_TMR))
                                    IGMP_GROUP_DELAYING_MEMBER]> mem,
                      (if (use g =? 0) && igmp_mac_filter netif
                       then [MacFilter groupaddr NETIF_ADD_MAC_FILTER]
                       else []) ++ sent));
           g0 ← mem !! group1;
           Some (ERR_OK,
                 mkIgmpState (netif_igmp_data s1)
                   (<[group1 := with_use g0 (u8 (use g0 + 1))]> mem),
                 evs)
       | None => Some (ERR_MEM, s1, [])
       end)
      = Some (ERR_OK,
              mkIgmpState l
                (<[group := joined_group lwip_rand pbuf_alloc_ok group
                              groupaddr]> (group_mem s)),
              (if igmp_mac_filter netif
               then [MacFilter groupaddr NETIF_ADD_MAC_FILTER] else [])
              ++ (if pbuf_alloc_ok
                  then [IpOutput (get_net_ifc_ip4_addr netif) groupaddr
                                 (report_for groupaddr);
                        PbufFree buf_out]
                  else []))).
  { intros l. cbn [group_mem netif_igmp_data]. rewrite lookup_insert_eq.
    cbn [mbind option_bind group_state use].
    rewrite bool_decide_eq_true_2 by done. cbn [negb].
    change (0 =? 0) with true. cbn [andb].
    unfold igmp_send, joined_group, report_for. destruct pbuf_alloc_ok.
    - change (IGMP_V2_MEMB_REPORT =? IGMP_V2_MEMB_REPORT) with true.
      cbn iota. rewrite lookup_insert_eq. cbn [mbind option_bind].
      rewrite lookup_insert_eq. cbn [mbind option_bind].
      rewrite lookup_insert_eq. cbn [mbind option_bind].
      rewrite !insert_insert_eq. reflexivity.
    - cbn [mbind option_bind]. rewrite lookup_insert_eq.
      cbn [mbind option_bind]. rewrite lookup_insert_eq.
      cbn [mbind option_bind]. rewrite !insert_insert_eq. reflexivity. }
  destruct (netif_igmp_data s) as [|list_head rest]; apply Hjoin.
Qed.

(** A lookup in a list none of whose groups has the address finds the
    group linked in for it. *)
Lemma igmp_lookfor_group_linked s group g groupaddr :
  groups_ok s = true ->
  igmp_lookfor_group s groupaddr = Some None ->
  group_mem s !! group = None ->
  group_address g = groupaddr ->
  igmp_lookfor_group
    (mkIgmpState (linked_behind_head group (netif_igmp_data s))
                 (<[group := g]> (group_mem s))) groupaddr
  = Some (Some group).
Proof.
  intros Hok Hnone Hfresh Haddr. unfold igmp_lookfor_group in *.
  cbn [netif_igmp_data group_mem].
  destruct (netif_igmp_data s) as [|list_head rest] eqn:Hlist;
    cbn [linked_behind_head igmp_lookfor_group_from].
  - rewrite lookup_insert_eq. cbn [mbind option_bind].
    by rewrite Haddr, ip4_addr_cmp_refl.
  - destruct (groups_ok_lookup s list_head Hok) as [g0 Hg0];
      [rewrite Hlist; by left|].
    assert (Hne : group <> list_head) by (intros ->; congruence).
    rewrite (lookup_insert_ne _ group list_head) by done.
    cbn [igmp_lookfor_group_from] in Hnone. rewrite Hg0 in Hnone |- *.
    cbn [mbind option_bind] in *.
    destruct (ip4_addr_cmp (group_address g0) groupaddr); [done|].
    rewrite lookup_insert_eq. cbn [mbind option_bind].
    by rewrite Haddr, ip4_addr_cmp_refl.
Qed.

(** Linking in a fresh group keeps the list well formed. *)
Lemma groups_ok_linked s group g :
  groups_ok s = true ->
  group_mem s !! group = None ->
  groups_ok (mkIgmpState (linked_behind_head group (netif_igmp_data s))
                         (<[group := g]> (group_mem s))) = true.
Proof.
  intros Hok Hfresh.
  assert (Hnin : group ∉ netif_igmp_data s).
  { intros Hin. destruct (groups_ok_lookup s group Hok Hin). congruence. }
  pose proof (groups_ok_NoDup s Hok) as Hnd.
  apply groups_ok_intro; cbn [netif_igmp_data group_mem].
  - destruct (netif_igmp_data s) as [|list_head rest];
      cbn [linked_behind_head].
    + apply NoDup_singleton.
    + apply NoDup_cons in Hnd as [Hh Hnd].
      apply not_elem_of_cons in Hnin as [Hne Hnin].
      apply NoDup_cons. split.
      * rewrite not_elem_of_cons. split; [congruence|done].
      * by apply NoDup_cons.
  - intros group' Hin'. destruct (decide (group' = group)) as [->|Hne].
    + rewrite lookup_insert_eq. eauto.
    + rewrite lookup_insert_ne by done.
      apply groups_ok_lookup; [done|].
      destruct (netif_igmp_data s) as [|list_head rest];
        cbn [linked_behind_head] in Hin'.
      * by apply list_elem_of_singleton in Hin'.
      * apply elem_of_cons in Hin' as [-> | Hin']; [by left|].
        apply elem_of_cons in Hin' as [-> | Hin']; [done|by right].
Qed.

(** The first join of a group on an interface.  When a group structure
    can be allocated, [igmp_joingroup_netif] returns ERR_OK; the new group
    is linked alone on an empty list and else right behind the first
    group; it is used once, delaying with a timer of at least one tick, and
    the last reporter exactly when a buffer for the report was there.  The
    calls made are the addition of the MAC filter, if the interface has the
    hook, and then the report, sent to the group address.  The list stays
    well formed and a lookup of the address now finds the group.  When no
    structure can be allocated the result is ERR_MEM, nothing has changed
    and nothing was sent. *)
Theorem igmp_joingroup_netif_new (lwip_rand : RandSource) (netif : NetIfc)
        (new_group : option group_ptr) (pbuf_alloc_ok : bool)
        (groupaddr : Ip4Addr) (s : IgmpState) :
  groups_ok s = true ->
  igmp_lookfor_group s groupaddr = Some None ->
  (forall group, new_group = Some group -> group_mem s !! group = None) ->
  match new_group with
  | None =>
      igmp_joingroup_netif lwip_rand netif new_group pbuf_alloc_ok groupaddr s
      = Some (ERR_MEM, s, [])
  | Some group =>
      exists g' s',
        igmp_joingroup_netif lwip_rand netif new_group pbuf_alloc_ok
                             groupaddr s
        = Some (ERR_OK, s',
                (if igmp_mac_filter netif
                 then [MacFilter groupaddr NETIF_ADD_MAC_FILTER] else [])
                ++ (if pbuf_alloc_ok
                    then [IpOutput (get_net_ifc_ip4_addr netif) groupaddr
                                   (report_for groupaddr);
                          PbufFree buf_out]
                    else []))
        /\ netif_igmp_data s'
           = linked_behind_head group (netif_igmp_data s)
        /\ group_mem s' = <[group := g']> (group_mem s)
        /\ group_address g' = groupaddr
        /\ use g' = 1
        /\ group_state g' = IGMP_GROUP_DELAYING_MEMBER
        /\ last_reporter_flag g' = (if pbuf_alloc_ok then 1 else 0)
        /\ 1 <= timer g'
        /\ groups_ok s' = true
        /\ igmp_lookfor_group s' groupaddr = Some (Some group)
  end.
Proof.
  intros Hok Hnone Hfresh. destruct new_group as [group|].
  - specialize (Hfresh group eq_refl).
    exists (joined_group lwip_rand pbuf_alloc_ok group groupaddr).
    eexists. split; [by apply igmp_joingroup_netif_new_run|].
    cbn [netif_igmp_data group_mem].
    split; [done|]. split; [done|]. split; [done|]. split; [done|].
    split; [done|]. split; [done|]. split; [|split].
    + unfold joined_group. cbn [timer].
      rewrite igmp_start_timer_value
        by (unfold u8; apply Z.mod_pos_bound; lia).
      destruct (rand_for lwip_rand group);
        [destruct (_ >? 2)|]; lia.
    + by apply groups_ok_linked.
    + by apply igmp_lookfor_group_linked.
  - unfold igmp_joingroup_netif, igmp_lookup_group. by rewrite Hnone.
Qed.

(** Joining and leaving undo each other on an interface on which IGMP is
    started.  After the first join of a group, a leave returns ERR_OK and
    leaves the list and the groups exactly as they were before the join,
    the group structure being deleted again; it sends one Leave message to
    224.0.0.2 exactly when the report of the join had been sent and a
    buffer is there now, and then removes the MAC filter, if the interface
    has the hook. *)
Theorem igmp_join_then_leave (lwip_rand : RandSource) (netif : NetIfc)
        (group : group_ptr) (alloc_join alloc_leave : bool)
        (groupaddr : Ip4Addr) (s : IgmpState) :
  groups_ok s = true ->
  netif_igmp_data s <> [] ->
  igmp_lookfor_group s groupaddr = Some None ->
  group_mem s !! group = None ->
  exists s1 evs1,
    igmp_joingroup_netif lwip_rand netif (Some group) alloc_join groupaddr s
    = Some (ERR_OK, s1, evs1)
    /\ igmp_leavegroup_netif netif alloc_leave groupaddr s1
       = Some (ERR_OK, s,
               (if alloc_join && alloc_leave
                then [IpOutput (get_net_ifc_ip4_addr netif) allrouters
                               (leave_for groupaddr);
                      PbufFree buf_out]
                else [])
               ++ (if igmp_mac_filter netif
                   then [MacFilter groupaddr NETIF_DEL_MAC_FILTER]
                   else [])).
Proof.
  intros Hok Hstarted Hnone Hfresh. eexists _, _.
  split; [by apply igmp_joingroup_netif_new_run|].
  unfold igmp_leavegroup_netif.
  rewrite (igmp_lookfor_group_linked s group) by done.
  cbn [mbind option_bind group_mem]. rewrite lookup_insert_eq.
  cbn [mbind option_bind]. unfold joined_group at 1. cbn [use].
  change (1 <=? 1) with true. cbn iota.
  destruct s as [l mem]. cbn [netif_igmp_data group_mem] in *.
  destruct l as [|list_head rest]; [done|].
  unfold igmp_remove_group.
  cbn [linked_behind_head netif_igmp_data igmp_remove_group_from].
  rewrite Pos.eqb_refl. cbn [snd group_mem netif_igmp_data].
  unfold joined_group at 1. cbn [last_reporter_flag].
  unfold igmp_send, leave_for. destruct alloc_join; cbn [negb andb].
  - change (negb (1 =? 0)) with true. cbn iota.
    destruct alloc_leave.
    + change (IGMP_LEAVE_GROUP =? IGMP_V2_MEMB_REPORT) with false.
      change (IGMP_LEAVE_GROUP =? IGMP_LEAVE_GROUP) with true. cbn iota.
      rewrite lookup_insert_eq. cbn [mbind option_bind].
      rewrite delete_insert_eq, delete_id by done. reflexivity.
    + cbn [mbind option_bind].
      rewrite delete_insert_eq, delete_id by done. reflexivity.
  - change (negb (0 =? 0)) with false. cbn iota. cbn [mbind option_bind].
    rewrite delete_insert_eq, delete_id by done. reflexivity.
Qed.

(** A further join of a group the interface is a member of only counts:
    the use count goes up by one, modulo 256, no group is allocated, no
    report is sent and the MAC filter is not touched.  A leave that
    follows takes the count back, so that the interface is exactly as
    before, and sends nothing either. *)
Theorem igmp_join_again_then_leave (lwip_rand : RandSource) (netif : NetIfc)
        (new_group : option group_ptr) (alloc_join alloc_leave : bool)
        (groupaddr : Ip4Addr) (s : IgmpState) (group : group_ptr)
        (g : IgmpGroup) :
  igmp_lookfor_group s groupaddr = Some (Some group) ->
  group_mem s !! group = Some g ->
  group_state g <> IGMP_GROUP_NON_MEMBER ->
  let s1 := mkIgmpState (netif_igmp_data s)
              (<[group := with_use g (u8 (use g + 1))]> (group_mem s)) in
  igmp_joingroup_netif lwip_rand netif new_group alloc_join groupaddr s
  = Some (ERR_OK, s1, [])
  /\ (1 <= use g < 255 ->
      igmp_leavegroup_netif netif alloc_leave groupaddr s1
      = Some (ERR_OK, s, [])).
Proof.
  intros Hfound Hg Hstate s1. split.
  - unfold igmp_joingroup_netif, igmp_lookup_group. rewrite Hfound.
    cbn [mbind option_bind]. rewrite Hg. cbn [mbind option_bind].
    rewrite bool_decide_eq_false_2 by done. cbn [negb mbind option_bind].
    rewrite Hg. reflexivity.
  - intros Huse. unfold igmp_leavegroup_netif.
    assert (Hfound1 : igmp_lookfor_group s1 groupaddr = Some (Some group)).
    { unfold igmp_lookfor_group in *. subst s1.
      cbn [netif_igmp_data group_mem]. revert Hfound.
      induction (netif_igmp_data s) as [|group0 l IH];
        cbn [igmp_lookfor_group_from]; [done|].
      destruct (decide (group0 = group)) as [->|Hne].
      - rewrite lookup_insert_eq, Hg. cbn [mbind option_bind].
        cbn [group_address with_use].
        destruct (ip4_addr_cmp (group_address g) groupaddr); [done|apply IH].
      - rewrite lookup_insert_ne by congruence.
        destruct (group_mem s !! group0) as [g0|]; [|done].
        cbn [mbind option_bind].
        destruct (ip4_addr_cmp (group_address g0) groupaddr); [done|].
        apply IH. }
    rewrite Hfound1. cbn [mbind option_bind]. subst s1.
    cbn [group_mem netif_igmp_data]. rewrite lookup_insert_eq.
    cbn [mbind option_bind use with_use].
    assert (Hu : u8 (use g + 1) = use g + 1)
      by (unfold u8; apply Z.mod_small; lia).
    rewrite Hu. destruct (Z.leb_spec (use g + 1) 1) as [?|_]; [lia|].
    rewrite insert_insert_eq. unfold with_use at 1.
    cbn [group_address last_reporter_flag group_state timer use].
    replace (u8 (use g + 1 - 1)) with (use g)
      by (unfold u8; rewrite Z.mod_small; lia).
    destruct s as [l mem]. cbn [netif_igmp_data group_mem] in *.
    destruct g. cbn. rewrite insert_id by done. reflexivity.
Qed.
End IgmpJoin.

(** * MS-CHAPv2: the Success packet *)

Section ChapSuccess.
Import ChapMs.

(** On a buffer that holds the [n] bytes compared, none of them a NUL in
    the literal, [strncmp] tells whether the buffer starts with the
    literal. *)
Lemma strncmp_is_0_prefix lit : forall s,
  (List.length lit <= List.length s)%nat ->
  Forall (fun l => l <> x00) lit ->
  strncmp_is_0 s lit (List.length lit)
  = Some (bool_decide (take (List.length lit) s = lit)).
Proof.
  induction lit as [|l lit IH]; intros s Hlen Hnul.
  - cbn. rewrite bool_decide_eq_true_2; [done|by rewrite take_0].
  - destruct s as [|c s]; [cbn in Hlen; lia|].
    apply Forall_cons in Hnul as [Hl Hnul].
    cbn [List.length strncmp_is_0 head mbind option_bind tail take].
    destruct (Byte.eqb c l) eqn:Hc.
    + apply Byte.byte_dec_bl in Hc as ->.
      destruct (Byte.eqb l x00) eqn:Hz.
      { apply Byte.byte_dec_bl in Hz. done. }
      rewrite IH by (cbn in Hlen; lia || done). f_equal.
      apply bool_decide_ext. split; [by intros ->|by intros [= ->]].
    + rewrite bool_decide_eq_false_2; [done|]. intros [= -> _].
      by rewrite Byte.byte_dec_lb in Hc.
Qed.

(** [chapms2_check_success] on a packet of [len] bytes returns 1 or 0.
    It returns 1, which makes the peer accept the authenticator, exactly
    when the packet starts with S=, the MS_AUTH_RESPONSE_LENGTH bytes that
    follow are those of the response expected, and the packet either ends
    there or goes on with the delimiter " M=" of a message.  So a packet
    that is too short, that has another response, or that has other text
    behind the response is never accepted. *)
Theorem chapms2_check_success_accepts (MS_AUTH_RESPONSE_LENGTH : Z)
        (msg : list byte) (len : Z) (private_ : list byte) :
  0 <= MS_AUTH_RESPONSE_LENGTH ->
  len <= Z.of_nat (List.length msg) ->
  MS_AUTH_RESPONSE_LENGTH <= Z.of_nat (List.length private_) ->
  exists r,
    chapms2_check_success MS_AUTH_RESPONSE_LENGTH msg len private_ = Some r
    /\ (r = 0 \/ r = 1)
    /\ (r = 1 <->
        MS_AUTH_RESPONSE_LENGTH + 2 <= len
        /\ take 2 msg = list_byte_of_string "S="
        /\ take (Z.to_nat MS_AUTH_RESPONSE_LENGTH) (drop 2 msg)
           = take (Z.to_nat MS_AUTH_RESPONSE_LENGTH) private_
        /\ (len = MS_AUTH_RESPONSE_LENGTH + 2
            \/ (MS_AUTH_RESPONSE_LENGTH + 5 <= len
                /\ take 3 (drop (Z.to_nat MS_AUTH_RESPONSE_LENGTH)
                                (drop 2 msg))
                   = list_byte_of_string " M="))).
Proof.
  intros HL Hmsg Hpriv. unfold chapms2_check_success.
  destruct (Z.ltb_spec len (MS_AUTH_RESPONSE_LENGTH + 2)) as [Hshort|Hlen].
  { exists 0. split; [done|]. split; [by left|]. split; [done|lia]. }
  assert (Hs : strncmp_is_0 msg (list_byte_of_string "S=") 2
               = Some (bool_decide (take 2 msg = list_byte_of_string "S="))).
  { apply (strncmp_is_0_prefix (list_byte_of_string "S="));
      [cbn; lia|repeat constructor; discriminate]. }
  rewrite Hs. cbn [mbind option_bind].
  destruct (bool_decide_reflect (take 2 msg = list_byte_of_string "S="))
    as [Hprefix|Hprefix]; cbn [negb]; cycle 1.
  { exists 0. split; [done|]. split; [by left|].
    split; [done|]. intros (_ & ? & _). done. }
  cbv zeta.
  destruct (Z.ltb_spec (len - 2) MS_AUTH_RESPONSE_LENGTH) as [?|_]; [lia|].
  unfold memcmp_is_0. rewrite decide_True; cycle 1.
  { rewrite length_drop. lia. }
  cbn [mbind option_bind].
  destruct (bool_decide_reflect
              (take (Z.to_nat MS_AUTH_RESPONSE_LENGTH) (drop 2 msg)
               = take (Z.to_nat MS_AUTH_RESPONSE_LENGTH) private_))
    as [Hsame|Hsame]; cbn [negb]; cycle 1.
  { exists 0. split; [done|]. split; [by left|].
    split; [done|]. intros (_ & _ & ? & _). done. }
  destruct (Z.leb_spec 3 (len - 2 - MS_AUTH_RESPONSE_LENGTH)) as [Hmore|Hend].
  - assert (Hm : forall s,
              (3 <= List.length s)%nat ->
              strncmp_is_0 s (list_byte_of_string " M=") 3
              = Some (bool_decide (take 3 s = list_byte_of_string " M="))).
    { intros s Hlen3. apply (strncmp_is_0_prefix (list_byte_of_string " M="));
        [cbn; lia|repeat constructor; discriminate]. }
    rewrite Hm by (rewrite !length_drop; lia). cbn [mbind option_bind].
    destruct (bool_decide_reflect
                (take 3 (drop (Z.to_nat MS_AUTH_RESPONSE_LENGTH) (drop 2 msg))
                 = list_byte_of_string " M=")) as [Hdelim|Hdelim].
    + exists 1. split; [done|]. split; [by right|]. split; [|done].
      intros _. split; [done|]. split; [done|]. split; [done|].
      right. split; [lia|done].
    + destruct (Z.eqb_spec (len - 2 - MS_AUTH_RESPONSE_LENGTH) 0) as [?|_];
        [lia|]. cbn [negb].
      exists 0. split; [done|]. split; [by left|]. split; [done|].
      intros (_ & _ & _ & [?|[_ ?]]); [lia|done].
  - destruct (Z.eqb_spec (len - 2 - MS_AUTH_RESPONSE_LENGTH) 0) as [Hz|Hnz];
      cbn [negb].
    + exists 1. split; [done|]. split; [by right|]. split; [|done].
      intros _. split; [done|]. split; [done|]. split; [done|]. left. lia.
    + exists 0. split; [done|]. split; [by left|]. split; [done|].
      intros (_ & _ & _ & [?|[? _]]); lia.
Qed.
End ChapSuccess.

(** * The solicited-node multicast address *)

Section Ip6SolicitedNodeAddress.
Import Udp.
Context `{Platform}.

(** The address [ip6_addr_set_solicitednode] builds for an interface
    identifier is recognised: [ip6_addr_issolicitednode] holds of it,
    whatever the identifier and the byte order of the host, it carries no
    zone, and [ip6_addr_cmp_solicitednode] matches it with every address
    whose last word is that identifier.  Conversely, an address that
    [ip6_addr_cmp_solicitednode] matches with some address is a
    solicited-node address, and is the one built from the last word of
    that address, up to the zone. *)
Theorem ip6_addr_set_solicitednode_recognised (ip6addr sn_addr : Ip6Addr)
        (if_id : Z) :
  let sn := ip6_addr_set_solicitednode ip6addr if_id in
  ip6_addr_issolicitednode sn = true
  /\ ip6_addr_has_zone sn = false
  /\ (addr_3 sn_addr = if_id -> ip6_addr_cmp_solicitednode sn sn_addr = true)
  /\ (ip6_addr_cmp_solicitednode ip6addr sn_addr = true ->
      ip6_addr_issolicitednode ip6addr = true
      /\ ip6_addr_cmp_zoneless ip6addr
           (ip6_addr_set_solicitednode ip6addr (addr_3 sn_addr)) = true).
Proof.
  assert (Habs : forall x y, Z.land (Z.lor x y) x = x).
  { intros x y. apply Z.bits_inj'. intros n _.
    rewrite Z.land_spec, Z.lor_spec.
    destruct (Z.testbit x n), (Z.testbit y n); reflexivity. }
  cbv zeta. unfold ip6_addr_set_solicitednode, ip6_addr_clear_zone,
    ip6_addr_issolicitednode, ip6_addr_cmp_solicitednode, ip6_addr_has_zone,
    ip6_addr_cmp_zoneless.
  cbn [addr_0 addr_1 addr_2 addr_3 zone].
  split; [|split; [|split]].
  - rewrite Habs, !Z.eqb_refl. done.
  - done.
  - intros <-. by rewrite !Z.eqb_refl.
  - intros Hcmp. apply andb_true_iff in Hcmp as [Hcmp H3].
    apply andb_true_iff in Hcmp as [Hcmp H2].
    apply andb_true_iff in Hcmp as [H0 H1].
    rewrite H0, H1, H2, H3. apply Z.eqb_eq in H3. rewrite H3, Habs.
    by rewrite !Z.eqb_refl.
Qed.
End Ip6SolicitedNodeAddress.

(** * IGMP: joining and leaving on all interfaces *)

Section IgmpAllInterfaces.
Import Igmp.
Context `{IgmpEnv}.

Lemma all_groups_cons netif l :
  all_groups (netif :: l) = nif_groups netif ++ all_groups l.
Proof. reflexivity. Qed.

Lemma elem_of_all_groups g netif l :
  netif ∈ l -> g ∈ nif_groups netif -> g ∈ all_groups l.
Proof.
  induction l as [|n l IH]; intros Hin Hg; [by apply elem_of_nil in Hin|].
  rewrite all_groups_cons. apply elem_of_app.
  apply elem_of_cons in Hin as [<- | Hin]; [by left|right; by apply IH].
Qed.

(** A lookup reads the groups of the list only. *)
Lemma igmp_lookfor_group_from_ext mem mem' l addr :
  (forall g, g ∈ l -> mem' !! g = mem !! g) ->
  igmp_lookfor_group_from mem' l addr = igmp_lookfor_group_from mem l addr.
Proof.
  induction l as [|group l IH]; intros Hsame; [done|].
  cbn [igmp_lookfor_group_from]. rewrite Hsame by (by left).
  destruct (mem !! group) as [g|]; [|done]. cbn [mbind option_bind].
  destruct (ip4_addr_cmp (group_address g) addr); [done|].
  apply IH. intros g0 Hg0. apply Hsame. by right.
Qed.

(** The interfaces behind the first are well formed in every heap that
    agrees with the given one off the groups of the first. *)
Lemma netifs_ok_tail netif l mem mem' :
  netifs_ok (netif :: l) mem = true ->
  (forall g, g ∉ nif_groups netif -> mem' !! g = mem !! g) ->
  groups_ok (mkIgmpState (nif_groups netif) mem) = true
  /\ netifs_ok l mem' = true
  /\ (forall g, g ∈ all_groups l -> mem' !! g = mem !! g).
Proof.
  intros Hok Hframe. unfold netifs_ok in *.
  pose proof (groups_ok_NoDup _ Hok) as Hnd.
  pose proof (fun g => groups_ok_lookup _ g Hok) as Hall.
  cbn [netif_igmp_data group_mem] in Hnd, Hall.
  rewrite all_groups_cons in Hnd, Hall.
  apply NoDup_app in Hnd as (Hnd1 & Hdisj & Hnd2).
  assert (Hrest : forall g, g ∈ all_groups l -> mem' !! g = mem !! g).
  { intros g Hg. apply Hframe. intros Hg1. by apply (Hdisj g). }
  split; [|split; [|done]].
  - apply groups_ok_intro; [done|]. intros g Hg. apply Hall.
    apply elem_of_app. by left.
  - apply groups_ok_intro; [done|]. intros g Hg.
    cbn [netif_igmp_data group_mem] in *. rewrite Hrest by done.
    apply Hall. apply elem_of_app. by right.
Qed.

(** Leaving a group on one well-formed interface returns, with ERR_OK
    when the interface has a group with the address and with ERR_VAL
    when it has not, and touches groups of this interface only. *)
Lemma igmp_leavegroup_netif_step netif pbuf_alloc_ok groupaddr s :
  groups_ok s = true ->
  exists res s1 evs,
    igmp_leavegroup_netif netif pbuf_alloc_ok groupaddr s
    = Some (res, s1, evs)
    /\ res = match igmp_lookfor_group s groupaddr with
             | Some (Some _) => ERR_OK
             | _ => ERR_VAL
             end
    /\ (forall g, g ∉ netif_igmp_data s ->
          group_mem s1 !! g = group_mem s !! g).
Proof.
  intros Hok. unfold igmp_leavegroup_netif.
  destruct (igmp_lookfor_group_from_spec (group_mem s) (netif_igmp_data s)
              groupaddr) as (r & Hr & Hsome & _).
  { intros g. by apply groups_ok_lookup. }
  unfold igmp_lookfor_group. rewrite Hr. cbn [mbind option_bind].
  destruct r as [group|]; [|by eexists _, _, _].
  destruct (Hsome group eq_refl) as (Hin & g & Hg & _).
  rewrite Hg. cbn [mbind option_bind].
  destruct (use g <=? 1).
  - assert (Hmem : group_mem (igmp_remove_group group s).2 = group_mem s).
    { unfold igmp_remove_group.
      by destruct (igmp_remove_group_from group (netif_igmp_data s)). }
    rewrite Hmem.
    assert (Hsend : exists sent,
               (if negb (last_reporter_flag g =? 0)
                then igmp_send netif pbuf_alloc_ok group IGMP_LEAVE_GROUP
                               (group_mem s)
                else Some (group_mem s, []))
               = Some (group_mem s, sent)).
    { destruct (negb _); [|by eexists].
      unfold igmp_send. destruct pbuf_alloc_ok; [|by eexists].
      change (IGMP_LEAVE_GROUP =? IGMP_V2_MEMB_REPORT) with false.
      change (IGMP_LEAVE_GROUP =? IGMP_LEAVE_GROUP) with true. cbn iota.
      rewrite Hg. by eexists. }
    destruct Hsend as [sent ->]. cbn [mbind option_bind].
    eexists _, _, _. split; [reflexivity|]. split; [done|].
    intros g0 Hg0. cbn [group_mem]. apply lookup_delete_ne. congruence.
  - eexists _, _, _. split; [reflexivity|]. split; [done|].
    intros g0 Hg0. cbn [group_mem]. apply lookup_insert_ne. congruence.
Qed.

(** Whether an interface leaves does not depend on groups of other
    interfaces. *)
Lemma existsb_leaves_ext ifaddr groupaddr mem mem' l :
  (forall g, g ∈ all_groups l -> mem' !! g = mem !! g) ->
  existsb (leaves mem' ifaddr groupaddr) l
  = existsb (leaves mem ifaddr groupaddr) l.
Proof.
  induction l as [|netif l IH]; intros Hsame; [done|].
  cbn [existsb]. rewrite IH; cycle 1.
  { intros g Hg. apply Hsame. rewrite all_groups_cons. apply elem_of_app.
    by right. }
  f_equal. unfold leaves, has_group, igmp_lookfor_group.
  cbn [netif_igmp_data group_mem].
  rewrite (igmp_lookfor_group_from_ext mem mem'); [done|].
  intros g Hg. apply Hsame. rewrite all_groups_cons. apply elem_of_app.
  by left.
Qed.

(** The loop of [igmp_leavegroup]. *)
Lemma igmp_leavegroup_from_spec pbuf_alloc_ok ifaddr groupaddr l :
  forall i err mem,
    netifs_ok l mem = true ->
    exists err' l' mem' evs,
      igmp_leavegroup_from pbuf_alloc_ok ifaddr groupaddr i l err mem
      = Some (err', l', mem', evs)
      /\ err' = (if bool_decide (err = ERR_OK) then ERR_OK
                 else if existsb (leaves mem ifaddr groupaddr) l then ERR_OK
                 else if existsb (netif_selected ifaddr) l then ERR_VAL
                 else err)
      /\ Forall2 (fun n n' =>
                    nif_flag_igmp n' = nif_flag_igmp n
                    /\ nif_ifc n' = nif_ifc n
                    /\ (netif_selected ifaddr n = false -> n' = n)) l l'
      /\ (forall g,
            (forall n, n ∈ l -> netif_selected ifaddr n = true ->
                       g ∉ nif_groups n) ->
            mem' !! g = mem !! g).
Proof.
  induction l as [|netif l IH]; intros i err mem Hok.
  - eexists _, _, _, _. split; [reflexivity|].
    split; [by destruct (bool_decide_reflect (err = ERR_OK))|].
    split; [constructor|done].
  - cbn [igmp_leavegroup_from existsb].
    destruct (netif_selected ifaddr netif) eqn:Hsel.
    + destruct (netifs_ok_tail netif l mem mem Hok ltac:(done))
        as (Hok1 & _ & _).
      destruct (igmp_leavegroup_netif_step (nif_ifc netif) (pbuf_alloc_ok i)
                  groupaddr _ Hok1) as (res & s1 & evs1 & Hrun & Hres & Hfr).
      rewrite Hrun. cbn [mbind option_bind].
      cbn [netif_igmp_data group_mem] in Hfr.
      destruct (netifs_ok_tail netif l mem (group_mem s1) Hok Hfr)
        as (_ & Hok2 & Hsame).
      destruct (IH (S i) (if bool_decide (err <> ERR_OK) then res else err)
                  (group_mem s1) Hok2) as (err' & l' & mem' & evs & Hrest
                                           & Herr & Hl & Hframe).
      rewrite Hrest. cbn [mbind option_bind].
      eexists _, _, _, _. split; [reflexivity|]. split; [|split].
      * rewrite Herr, (existsb_leaves_ext _ _ mem) by done.
        unfold leaves at 2. rewrite Hsel. cbn [andb orb].
        unfold has_group. rewrite Hres.
        destruct (decide (err = ERR_OK)) as [->|Hne].
        -- rewrite (bool_decide_eq_false_2 (ERR_OK <> ERR_OK))
             by (intros Hn; by apply Hn).
           by rewrite !bool_decide_eq_true_2 by done.
        -- rewrite (bool_decide_eq_true_2 (err <> ERR_OK)) by done.
           rewrite (bool_decide_eq_false_2 (err = ERR_OK)) by done.
           destruct (igmp_lookfor_group _ groupaddr) as [[group|]|];
             cbn [orb]; [done| |].
           ++ rewrite bool_decide_eq_false_2 by done.
              by destruct (existsb (leaves mem ifaddr groupaddr) l),
                   (existsb (netif_selected ifaddr) l).
           ++ rewrite bool_decide_eq_false_2 by done.
              by destruct (existsb (leaves mem ifaddr groupaddr) l),
                   (existsb (netif_selected ifaddr) l).
      * constructor; [|done]. split; [done|]. split; [done|]. congruence.
      * intros g Hg. rewrite Hframe; cycle 1.
        { intros n Hn. apply Hg. by right. }
        apply Hfr. apply Hg; [by left|done].
    + destruct (netifs_ok_tail netif l mem mem Hok ltac:(done))
        as (_ & Hok2 & _).
      destruct (IH (S i) err mem Hok2) as (err' & l' & mem' & evs & Hrest
                                           & Herr & Hl & Hframe).
      rewrite Hrest. cbn [mbind option_bind].
      eexists _, _, _, _. split; [reflexivity|]. split; [|split].
      * rewrite Herr. unfold leaves at 2. rewrite Hsel. done.
      * constructor; [|done]. done.
      * intros g Hg. apply Hframe. intros n Hn. apply Hg. by right.
Qed.
End IgmpAllInterfaces.

Section IgmpLeaveAll.
Import Igmp.
Context `{IgmpEnv}.

(** The scan of [igmp_remove_group] unlinks a listed group that is not
    the first of the list. *)
Lemma igmp_remove_group_unlinks group l mem :
  NoDup l -> group ∈ l -> head l <> Some group ->
  group ∉ netif_igmp_data (igmp_remove_group group (mkIgmpState l mem)).2.
Proof.
  intros Hnd Hin Hhead. unfold igmp_remove_group. cbn [netif_igmp_data].
  pose proof (igmp_remove_group_from_spec group l) as Hspec.
  destruct (igmp_remove_group_from group l) as [l'|].
  - destruct Hspec as (tmp & l1 & l2 & -> & Hl1 & ->). cbn [snd netif_igmp_data].
    cbn [head] in Hhead.
    apply NoDup_cons in Hnd as [_ Hnd]. apply NoDup_app in Hnd as (_ & _ & Hnd).
    apply NoDup_cons in Hnd as [Hl2 _].
    rewrite not_elem_of_cons, not_elem_of_app. split; [congruence|done].
  - destruct l as [|tmp rest]; [by apply elem_of_nil in Hin|].
    specialize (Hspec tmp rest eq_refl). cbn [head] in Hhead.
    apply elem_of_cons in Hin as [-> | Hin]; done.
Qed.

(** One leave on a well-formed interface, as [leaves_group] puts it. *)
Lemma igmp_leavegroup_netif_effect pbuf_alloc_ok groupaddr n mem :
  groups_ok (mkIgmpState (nif_groups n) mem) = true ->
  exists res s1 evs,
    igmp_leavegroup_netif (nif_ifc n) pbuf_alloc_ok groupaddr
                          (mkIgmpState (nif_groups n) mem)
    = Some (res, s1, evs)
    /\ (forall g, g ∉ nif_groups n -> group_mem s1 !! g = mem !! g)
    /\ leaves_group groupaddr pbuf_alloc_ok mem (group_mem s1) n
                    (with_groups n (netif_igmp_data s1)) evs.
Proof.
  intros Hok. unfold leaves_group, igmp_leavegroup_netif.
  destruct (igmp_lookfor_group_from_spec mem (nif_groups n) groupaddr)
    as (r & Hr & Hsome & _).
  { intros g. by apply (groups_ok_lookup _ g Hok). }
  unfold igmp_lookfor_group. cbn [netif_igmp_data group_mem].
  rewrite Hr. cbn [mbind option_bind].
  destruct r as [group|]; cycle 1.
  { eexists _, _, _. split; [reflexivity|]. split; [done|].
    cbn [netif_igmp_data]. by destruct n. }
  destruct (Hsome group eq_refl) as (Hin & g & Hg & _).
  rewrite Hg. cbn [mbind option_bind].
  destruct (use g <=? 1) eqn:Huse.
  - assert (Hmem : group_mem (igmp_remove_group group
                                (mkIgmpState (nif_groups n) mem)).2 = mem).
    { unfold igmp_remove_group. cbn [netif_igmp_data].
      by destruct (igmp_remove_group_from group (nif_groups n)). }
    rewrite Hmem.
    assert (Hsend :
      (if negb (last_reporter_flag g =? 0)
       then igmp_send (nif_ifc n) pbuf_alloc_ok group IGMP_LEAVE_GROUP mem
       else Some (mem, []))
      = Some (mem,
              if negb (last_reporter_flag g =? 0) && pbuf_alloc_ok
              then [IpOutput (get_net_ifc_ip4_addr (nif_ifc n)) allrouters
                             (leave_for (group_address g));
                    PbufFree buf_out]
              else [])).
    { destruct (negb _); [|done]. cbn [andb].
      unfold igmp_send, leave_for. destruct pbuf_alloc_ok; [|done].
      change (IGMP_LEAVE_GROUP =? IGMP_V2_MEMB_REPORT) with false.
      change (IGMP_LEAVE_GROUP =? IGMP_LEAVE_GROUP) with true. cbn iota.
      by rewrite Hg. }
    rewrite Hsend. cbn [mbind option_bind].
    eexists _, _, _. split; [reflexivity|]. cbn [group_mem netif_igmp_data].
    split.
    { intros g0 Hg0. apply lookup_delete_ne. congruence. }
    exists g. split; [done|]. split; [done|]. split; [done|]. split.
    { intros g' _ Hne. by apply lookup_delete_ne. }
    rewrite Huse. split; [apply lookup_delete_eq|]. split; [done|]. split; [|done].
    intros Hhead. cbn [with_groups nif_groups].
    apply igmp_remove_group_unlinks; [|done|done].
    by apply (groups_ok_NoDup _ Hok).
  - eexists _, _, _. split; [reflexivity|]. cbn [group_mem netif_igmp_data].
    split.
    { intros g0 Hg0. apply lookup_insert_ne. congruence. }
    exists g. split; [done|]. split; [done|]. split; [done|]. split.
    { intros g' _ Hne. by apply lookup_insert_ne. }
    rewrite Huse. split; [apply lookup_insert_eq|]. split; [by destruct n|done].
Qed.

(** [leaves_group] reads and constrains the groups of the interface
    only. *)
Lemma leaves_group_ext groupaddr alloc_ok mem0 mem mem1 mem' n n' evs :
  groups_ok (mkIgmpState (nif_groups n) mem0) = true ->
  (forall g, g ∈ nif_groups n -> mem !! g = mem0 !! g) ->
  (forall g, g ∈ nif_groups n -> mem' !! g = mem1 !! g) ->
  leaves_group groupaddr alloc_ok mem mem1 n n' evs ->
  leaves_group groupaddr alloc_ok mem0 mem' n n' evs.
Proof.
  intros Hok Hsame Hsame'. unfold leaves_group, igmp_lookfor_group.
  cbn [netif_igmp_data group_mem].
  rewrite (igmp_lookfor_group_from_ext mem0 mem) by done.
  destruct (igmp_lookfor_group_from_spec mem0 (nif_groups n) groupaddr)
    as (r & Hr & Hsome & _).
  { intros g. by apply (groups_ok_lookup _ g Hok). }
  rewrite Hr. destruct r as [group|]; [|done].
  destruct (Hsome group eq_refl) as (Hin & _).
  intros (g & Hg & Hflag & Hifc & Hframe & Hcase).
  exists g. rewrite <- Hsame by done. split; [done|]. split; [done|].
  split; [done|]. split.
  { intros g' Hg' Hne. rewrite Hsame' by done.
    rewrite <- (Hsame g') by done. by apply Hframe. }
  rewrite Hsame' by done.
  destruct (use g <=? 1); [|done].
  destruct Hcase as (? & Hl & ? & ?). split; [done|]. split; [|done].
  rewrite Hl. unfold igmp_remove_group. cbn [netif_igmp_data].
  by destruct (igmp_remove_group_from group (nif_groups n)).
Qed.

(** The loop of [igmp_leavegroup], interface by interface. *)
Lemma igmp_leavegroup_from_effect pbuf_alloc_ok ifaddr groupaddr l :
  forall i err mem,
    netifs_ok l mem = true ->
    exists err' l' mem' evs,
      igmp_leavegroup_from pbuf_alloc_ok ifaddr groupaddr i l err mem
      = Some (err', l', mem', evs)
      /\ (forall g,
            (forall n, n ∈ l -> netif_selected ifaddr n = true ->
                       g ∉ nif_groups n) ->
            mem' !! g = mem !! g)
      /\ (forall j n,
            l !! j = Some n -> netif_selected ifaddr n = true ->
            exists n' evs1,
              l' !! j = Some n'
              /\ leaves_group groupaddr (pbuf_alloc_ok (i + j)%nat) mem mem'
                              n n' evs1
              /\ (forall e, e ∈ evs1 -> ((i + j)%nat, e) ∈ evs)).
Proof.
  induction l as [|netif l IH]; intros i err mem Hok.
  - eexists _, _, _, _. split; [reflexivity|]. split; [done|].
    intros j n Hj. by rewrite lookup_nil in Hj.
  - cbn [igmp_leavegroup_from].
    assert (Hdisj : forall g, g ∈ nif_groups netif -> g ∉ all_groups l).
    { intros g Hg Hgl. unfold netifs_ok in Hok.
      pose proof (groups_ok_NoDup _ Hok) as Hnd.
      cbn [netif_igmp_data] in Hnd. rewrite all_groups_cons in Hnd.
      apply NoDup_app in Hnd as (_ & Hd & _). by apply (Hd g). }
    assert (Hoff : forall g, g ∈ nif_groups netif ->
              forall n, n ∈ l -> netif_selected ifaddr n = true ->
                        g ∉ nif_groups n).
    { intros g Hg n Hn _ Hgn. apply (Hdisj g Hg).
      by apply (elem_of_all_groups g n). }
    destruct (netif_selected ifaddr netif) eqn:Hsel.
    + destruct (netifs_ok_tail netif l mem mem Hok ltac:(done))
        as (Hok1 & _ & _).
      destruct (igmp_leavegroup_netif_effect (pbuf_alloc_ok i) groupaddr
                  netif mem Hok1) as (res & s1 & evs1 & Hrun & Hfr & Hleft).
      rewrite Hrun. cbn [mbind option_bind].
      destruct (netifs_ok_tail netif l mem (group_mem s1) Hok Hfr)
        as (_ & Hok2 & Hsame).
      destruct (IH (S i) (if bool_decide (err <> ERR_OK) then res else err)
                  (group_mem s1) Hok2)
        as (err' & l' & mem' & evs & Hrest & Hframe & Heach).
      rewrite Hrest. cbn [mbind option_bind].
      eexists _, _, _, _. split; [reflexivity|]. split.
      * intros g Hg. rewrite Hframe; cycle 1.
        { intros n Hn. apply Hg. by right. }
        apply Hfr. apply Hg; [by left|done].
      * intros j n Hj Hseln. destruct j as [|j].
        -- injection Hj as <-. eexists _, evs1. split; [reflexivity|].
           split.
           ++ rewrite Nat.add_0_r.
              apply (leaves_group_ext _ _ mem mem (group_mem s1));
                [done|done| |done].
              intros g Hg. apply Hframe. by apply Hoff.
           ++ intros e He. rewrite Nat.add_0_r. apply elem_of_app. left.
              unfold on_netif. apply list_elem_of_fmap. by exists e.
        -- cbn [lookup list_lookup] in Hj.
           destruct (Heach j n Hj Hseln) as (n' & evs2 & Hj' & Hleft' & Hsub).
           exists n', evs2. split; [exact Hj'|].
           assert (Hn : n ∈ l) by (by apply list_elem_of_lookup_2 in Hj).
           replace (i + S j)%nat with (S i + j)%nat by lia. split.
           ++ apply (leaves_group_ext _ _ mem (group_mem s1) mem');
                [| |done|done].
              ** apply groups_ok_intro; cbn [netif_igmp_data group_mem].
                 { unfold netifs_ok in Hok2.
                   pose proof (groups_ok_NoDup _ Hok2) as Hnd.
                   cbn [netif_igmp_data] in Hnd. clear -Hnd Hn.
                   induction l as [|m l IHl]; [by apply elem_of_nil in Hn|].
                   rewrite all_groups_cons in Hnd.
                   apply NoDup_app in Hnd as (Hnd1 & _ & Hnd2).
                   apply elem_of_cons in Hn as [-> | Hn]; [done|].
                   by apply IHl. }
                 intros g Hg. rewrite <- Hsame
                   by (by apply (elem_of_all_groups g n)).
                 apply (groups_ok_lookup _ g Hok2).
                 by apply (elem_of_all_groups g n).
              ** intros g Hg. apply Hsame. by apply (elem_of_all_groups g n).
           ++ intros e He. apply elem_of_app. right. by apply Hsub.
    + destruct (netifs_ok_tail netif l mem mem Hok ltac:(done))
        as (_ & Hok2 & _).
      destruct (IH (S i) err mem Hok2)
        as (err' & l' & mem' & evs & Hrest & Hframe & Heach).
      rewrite Hrest. cbn [mbind option_bind].
      eexists _, _, _, _. split; [reflexivity|]. split.
      * intros g Hg. apply Hframe. intros n Hn. apply Hg. by right.
      * intros j n Hj Hseln. destruct j as [|j].
        -- injection Hj as <-. congruence.
        -- cbn [lookup list_lookup] in Hj.
           destruct (Heach j n Hj Hseln) as (n' & evs2 & Hj' & Hleft' & Hsub).
           exists n', evs2. split; [exact Hj'|].
           replace (i + S j)%nat with (S i + j)%nat by lia. done.
Qed.
End IgmpLeaveAll.

Section IgmpLeaveAllResult.
Import Igmp.
Context `{IgmpEnv}.

(** [igmp_leavegroup] on well-formed interfaces leaves the group on every
    interface that has the IGMP flag and is selected by [ifaddr] (any
    address selects all of them), without stopping at one that is not a
    member: each of them is left as [leaves_group] says, which is what
    [igmp_leavegroup_netif] does to it alone, and the calls made for it are
    among the calls made.  The result is ERR_OK exactly when at least one
    of these interfaces had a group with the address, and ERR_VAL
    otherwise, also when no interface is selected.  An interface that is
    not selected is left as it is, and so is every group that is not
    linked on a selected interface. *)
Theorem igmp_leavegroup_result (pbuf_alloc_ok : nat -> bool)
        (ifaddr groupaddr : Ip4Addr) (netif_list : list IgmpNetif)
        (mem : gmap group_ptr IgmpGroup) :
  netifs_ok netif_list mem = true ->
  exists err l' mem' evs,
    igmp_leavegroup pbuf_alloc_ok ifaddr groupaddr netif_list mem
    = Some (err, l', mem', evs)
    /\ (err = ERR_OK
        <-> exists netif,
              netif ∈ netif_list /\ netif_selected ifaddr netif = true
              /\ has_group mem groupaddr netif = true)
    /\ (err <> ERR_OK -> err = ERR_VAL)
    /\ (forall j n,
          netif_list !! j = Some n -> netif_selected ifaddr n = true ->
          exists n' evs1,
            l' !! j = Some n'
            /\ leaves_group groupaddr (pbuf_alloc_ok j) mem mem' n n' evs1
            /\ (forall e, e ∈ evs1 -> (j, e) ∈ evs))
    /\ Forall2 (fun n n' =>
                  nif_flag_igmp n' = nif_flag_igmp n
                  /\ nif_ifc n' = nif_ifc n
                  /\ (netif_selected ifaddr n = false -> n' = n))
               netif_list l'
    /\ (forall g,
          (forall n, n ∈ netif_list -> netif_selected ifaddr n = true ->
                     g ∉ nif_groups n) ->
          mem' !! g = mem !! g).
Proof.
  intros Hok.
  destruct (igmp_leavegroup_from_spec pbuf_alloc_ok ifaddr groupaddr
              netif_list 0%nat ERR_VAL mem Hok)
    as (err & l' & mem' & evs & Hrun & Herr & Hl & Hframe).
  destruct (igmp_leavegroup_from_effect pbuf_alloc_ok ifaddr groupaddr
              netif_list 0%nat ERR_VAL mem Hok)
    as (err2 & l2 & mem2 & evs2 & Hrun2 & _ & Heach).
  rewrite Hrun in Hrun2. injection Hrun2 as <- <- <- <-.
  exists err, l', mem', evs. split; [exact Hrun|].
  rewrite bool_decide_eq_false_2 in Herr by done.
  split; [|split; [|split; [exact Heach|done]]].
  - destruct (existsb (leaves mem ifaddr groupaddr) netif_list) eqn:Hex.
    + split; [|done]. intros _.
      apply existsb_exists in Hex as (netif & Hin & Hleaves).
      apply andb_true_iff in Hleaves as [? ?].
      exists netif. by rewrite list_elem_of_In.
    + split.
      * intros ->. by destruct (existsb (netif_selected ifaddr) netif_list).
      * intros (netif & Hin & Hsel & Hhas).
        assert (existsb (leaves mem ifaddr groupaddr) netif_list = true);
          [|congruence].
        apply existsb_exists. exists netif. rewrite <- list_elem_of_In.
        split; [done|]. unfold leaves. by rewrite Hsel, Hhas.
  - intros Hne.
    destruct (existsb (leaves mem ifaddr groupaddr) netif_list);
      [congruence|].
    rewrite Herr.
    by destruct (existsb (netif_selected ifaddr) netif_list).
Qed.
End IgmpLeaveAllResult.

Section IgmpJoinAll.
Import Igmp.
Context `{IgmpEnv}.

(** A lookup is not affected by a change of a group that keeps its
    address. *)
Lemma igmp_lookfor_group_from_insert mem l addr group g g' :
  mem !! group = Some g -> group_address g' = group_address g ->
  igmp_lookfor_group_from (<[group := g']> mem) l addr
  = igmp_lookfor_group_from mem l addr.
Proof.
  intros Hg Haddr. induction l as [|group0 l IH]; [done|].
  cbn [igmp_lookfor_group_from].
  destruct (decide (group0 = group)) as [->|Hne].
  - rewrite lookup_insert_eq, Hg. cbn [mbind option_bind]. rewrite Haddr.
    by destruct (ip4_addr_cmp (group_address g) addr).
  - rewrite lookup_insert_ne by congruence.
    destruct (mem !! group0) as [g0|]; [|done]. cbn [mbind option_bind].
    by destruct (ip4_addr_cmp (group_address g0) addr).
Qed.

(** A join of a group that the interface has changes this group only,
    and not its address. *)
Lemma igmp_joingroup_netif_member_run lwip_rand netif new_group pbuf_alloc_ok
      groupaddr s group g :
  igmp_lookfor_group s groupaddr = Some (Some group) ->
  group_mem s !! group = Some g ->
  exists g' evs,
    igmp_joingroup_netif lwip_rand netif new_group pbuf_alloc_ok groupaddr s
    = Some (ERR_OK,
            mkIgmpState (netif_igmp_data s) (<[group := g']> (group_mem s)),
            evs)
    /\ group_address g' = group_address g.
Proof.
  intros Hfound Hg. unfold igmp_joingroup_netif, igmp_lookup_group.
  rewrite Hfound. cbn [mbind option_bind]. rewrite Hg.
  cbn [mbind option_bind].
  destruct (bool_decide (group_state g = IGMP_GROUP_NON_MEMBER));
    cbn [negb].
  - unfold igmp_send. destruct pbuf_alloc_ok.
    + change (IGMP_V2_MEMB_REPORT =? IGMP_V2_MEMB_REPORT) with true.
      cbn iota. rewrite Hg. cbn [mbind option_bind].
      rewrite lookup_insert_eq. cbn [mbind option_bind].
      rewrite lookup_insert_eq. cbn [mbind option_bind].
      rewrite !insert_insert_eq. eexists _, _. split; [reflexivity|done].
    + cbn [mbind option_bind]. rewrite Hg. cbn [mbind option_bind].
      rewrite lookup_insert_eq. cbn [mbind option_bind].
      rewrite !insert_insert_eq. eexists _, _. split; [reflexivity|done].
  - cbn [mbind option_bind]. rewrite Hg. cbn [mbind option_bind].
    eexists _, _. split; [reflexivity|done].
Qed.

(** One join on a well-formed interface, the structure the allocator
    hands out being a fresh one. *)
Lemma igmp_joingroup_netif_step lwip_rand netif new_group pbuf_alloc_ok
      groupaddr s :
  groups_ok s = true ->
  (forall group, new_group = Some group -> group_mem s !! group = None) ->
  exists err s1 evs,
    igmp_joingroup_netif lwip_rand netif new_group pbuf_alloc_ok groupaddr s
    = Some (err, s1, evs)
    /\ err = match igmp_lookfor_group s groupaddr, new_group with
             | Some None, None => ERR_MEM
             | _, _ => ERR_OK
             end
    /\ (err <> ERR_OK -> s1 = s)
    /\ (err = ERR_OK ->
        exists group, igmp_lookfor_group s1 groupaddr = Some (Some group))
    /\ groups_ok s1 = true
    /\ (forall g, g ∉ netif_igmp_data s -> new_group <> Some g ->
          group_mem s1 !! g = group_mem s !! g)
    /\ (forall g, g ∈ netif_igmp_data s1 ->
          g ∈ netif_igmp_data s \/ new_group = Some g).
Proof.
  intros Hok Hfresh.
  destruct (igmp_lookfor_group_from_spec (group_mem s) (netif_igmp_data s)
              groupaddr) as (r & Hr & Hsome & _).
  { intros g. by apply groups_ok_lookup. }
  fold (igmp_lookfor_group s groupaddr) in Hr. rewrite Hr.
  destruct r as [group|].
  - destruct (Hsome group eq_refl) as (Hin & g & Hg & _).
    destruct (igmp_joingroup_netif_member_run lwip_rand netif new_group
                pbuf_alloc_ok groupaddr s group g Hr Hg)
      as (g' & evs & Hrun & Haddr).
    eexists _, _, _. split; [exact Hrun|]. split; [done|].
    split; [done|]. split; [|split; [|split]].
    + intros _. exists group. unfold igmp_lookfor_group in *.
      cbn [netif_igmp_data group_mem].
      by rewrite (igmp_lookfor_group_from_insert _ _ _ _ g).
    + apply groups_ok_intro; cbn [netif_igmp_data group_mem].
      * by apply groups_ok_NoDup.
      * intros g0 Hg0. destruct (decide (g0 = group)) as [->|Hne].
        -- rewrite lookup_insert_eq. eauto.
        -- rewrite lookup_insert_ne by congruence.
           by apply groups_ok_lookup.
    + intros g0 Hg0 _. cbn [group_mem]. apply lookup_insert_ne. congruence.
    + intros g0 Hg0. by left.
  - destruct new_group as [group|].
    + specialize (Hfresh group eq_refl).
      eexists _, _, _.
      split; [by apply igmp_joingroup_netif_new_run|]. split; [done|].
      split; [done|]. split; [|split; [|split]].
      * intros _. exists group. by apply igmp_lookfor_group_linked.
      * by apply groups_ok_linked.
      * intros g0 Hg0 Hne. cbn [group_mem]. apply lookup_insert_ne.
        congruence.
      * intros g0 Hg0. cbn [netif_igmp_data] in Hg0.
        destruct (netif_igmp_data s) as [|list_head rest];
          cbn [linked_behind_head] in Hg0.
        -- apply list_elem_of_singleton in Hg0 as ->. by right.
        -- apply elem_of_cons in Hg0 as [-> | Hg0]; [left; by left|].
           apply elem_of_cons in Hg0 as [-> | Hg0]; [by right|].
           left. by right.
    + exists ERR_MEM, s, []. split.
      { unfold igmp_joingroup_netif, igmp_lookup_group. by rewrite Hr. }
      split; [done|]. split; [done|]. split; [done|]. split; [done|].
      split; [done|]. intros g0 Hg0. by left.
Qed.
End IgmpJoinAll.

Section IgmpJoinAllLoop.
Import Igmp.
Context `{IgmpEnv}.

Lemma all_groups_app la lb :
  all_groups (la ++ lb) = all_groups la ++ all_groups lb.
Proof.
  induction la as [|n la IH]; [done|].
  cbn [app]. rewrite !all_groups_cons, IH. by rewrite (assoc_L (++)).
Qed.

Lemma netifs_ok_agree l mem mem' :
  netifs_ok l mem = true ->
  (forall g, g ∈ all_groups l -> mem' !! g = mem !! g) ->
  netifs_ok l mem' = true.
Proof.
  intros Hok Hsame. unfold netifs_ok in *.
  apply groups_ok_intro; cbn [netif_igmp_data group_mem].
  - by apply (groups_ok_NoDup _ Hok).
  - intros g Hg. rewrite Hsame by done.
    by apply (groups_ok_lookup _ g Hok).
Qed.

Lemma has_group_ext mem mem' groupaddr netif :
  (forall g, g ∈ nif_groups netif -> mem' !! g = mem !! g) ->
  has_group mem' groupaddr netif = has_group mem groupaddr netif.
Proof.
  intros Hsame. unfold has_group, igmp_lookfor_group.
  cbn [netif_igmp_data group_mem].
  by rewrite (igmp_lookfor_group_from_ext mem mem').
Qed.

(** The loop of [igmp_joingroup]: [la] are the interfaces it got through,
    [lb] those from the first that could not join on. *)
Lemma igmp_joingroup_from_spec lwip_rand new_group pbuf_alloc_ok ifaddr
      groupaddr l :
  forall i err mem,
    netifs_ok l mem = true ->
    (forall j g, (i <= j)%nat -> new_group j = Some g -> mem !! g = None) ->
    (forall j k g, (i <= j)%nat -> (i <= k)%nat ->
                   new_group j = Some g -> new_group k = Some g -> j = k) ->
    exists err' l' mem' evs la la' lb,
      igmp_joingroup_from lwip_rand new_group pbuf_alloc_ok ifaddr groupaddr
                          i l err mem
      = Some (err', l', mem', evs)
      /\ l = la ++ lb /\ l' = la' ++ lb
      /\ Forall2 (fun n n' =>
                    nif_flag_igmp n' = nif_flag_igmp n
                    /\ nif_ifc n' = nif_ifc n
                    /\ (netif_selected ifaddr n = false -> n' = n)
                    /\ (netif_selected ifaddr n = true ->
                        has_group mem' groupaddr n' = true)) la la'
      /\ match lb with
         | [] => err' = (if existsb (netif_selected ifaddr) l
                         then ERR_OK else err)
         | netif :: _ =>
             err' = ERR_MEM
             /\ netif_selected ifaddr netif = true
             /\ has_group mem groupaddr netif = false
             /\ new_group (i + List.length la)%nat = None
         end
      /\ (forall g, g ∈ all_groups lb -> mem' !! g = mem !! g)
      /\ (forall g, g ∉ all_groups l ->
            (forall j, (i <= j)%nat -> new_group j <> Some g) ->
            mem' !! g = mem !! g).
Proof.
  induction l as [|netif l IH]; intros i err mem Hok Hfresh Hinj.
  - exists err, [], mem, [], [], [], [].
    split; [done|]. split; [done|]. split; [done|].
    split; [constructor|]. done.
  - cbn [igmp_joingroup_from existsb].
    destruct (netifs_ok_tail netif l mem mem Hok ltac:(done))
      as (Hok1 & Hokl & _).
    assert (Hdisj : forall g, g ∈ all_groups l ->
              (g ∉ nif_groups netif) /\ is_Some (mem !! g)).
    { intros g Hg. unfold netifs_ok in Hok.
      pose proof (groups_ok_NoDup _ Hok) as Hnd.
      cbn [netif_igmp_data] in Hnd. rewrite all_groups_cons in Hnd.
      apply NoDup_app in Hnd as (_ & Hd & _). split.
      - intros Hg1. by apply (Hd g).
      - by apply (groups_ok_lookup _ g Hokl). }
    destruct (netif_selected ifaddr netif) eqn:Hsel.
    + destruct (igmp_joingroup_netif_step lwip_rand (nif_ifc netif)
                  (new_group i) (pbuf_alloc_ok i) groupaddr _ Hok1)
        as (err1 & s1 & evs1 & Hrun & Herr1 & Hfail & Hjoined & Hok_s1
            & Hfr & Hsub).
      { intros group Hgroup. cbn [group_mem]. by apply (Hfresh i). }
      rewrite Hrun. cbn [mbind option_bind].
      cbn [netif_igmp_data group_mem] in Hfr, Herr1, Hsub.
      destruct (decide (err1 = ERR_OK)) as [Hok_err|Hne].
      * rewrite bool_decide_eq_false_2 by (intros Hn; by apply Hn).
        assert (Hsame : forall g, g ∈ all_groups l ->
                  group_mem s1 !! g = mem !! g).
        { intros g Hg. destruct (Hdisj g Hg) as [Hg1 [x Hx]].
          apply Hfr; [done|]. intros Hnew.
          rewrite (Hfresh i g) in Hx by done. done. }
        destruct (IH (S i) err1 (group_mem s1))
          as (err' & l2 & mem' & evs2 & la & la' & lb & Hrest & Hl & Hl2
              & Hall & Hlb & Hback & Hframe).
        { by apply (netifs_ok_agree l mem). }
        { intros j g Hj Hnew.
          assert (Hnone : mem !! g = None) by (apply (Hfresh j); [lia|done]).
          rewrite Hfr; [done| |].
          - intros Hg1. destruct (groups_ok_lookup _ g Hok1 Hg1) as [x Hx].
            cbn [group_mem] in Hx. congruence.
          - intros Hi. assert (i = j) by (apply (Hinj i j g); [lia..|done|done]).
            lia. }
        { intros j k g Hj Hk. apply Hinj; lia. }
        rewrite Hrest. cbn [mbind option_bind].
        eexists _, _, _, _, (netif :: la), (_ :: la'), lb.
        split; [reflexivity|]. split; [by rewrite Hl|].
        split; [by rewrite Hl2|]. split; [|split; [|split]].
        -- constructor; [|done]. split; [done|]. split; [done|].
           split; [congruence|]. intros _.
           destruct (Hjoined Hok_err) as [group Hgroup].
           rewrite (has_group_ext (group_mem s1)).
           { unfold has_group. cbn [with_groups nif_groups].
             destruct s1 as [l1 mem1]. cbn [netif_igmp_data group_mem] in *.
             by rewrite Hgroup. }
           cbn [with_groups nif_groups]. intros g Hg. apply Hframe.
           ++ intros Hgl. destruct (Hdisj g Hgl) as [Hg1 [x Hx]].
              destruct (Hsub g Hg) as [?|Hnew]; [done|].
              rewrite (Hfresh i g) in Hx by done. done.
           ++ intros j Hj Hnew. destruct (Hsub g Hg) as [Hg1|Hnew'].
              ** destruct (groups_ok_lookup _ g Hok1 Hg1) as [x Hx].
                 cbn [group_mem] in Hx.
                 rewrite (Hfresh j g) in Hx by (lia || done). done.
              ** assert (i = j)
                   by (apply (Hinj i j g); [lia..|done|done]). lia.
        -- destruct lb as [|n lb].
           ++ rewrite Hlb. cbn [orb].
              by destruct (existsb (netif_selected ifaddr) l).
           ++ destruct Hlb as (-> & Hseln & Hhas & Hnew).
              split; [done|]. split; [done|]. split.
              ** rewrite <- Hhas. symmetry. apply has_group_ext.
                 intros g Hg. apply Hsame. rewrite Hl, all_groups_app.
                 apply elem_of_app. right. rewrite all_groups_cons.
                 apply elem_of_app. by left.
              ** cbn [List.length]. by rewrite Nat.add_succ_r.
        -- intros g Hg. rewrite Hback by done. apply Hsame.
           rewrite Hl, all_groups_app. apply elem_of_app. by right.
        -- intros g Hg Hnew. rewrite all_groups_cons in Hg.
           apply not_elem_of_app in Hg as [Hg1 Hg2].
           rewrite Hframe; [|done|intros j Hj; apply Hnew; lia].
           apply Hfr; [done|]. apply Hnew. lia.
      * rewrite bool_decide_eq_true_2 by done.
        rewrite (Hfail Hne). cbn [netif_igmp_data group_mem].
        exists err1, (netif :: l), mem, (on_netif i evs1), [], [],
          (netif :: l).
        split; [by destruct netif|]. split; [done|]. split; [done|].
        split; [constructor|]. split; [|done].
        unfold has_group.
        destruct (igmp_lookfor_group _ groupaddr) as [[group|]|];
          [done| |done].
        destruct (new_group i) eqn:Hnew; [done|].
        rewrite Nat.add_0_r. done.
    + destruct (IH (S i) err mem Hokl)
        as (err' & l2 & mem' & evs2 & la & la' & lb & Hrest & Hl & Hl2
            & Hall & Hlb & Hback & Hframe).
      { intros j g Hj. apply Hfresh. lia. }
      { intros j k g Hj Hk. apply Hinj; lia. }
      rewrite Hrest. cbn [mbind option_bind].
      exists err', (netif :: l2), mem', evs2, (netif :: la), (netif :: la'),
        lb.
      split; [done|]. split; [by rewrite Hl|]. split; [by rewrite Hl2|].
      split; [|split; [|split]].
      * constructor; [|done]. split; [done|]. split; [done|].
        split; [done|]. congruence.
      * destruct lb as [|n lb]; [done|].
        destruct Hlb as (-> & Hseln & Hhas & Hnew).
        split; [done|]. split; [done|]. split; [done|].
        cbn [List.length]. by rewrite Nat.add_succ_r.
      * done.
      * intros g Hg Hnew. rewrite all_groups_cons in Hg.
        apply not_elem_of_app in Hg as [Hg1 Hg2].
        apply Hframe; [done|]. intros j Hj. apply Hnew. lia.
Qed.

(** [igmp_joingroup] on well-formed interfaces, the allocator handing
    out fresh group structures, joins the group on the interfaces that
    have the IGMP flag and are selected by [ifaddr], in list order, and
    returns at the first of them that is not a member yet and for which
    no group can be allocated.  Then the result is ERR_MEM, the
    interfaces in front of that one stay joined (nothing is undone) and
    the interfaces from that one on are untouched.  Otherwise every
    selected interface has the group afterwards and the result is ERR_OK,
    or ERR_VAL when no interface is selected.  An interface that is not
    selected is left as it is. *)
Theorem igmp_joingroup_result (lwip_rand : RandSource)
        (new_group : nat -> option group_ptr) (pbuf_alloc_ok : nat -> bool)
        (ifaddr groupaddr : Ip4Addr) (netif_list : list IgmpNetif)
        (mem : gmap group_ptr IgmpGroup) :
  netifs_ok netif_list mem = true ->
  (forall j g, new_group j = Some g -> mem !! g = None) ->
  (forall j k g, new_group j = Some g -> new_group k = Some g -> j = k) ->
  exists err l' mem' evs la la' lb,
    igmp_joingroup lwip_rand new_group pbuf_alloc_ok ifaddr groupaddr
                   netif_list mem
    = Some (err, l', mem', evs)
    /\ netif_list = la ++ lb /\ l' = la' ++ lb
    /\ Forall2 (fun n n' =>
                  nif_flag_igmp n' = nif_flag_igmp n
                  /\ nif_ifc n' = nif_ifc n
                  /\ (netif_selected ifaddr n = false -> n' = n)
                  /\ (netif_selected ifaddr n = true ->
                      has_group mem' groupaddr n' = true)) la la'
    /\ match lb with
       | [] => err = (if existsb (netif_selected ifaddr) netif_list
                      then ERR_OK else ERR_VAL)
       | netif :: _ =>
           err = ERR_MEM
           /\ netif_selected ifaddr netif = true
           /\ has_group mem groupaddr netif = false
           /\ new_group (List.length la) = None
       end
    /\ (forall g, g ∈ all_groups lb -> mem' !! g = mem !! g).
Proof.
  intros Hok Hfresh Hinj.
  destruct (igmp_joingroup_from_spec lwip_rand new_group pbuf_alloc_ok ifaddr
              groupaddr netif_list 0%nat ERR_VAL mem Hok)
    as (err & l' & mem' & evs & la & la' & lb & Hrun & Hl & Hl' & Hall & Hlb
        & Hback & _).
  { intros j g _. apply Hfresh. }
  { intros j k g _ _. apply Hinj. }
  exists err, l', mem', evs, la, la', lb. done.
Qed.
End IgmpJoinAllLoop.

(** * IGMP: from a running timer to the report *)

Section IgmpCountdown.
Import Igmp.
Context `{IgmpEnv}.

(** One call of [igmp_tmr]: the state stays well formed, and a listed
    group is ticked. *)
Lemma igmp_tmr_ticks netif pbuf_alloc_ok s group g :
  groups_ok s = true ->
  group ∈ netif_igmp_data s -> group_mem s !! group = Some g ->
  exists s' evs g' evs1,
    igmp_tmr netif pbuf_alloc_ok s = Some (s', evs)
    /\ groups_ok s' = true
    /\ netif_igmp_data s' = netif_igmp_data s
    /\ group_mem s' !! group = Some g'
    /\ ticked netif (pbuf_alloc_ok group) g g' evs1
    /\ (forall e, e ∈ evs1 -> e ∈ evs).
Proof.
  intros Hok Hin Hg.
  destruct (igmp_tmr_loop_effect netif pbuf_alloc_ok (netif_igmp_data s)
              (group_mem s)) as (mem' & evs & Hrun & Hin' & _).
  { by apply groups_ok_NoDup. }
  { intros g0. by apply groups_ok_lookup. }
  destruct (Hin' group g Hin Hg) as (g' & evs1 & Hg' & Htick & Hsub).
  unfold igmp_tmr. rewrite Hrun. cbn [mbind option_bind].
  eexists _, _, g', evs1. split; [reflexivity|].
  split; [|done]. apply groups_ok_intro; cbn [netif_igmp_data group_mem].
  - by apply groups_ok_NoDup.
  - intros g0 Hg0. destruct (groups_ok_lookup s g0 Hok Hg0) as [x Hx].
    destruct (Hin' g0 x Hg0 Hx) as (x' & _ & Hx' & _). eauto.
Qed.

(** While the timer of a delaying member has more ticks left than calls
    are made, the calls only count it down. *)
Lemma igmp_tmr_calls_countdown netif pbuf_alloc_ok s group g k :
  groups_ok s = true ->
  group ∈ netif_igmp_data s -> group_mem s !! group = Some g ->
  Z.of_nat k < timer g < 2 ^ 16 ->
  exists s' evss,
    igmp_tmr_calls netif pbuf_alloc_ok k s = Some (s', evss)
    /\ groups_ok s' = true
    /\ netif_igmp_data s' = netif_igmp_data s
    /\ group_mem s' !! group = Some (with_timer g (timer g - Z.of_nat k)).
Proof.
  intros Hok Hin Hg. induction k as [|k IH]; intros Ht.
  - exists s, []. split; [done|]. split; [done|]. split; [done|].
    rewrite Hg. f_equal. destruct g. unfold with_timer. cbn. f_equal. lia.
  - destruct IH as (s1 & evss & Hrun & Hok1 & Hl1 & Hg1); [lia|].
    cbn [igmp_tmr_calls]. rewrite Hrun. cbn [mbind option_bind].
    destruct (igmp_tmr_ticks netif pbuf_alloc_ok s1 group _ Hok1
                ltac:(by rewrite Hl1) Hg1)
      as (s2 & evs & g' & evs1 & Htmr & Hok2 & Hl2 & Hg2 & Htick & _).
    rewrite Htmr. cbn [mbind option_bind].
    eexists _, _. split; [reflexivity|]. split; [done|].
    split; [congruence|]. rewrite Hg2. f_equal.
    destruct Htick as (Haddr & Huse & Htimer & Hquiet & _).
    cbn [timer with_timer group_address use group_state
         last_reporter_flag] in *.
    assert (Hnot : report_due (with_timer g (timer g - Z.of_nat k)) = false).
    { unfold report_due. cbn [timer with_timer].
      destruct (Z.gtb_spec (timer g - Z.of_nat k) 0) as [_|?]; [|lia].
      unfold u16. rewrite Z.mod_small by lia.
      destruct (Z.eqb_spec (timer g - Z.of_nat k - 1) 0) as [?|_]; [lia|].
      done. }
    destruct (Hquiet Hnot) as (Hstate & Hflag & _).
    destruct (Z.gtb_spec (timer g - Z.of_nat k) 0) as [_|?]; [|lia].
    unfold u16 in Htimer. rewrite Z.mod_small in Htimer by lia.
    destruct g'. unfold with_timer. cbn in *. subst. f_equal. lia.
Qed.

(** The call of [igmp_tmr] that finds one tick left on the timer of a
    delaying member other than 224.0.0.1. *)
Lemma igmp_tmr_last_tick netif pbuf_alloc_ok s group g :
  groups_ok s = true ->
  group ∈ netif_igmp_data s -> group_mem s !! group = Some g ->
  group_state g = IGMP_GROUP_DELAYING_MEMBER ->
  ip4_addr_cmp (group_address g) allsystems = false ->
  timer g = 1 ->
  exists s' evs g',
    igmp_tmr netif pbuf_alloc_ok s = Some (s', evs)
    /\ group_mem s' !! group = Some g'
    /\ timer g' = 0
    /\ group_state g' = IGMP_GROUP_IDLE_MEMBER
    /\ group_address g' = group_address g
    /\ use g' = use g
    /\ last_reporter_flag g'
       = (if pbuf_alloc_ok group then 1 else last_reporter_flag g)
    /\ (pbuf_alloc_ok group = true ->
        IpOutput (get_net_ifc_ip4_addr netif) (group_address g)
                 (report_for (group_address g)) ∈ evs).
Proof.
  intros Hok Hin Hg Hstate Hother Ht.
  destruct (igmp_tmr_ticks netif pbuf_alloc_ok s group g Hok Hin Hg)
    as (s2 & evs & g' & evs1 & Htmr & _ & _ & Hg2 & Htick & Hsub).
  exists s2, evs, g'. split; [done|]. split; [done|].
  destruct Htick as (Haddr & Huse & Htimer & _ & Hdue).
  assert (Hrd : report_due g = true).
  { unfold report_due. rewrite Ht, Hother.
    by rewrite bool_decide_eq_true_2 by done. }
  destruct (Hdue Hrd) as (Hst & Hflag & Hevs).
  rewrite Ht in Htimer. split; [done|]. split; [done|]. split; [done|].
  split; [done|]. split; [done|]. intros Halloc. apply Hsub.
  rewrite Hevs, Halloc. by left.
Qed.

(** A delaying member reports when its timer has run out.  Let the
    timer of a listed group other than 224.0.0.1 hold [timer g] ticks, the
    group being a delaying member.  If nothing else happens, then after
    any smaller number of calls of [igmp_tmr] the group is as it was but
    for the timer, which has been counted down; and the call that takes the
    timer to 0 makes the group an idle member and sends its report to the
    group address, provided a buffer is there, which makes the interface
    the last reporter. *)
Theorem igmp_tmr_report_when_due (netif : NetIfc)
        (pbuf_alloc_ok : group_ptr -> bool) (s : IgmpState)
        (group : group_ptr) (g : IgmpGroup) :
  groups_ok s = true ->
  group ∈ netif_igmp_data s ->
  group_mem s !! group = Some g ->
  group_state g = IGMP_GROUP_DELAYING_MEMBER ->
  ip4_addr_cmp (group_address g) allsystems = false ->
  1 <= timer g < 2 ^ 16 ->
  (forall k, Z.of_nat k < timer g ->
     exists s' evss,
       igmp_tmr_calls netif pbuf_alloc_ok k s = Some (s', evss)
       /\ group_mem s' !! group
          = Some (with_timer g (timer g - Z.of_nat k)))
  /\ exists s' evss evs g',
       igmp_tmr_calls netif pbuf_alloc_ok (Z.to_nat (timer g)) s
       = Some (s', evss ++ [evs])
       /\ group_mem s' !! group = Some g'
       /\ timer g' = 0
       /\ group_state g' = IGMP_GROUP_IDLE_MEMBER
       /\ group_address g' = group_address g
       /\ use g' = use g
       /\ last_reporter_flag g'
          = (if pbuf_alloc_ok group then 1 else last_reporter_flag g)
       /\ (pbuf_alloc_ok group = true ->
           IpOutput (get_net_ifc_ip4_addr netif) (group_address g)
                    (report_for (group_address g)) ∈ evs).
Proof.
  intros Hok Hin Hg Hstate Hother Ht. split.
  - intros k Hk.
    destruct (igmp_tmr_calls_countdown netif pbuf_alloc_ok s group g k Hok
                Hin Hg ltac:(lia)) as (s' & evss & Hrun & _ & _ & Hg').
    by exists s', evss.
  - destruct (Z.to_nat (timer g)) as [|k] eqn:Hk; [lia|].
    destruct (igmp_tmr_calls_countdown netif pbuf_alloc_ok s group g k Hok
                Hin Hg ltac:(lia)) as (s1 & evss & Hrun & Hok1 & Hl1 & Hg1).
    cbn [igmp_tmr_calls]. rewrite Hrun. cbn [mbind option_bind].
    destruct (igmp_tmr_last_tick netif pbuf_alloc_ok s1 group _ Hok1
                ltac:(by rewrite Hl1) Hg1 Hstate Hother)
      as (s2 & evs & g' & Htmr & Hg2 & Htimer & Hst & Haddr & Huse & Hflag
          & Hsent).
    { cbn [timer with_timer]. lia. }
    rewrite Htmr. cbn [mbind option_bind].
    exists s2, evss, evs, g'. done.
Qed.
End IgmpCountdown.

Section IgmpQueryAnswered.
Import Igmp.
Context `{IgmpEnv}.

(** What [igmp_delaying_member] makes of a member for a bound of at least
    one tick: a delaying member whose timer runs, with no more ticks than
    the bound. *)
Lemma igmp_delaying_member_bound lwip_rand g maxresp :
  group_state g <> IGMP_GROUP_NON_MEMBER ->
  0 <= timer g < 2 ^ 16 ->
  1 <= maxresp < 2 ^ 8 ->
  let g' := igmp_delaying_member lwip_rand g maxresp in
  group_state g' = IGMP_GROUP_DELAYING_MEMBER
  /\ 1 <= timer g' <= maxresp
  /\ group_address g' = group_address g.
Proof.
  intros Hstate Ht Hm. cbv zeta. unfold igmp_delaying_member.
  assert (Hstart : 1 <= timer (igmp_start_timer lwip_rand g maxresp)
                   <= maxresp).
  { rewrite igmp_start_timer_value by lia. destruct lwip_rand as [r|].
    - destruct (Z.gtb_spec maxresp 2) as [Hgt|Hle]; [|lia].
      pose proof (Z.mod_pos_bound (u32 r) maxresp ltac:(lia)). lia.
    - assert (maxresp / 2 <= maxresp)
        by (apply Z.div_le_upper_bound; lia).
      assert (0 <= maxresp / 2) by (apply Z.div_pos; lia). lia. }
  destruct (group_state g) eqn:Hst; [done| |].
  - rewrite (bool_decide_eq_false_2 (_ = IGMP_GROUP_IDLE_MEMBER)) by done.
    rewrite (bool_decide_eq_true_2 (_ = IGMP_GROUP_DELAYING_MEMBER)) by done.
    cbn [orb andb].
    destruct (Z.eqb_spec (timer g) 0) as [Hz|Hnz]; cbn [orb].
    + done.
    + destruct (Z.ltb_spec maxresp (timer g)) as [Hlt|Hge]; [done|].
      split; [done|]. split; [lia|done].
  - rewrite (bool_decide_eq_true_2 (_ = IGMP_GROUP_IDLE_MEMBER)) by done.
    cbn [orb]. done.
Qed.

(** Every membership is reported within the maximum response time of a
    general query.  After a general query whose maximum response time (or
    the version 1 default that stands in for 0) is at least one tick, a
    group behind the first one that is a member has a number of ticks
    between 1 and that time on its timer; if nothing else happens, the
    call of [igmp_tmr] with that number makes it an idle member again and
    sends its report to the group address, provided a buffer is there. *)
Theorem igmp_general_query_answered (lwip_rand : RandSource)
        (netif : NetIfc) (pbuf_alloc_ok : group_ptr -> bool)
        (p : PacketBuffer) (s : IgmpState) (group : group_ptr)
        (g : IgmpGroup) :
  groups_ok s = true ->
  allsystems_first s ->
  kIgmpMinlen <= p_len p ->
  inet_chksum (payload p) (p_len p) = 0 ->
  igmp_msgtype (payload p) = IGMP_MEMB_QUERY ->
  ip4_addr_isany (igmp_group_address (payload p)) = true ->
  let maxresp := if igmp_maxresp (payload p) =? 0
                 then u8 IGMP_V1_DELAYING_MEMBER_TMR
                 else igmp_maxresp (payload p) in
  1 <= maxresp < 2 ^ 8 ->
  group ∈ tail (netif_igmp_data s) ->
  group_mem s !! group = Some g ->
  group_state g <> IGMP_GROUP_NON_MEMBER ->
  ip4_addr_cmp (group_address g) allsystems = false ->
  0 <= timer g < 2 ^ 16 ->
  exists s1 t s2 evss evs g',
    igmp_input lwip_rand p allsystems s = Some (s1, [PbufFree buf_in])
    /\ 1 <= t <= maxresp
    /\ igmp_tmr_calls netif pbuf_alloc_ok (Z.to_nat t) s1
       = Some (s2, evss ++ [evs])
    /\ group_mem s2 !! group = Some g'
    /\ group_state g' = IGMP_GROUP_IDLE_MEMBER
    /\ timer g' = 0
    /\ (pbuf_alloc_ok group = true ->
        IpOutput (get_net_ifc_ip4_addr netif) (group_address g)
                 (report_for (group_address g)) ∈ evs).
Proof.
  intros Hok Hinv Hlen Hsum Hq Hany maxresp Hm Hin Hg Hstate Hother Ht.
  pose proof (groups_ok_NoDup s Hok) as Hnd.
  destruct Hinv as (head & rest & g0 & Hlist & Hg0 & Haddr0 & _).
  destruct (igmp_delaying_members_effect lwip_rand maxresp
              (tail (netif_igmp_data s)) (group_mem s))
    as (mem' & Hrun & Hin' & Hout).
  { rewrite Hlist in *. by apply NoDup_cons in Hnd as [_ ?]. }
  { intros g1 Hg1. apply groups_ok_lookup; [done|]. rewrite Hlist in *.
    by right. }
  assert (Hinput : igmp_input lwip_rand p allsystems s
                   = Some (mkIgmpState (netif_igmp_data s) mem',
                           [PbufFree buf_in])).
  { unfold igmp_input.
    destruct (Z.ltb_spec (p_len p) kIgmpMinlen) as [?|_]; [lia|].
    rewrite Hsum. change (negb (0 =? 0)) with false. cbn iota.
    rewrite (igmp_lookfor_allsystems s head rest g0) by done.
    cbn [mbind option_bind].
    rewrite Hq, Z.eqb_refl, Hany, ip4_addr_cmp_refl.
    cbn [andb]. fold maxresp. rewrite Hrun. done. }
  set (g1 := igmp_delaying_member (rand_for lwip_rand group) g maxresp).
  pose proof (Hin' group g Hin Hg) as Hg1. fold g1 in Hg1.
  destruct (igmp_delaying_member_bound (rand_for lwip_rand group) g maxresp
              Hstate Ht Hm) as (Hst1 & Ht1 & Haddr1).
  fold g1 in Hst1, Ht1, Haddr1.
  set (s1 := mkIgmpState (netif_igmp_data s) mem').
  assert (Hok1 : groups_ok s1 = true).
  { apply groups_ok_intro; [done|]. intros x Hx. cbn [group_mem s1].
    cbn [netif_igmp_data s1] in Hx.
    destruct (groups_ok_lookup s x Hok Hx) as [gx Hgx].
    destruct (decide (x ∈ tail (netif_igmp_data s))) as [Htl|Htl].
    - rewrite (Hin' x gx Htl Hgx). eauto.
    - rewrite (Hout x Htl). eauto. }
  assert (Hin1 : group ∈ netif_igmp_data s1).
  { cbn [netif_igmp_data s1]. rewrite Hlist in *. by right. }
  assert (Hk : exists k, Z.to_nat (timer g1) = S k /\ Z.of_nat k = timer g1 - 1).
  { exists (Z.to_nat (timer g1 - 1)). split; lia. }
  destruct Hk as (k & Hk & Hk').
  destruct (igmp_tmr_calls_countdown netif pbuf_alloc_ok s1 group g1 k Hok1
              Hin1 Hg1 ltac:(lia)) as (s2 & evss & Hcalls & Hok2 & Hl2 & Hg2).
  destruct (igmp_tmr_last_tick netif pbuf_alloc_ok s2 group _ Hok2
              ltac:(by rewrite Hl2) Hg2 Hst1)
    as (s3 & evs & g' & Htmr & Hg3 & Htimer & Hst & Haddr & _ & _ & Hsent).
  { cbn [group_address with_timer]. by rewrite Haddr1. }
  { cbn [timer with_timer]. lia. }
  exists s1, (timer g1), s3, evss, evs, g'.
  split; [done|]. split; [done|]. split.
  { rewrite Hk. cbn [igmp_tmr_calls]. rewrite Hcalls.
    cbn [mbind option_bind]. rewrite Htmr. done. }
  split; [done|]. split; [done|]. split; [done|].
  intros Halloc. specialize (Hsent Halloc).
  cbn [group_address with_timer] in Hsent. by rewrite Haddr1 in Hsent.
Qed.
End IgmpQueryAnswered.

(** * The IGMP properties on the interface of the scenarios *)

(** IGMP is stopped on the interface [igmp_joined]. *)
Lemma igmp_stop_result_witness :
  groups_ok Scenarios.igmp_joined = true
  /\ exists s' evs,
      Igmp.igmp_stop Scenarios.igmp_if Scenarios.igmp_joined
      = Some (ERR_OK, s', evs)
      /\ Igmp.netif_igmp_data s' = [].
Proof.
  assert (Hok : groups_ok Scenarios.igmp_joined = true) by reflexivity.
  split; [exact Hok|].
  destruct (igmp_stop_result Scenarios.igmp_if Scenarios.igmp_joined Hok)
    as (s' & evs & Hrun & Hl & _).
  exists s', evs. split; [exact Hrun|exact Hl].
Defined.

(** The memberships of [igmp_joined] are reported again. *)
Lemma igmp_report_groups_effect_witness :
  groups_ok Scenarios.igmp_joined = true
  /\ exists mem',
      Igmp.igmp_report_groups (Some (fun _ => 12345)) Scenarios.igmp_joined
      = Some (Igmp.mkIgmpState [1; 2]%positive mem').
Proof.
  assert (Hok : groups_ok Scenarios.igmp_joined = true) by reflexivity.
  split; [exact Hok|].
  destruct (igmp_report_groups_effect (Some (fun _ => 12345))
              Scenarios.igmp_joined Hok) as (mem' & Hrun & _).
  exists mem'. exact Hrun.
Defined.

(** A packet of four bytes is dropped. *)
Lemma igmp_input_ignored_witness :
  Igmp.igmp_input None Scenarios.runt_query Igmp.allsystems
                  Scenarios.igmp_joined
  = Some (Scenarios.igmp_joined, [Igmp.PbufFree Igmp.buf_in]).
Proof.
  apply igmp_input_ignored; [reflexivity|].
  left. unfold Igmp.kIgmpMinlen. simpl. lia.
Defined.

(** Another host reports 239.1.1.1 while [igmp_joined] is delaying its
    own report. *)
Lemma igmp_input_report_heard_witness :
  exists g',
    Igmp.igmp_input None Scenarios.report_239 Scenarios.group_239
                    Scenarios.igmp_joined
    = Some (Igmp.mkIgmpState [1; 2]%positive
              (<[2%positive := g']> (Igmp.group_mem Scenarios.igmp_joined)),
            [Igmp.PbufFree Igmp.buf_in])
    /\ Igmp.timer g' = 0
    /\ Igmp.group_state g' = Igmp.IGMP_GROUP_IDLE_MEMBER.
Proof.
  destruct (igmp_input_report_heard None Scenarios.report_239
              Scenarios.group_239 Scenarios.igmp_joined 2%positive
              (Igmp.mkIgmpGroup Scenarios.group_239 1
                 Igmp.IGMP_GROUP_DELAYING_MEMBER 3 1))
    as (g' & Hrun & Ht & Hs & _).
  - unfold Igmp.kIgmpMinlen. simpl. lia.
  - reflexivity.
  - reflexivity.
  - reflexivity.
  - reflexivity.
  - reflexivity.
  - exists g'. split; [exact Hrun|]. split; [exact Ht|exact Hs].
Defined.

(** The general query [general_query] arrives on [igmp_joined]. *)
Lemma igmp_input_general_query_witness :
  exists mem',
    Igmp.igmp_input (Some (fun _ => 12345)) Scenarios.general_query
                    Igmp.allsystems Scenarios.igmp_joined
    = Some (Igmp.mkIgmpState [1; 2]%positive mem',
            [Igmp.PbufFree Igmp.buf_in]).
Proof.
  destruct (igmp_input_general_query (Some (fun _ => 12345))
              Scenarios.general_query Scenarios.igmp_joined)
    as (mem' & Hrun & _).
  - reflexivity.
  - exists 1%positive, [2%positive],
      (Igmp.mkIgmpGroup Igmp.allsystems 0 Igmp.IGMP_GROUP_IDLE_MEMBER 0 1).
    split; [reflexivity|]. split; [reflexivity|]. split; [reflexivity|].
    simpl. lia.
  - unfold Igmp.kIgmpMinlen. simpl. lia.
  - reflexivity.
  - reflexivity.
  - reflexivity.
  - exists mem'. exact Hrun.
Defined.

(** A query for 239.1.1.1, sent to 224.0.0.1, arrives on [igmp_joined]:
    the group found for the destination is the first, the one that answers
    is the second. *)
Lemma igmp_input_group_query_witness :
  exists s',
    Igmp.igmp_input None Scenarios.group_query_239 Igmp.allsystems
                    Scenarios.igmp_joined
    = Some (s', [Igmp.PbufFree Igmp.buf_in])
    /\ 2%positive ∈ Igmp.netif_igmp_data Scenarios.igmp_joined.
Proof.
  destruct (igmp_input_group_query None Scenarios.group_query_239
              Igmp.allsystems Scenarios.igmp_joined 1%positive
              (Some 2%positive)) as [Hrun Hin].
  - reflexivity.
  - unfold Igmp.kIgmpMinlen. simpl. lia.
  - reflexivity.
  - reflexivity.
  - reflexivity.
  - reflexivity.
  - reflexivity.
  - eexists. split; [exact Hrun|]. exact (proj1 (Hin 2%positive eq_refl)).
Defined.

(** One tick on [igmp_joined], where a buffer is there for every
    report. *)
Lemma igmp_tmr_effect_witness :
  groups_ok Scenarios.igmp_joined = true
  /\ exists mem' evs,
      Igmp.igmp_tmr Scenarios.igmp_if (fun _ => true) Scenarios.igmp_joined
      = Some (Igmp.mkIgmpState [1; 2]%positive mem', evs).
Proof.
  assert (Hok : groups_ok Scenarios.igmp_joined = true) by reflexivity.
  split; [exact Hok|].
  destruct (igmp_tmr_effect Scenarios.igmp_if (fun _ => true)
              Scenarios.igmp_joined Hok) as (mem' & evs & Hrun & _).
  exists mem', evs. exact Hrun.
Defined.

(** The started interface joins 239.1.1.1; the structure of the group is
    allocated at address 2. *)
Lemma igmp_joingroup_netif_new_witness :
  exists g' s',
    Igmp.igmp_joingroup_netif None Scenarios.igmp_if (Some 2%positive) true
                              Scenarios.group_239 Scenarios.igmp_started
    = Some (ERR_OK, s',
            [Igmp.MacFilter Scenarios.group_239 Igmp.NETIF_ADD_MAC_FILTER;
             Igmp.IpOutput (Ipv4AddrFromBytes 192 0 2 3) Scenarios.group_239
                           (report_for Scenarios.group_239);
             Igmp.PbufFree Igmp.buf_out])
    /\ Igmp.netif_igmp_data s' = [1; 2]%positive
    /\ Igmp.group_mem s'
       = <[2%positive := g']> (Igmp.group_mem Scenarios.igmp_started)
    /\ Igmp.use g' = 1.
Proof.
  destruct (igmp_joingroup_netif_new None Scenarios.igmp_if (Some 2%positive)
              true Scenarios.group_239 Scenarios.igmp_started)
    as (g' & s' & Hrun & Hl & Hm & _ & Hu & _).
  - reflexivity.
  - reflexivity.
  - intros group [= <-]. reflexivity.
  - exists g', s'. split; [exact Hrun|]. split; [exact Hl|].
    split; [exact Hm|exact Hu].
Defined.

(** The started interface joins 239.1.1.1 and leaves it again. *)
Lemma igmp_join_then_leave_witness :
  exists s1 evs1,
    Igmp.igmp_joingroup_netif None Scenarios.igmp_if (Some 2%positive) true
                              Scenarios.group_239 Scenarios.igmp_started
    = Some (ERR_OK, s1, evs1)
    /\ Igmp.igmp_leavegroup_netif Scenarios.igmp_if true Scenarios.group_239
                                  s1
       = Some (ERR_OK, Scenarios.igmp_started,
               [Igmp.IpOutput (Ipv4AddrFromBytes 192 0 2 3) Igmp.allrouters
                              (leave_for Scenarios.group_239);
                Igmp.PbufFree Igmp.buf_out;
                Igmp.MacFilter Scenarios.group_239 Igmp.NETIF_DEL_MAC_FILTER]).
Proof.
  apply (igmp_join_then_leave None Scenarios.igmp_if 2%positive true true
           Scenarios.group_239 Scenarios.igmp_started).
  - reflexivity.
  - discriminate.
  - reflexivity.
  - reflexivity.
Defined.

(** [igmp_joined] joins 239.1.1.1 a second time and leaves it once. *)
Lemma igmp_join_again_then_leave_witness :
  exists s1,
    Igmp.igmp_joingroup_netif None Scenarios.igmp_if None false
                              Scenarios.group_239 Scenarios.igmp_joined
    = Some (ERR_OK, s1, [])
    /\ Igmp.igmp_leavegroup_netif Scenarios.igmp_if false Scenarios.group_239
                                  s1
       = Some (ERR_OK, Scenarios.igmp_joined, []).
Proof.
  destruct (igmp_join_again_then_leave None Scenarios.igmp_if None false
              false Scenarios.group_239 Scenarios.igmp_joined 2%positive
              (Igmp.mkIgmpGroup Scenarios.group_239 1
                 Igmp.IGMP_GROUP_DELAYING_MEMBER 3 1))
    as [Hjoin Hleave].
  - reflexivity.
  - reflexivity.
  - discriminate.
  - eexists. split; [exact Hjoin|]. apply Hleave. simpl. lia.
Defined.

(** A Success packet with a message behind the response, for a response
    length of 40. *)
Lemma chapms2_check_success_accepts_witness :
  exists r,
    ChapMs.chapms2_check_success 40 Scenarios.success_packet 47
                                 Scenarios.auth_response = Some r
    /\ (r = 0 \/ r = 1).
Proof.
  destruct (chapms2_check_success_accepts 40 Scenarios.success_packet 47
              Scenarios.auth_response) as (r & Hrun & Hr & _).
  - lia.
  - simpl. lia.
  - simpl. lia.
  - exists r. split; [exact Hrun|exact Hr].
Defined.

(** The packet of the witness is accepted; with another response
    expected it is not. *)
Example chapms2_check_success_run :
  ChapMs.chapms2_check_success 40 Scenarios.success_packet 47
                               Scenarios.auth_response = Some 1
  /\ ChapMs.chapms2_check_success 40 Scenarios.success_packet 47
       (list_byte_of_string "0123456789ABCDEF0123456789ABCDEF0123456X")
     = Some 0.
Proof. split; reflexivity. Qed.

(** 239.1.1.1 is left on all interfaces of [two_netifs]: the first is a
    member with a use count of 1, so its group is deleted and its MAC
    filter removed; the second is not a member. *)
Lemma igmp_leavegroup_result_witness :
  exists l' mem' evs,
    Igmp.igmp_leavegroup (fun _ => true) (mkIp4Addr 0) Scenarios.group_239
                         Scenarios.two_netifs Scenarios.two_netifs_mem
    = Some (ERR_OK, l', mem', evs)
    /\ mem' !! 2%positive = None
    /\ (0%nat, Igmp.MacFilter Scenarios.group_239 Igmp.NETIF_DEL_MAC_FILTER)
       ∈ evs.
Proof.
  destruct (igmp_leavegroup_result (fun _ => true) (mkIp4Addr 0)
              Scenarios.group_239 Scenarios.two_netifs
              Scenarios.two_netifs_mem eq_refl)
    as (err & l' & mem' & evs & Hrun & Hiff & _ & Heach & _).
  assert (Herr : err = ERR_OK).
  { apply Hiff.
    exists (Igmp.mkIgmpNetif true Scenarios.igmp_if [1; 2]%positive).
    split; [by left|]. split; reflexivity. }
  destruct (Heach 0%nat (Igmp.mkIgmpNetif true Scenarios.igmp_if
                           [1; 2]%positive) eq_refl eq_refl)
    as (n' & evs1 & _ & Hleft & Hsub).
  destruct Hleft as (g & Hg & _ & _ & _ & Hcase).
  injection Hg as <-.
  destruct Hcase as (Hgone & _ & _ & Hevs).
  exists l', mem', evs. rewrite <- Herr. split; [exact Hrun|].
  split; [exact Hgone|]. apply Hsub. rewrite Hevs.
  apply elem_of_cons. right. apply elem_of_cons. right.
  apply elem_of_cons. by left.
Defined.

(** 239.1.1.1 is joined on all interfaces of [two_netifs]. *)
Lemma igmp_joingroup_result_witness :
  exists err l' mem' evs,
    Igmp.igmp_joingroup None Scenarios.one_more_group (fun _ => true)
                        (mkIp4Addr 0) Scenarios.group_239
                        Scenarios.two_netifs Scenarios.two_netifs_mem
    = Some (err, l', mem', evs).
Proof.
  destruct (igmp_joingroup_result None Scenarios.one_more_group
              (fun _ => true) (mkIp4Addr 0) Scenarios.group_239
              Scenarios.two_netifs Scenarios.two_netifs_mem eq_refl)
    as (err & l' & mem' & evs & _ & _ & _ & Hrun & _).
  - intros j g. destruct j as [|[|j]]; simpl; intros Hnew;
      [discriminate| |discriminate].
    injection Hnew as <-. reflexivity.
  - intros j k g. destruct j as [|[|j]], k as [|[|k]]; simpl; intros Hj Hk;
      try discriminate. reflexivity.
  - exists err, l', mem', evs. exact Hrun.
Defined.

(** The join of the witness succeeds on both interfaces, the second of
    which gets the group at address 4; a join for which the allocator has
    nothing stops at the second interface with ERR_MEM. *)
Example igmp_joingroup_run :
  (fun r => match r with
            | Some (err, l', _, _) => Some (err, Igmp.nif_groups <$> l')
            | None => None
            end)
    (Igmp.igmp_joingroup None Scenarios.one_more_group (fun _ => true)
                         (mkIp4Addr 0) Scenarios.group_239
                         Scenarios.two_netifs Scenarios.two_netifs_mem)
  = Some (ERR_OK, [[1; 2]; [3; 4]]%positive)
  /\ (fun r => match r with
               | Some (err, l', _, _) => Some (err, Igmp.nif_groups <$> l')
               | None => None
               end)
       (Igmp.igmp_joingroup None (fun _ => None) (fun _ => true)
                            (mkIp4Addr 0) Scenarios.group_239
                            Scenarios.two_netifs Scenarios.two_netifs_mem)
     = Some (ERR_MEM, [[1; 2]; [3]]%positive).
Proof. split; reflexivity. Qed.

(** The report of 239.1.1.1 on [igmp_joined], whose timer holds 3 ticks,
    goes out with the third call of [igmp_tmr]. *)
Lemma igmp_tmr_report_when_due_witness :
  exists s' evss evs,
    igmp_tmr_calls Scenarios.igmp_if (fun _ => true) 3 Scenarios.igmp_joined
    = Some (s', evss ++ [evs])
    /\ Igmp.IpOutput (Ipv4AddrFromBytes 192 0 2 3) Scenarios.group_239
                     (report_for Scenarios.group_239) ∈ evs.
Proof.
  destruct (igmp_tmr_report_when_due Scenarios.igmp_if (fun _ => true)
              Scenarios.igmp_joined 2%positive
              (Igmp.mkIgmpGroup Scenarios.group_239 1
                 Igmp.IGMP_GROUP_DELAYING_MEMBER 3 1))
    as [_ (s' & evss & evs & g' & Hrun & _ & _ & _ & _ & _ & _ & Hsent)].
  - reflexivity.
  - apply elem_of_cons. right. apply elem_of_cons. by left.
  - reflexivity.
  - reflexivity.
  - reflexivity.
  - simpl. lia.
  - exists s', evss, evs. split; [exact Hrun|]. apply Hsent. reflexivity.
Defined.

(** The general query [general_query], with a maximum response time of
    20 ticks, is answered for 239.1.1.1 on [igmp_joined]. *)
Lemma igmp_general_query_answered_witness :
  exists s1 t s2 evss evs,
    Igmp.igmp_input None Scenarios.general_query Igmp.allsystems
                    Scenarios.igmp_joined
    = Some (s1, [Igmp.PbufFree Igmp.buf_in])
    /\ 1 <= t <= 20
    /\ igmp_tmr_calls Scenarios.igmp_if (fun _ => true) (Z.to_nat t) s1
       = Some (s2, evss ++ [evs])
    /\ Igmp.IpOutput (Ipv4AddrFromBytes 192 0 2 3) Scenarios.group_239
                     (report_for Scenarios.group_239) ∈ evs.
Proof.
  destruct (igmp_general_query_answered None Scenarios.igmp_if
              (fun _ => true) Scenarios.general_query Scenarios.igmp_joined
              2%positive
              (Igmp.mkIgmpGroup Scenarios.group_239 1
                 Igmp.IGMP_GROUP_DELAYING_MEMBER 3 1))
    as (s1 & t & s2 & evss & evs & g' & Hin & Ht & Hrun & _ & _ & _ & Hsent).
  - reflexivity.
  - exists 1%positive, [2%positive],
      (Igmp.mkIgmpGroup Igmp.allsystems 0 Igmp.IGMP_GROUP_IDLE_MEMBER 0 1).
    split; [reflexivity|]. split; [reflexivity|]. split; [reflexivity|].
    simpl. lia.
  - unfold Igmp.kIgmpMinlen. simpl. lia.
  - reflexivity.
  - reflexivity.
  - reflexivity.
  - simpl. lia.
  - apply elem_of_cons. by left.
  - reflexivity.
  - discriminate.
  - reflexivity.
  - simpl. lia.
  - exists s1, t, s2, evss, evs. split; [exact Hin|]. split; [exact Ht|].
    split; [exact Hrun|]. apply Hsent. reflexivity.
Defined.
